(* ===== verification/_CoqProject ===== *)
-Q . S2P
Prelude.v
Protocol.v
Crypto.v
GoStrings.v
Text.v
Json.v
Http.v
Base64.v
Authn.v
AuthnProps.v
Ws.v
Filepath.v
FileSystem.v
PathPolicy.v
Store.v
StoreProps.v
AuditWriter.v
Ring.v
ProcessMgr.v
ProcessProps.v
WsProps.v
SearchMgr.v
SearchProps.v
FileOps.v
Executor.v
FileProps.v
ExecutorProps.v
ToolClaims.v
RelayHub.v
RelayProps.v
RelayLive.v
OsProc.v
Tools.v
Effects.v
Limiter.v
ControlPlane.v
ControlPlaneProps.v
Mcp.v
McpProps.v
ToolsProps.v
ToolsDemo.v
ControlPlaneDemo.v
Config.v
OrcServer.v
OrcServerProps.v
WsHandshake.v
WsHandshakeProps.v
OrcAgent.v
OrcAgentProps.v
Parser.v
GoTime.v
Sql.v
Neon.v
NeonDb.v
NeonProps.v
NeonMemory.v
NeonClaims.v
NeonDemo.v
Struct.v
ApiTypes.v
ToolJson.v
Schema.v
SchemaProps.v
ApiProps.v
ApiDemo.v
AgentRun.v
AgentFiles.v
AgentFilesProps.v
AgentDemo.v
Token.v
Mux.v
Service.v
ServiceProps.v
ServiceDemo.v
Wire.v
