(* ===== verification/Prelude.v ===== *)
(** * Open Remote Commander: a verification library

    Open Remote Commander lets an MCP client run file, process and search
    tools on paired computers.  A server (src/cmd/orc-server) authenticates
    the client, checks that the device is the client's own, and relays the call
    over a websocket to an agent (src/cmd/orc-agent) on the device; the agent
    runs the tool below the directories its owner allowed and answers over the
    same connection.  Devices are paired through a code that a signed-in user
    approves.

    ** How the program is modelled

    Code is translated into executable definitions that keep the names of the
    source.  A Go [error] is a value of [error], a fallible function returns
    [result]; a Go panic is [None].  Times and durations are nanoseconds in [Z]; byte
    slices are [list byte]; a map is a [gmap].  A method that runs under a
    mutex is one function from the state to an answer and a new state.
    Concurrent components are transition systems: [exec a s] performs one
    atomic action (one critical section, one channel operation), [None] when
    it is not enabled, and [run] follows a schedule (Prelude.v,
    [transition_system]).  What the operating system, a clock, the random
    source or a third party answers is an argument.

    ** The files, in dependency order

    Foundations.
    - Prelude: bytes, 64-bit wrap-around, errors, [result], times, lists,
      stable sorting, sums over maps, executable transition systems,
      [case_guards].
    - Crypto: SHA-256, HMAC-SHA-256, hexadecimal, big-endian integers, as the
      source uses them; computed on the published test vectors.
    - GoStrings, Text, Base64: the parts of packages strings, bytes,
      unicode/utf8, strconv and encoding/base64 that the program calls.
    - Json: JSON values and how encoding/json stores them in structs, maps and
      variables of type any.
    - Http: what handlers read of a request, header names, SplitHostPort, and
      BearerToken of src/internal/authn/authn.go.
    - Filepath: the Unix part of path/filepath (Clean, Join, Rel, Dir, Abs).
    - FileSystem: a file system with symbolic links as a finite map from
      canonical element lists to nodes, [namei] with the kernel's limit of 40
      links, Lstat, Stat, EvalSymlinks.

    Components.
    - Protocol: src/internal/protocol/frame.go.
    - Store: src/internal/store/store.go and memory.go, one definition per
      method of [Memory].  StoreProps proves that the store refines an abstract
      pairing protocol (Pending, Approved, Issued; a device is live or
      revoked), that a code is consumed once, that revocation is final and
      that tenants do not see or change each other's devices.
    - AuditWriter: src/internal/audit/writer.go, over any [AuditSink].  The
      queue is a FIFO, and Close flushes what was accepted.
    - Ring, ProcessMgr, ProcessProps: src/internal/processmgr/manager.go.  The
      ring keeps the newest bytes of the output; reading with the returned
      cursors has no gaps; the number of running processes is bounded and
      every slot is freed.
    - SearchMgr, SearchProps: src/internal/searchmgr/manager.go.  Results are
      real matches, each is returned once and in order, searches are bounded.
    - PathPolicy: src/internal/pathpolicy/pathpolicy.go.  What resolution accepts
      lies below a root after all symbolic links have been followed.
    - FileOps, Executor, FileProps, ExecutorProps, ToolClaims: the file tools of
      src/internal/executor/executor.go in a monad in which every system call
      may fail.  A tool changes nothing outside the roots in any outcome,
      write_file is atomic, edit_block replaces exactly the announced
      occurrences, move_file moves exactly the tree.
    - Ws, WsProps: the frames of src/internal/ws/ws.go.  The reader accepts exactly the
      images of allowed frames and the frame sequences of one message, ends on
      every input, and reads back what the writer wrote.
    - RelayHub, RelayProps, RelayLive: src/internal/relay/hub.go, every
      goroutine a state machine over the shared maps and channels.  Replies
      reach the call they answer, calls in flight are bounded, closing wakes
      every caller.
    - Authn, AuthnProps: src/internal/authn/authn.go and trusted.go.  The HMAC
      verifier accepts exactly the tokens signed under its secret that are in
      force; what the introspection verifier answers from its cache is fresh in
      every interleaving; loopback trust decides as it says.
    - OsProc, Tools, ToolsProps, ToolsDemo: src/internal/osproc/processes.go, the
      dispatch table and the process, search and host tools of executor.go,
      and how src/cmd/orc-agent/main.go answers a frame.  Server and agent agree
      on the tools, the published annotations are true, every call is answered,
      and the client gets what the tool returned.
    - Effects: the handlers of the server as programs over the calls of their
      interfaces (verifier, store, hub, audit writer, limiter, random source,
      clock), with the traces of such programs ([follows]), the rule for calls
      that are made only when justified ([guarded]), and running them against
      implementations ([run_prog]).
    - Mcp, McpProps: src/internal/mcpserver/server.go.  A device is reached only
      with authority, every relayed call is audited, replies fit requests, the
      table of tools is sound.
    - ControlPlane, ControlPlaneProps, ControlPlaneDemo:
      src/internal/controlplane/http.go.  Every handler acts only with
      authority, and over the store of Store.v pairing issues credentials that
      work, once.
    - Limiter: src/internal/controlplane/limiter.go in binary64 arithmetic.  Of
      the requests of one host at one instant exactly the burst gets through.
    - Config, OrcServer, OrcServerProps: src/internal/config/config.go and
      src/cmd/orc-server/main.go.  The server starts exactly when its
      configuration is accepted, with a fit verifier, secrets and limits; the
      MCP route behind the origin guard and the loopback trust acts only for
      the right subject.
    - WsHandshake, WsHandshakeProps: the opening handshake of
      src/internal/ws/ws.go, with the texts on the wire.  Dial and Upgrade agree,
      and Dial accepts only an answer to its own key.
    - OrcAgent, OrcAgentProps: credentials, pairing, the dialled URL and the pauses
      of src/cmd/orc-agent/main.go.  The agent's polling loop against the control
      plane ends with credentials that work; an accepted configuration can be
      connected with.

    - Parser, GoTime, Sql, Neon, NeonDb, NeonProps, NeonMemory, NeonClaims,
      NeonDemo: src/internal/store/neonhttp.go and src/migrations/001_init.sql.
      Parser and Sql read and run the statements of the store against tables
      with the constraints of the migration; GoTime prints and parses RFC 3339
      times; Neon is the store itself, as requests to an endpoint, and NeonDb
      what each of its statements does to typed rows.  Under [neon_service]
      (NeonProps: the endpoint runs the statement it is sent, at most once, and
      answers with its rows or an error) NeonProps proves that the SQL store
      refines the same pairing protocol as the in-memory one, NeonMemory that
      the two stores give the same answers in step, NeonClaims which endpoint it
      speaks to, what it sends there, and what its errors mean.  NeonDemo is
      such an endpoint, and the witnesses.  [sep_by] takes the length of the
      input as its fuel, and every element consumes a token; [FormatInt] prints
      at most nineteen digits, enough for 64 bits.
    - Struct, ApiTypes, ToolJson, Schema, SchemaProps, ApiProps, ApiDemo:
      src/pkg/api/v1/types.go, the argument structs and results of
      src/internal/executor/executor.go and its managers, and the JSON schemas
      of src/internal/mcpserver/server.go.  Struct describes Go types the way
      encoding/json sees them and prints and reads their values; ApiTypes and
      ToolJson list the types of the API and of the tools; Schema says which
      values a schema accepts ([accepts] looks as deep into a schema as its fuel
      says, and refuses below; the theorems hold for any depth).  SchemaProps: arguments that fit the published
      schema are decoded by the agent to what was given.  ApiProps: the types
      round trip, and results of tools read back as the types of the API.
    - Token: src/cmd/orc-token/main.go.  Its tokens are accepted by a development
      server that runs in the same environment.
    - Mux, Service, ServiceProps, ServiceDemo: the routes and middleware of
      src/cmd/orc-server/main.go.  Mux is net/http.ServeMux for patterns without
      hosts.  Every route is served by its handler, and whatever the request, the
      server calls its store, hub and audit writer only with authority.
    - Wire: the text of a frame, as encoding/json prints it, and whether the
      answers of read_file fit into a message.
    - AgentRun, AgentFiles, AgentFilesProps, AgentDemo: the running agent of
      src/cmd/orc-agent/main.go.  AgentRun has one action per turn of the
      goroutines of a connection, and the loop that connects again; AgentFiles
      the credential file.  Every call is answered once in every interleaving,
      the pauses double up to 30 seconds, and paired credentials are kept.
    ** Bounds and fuel

    No definition stops early for lack of fuel on an input it is given.
    [namei] and [EvalSymlinks] count links down from 40 and 255 as the code
    they stand for does; [climb] of PathPolicy is given one turn per path
    element plus one, which is enough ([climb_enough]); [trim_left] and the
    reader's loop are given the length of their input, and each turn takes a
    byte ([ReadMessage_terminates]); [blocks] and [primes] of Crypto are
    given the number of blocks and of primes wanted.

    ** Not modelled

    Parsing and printing of JSON texts (values are JSON values), url.Parse, net.ParseIP,
    time.ParseDuration, regular expressions, csv records and Unicode case
    tables outside ASCII are arguments of the definitions that use them.  Sockets,
    TLS and deadlines are arguments of the handshake.  Of the headers
    that handlers set only those of replies without a body are kept; the HTML of
    the pairing page is not modelled.
    Listening, signals, shutdown and logging of the commands are not modelled,
    nor the reading of flags by package flag.  Sizes of directories,
    modes of directories and modification times of files are not part of the
    file system model.  filepath is the Unix one; [windows] is an argument where
    the source asks for it.
*)
From Stdlib Require Export ZArith Lia Bool.
From Stdlib Require Strings.Byte Strings.Ascii Strings.String.
From stdpp Require Export base gmap strings list list_numbers sorting.

#[global] Arguments Z.to_nat : simpl never.
#[global] Arguments Z.of_nat : simpl never.
#[global] Arguments Z.pow : simpl never.

Declare Scope go_scope.
Delimit Scope go_scope with go.
Open Scope go_scope.

(** ** Bytes and machine integers *)

Abbreviation byte := Corelib.Init.Byte.byte.

(** A Go [byte] read as an integer, and the conversion [byte(z)] which keeps
    the low eight bits. *)
Definition b2z (b : byte) : Z := Z.of_N (Byte.to_N b).
Definition z2b (z : Z) : byte :=
  match Byte.of_N (Z.to_N (z mod 256)) with
  | Some b => b
  | None => Byte.x00
  end.

Definition byte_xor (a b : byte) : byte := z2b (Z.lxor (b2z a) (b2z b)).

#[global] Instance byte_eq_dec : EqDecision byte := Byte.byte_eq_dec.
#[global] Instance byte_countable : Countable byte :=
  inj_countable Byte.to_N Byte.of_N Byte.of_to_N.

(** [int64] arithmetic: the result of an operation is wrapped to 64 bits. *)
Definition wrap64 (z : Z) : Z := ((z + 2 ^ 63) `mod` 2 ^ 64 - 2 ^ 63)%Z.
Definition int64_ok (z : Z) : Prop := (- 2 ^ 63 <= z < 2 ^ 63)%Z.

Notation len l := (Z.of_nat (length l)).

Lemma b2z_range b : (0 <= b2z b < 256)%Z.
Proof.
  unfold b2z. pose proof (Byte.to_N_bounded b). lia.
Qed.

Lemma b2z_z2b z : b2z (z2b z) = (z `mod` 256)%Z.
Proof.
  unfold z2b, b2z.
  pose proof (Z.mod_pos_bound z 256 ltac:(lia)) as Hb.
  destruct (Byte.of_N _) as [b|] eqn:E.
  - apply Byte.to_of_N in E. rewrite E. lia.
  - apply Byte.of_N_None_iff in E. lia.
Qed.

Lemma b2z_inj a b : b2z a = b2z b -> a = b.
Proof.
  unfold b2z. intros H%N2Z.inj.
  pose proof (Byte.of_to_N a) as Ha. rewrite H, Byte.of_to_N in Ha. congruence.
Qed.

Lemma z2b_b2z b : z2b (b2z b) = b.
Proof.
  apply b2z_inj. rewrite b2z_z2b. apply Z.mod_small, b2z_range.
Qed.

Lemma b2z_z2b_small z : (0 <= z < 256)%Z -> b2z (z2b z) = z.
Proof. intros. rewrite b2z_z2b. by apply Z.mod_small. Qed.

Lemma lxor_byte_range a b : (0 <= Z.lxor (b2z a) (b2z b) < 256)%Z.
Proof.
  pose proof (b2z_range a). pose proof (b2z_range b).
  split; [apply Z.lxor_nonneg; lia|].
  destruct (Z.eq_dec (Z.lxor (b2z a) (b2z b)) 0%Z) as [->|Hne]; [lia|].
  assert (0 < Z.lxor (b2z a) (b2z b))%Z.
  { assert (0 <= Z.lxor (b2z a) (b2z b))%Z by (apply Z.lxor_nonneg; lia). lia. }
  change 256%Z with (2 ^ 8)%Z. apply Z.log2_lt_pow2; [done|].
  eapply Z.le_lt_trans; [apply Z.log2_lxor; lia|].
  apply Z.max_lub_lt.
  - destruct (Z.eq_dec (b2z a) 0%Z) as [->|]; [done|]. apply Z.log2_lt_pow2; lia.
  - destruct (Z.eq_dec (b2z b) 0%Z) as [->|]; [done|]. apply Z.log2_lt_pow2; lia.
Qed.

Lemma byte_xor_cancel a m : byte_xor (byte_xor a m) m = a.
Proof.
  unfold byte_xor. rewrite (b2z_z2b_small (Z.lxor _ _)) by apply lxor_byte_range.
  rewrite Z.lxor_assoc, Z.lxor_nilpotent, Z.lxor_0_r. apply z2b_b2z.
Qed.

Lemma wrap64_small z : int64_ok z -> wrap64 z = z.
Proof. unfold wrap64, int64_ok. intros. rewrite Z.mod_small; lia. Qed.

Lemma wrap64_ok z : int64_ok (wrap64 z).
Proof.
  unfold wrap64, int64_ok. pose proof (Z.mod_pos_bound (z + 2 ^ 63) (2 ^ 64)). lia.
Qed.

(** Checking a boolean property of a small range of integers by evaluation. *)
Lemma forall_range (n : Z) (f : Z -> bool) :
  forallb f (seqZ 0 n) = true -> forall z, (0 <= z < n)%Z -> f z = true.
Proof.
  rewrite forallb_forall. intros H z Hz. apply H. apply list_elem_of_In, elem_of_seqZ. lia.
Qed.

Lemma forall_byte (f : byte -> bool) :
  forallb (fun z => f (z2b z)) (seqZ 0 256) = true -> forall b, f b = true.
Proof.
  intros H b. rewrite <- (z2b_b2z b).
  apply (forall_range 256 (fun z => f (z2b z)) H), b2z_range.
Qed.

(** ** Errors *)

(** A Go [error].  A package-level [var ErrX = errors.New(..)] is identified by
    its qualified name: two sentinels with the same text are different values.
    [New] is [errors.New] at the point of return; [Errorf] and [Wrapf] are
    [fmt.Errorf], kept as the format and its arguments, [Wrapf] with a [%w]
    verb; [Foreign] is an error that a system call or a library returned. *)
Inductive error : Type :=
| Sentinel (name text : string)
| New (text : string)
| Errorf (format : string) (args : list string)
| Wrapf (format : string) (args : list string) (inner : error)
| Foreign (name : string).

#[global] Instance error_eq_dec : EqDecision error.
Proof. solve_decision. Defined.

(** [errors.Is(e, target)]: walk the [%w] chain. *)
Fixpoint errors_Is (e target : error) : bool :=
  bool_decide (e = target) ||
  match e with
  | Wrapf _ _ inner => errors_Is inner target
  | _ => false
  end.

Inductive result (A : Type) : Type :=
| Ok (a : A)
| Err (e : error).
Arguments Ok {A} a.
Arguments Err {A} e.

#[global] Instance result_ret : MRet result := @Ok.
#[global] Instance result_bind : MBind result := fun A B f r =>
  match r with
  | Ok a => f a
  | Err e => Err e
  end.

#[global] Instance result_fmap : FMap result := fun A B f r =>
  match r with
  | Ok a => Ok (f a)
  | Err e => Err e
  end.

Definition is_ok {A} (r : result A) : bool :=
  match r with Ok _ => true | Err _ => false end.

Lemma result_bind_eq {A B} (m : result A) (f : A -> result B) a : m = Ok a -> (m ≫= f) = f a.
Proof. by intros ->. Qed.

Lemma result_bind_ok {A B} (f : A -> result B) (r : result A) (b : B) :
  (r ≫= f) = Ok b <-> exists a, r = Ok a /\ f a = Ok b.
Proof. destruct r; simpl; naive_solver. Qed.

(** ** Times and durations *)

(** A [time.Time] is the number of nanoseconds since January 1, year 1 UTC, so
    that the zero [Time] is [0] and [IsZero] is equality with it; a
    [time.Duration] is a number of nanoseconds. *)
Definition IsZero (t : Z) : bool := (t =? 0)%Z.
Definition Millisecond : Z := 1000000.
Definition Second : Z := (1000 * Millisecond)%Z.
Definition Minute : Z := (60 * Second)%Z.
Definition Hour : Z := (60 * Minute)%Z.

(** [t.After(u)], [t.Before(u)]. *)
Definition After (t u : Z) : bool := (u <? t)%Z.
Definition Before (t u : Z) : bool := (t <? u)%Z.

(** ** Lists *)

(** The last [n] elements of a list. *)
Definition lastn {A} (n : nat) (l : list A) : list A := drop (length l - n) l.

Section lastn.
Context {A : Type}.
Implicit Types l k : list A.

Lemma length_lastn n l : length (lastn n l) = n `min` length l.
Proof. unfold lastn. rewrite length_drop. lia. Qed.

Lemma lastn_ge n l : length l <= n -> lastn n l = l.
Proof. intros. unfold lastn. by replace (length l - n) with 0 by lia. Qed.

Lemma lastn_app_r n l k : n <= length k -> lastn n (l ++ k) = lastn n k.
Proof.
  intros. unfold lastn. rewrite length_app, drop_app_ge by lia. f_equal. lia.
Qed.

Lemma lastn_app_l n l k :
  length k <= n -> lastn n (l ++ k) = lastn (n - length k) l ++ k.
Proof.
  intros. unfold lastn. rewrite length_app, drop_app_le by lia. f_equal.
  f_equal. lia.
Qed.

Lemma lastn_lastn n m l : n <= m -> lastn n (lastn m l) = lastn n l.
Proof.
  intros. unfold lastn. rewrite length_drop, drop_drop. f_equal. lia.
Qed.

(** Dropping old elements before appending loses nothing the window keeps. *)
Lemma lastn_window n l k : lastn n (lastn n l ++ k) = lastn n (l ++ k).
Proof.
  destruct (decide (n <= length k)).
  - by rewrite !lastn_app_r.
  - rewrite !lastn_app_l by lia. by rewrite lastn_lastn by lia.
Qed.

Lemma lastn_suffix n l : exists pre, l = pre ++ lastn n l.
Proof. exists (take (length l - n) l). symmetry. apply take_drop. Qed.
End lastn.

(** [l[lo:hi]]; [None] is the panic of a slice expression out of range. *)
Definition slice {A} (lo hi : Z) (l : list A) : option (list A) :=
  if (0 <=? lo)%Z && (lo <=? hi)%Z && (hi <=? len l)%Z
  then Some (take (Z.to_nat (hi - lo)) (drop (Z.to_nat lo) l)) else None.

(** The contents of [dst] after [copy(dst, src)]. *)
Definition go_copy {A} (dst src : list A) : list A :=
  take (length dst) src ++ drop (length src) dst.

Lemma go_copy_shift {A} n m (l : list A) :
  m <= length l - n -> take m (go_copy l (drop n l)) = take m (drop n l).
Proof.
  intros. unfold go_copy. rewrite length_drop.
  rewrite take_app_le by (rewrite length_take, length_drop; lia).
  rewrite take_take. f_equal. lia.
Qed.

Lemma slice_Some {A} lo hi (l : list A) :
  (0 <= lo)%Z -> (lo <= hi)%Z -> (hi <= len l)%Z ->
  slice lo hi l = Some (take (Z.to_nat (hi - lo)) (drop (Z.to_nat lo) l)).
Proof.
  intros. unfold slice.
  by rewrite (proj2 (Z.leb_le _ _)), (proj2 (Z.leb_le lo hi)), (proj2 (Z.leb_le hi _)) by done.
Qed.

Lemma filter_Forall_id {A} (P : A -> Prop) `{forall x, Decision (P x)} (l : list A) :
  Forall P l -> filter P l = l.
Proof.
  induction 1 as [|x l Hx _ IH]; [done|]. by rewrite filter_cons, decide_True, IH.
Qed.

Lemma filter_Forall_nil {A} (P : A -> Prop) `{forall x, Decision (P x)} (l : list A) :
  Forall (fun x => ~ P x) l -> filter P l = [].
Proof.
  induction 1 as [|x l Hx _ IH]; [done|]. by rewrite filter_cons, decide_False, IH.
Qed.

(** ** Sorting *)

(** A stable sort by a decidable relation [R].  Go's [sort.Slice] promises only
    some sorted permutation; a list that is sorted already is left alone
    ([isort_id]), so every such outcome is [isort] of some arrangement. *)
Section isort.
Context {A : Type} (R : A -> A -> Prop) `{!RelDecision R}.

Fixpoint insert_by (x : A) (l : list A) : list A :=
  match l with
  | [] => [x]
  | y :: l' => if decide (R x y) then x :: l else y :: insert_by x l'
  end.
Definition isort (l : list A) : list A := foldr insert_by [] l.

Lemma insert_by_perm x l : insert_by x l ≡ₚ x :: l.
Proof.
  induction l as [|y l IH]; simpl; [done|]. case_decide; [done|].
  rewrite IH. apply Permutation_swap.
Qed.

Lemma isort_perm l : isort l ≡ₚ l.
Proof. induction l as [|x l IH]; simpl; [done|]. by rewrite insert_by_perm, IH. Qed.

Lemma isort_id l : StronglySorted R l -> isort l = l.
Proof.
  induction 1 as [|x l _ IH Hx]; simpl; [done|]. rewrite IH.
  destruct l as [|y l]; [done|]. simpl. rewrite decide_True; [done|].
  by apply Forall_cons in Hx as [? _].
Qed.

Context `{!Transitive R, !Total R}.

Lemma insert_by_sorted x l : StronglySorted R l -> StronglySorted R (insert_by x l).
Proof.
  induction 1 as [|y l Hl IH Hy]; simpl; [by repeat constructor|]. case_decide as Hxy.
  - constructor; [by constructor|]. constructor; [done|].
    eapply Forall_impl; [done|]. intros z. by apply transitivity.
  - constructor; [done|]. rewrite insert_by_perm. constructor; [|done].
    by destruct (total R x y).
Qed.

Lemma isort_sorted l : StronglySorted R (isort l).
Proof. induction l; simpl; [constructor|by apply insert_by_sorted]. Qed.
End isort.

(** ** Maps *)

(** The entries of a map that [f] keeps, in list form. *)
Lemma map_to_list_omap_perm `{Countable K} {A B} (f : A -> option B) (m : gmap K A) :
  map_to_list (omap f m) ≡ₚ omap (fun kv => pair kv.1 <$> f kv.2) (map_to_list m).
Proof.
  induction m as [|i x m Hi IH] using map_ind.
  - by rewrite omap_empty, !map_to_list_empty.
  - rewrite (map_to_list_insert m i x Hi). simpl. rewrite omap_insert.
    assert (omap f m !! i = None) as Hn by (by rewrite lookup_omap, Hi).
    destruct (f x); simpl.
    + by rewrite map_to_list_insert, IH.
    + by rewrite delete_id, IH.
Qed.

(** The sum of a measure over the values of a map. *)
Definition map_sum `{Countable K} {A} (f : A -> nat) (m : gmap K A) : nat :=
  map_fold (fun _ x acc => (f x + acc)%nat) 0%nat m.

Lemma map_sum_delete `{Countable K} {A} (f : A -> nat) (m : gmap K A) i x :
  m !! i = Some x -> map_sum f m = (f x + map_sum f (delete i m))%nat.
Proof.
  intros Hi. unfold map_sum.
  apply (map_fold_delete_L (fun _ x acc => (f x + acc)%nat) 0%nat i x m); [|done]. intros. lia.
Qed.

Lemma map_sum_insert `{Countable K} {A} (f : A -> nat) (m : gmap K A) i x y :
  m !! i = Some x -> (map_sum f (<[i := y]> m) + f x = map_sum f m + f y)%nat.
Proof.
  intros Hi. rewrite (map_sum_delete f m i x Hi).
  rewrite (map_sum_delete f (<[i := y]> m) i y) by (by rewrite lookup_insert_eq).
  rewrite delete_insert_eq. lia.
Qed.

Lemma map_sum_zero `{Countable K} {A} (f : A -> nat) (m : gmap K A) i x :
  map_sum f m = 0%nat -> m !! i = Some x -> f x = 0%nat.
Proof. intros Hs Hi. rewrite (map_sum_delete f m i x Hi) in Hs. lia. Qed.

Lemma map_sum_positive `{Countable K} {A} (f : A -> nat) (m : gmap K A) :
  map_sum f m <> 0%nat -> exists i x, m !! i = Some x /\ f x <> 0%nat.
Proof.
  induction m as [|i x m Hi IH] using map_ind; [done|]. intros Hs.
  destruct (decide (f x = 0%nat)) as [E|]; [|by exists i, x; rewrite lookup_insert_eq].
  destruct IH as (j & y & Hj & Hy).
  - rewrite (map_sum_delete f (<[i := x]> m) i x), E in Hs by (by rewrite lookup_insert_eq).
    by rewrite delete_insert_id in Hs.
  - exists j, y. rewrite lookup_insert_ne by congruence. done.
Qed.

(** ** Executable transition systems *)

(** A concurrent component is a state type with a partial function that
    performs one atomic action; [None] means that the action is not enabled.
    A schedule is a list of actions. *)
Section transition_system.
Context {S A : Type}.
Context (exec : A -> S -> option S).

Fixpoint run (acts : list A) (s : S) : option S :=
  match acts with
  | [] => Some s
  | a :: acts' => s' ← exec a s; run acts' s'
  end.

Definition reachable (init s : S) : Prop := exists acts, run acts init = Some s.

Lemma run_cons a acts s s' : exec a s = Some s' -> run (a :: acts) s = run acts s'.
Proof. intros H. simpl. by rewrite H. Qed.

Lemma run_app acts1 acts2 s :
  run (acts1 ++ acts2) s = s' ← run acts1 s; run acts2 s'.
Proof.
  revert s. induction acts1 as [|a acts1 IH]; intros s; simpl; [done|].
  destruct (exec a s); simpl; auto.
Qed.

Lemma run_invariant (I : S -> Prop) :
  (forall a s s', I s -> exec a s = Some s' -> I s') ->
  forall acts s s', I s -> run acts s = Some s' -> I s'.
Proof.
  intros Hstep acts. induction acts as [|a acts IH]; intros s s' HI Hrun; simpl in *.
  - by simplify_eq.
  - destruct (exec a s) as [s1|] eqn:E; simpl in *; [|done]. eauto.
Qed.

(** Two-state version: a reflexive, transitive relation kept by every action
    is kept by every schedule (used for "never changes back" properties). *)
Lemma run_monotone (I : S -> Prop) (R : S -> S -> Prop) :
  (forall s, R s s) -> (forall a b c, R a b -> R b c -> R a c) ->
  (forall a s s', I s -> exec a s = Some s' -> I s' /\ R s s') ->
  forall acts s s', I s -> run acts s = Some s' -> I s' /\ R s s'.
Proof.
  intros Hrefl Htrans Hstep acts.
  induction acts as [|a acts IH]; intros s s' HI Hrun; simpl in *.
  - simplify_eq. eauto.
  - destruct (exec a s) as [s1|] eqn:E; simpl in *; [|done].
    destruct (Hstep _ _ _ HI E). destruct (IH s1 s'); eauto.
Qed.

Lemma reachable_invariant (I : S -> Prop) init s :
  I init -> (forall a s s', I s -> exec a s = Some s' -> I s') ->
  reachable init s -> I s.
Proof. intros Hi Hstep [acts Hrun]. exact (run_invariant I Hstep acts _ _ Hi Hrun). Qed.

Lemma reachable_step init a s s' :
  reachable init s -> exec a s = Some s' -> reachable init s'.
Proof.
  intros [acts Hrun] Hex. exists (acts ++ [a]). rewrite run_app, Hrun.
  simpl. by rewrite Hex.
Qed.
End transition_system.

(** ** Automation *)

Create HintDb orc discriminated.
#[export] Hint Resolve b2z_range wrap64_ok : orc.
#[export] Hint Rewrite @length_lastn @length_app : orc.

(** Turn boolean guards into propositions. *)
Ltac bool_props :=
  repeat match goal with
  | H : negb _ = true |- _ => apply negb_true_iff in H
  | H : negb _ = false |- _ => apply negb_false_iff in H
  | H : _ || _ = false |- _ => apply orb_false_iff in H; destruct H
  | H : _ || _ = true |- _ => apply orb_true_iff in H; destruct H
  | H : _ && _ = true |- _ => apply andb_true_iff in H; destruct H
  | H : _ && _ = false |- _ => apply andb_false_iff in H; destruct H
  | H : bool_decide _ = true |- _ => apply bool_decide_eq_true_1 in H
  | H : bool_decide _ = false |- _ => apply bool_decide_eq_false_1 in H
  | H : (_ <? _)%Z = true |- _ => apply Z.ltb_lt in H
  | H : (_ <? _)%Z = false |- _ => apply Z.ltb_ge in H
  | H : (_ <=? _)%Z = true |- _ => apply Z.leb_le in H
  | H : (_ <=? _)%Z = false |- _ => apply Z.leb_gt in H
  | H : (_ =? _)%Z = true |- _ => apply Z.eqb_eq in H
  | H : (_ =? _)%Z = false |- _ => apply Z.eqb_neq in H
  | H : is_Some _ |- _ => destruct H
  | H : _ <> true |- _ => apply not_true_is_false in H
  | H : _ <> false |- _ => apply not_false_is_true in H
  | H : ~ (_ <> _) |- _ => apply dec_stable in H
  | H : Is_true _ |- _ => apply Is_true_true_1 in H
  end.

(** Split every guard ([if], [match], [decide]) that the goal or a hypothesis
    is stuck on, and drop the branches that contradict the hypotheses. *)
Ltac case_guards :=
  repeat first
    [ progress simplify_eq/=
    | progress bool_props
    | case_decide; try done
    | case_match; try done ].
