(* ===== verification/Protocol.v ===== *)
(** * Wire frames between relay and agent: internal/protocol/frame.go *)
From S2P Require Import Prelude.

Definition TypeCall : string := "call".
Definition TypeResult : string := "result".
Definition TypePing : string := "ping".
Definition TypePong : string := "pong".

Definition MaxFrameBytes : Z := Z.shiftl 16 20.

Record RemoteError := mkRemoteError {
  RemoteError_Code : string;
  RemoteError_Message : string }.

(** [Args] and [Result] are [json.RawMessage], the bytes of a JSON text. *)
Record Frame := mkFrame {
  Frame_Type : string;
  Frame_ID : string;
  Frame_Tool : string;
  Frame_Args : list byte;
  Frame_OK : bool;
  Frame_Result : list byte;
  Frame_Error : option RemoteError }.

#[global] Instance RemoteError_eq_dec : EqDecision RemoteError.
Proof. solve_decision. Defined.
#[global] Instance Frame_eq_dec : EqDecision Frame.
Proof. solve_decision. Defined.

(** [func (f Frame) Validate() error] *)
Definition Validate (f : Frame) : result unit :=
  if decide (Frame_Type f = TypeCall) then
    if bool_decide (Frame_ID f = "") || bool_decide (Frame_Tool f = "") then
      Err (New "call frame requires id and tool")
    else if decide (length (Frame_Args f) = 0) then
      Err (New "call frame requires args")
    else Ok tt
  else if decide (Frame_Type f = TypeResult) then
    if decide (Frame_ID f = "") then Err (New "result frame requires id")
    else if negb (Frame_OK f) && bool_decide (Frame_Error f = None) then
      Err (New "failed result requires error")
    else Ok tt
  else if bool_decide (Frame_Type f = TypePing) || bool_decide (Frame_Type f = TypePong) then
    Ok tt
  else Err (Errorf "unknown frame type %q" [Frame_Type f]).

(** What each peer may rely on once a frame validated. *)
Inductive well_formed (f : Frame) : Prop :=
| wf_call : Frame_Type f = TypeCall -> Frame_ID f <> "" -> Frame_Tool f <> "" ->
    Frame_Args f <> [] -> well_formed f
| wf_result : Frame_Type f = TypeResult -> Frame_ID f <> "" ->
    (Frame_OK f = true \/ exists e, Frame_Error f = Some e) -> well_formed f
| wf_liveness : Frame_Type f ∈ [TypePing; TypePong] -> well_formed f.

Lemma Validate_well_formed f : Validate f = Ok tt <-> well_formed f.
Proof.
  unfold Validate. split.
  - intros H. case_guards; eauto using well_formed with set_solver.
    + apply wf_call; auto. by rewrite <- length_zero_iff_nil.
    + apply wf_result; auto. destruct (Frame_Error f); naive_solver.
  - intros [Ht Hi Hto Ha|Ht Hi He|Ht].
    + rewrite decide_True by done. rewrite !bool_decide_eq_false_2 by done. simpl.
      rewrite decide_False; [done|]. by rewrite length_zero_iff_nil.
    + rewrite Ht. simpl. rewrite decide_False by done.
      destruct He as [->|[e ->]]; [done|]. simpl. by rewrite andb_false_r.
    + assert (Frame_Type f = TypePing \/ Frame_Type f = TypePong) as [-> | ->]
        by set_solver; reflexivity.
Qed.
