(* ===== verification/Crypto.v ===== *)
(** * The parts of crypto/sha256, crypto/sha1, crypto/hmac and encoding/hex
    that the program uses

    SHA-256 and SHA-1 after FIPS 180-4, on words modulo 2^32; HMAC after
    RFC 2104.  The
    examples at the end run published test vectors. *)
From S2P Require Import Prelude.
Local Open Scope Z_scope.

Module Sha256.

Definition w32 (z : Z) : Z := z `mod` 2 ^ 32.

Definition rotr (n x : Z) : Z :=
  Z.lor (Z.shiftr x n) (w32 (Z.shiftl x (32 - n))).

(** The integer cube root of [n], bit by bit from [2 ^ k]. *)
Fixpoint cbrt (k : nat) (n root : Z) : Z :=
  match k with
  | O => root
  | S k' =>
      let next := root + Z.shiftl 1 (Z.of_nat k') in
      cbrt k' n (if next * next * next <=? n then next else root)
  end.

(** The first [n] primes, by trial division with those found before. *)
Fixpoint primes (fuel n : nat) (candidate : Z) (found : list Z) : list Z :=
  match fuel, n with
  | S fuel', S n' =>
      if forallb (fun p => negb (candidate `mod` p =? 0)) found
      then primes fuel' n' (candidate + 1) (found ++ [candidate])
      else primes fuel' n (candidate + 1) found
  | _, _ => found
  end.

(** FIPS 180-4, 4.2.2 and 5.3.3: the first 32 bits of the fractional parts of
    the cube roots of the first 64 primes, and of the square roots of the
    first eight. *)
Definition K : list Z :=
  Eval vm_compute in (fun p => w32 (cbrt 40 (Z.shiftl p 96) 0)) <$> primes 400 64 2 [].

Definition H0 : list Z :=
  Eval vm_compute in (fun p => w32 (Z.sqrt (Z.shiftl p 64))) <$> primes 400 8 2 [].

Definition Ch (x y z : Z) : Z := Z.lxor (Z.land x y) (Z.land (2 ^ 32 - 1 - x) z).
Definition Maj (x y z : Z) : Z :=
  Z.lxor (Z.lxor (Z.land x y) (Z.land x z)) (Z.land y z).
Definition Sigma0 (x : Z) : Z := Z.lxor (Z.lxor (rotr 2 x) (rotr 13 x)) (rotr 22 x).
Definition Sigma1 (x : Z) : Z := Z.lxor (Z.lxor (rotr 6 x) (rotr 11 x)) (rotr 25 x).
Definition sigma0 (x : Z) : Z :=
  Z.lxor (Z.lxor (rotr 7 x) (rotr 18 x)) (Z.shiftr x 3).
Definition sigma1 (x : Z) : Z :=
  Z.lxor (Z.lxor (rotr 17 x) (rotr 19 x)) (Z.shiftr x 10).

(** The message schedule is kept newest word first. *)
Definition next_word (ws : list Z) : Z :=
  w32 (sigma1 (nth 1 ws 0) + nth 6 ws 0 + sigma0 (nth 14 ws 0) + nth 15 ws 0).

Fixpoint schedule (n : nat) (ws : list Z) : list Z :=
  match n with
  | O => ws
  | S n' => schedule n' (next_word ws :: ws)
  end.

Definition round (st : list Z) (kw : Z * Z) : list Z :=
  match st with
  | [a; b; c; d; e; f; g; h] =>
      let t1 := h + Sigma1 e + Ch e f g + kw.1 + kw.2 in
      let t2 := Sigma0 a + Maj a b c in
      [w32 (t1 + t2); a; b; c; w32 (d + t1); e; f; g]
  | _ => st
  end.

Fixpoint be_word (bs : list byte) : Z :=
  match bs with
  | [] => 0
  | b :: bs' => b2z b * 256 ^ len bs' + be_word bs'
  end.

(** The [n] low-order bytes of [z], most significant first. *)
Fixpoint be_bytes (n : nat) (z : Z) : list byte :=
  match n with
  | O => []
  | S n' => z2b (Z.shiftr z (8 * Z.of_nat n')) :: be_bytes n' z
  end.

Fixpoint words (n : nat) (bs : list byte) : list Z :=
  match n with
  | O => []
  | S n' => be_word (take 4 bs) :: words n' (drop 4 bs)
  end.

Definition compress (st : list Z) (block : list byte) : list Z :=
  let ws := reverse (schedule 48 (reverse (words 16 block))) in
  zip_with (fun x y => w32 (x + y)) st (fold_left round (zip K ws) st).

Definition pad (msg : list byte) : list byte :=
  let n := length msg in
  let zeros := Z.to_nat ((55 - len msg) `mod` 64) in
  msg ++ [z2b 128] ++ replicate zeros (z2b 0) ++ be_bytes 8 (8 * Z.of_nat n).

Fixpoint blocks (n : nat) (bs : list byte) : list (list byte) :=
  match n with
  | O => []
  | S n' => take 64 bs :: blocks n' (drop 64 bs)
  end.

(** [sha256.Sum256]. *)
Definition Sum256 (msg : list byte) : list byte :=
  let p := pad msg in
  let bs := blocks (length p / 64)%nat p in
  fold_left compress bs H0 ≫= be_bytes 4.

End Sha256.

Module Sha1.
Import Sha256.

Definition rotl (n x : Z) : Z := rotr (32 - n) x.

(** FIPS 180-4, 4.2.1: the square roots of 2, 3, 5 and 10, times 2^30. *)
Definition K1 : list Z := Eval vm_compute in (fun p => Z.sqrt (Z.shiftl p 60)) <$> [2; 3; 5; 10].
Definition H1 : list Z := [1732584193; 4023233417; 2562383102; 271733878; 3285377520].

(** 4.1.1: the function and the constant of round [t]. *)
Definition f (t x y z : Z) : Z :=
  if t <? 20 then Ch x y z
  else if t <? 40 then Z.lxor (Z.lxor x y) z
  else if t <? 60 then Maj x y z
  else Z.lxor (Z.lxor x y) z.

(** The message schedule, newest word first. *)
Fixpoint schedule (n : nat) (ws : list Z) : list Z :=
  match n with
  | O => ws
  | S n' => schedule n' (rotl 1 (Z.lxor (Z.lxor (nth 2 ws 0) (nth 7 ws 0)) (Z.lxor (nth 13 ws 0) (nth 15 ws 0))) :: ws)
  end.

Definition round (st : list Z) (tw : Z * Z) : list Z :=
  match st with
  | [a; b; c; d; e] =>
      [w32 (rotl 5 a + f tw.1 b c d + e + nth (Z.to_nat (tw.1 / 20)) K1 0 + tw.2); a; rotl 30 b; c; d]
  | _ => st
  end.

Definition compress (st : list Z) (block : list byte) : list Z :=
  let ws := reverse (schedule 64 (reverse (words 16 block))) in
  zip_with (fun x y => w32 (x + y)) st (fold_left round (zip (Z.of_nat <$> seq 0 80) ws) st).

(** [sha1.Sum] *)
Definition Sum (msg : list byte) : list byte :=
  let p := pad msg in
  fold_left compress (blocks (length p / 64)%nat p) H1 ≫= be_bytes 4.

End Sha1.

(** [hmac.New(sha256.New, key)] followed by [Write(msg)] and [Sum(nil)]. *)
Definition hmac_sha256 (key msg : list byte) : list byte :=
  let k0 := if decide (64 < len key) then Sha256.Sum256 key else key in
  let k := k0 ++ replicate (64 - length k0)%nat (z2b 0) in
  let pad x := byte_xor (z2b x) <$> k in
  Sha256.Sum256 (pad 92 ++ Sha256.Sum256 (pad 54 ++ msg)).

Definition hex_digit (z : Z) : Ascii.ascii :=
  Ascii.ascii_of_nat (Z.to_nat (if z <? 10 then 48 + z else 87 + z)).

(** [hex.EncodeToString]. *)
Fixpoint hex_EncodeToString (bs : list byte) : string :=
  match bs with
  | [] => EmptyString
  | b :: bs' =>
      String (hex_digit (b2z b / 16))
        (String (hex_digit (b2z b `mod` 16)) (hex_EncodeToString bs'))
  end.

(** Go converts between [string] and [[]byte] without changing the bytes. *)
Abbreviation bytes_of_string := String.list_byte_of_string.
Abbreviation string_of_bytes := String.string_of_list_byte.

(** [subtle.ConstantTimeCompare]. *)
Definition ConstantTimeCompare (x y : list byte) : Z := if decide (x = y) then 1 else 0.

Lemma ConstantTimeCompare_1 x y : ConstantTimeCompare x y = 1 <-> x = y.
Proof. unfold ConstantTimeCompare. case_decide; naive_solver. Qed.

Lemma bytes_of_string_inj s t : bytes_of_string s = bytes_of_string t -> s = t.
Proof.
  intros H. rewrite <- (String.string_of_list_byte_of_string s),
    <- (String.string_of_list_byte_of_string t). by rewrite H.
Qed.

(** Big-endian encoding and decoding are inverse. *)
Lemma be_word_range l : 0 <= Sha256.be_word l < 256 ^ len l.
Proof.
  induction l as [|b l IH]; simpl; [done|].
  pose proof (b2z_range b). rewrite Nat2Z.inj_succ, Z.pow_succ_r by lia. nia.
Qed.

Lemma length_be_bytes n z : length (Sha256.be_bytes n z) = n.
Proof. induction n; simpl; auto. Qed.

Lemma be_word_be_bytes n z : Sha256.be_word (Sha256.be_bytes n z) = z `mod` 256 ^ Z.of_nat n.
Proof.
  induction n as [|n IH]; simpl; [by rewrite Z.mod_1_r|].
  rewrite IH, length_be_bytes, b2z_z2b, Z.shiftr_div_pow2 by lia.
  rewrite (Nat2Z.inj_succ n), Z.pow_succ_r by lia.
  replace (2 ^ (8 * Z.of_nat n)) with (256 ^ Z.of_nat n) by (by rewrite Z.pow_mul_r by lia).
  assert (0 < 256 ^ Z.of_nat n) by (apply Z.pow_pos_nonneg; lia).
  rewrite (Z.mul_comm 256), Z.rem_mul_r by lia. lia.
Qed.

Lemma be_bytes_mod n z :
  Sha256.be_bytes n (z `mod` 256 ^ Z.of_nat n) = Sha256.be_bytes n z.
Proof.
  assert (forall k, (n <= k)%nat -> Sha256.be_bytes n (z `mod` 256 ^ Z.of_nat k) = Sha256.be_bytes n z)
    as H; [|by apply H].
  induction n as [|n IH]; intros k Hk; simpl; [done|]. f_equal; [|apply IH; lia].
  apply b2z_inj. rewrite !b2z_z2b, !Z.shiftr_div_pow2 by lia.
  replace (2 ^ (8 * Z.of_nat n)) with (256 ^ Z.of_nat n) by (by rewrite Z.pow_mul_r by lia).
  replace (256 ^ Z.of_nat k) with (256 ^ Z.of_nat n * (256 * 256 ^ (Z.of_nat k - Z.of_nat n - 1))).
  2: { rewrite <- Z.pow_succ_r, <- Z.pow_add_r by lia. f_equal. lia. }
  assert (0 < 256 ^ Z.of_nat n) by (apply Z.pow_pos_nonneg; lia).
  assert (0 < 256 ^ (Z.of_nat k - Z.of_nat n - 1)) by (apply Z.pow_pos_nonneg; lia).
  rewrite Z.rem_mul_r, Z.mul_comm, Z.div_add by lia.
  rewrite Z.div_small by (apply Z.mod_pos_bound; lia). rewrite Z.add_0_l.
  rewrite Z.rem_mul_r by lia. rewrite Z.mul_comm, Z.mod_add by lia. by rewrite Z.mod_mod by lia.
Qed.

Lemma be_bytes_be_word l : Sha256.be_bytes (length l) (Sha256.be_word l) = l.
Proof.
  induction l as [|b l IH]; simpl; [done|].
  pose proof (be_word_range l) as Hr. pose proof (b2z_range b). f_equal.
  - apply b2z_inj. rewrite b2z_z2b, Z.shiftr_div_pow2 by lia.
    replace (2 ^ (8 * len l)) with (256 ^ len l) by (by rewrite Z.pow_mul_r by lia).
    rewrite Z.div_add_l by lia. rewrite (Z.div_small (Sha256.be_word l)) by lia.
    rewrite Z.add_0_r. by apply Z.mod_small.
  - rewrite <- be_bytes_mod, Z.add_comm, Z_mod_plus_full. by rewrite be_bytes_mod.
Qed.

Example sha1_abc :
  hex_EncodeToString (Sha1.Sum (bytes_of_string "abc")) = "a9993e364706816aba3e25717850c26c9cd0d89d"%string.
Proof. vm_compute. reflexivity. Qed.

Example sha256_empty :
  hex_EncodeToString (Sha256.Sum256 []) =
  "e3b0c44298fc1c149afbf4c8996fb92427ae41e4649b934ca495991b7852b855".
Proof. vm_compute. reflexivity. Qed.

Example sha256_abc :
  hex_EncodeToString (Sha256.Sum256 (bytes_of_string "abc")) =
  "ba7816bf8f01cfea414140de5dae2223b00361a396177a9cb410ff61f20015ad".
Proof. vm_compute. reflexivity. Qed.

Example sha256_two_blocks :
  hex_EncodeToString (Sha256.Sum256 (bytes_of_string
    "abcdbcdecdefdefgefghfghighijhijkijkljklmklmnlmnomnopnopq")) =
  "248d6a61d20638b8e5c026930c3e6039a33ce45964ff2167f6ecedd419db06c1".
Proof. vm_compute. reflexivity. Qed.

Example hmac_rfc4231_2 :
  hex_EncodeToString (hmac_sha256 (bytes_of_string "Jefe")
    (bytes_of_string "what do ya want for nothing?")) =
  "5bdcc146bf60754e6a042426089575c75a003f089d2739839dec58b964ec3843".
Proof. vm_compute. reflexivity. Qed.
