(* ===== verification/GoStrings.v ===== *)
(** * The parts of Go's strings, bytes and unicode/utf8 packages that the
    program uses

    Go strings are byte strings: [string] here is a list of eight-bit
    characters.  Functions that inspect bytes work on [list byte]. *)
From S2P Require Import Prelude Crypto.
Local Open Scope Z_scope.

Definition slen (s : string) : Z := Z.of_nat (String.length s).

Definition bytes_of_Zs (l : list Z) : list byte := z2b <$> l.

(** The UTF-8 encodings of the code points with [unicode.IsSpace]: tab, newline,
    vertical tab, form feed, carriage return, space, U+0085, U+00A0, U+1680,
    U+2000..U+200A, U+2028, U+2029, U+202F, U+205F, U+3000.  An encoding at
    either end of a string is a rune there, because no valid encoding starts
    inside another one. *)
Definition space_encodings : list (list byte) :=
  bytes_of_Zs <$>
    ((fun z => [z]) <$> [9; 10; 11; 12; 13; 32]) ++
    [[194; 133]; [194; 160]; [225; 154; 128]] ++
    ((fun z => [226; 128; z]) <$> [128; 129; 130; 131; 132; 133; 134; 135; 136; 137; 138]) ++
    [[226; 128; 168]; [226; 128; 169]; [226; 128; 175]; [226; 129; 159]; [227; 128; 128]].

Fixpoint strip_prefix (p l : list byte) : option (list byte) :=
  match p, l with
  | [], _ => Some l
  | a :: p', b :: l' => if decide (a = b) then strip_prefix p' l' else None
  | _ :: _, [] => None
  end.

(** One space rune at the front, if there is one. *)
Definition strip_space (encs : list (list byte)) (l : list byte) : option (list byte) :=
  head (omap (fun e => strip_prefix e l) encs).

Fixpoint trim_left (fuel : nat) (encs : list (list byte)) (l : list byte) : list byte :=
  match fuel with
  | O => l
  | S fuel' =>
      match strip_space encs l with
      | Some l' => trim_left fuel' encs l'
      | None => l
      end
  end.

(** [strings.TrimSpace]: trim at the front, then, on the reversed bytes with
    the reversed encodings, at the back. *)
Definition trim_space (l : list byte) : list byte :=
  let l := trim_left (length l) space_encodings l in
  reverse (trim_left (length l) (reverse <$> space_encodings) (reverse l)).

Definition TrimSpace (s : string) : string := string_of_bytes (trim_space (bytes_of_string s)).

(** [strings.ContainsAny(s, chars)] for ASCII [chars], and
    [strings.ContainsRune(s, r)] for an ASCII [r]. *)
Definition ContainsAny (s : string) (chars : list byte) : bool :=
  bool_decide (Exists (fun b => b ∈ chars) (bytes_of_string s)).

(** [strings.HasPrefix]. *)
Definition HasPrefix (s p : string) : bool := String.prefix p s.

(** [strings.Join]. *)
Definition Join (l : list string) (sep : string) : string := String.concat sep l.

(** [strings.Split(s, sep)] for a one-byte separator. *)
Fixpoint Split (s : string) (sep : Ascii.ascii) : list string :=
  match s with
  | EmptyString => [EmptyString]
  | String c s' =>
      let r := Split s' sep in
      if decide (c = sep) then EmptyString :: r
      else match r with
           | w :: r' => String c w :: r'
           | [] => [String c EmptyString]
           end
  end.

(** [utf8.Valid]. *)
Definition in_range (lo hi : Z) (b : byte) : bool := (lo <=? b2z b) && (b2z b <=? hi).
Definition cont (b : byte) : bool := in_range 128 191 b.

Fixpoint utf8_Valid (l : list byte) : bool :=
  match l with
  | [] => true
  | a :: l1 =>
      if in_range 0 127 a then utf8_Valid l1
      else match l1 with
      | [] => false
      | b :: l2 =>
          if in_range 194 223 a then cont b && utf8_Valid l2
          else match l2 with
          | [] => false
          | c :: l3 =>
              if in_range 224 239 a then
                in_range (if decide (b2z a = 224) then 160 else 128)
                         (if decide (b2z a = 237) then 159 else 191) b
                && cont c && utf8_Valid l3
              else match l3 with
              | [] => false
              | d :: l4 =>
                  in_range 240 244 a
                  && in_range (if decide (b2z a = 240) then 144 else 128)
                              (if decide (b2z a = 244) then 143 else 191) b
                  && cont c && cont d && utf8_Valid l4
              end
          end
      end
  end.

(** ** Facts *)

Example TrimSpace_both : TrimSpace "  a b	" = "a b".
Proof. vm_compute. reflexivity. Qed.

Example TrimSpace_blank : TrimSpace "   " = EmptyString.
Proof. vm_compute. reflexivity. Qed.

Lemma Split_not_nil s sep : Split s sep <> [].
Proof. destruct s; simpl; [done|]. case_decide; [done|]. by case_match. Qed.

(** [Split] leaves no separator inside a part. *)
Lemma Split_no_sep s sep :
  Forall (fun w => sep ∉ String.list_ascii_of_string w) (Split s sep).
Proof.
  induction s as [|c s IH]; simpl.
  - repeat constructor. set_solver.
  - case_decide; [constructor; [set_solver|done]|].
    pose proof (Split_not_nil s sep). destruct (Split s sep); [done|].
    apply Forall_cons in IH as [? ?]. constructor; [|done]. simpl. set_solver.
Qed.

(** [Join] undoes [Split]. *)
Lemma Join_Split s sep : Join (Split s sep) (String sep EmptyString) = s.
Proof.
  induction s as [|c s IH]; [done|]. simpl.
  pose proof (Split_not_nil s sep) as Hn. case_decide as Hc; subst.
  - destruct (Split s sep) as [|w r]; [done|]. unfold Join in *. simpl in *. by rewrite IH.
  - destruct (Split s sep) as [|w r]; [done|]. unfold Join in *. simpl in *.
    destruct r; by rewrite <- IH.
Qed.

(** Trimming removes nothing but space runes. *)
Lemma strip_prefix_Some p l l' : strip_prefix p l = Some l' -> l = p ++ l'.
Proof.
  revert l. induction p as [|a p IH]; intros l; simpl; [by intros [= ->]|].
  destruct l as [|b l]; [done|]. case_decide as E; [subst|done]. intros H. by rewrite (IH _ H).
Qed.

Lemma trim_left_keeps fuel encs l b :
  (forall e, e ∈ encs -> b ∉ e) -> b ∈ l -> b ∈ trim_left fuel encs l.
Proof.
  intros He. revert l. induction fuel as [|fuel IH]; intros l Hb; simpl; [done|].
  destruct (strip_space encs l) as [l'|] eqn:E; [|done]. apply IH.
  unfold strip_space in E. destruct (omap _ encs) as [|x ls] eqn:Eo; [done|]. injection E as ->.
  assert (l' ∈ omap (fun e => strip_prefix e l) encs) as (e & Hin & Hs)%list_elem_of_omap
    by (rewrite Eo; apply list_elem_of_here).
  apply strip_prefix_Some in Hs. subst l. apply elem_of_app in Hb as [Hb|Hb]; [|done].
  by destruct (He e Hin).
Qed.

Lemma TrimSpace_keeps s b :
  forallb (fun e => bool_decide (b ∉ e)) space_encodings = true ->
  b ∈ bytes_of_string s -> TrimSpace s <> EmptyString.
Proof.
  intros He Hb Ht. assert (forall e, e ∈ space_encodings -> b ∉ e) as He'.
  { intros e Hin. apply list_elem_of_In in Hin. apply (proj1 (forallb_forall _ _) He) in Hin.
    by apply bool_decide_eq_true in Hin. }
  assert (b ∈ trim_space (bytes_of_string s)) as Hin.
  { unfold trim_space. apply elem_of_reverse. apply trim_left_keeps.
    - intros e (e' & -> & Hin)%list_elem_of_fmap. rewrite elem_of_reverse. by apply He'.
    - apply elem_of_reverse. by apply trim_left_keeps. }
  unfold TrimSpace in Ht. apply (f_equal bytes_of_string) in Ht.
  rewrite String.list_byte_of_string_of_list_byte in Ht. rewrite Ht in Hin.
  by apply elem_of_nil in Hin.
Qed.
