(* ===== verification/Text.v ===== *)
(** * Case folding, fields and numerals

    More of packages strings and strconv, for the network side of the program.
    Outside ASCII the case mappings are Unicode tables, an argument of the
    definitions that reach them. *)
From S2P Require Import Prelude Crypto GoStrings.
Local Open Scope Z_scope.

(** ** Case *)

Definition is_ascii (l : list byte) : bool := forallb (fun b => b2z b <? 128) l.
Definition lower_byte (b : byte) : byte := if in_range 65 90 b then z2b (b2z b + 32) else b.
Definition upper_byte (b : byte) : byte := if in_range 97 122 b then z2b (b2z b - 32) else b.

(** [strings.ToLower] and [strings.ToUpper]; [unicode] maps the strings that
    are not ASCII. *)
Definition ToLower (unicode : string -> string) (s : string) : string :=
  let l := bytes_of_string s in
  if is_ascii l then string_of_bytes (lower_byte <$> l) else unicode s.
Definition ToUpper (unicode : string -> string) (s : string) : string :=
  let l := bytes_of_string s in
  if is_ascii l then string_of_bytes (upper_byte <$> l) else unicode s.

(** The rest of [l] behind a rune that folds to the ASCII byte [c].  Two
    ASCII letters have a partner outside ASCII: [s] folds with U+017F, [k]
    with U+212A. *)
Definition fold_strip (c : byte) (l : list byte) : option (list byte) :=
  match l with
  | [] => None
  | b :: l' =>
      if decide (lower_byte b = lower_byte c) then Some l'
      else if decide (b2z (lower_byte c) = 115) then strip_prefix (bytes_of_Zs [197; 191]) l
      else if decide (b2z (lower_byte c) = 107) then strip_prefix (bytes_of_Zs [226; 132; 170]) l
      else None
  end.

Fixpoint fold_equal (l t : list byte) : bool :=
  match t with
  | [] => bool_decide (l = [])
  | c :: t' =>
      match fold_strip c l with
      | Some l' => fold_equal l' t'
      | None => false
      end
  end.

(** [strings.EqualFold(s, t)] for an ASCII [t]. *)
Definition EqualFold (s t : string) : bool := fold_equal (bytes_of_string s) (bytes_of_string t).

(** ** Splitting and trimming *)

(** [strings.TrimRight(s, c)] for one ASCII character. *)
Fixpoint drop_bytes (c : byte) (l : list byte) : list byte :=
  match l with
  | b :: l' => if decide (b = c) then drop_bytes c l' else l
  | [] => []
  end.
Definition TrimRight (s : string) (c : byte) : string :=
  string_of_bytes (reverse (drop_bytes c (reverse (bytes_of_string s)))).

(** [strings.ReplaceAll(s, c, "")] for one ASCII character. *)
Definition RemoveAll (s : string) (c : byte) : string :=
  string_of_bytes (filter (fun b => b <> c) (bytes_of_string s)).

Definition flush (word : list byte) : list (list byte) :=
  if decide (word = []) then [] else [word].

(** The words between runs of space runes; [word] is the one being read. *)
Fixpoint fields (fuel : nat) (word l : list byte) : list (list byte) :=
  match fuel, l with
  | S fuel', b :: l' =>
      match strip_space space_encodings l with
      | Some rest => flush word ++ fields fuel' [] rest
      | None => fields fuel' (word ++ [b]) l'
      end
  | _, _ => flush word
  end.

(** [strings.Fields] *)
Definition Fields (s : string) : list string :=
  let l := bytes_of_string s in string_of_bytes <$> fields (length l) [] l.

(** ** Numerals *)

Definition ErrSyntax : error := Sentinel "strconv.ErrSyntax" "invalid syntax".
Definition ErrRange : error := Sentinel "strconv.ErrRange" "value out of range".

Definition is_digit (b : byte) : bool := in_range 48 57 b.

Fixpoint decimal (acc : Z) (l : list byte) : option Z :=
  match l with
  | [] => Some acc
  | b :: l' => if is_digit b then decimal (10 * acc + (b2z b - 48)) l' else None
  end.

(** An optional sign: whether it is a minus, and what follows it. *)
Definition strip_sign (l : list byte) : bool * list byte :=
  match l with
  | b :: l' => if decide (b2z b = 45) then (true, l') else if decide (b2z b = 43) then (false, l') else (false, l)
  | [] => (false, l)
  end.

(** [strconv.ParseInt(s, 10, 64)], and [strconv.Atoi] with a 64-bit [int]. *)
Definition ParseInt (s : string) : result Z :=
  let '(neg, ds) := strip_sign (bytes_of_string s) in
  match ds, decimal 0 ds with
  | _ :: _, Some n =>
      let v := if (neg : bool) then - n else n in
      if (- 2 ^ 63 <=? v) && (v <? 2 ^ 63) then Ok v else Err ErrRange
  | _, _ => Err ErrSyntax
  end.
Definition Atoi : string -> result Z := ParseInt.

(** [strconv.FormatInt(z, 10)] of an [int64]: at most 19 digits. *)
Fixpoint format_digits (fuel : nat) (z : Z) : list byte :=
  match fuel with
  | O => []
  | S fuel' => (if z <? 10 then [] else format_digits fuel' (z / 10)) ++ [z2b (48 + z mod 10)]
  end.
Definition FormatInt (z : Z) : string :=
  string_of_bytes (if z <? 0 then z2b 45 :: format_digits 19 (- z) else format_digits 19 z).

(** ** Facts *)

Example ToUpper_ascii f : ToUpper f "ab-c9" = "AB-C9"%string.
Proof. vm_compute. reflexivity. Qed.

Example EqualFold_bearer : EqualFold "bEaReR " "Bearer " = true.
Proof. vm_compute. reflexivity. Qed.

(** The long s of "localho[U+017F]t". *)
Example EqualFold_long_s :
  EqualFold ("localho" +:+ string_of_bytes (bytes_of_Zs [197; 191]) +:+ "t") "LOCALHOST" = true.
Proof. vm_compute. reflexivity. Qed.

Example Fields_words : Fields "  orc:tools   read " = ["orc:tools"; "read"]%string.
Proof. vm_compute. reflexivity. Qed.

Example ParseInt_min : ParseInt "-9223372036854775808" = Ok (- 2 ^ 63).
Proof. vm_compute. reflexivity. Qed.

Example ParseInt_over : ParseInt "9223372036854775808" = Err ErrRange.
Proof. vm_compute. reflexivity. Qed.

Example FormatInt_min : FormatInt (- 2 ^ 63) = "-9223372036854775808"%string.
Proof. vm_compute. reflexivity. Qed.

Lemma ParseInt_int64 s z : ParseInt s = Ok z -> int64_ok z.
Proof.
  unfold ParseInt, int64_ok. intros H. case_guards; lia.
Qed.

Lemma bytes_of_string_of_bytes l : bytes_of_string (string_of_bytes l) = l.
Proof. apply String.list_byte_of_string_of_list_byte. Qed.

Lemma append_assoc (s t u : string) : (s +:+ t) +:+ u = s +:+ t +:+ u.
Proof.
  induction s as [|c s IH]; [done|].
  change (String c ((s +:+ t) +:+ u) = String c (s +:+ t +:+ u)). by rewrite IH.
Qed.

Lemma bytes_of_string_nil s : bytes_of_string s = [] <-> s = EmptyString.
Proof. by destruct s. Qed.

Lemma bytes_of_string_app s t : bytes_of_string (s +:+ t) = bytes_of_string s ++ bytes_of_string t.
Proof.
  induction s as [|c s IH]; [done|].
  change (Ascii.byte_of_ascii c :: bytes_of_string (s +:+ t) =
    Ascii.byte_of_ascii c :: bytes_of_string s ++ bytes_of_string t). by rewrite IH.
Qed.

Lemma length_bytes_of_string s : len (bytes_of_string s) = slen s.
Proof.
  unfold slen, String.list_byte_of_string. rewrite length_map. f_equal.
  induction s as [|c s IH]; [done|]. simpl. by rewrite IH.
Qed.

Lemma lower_upper_byte b : lower_byte (upper_byte b) = lower_byte b.
Proof.
  apply b2z_inj. apply Z.eqb_eq.
  apply (forall_byte (fun b => b2z (lower_byte (upper_byte b)) =? b2z (lower_byte b))).
  vm_compute. reflexivity.
Qed.

(** Words have no space rune at any place, and none is empty. *)
Lemma fields_nonempty fuel word l : Forall (fun w => w <> []) (fields fuel word l).
Proof.
  assert (forall w : list byte, Forall (fun w => w <> []) (flush w)) as Hf.
  { intros w. unfold flush. case_decide; by repeat constructor. }
  revert word l. induction fuel as [|fuel IH]; intros word l; simpl; [by auto|].
  destruct l as [|b l]; [by auto|]. case_match; [apply Forall_app|]; auto.
Qed.

Lemma Fields_nonempty s : Forall (fun w => w <> EmptyString) (Fields s).
Proof.
  apply Forall_fmap. eapply Forall_impl; [apply fields_nonempty|].
  intros w Hw E. apply Hw. simpl in E.
  by rewrite <- (bytes_of_string_of_bytes w), E.
Qed.

(** ** Trimming twice *)

Lemma strip_prefix_app p l : strip_prefix p (p ++ l) = Some l.
Proof. induction p as [|a p IH]; [done|]. simpl. by rewrite decide_True. Qed.

(** Nothing to strip from [l]. *)
Definition no_space (encs : list (list byte)) (l : list byte) : Prop := forall e, e ∈ encs -> strip_prefix e l = None.

Lemma strip_space_None encs l : strip_space encs l = None <-> no_space encs l.
Proof.
  unfold strip_space, no_space. induction encs as [|e encs IH]; simpl; [by split; [intros _ e ?%elem_of_nil|]|].
  destruct (strip_prefix e l) eqn:E; simpl.
  - split; [done|]. intros H. specialize (H e (list_elem_of_here _ _)). congruence.
  - rewrite IH. split; [intros H e' [->|?]%elem_of_cons; auto|]. intros H e' ?. apply H. by right.
Qed.

Lemma strip_space_Some encs l r : strip_space encs l = Some r -> exists e, e ∈ encs /\ l = e ++ r.
Proof.
  unfold strip_space. induction encs as [|e encs IH]; simpl; [done|]. destruct (strip_prefix e l) eqn:E; simpl.
  - intros [= ->]. apply strip_prefix_Some in E. exists e. split; [apply list_elem_of_here|done].
  - intros H. apply IH in H as (e' & ? & ?). exists e'. split; [by right|done].
Qed.

Lemma no_space_prefix encs l k : no_space encs (l ++ k) -> no_space encs l.
Proof.
  intros H e He. destruct (strip_prefix e l) as [r|] eqn:E; [|done]. apply strip_prefix_Some in E.
  specialize (H e He). rewrite E, <- app_assoc, strip_prefix_app in H. done.
Qed.

Lemma trim_left_id encs fuel l : no_space encs l -> trim_left fuel encs l = l.
Proof. intros H%strip_space_None. destruct fuel; simpl; [done|]. by rewrite H. Qed.

Lemma trim_left_suffix encs fuel l : exists k, l = k ++ trim_left fuel encs l.
Proof.
  revert l. induction fuel as [|fuel IH]; intros l; simpl; [by exists []|].
  destruct (strip_space encs l) as [r|] eqn:E; [|by exists []]. apply strip_space_Some in E as (e & _ & ->).
  destruct (IH r) as [k Hk]. exists (e ++ k). by rewrite <- app_assoc, <- Hk.
Qed.

Lemma trim_left_no_space encs fuel l :
  Forall (fun e => e <> []) encs -> (length l <= fuel)%nat -> no_space encs (trim_left fuel encs l).
Proof.
  intros He. revert l. induction fuel as [|fuel IH]; intros l Hl.
  - destruct l; [|simpl in Hl; lia]. intros [|a e] Hin; [|done]. rewrite Forall_forall in He. by apply He in Hin.
  - simpl. destruct (strip_space encs l) as [r|] eqn:E; [|by apply strip_space_None]. apply IH.
    apply strip_space_Some in E as (e & Hin & ->). rewrite Forall_forall in He. apply He in Hin.
    rewrite length_app in Hl. destruct e; [done|]. simpl in Hl. lia.
Qed.

Lemma trim_space_idemp l : trim_space (trim_space l) = trim_space l.
Proof.
  assert (Forall (fun e => e <> []) space_encodings) as H1.
  { apply (bool_decide_unpack _). vm_compute. exact I. }
  assert (Forall (fun e => e <> []) (reverse <$> space_encodings)) as H2.
  { apply (bool_decide_unpack _). vm_compute. exact I. }
  unfold trim_space at 2 3. set (l1 := trim_left _ _ l). set (r := trim_left _ _ (reverse l1)).
  assert (no_space space_encodings l1) as Hl by (by apply trim_left_no_space).
  assert (no_space (reverse <$> space_encodings) r) as Hr by (apply trim_left_no_space; [done|by rewrite length_reverse]).
  destruct (trim_left_suffix (reverse <$> space_encodings) (length l1) (reverse l1)) as [k Hk]. fold r in Hk.
  assert (l1 = reverse r ++ reverse k) as E by (by rewrite <- reverse_app, <- Hk, reverse_involutive).
  unfold trim_space. rewrite (trim_left_id space_encodings) by (rewrite E in Hl; by apply no_space_prefix in Hl).
  by rewrite reverse_involutive, trim_left_id.
Qed.

Lemma TrimSpace_idemp s : TrimSpace (TrimSpace s) = TrimSpace s.
Proof. unfold TrimSpace. by rewrite bytes_of_string_of_bytes, trim_space_idemp. Qed.

(** *** [ParseInt] reads what [FormatInt] wrote *)

Lemma digits_app l k acc :
  Forall (fun b => is_digit b = true) l -> decimal acc (l ++ k) = (a ← decimal acc l; decimal a k).
Proof. intros H. revert acc. induction H as [|b l Hb _ IH]; intros acc; [done|]. cbn. rewrite Hb. apply IH. Qed.

Lemma format_digits_spec fuel z :
  0 <= z < 10 ^ Z.of_nat fuel -> (fuel <> 0)%nat ->
  Forall (fun b => is_digit b = true) (format_digits fuel z) /\ format_digits fuel z <> [] /\ decimal 0 (format_digits fuel z) = Some z.
Proof.
  revert z. induction fuel as [|fuel IH]; intros z Hz Hf; [done|]. cbn [format_digits].
  pose proof (Z.mod_pos_bound z 10 ltac:(lia)) as Hm.
  assert (is_digit (z2b (48 + z mod 10)) = true) as Hd.
  { unfold is_digit, in_range. rewrite b2z_z2b_small by lia. apply andb_true_iff. rewrite !Z.leb_le. lia. }
  rewrite Nat2Z.inj_succ, Z.pow_succ_r in Hz by lia.
  assert (forall a, decimal a [z2b (48 + z mod 10)] = Some (10 * a + z mod 10)) as Hl.
  { intros a. cbn [decimal]. rewrite Hd, b2z_z2b_small by lia. f_equal. lia. }
  split_and!.
  - apply Forall_app. split; [|by repeat constructor]. destruct (z <? 10); [constructor|].
    destruct fuel; [constructor|]. apply IH; [|done]. split; [apply Z.div_pos; lia|apply Z.div_lt_upper_bound; lia].
  - by destruct (if z <? 10 then [] else _).
  - destruct (z <? 10) eqn:E; bool_props.
    + cbn [app]. rewrite Hl, Z.mod_small by lia. f_equal; lia.
    + destruct fuel as [|fuel]; [rewrite Z.pow_0_r in Hz; lia|].
      destruct (IH (z / 10)) as (Hds & _ & Hv); [split; [apply Z.div_pos; lia|apply Z.div_lt_upper_bound; lia]|done|].
      rewrite digits_app by done. rewrite Hv. cbn [mbind option_bind]. rewrite Hl. f_equal.
      pose proof (Z.div_mod z 10). lia.
Qed.

Lemma ParseInt_FormatInt z : int64_ok z -> ParseInt (FormatInt z) = Ok z.
Proof.
  unfold int64_ok, ParseInt, FormatInt. intros Hz. rewrite bytes_of_string_of_bytes.
  destruct (z <? 0) eqn:E; bool_props.
  - cbn [strip_sign]. rewrite decide_True by done.
    destruct (format_digits_spec 19 (- z)) as (_ & Hne & Hv); [change (10 ^ Z.of_nat 19) with (10^19); lia|done|].
    destruct (format_digits 19 (- z)); [done|]. cbv iota. rewrite Hv, Z.opp_involutive.
    by rewrite (proj2 (Z.leb_le _ _)), (proj2 (Z.ltb_lt _ _)) by lia.
  - destruct (format_digits_spec 19 z) as (Hds & Hne & Hv); [change (10 ^ Z.of_nat 19) with (10^19); lia|done|].
    destruct (format_digits 19 z) as [|b l] eqn:Ef; [done|]. 
    apply Forall_cons in Hds as [Hb _]. unfold is_digit, in_range in Hb. bool_props.
    cbn [strip_sign]. rewrite !decide_False by lia. cbv iota. rewrite Hv.
    by rewrite (proj2 (Z.leb_le _ _)), (proj2 (Z.ltb_lt _ _)) by lia.
Qed.
