(* ===== verification/Json.v ===== *)
(** * JSON values, as encoding/json decodes them into structs

    A [json] is a parsed text: object entries in the order of the text, number
    literals as they are written.  A [json.RawMessage] holds such a value,
    absent ones are [None].  Decoding goes on behind a value of the wrong
    type and reports the first such error at the end, so the target can be
    partly filled: a decoder returns the new target and whether all went
    well. *)
From S2P Require Import Prelude Crypto GoStrings Text.

Inductive json : Type :=
| JNull
| JBool (b : bool)
| JNumber (text : string)
| JString (s : string)
| JArray (l : list json)
| JObject (l : list (string * json)).

(** [len(raw) == 0 || string(raw) == "null"] *)
Definition absent_or_null (raw : option json) : bool :=
  match raw with None | Some JNull => true | _ => false end.

(** ** Decoding into one variable *)

Definition decode_string (v : json) (old : string) : string * bool :=
  match v with JNull => (old, true) | JString s => (s, true) | _ => (old, false) end.
Definition decode_bool (v : json) (old : bool) : bool * bool :=
  match v with JNull => (old, true) | JBool b => (b, true) | _ => (old, false) end.

(** A [map[string]json.RawMessage]; [None] is the nil map. *)
Definition decode_raw_map (v : json) (old : option (gmap string json))
    : option (gmap string json) * bool :=
  match v with
  | JNull => (None, true)
  | JObject kvs => (Some (foldl (fun m kv => <[kv.1 := kv.2]> m) (default ∅ old) kvs), true)
  | _ => (old, false)
  end.

(** ** Decoding into a struct

    [set key v a] stores [v] in the field that [key] names, exactly or up to
    case, and does nothing for a key that names none. *)
Definition decode_struct {A} (set : string -> json -> A -> A * bool) (v : json) (a : A) : A * bool :=
  match v with
  | JNull => (a, true)
  | JObject kvs =>
      foldl (fun '(a, ok) kv => let '(a', ok') := set kv.1 kv.2 a in (a', ok && ok')) (a, true) kvs
  | _ => (a, false)
  end.

(** ** Decoding into [any]

    Numbers become [float64] values; [float64 text] is the numeral that
    encoding/json writes for the nearest one, and [None] when there is none. *)
Section any.
Context (float64 : string -> option string).

Definition set_key {A} (k : string) (v : A) (l : list (string * A)) : list (string * A) :=
  filter (fun kv => kv.1 <> k) l ++ [(k, v)].

Fixpoint to_any (v : json) : option json :=
  match v with
  | JNull | JBool _ | JString _ => Some v
  | JNumber t => JNumber <$> float64 t
  | JArray l =>
      JArray <$> (fix go l := match l with
                  | [] => Some []
                  | x :: l' => y ← to_any x; ys ← go l'; Some (y :: ys)
                  end) l
  | JObject kvs =>
      JObject <$> (fix go kvs acc := match kvs with
                   | [] => Some acc
                   | (k, x) :: kvs' => y ← to_any x; go kvs' (set_key k y acc)
                   end) kvs []
  end.
End any.

(** ** Facts *)

Lemma decode_string_JString s old : decode_string (JString s) old = (s, true).
Proof. done. Qed.

(** Decoding an object stores its entries one after the other. *)
Lemma decode_struct_snoc {A} (set : string -> json -> A -> A * bool) kvs k v a :
  decode_struct set (JObject (kvs ++ [(k, v)])) a =
    let '(a', ok) := decode_struct set (JObject kvs) a in
    let '(a'', ok') := set k v a' in (a'', ok && ok').
Proof. simpl. rewrite foldl_app. simpl. by destruct (foldl _ _ kvs). Qed.

(** Two structs that read the same field read the same value, also when the
    decoding of one of them fails elsewhere. *)
Lemma decode_struct_project {A B} (f : A -> B) (set : string -> json -> A -> A * bool)
    (set' : string -> json -> B -> B * bool) v a :
  (forall k x a, f (set k x a).1 = (set' k x (f a)).1) ->
  f (decode_struct set v a).1 = (decode_struct set' v (f a)).1.
Proof.
  intros Hset. destruct v as [| | | | |kvs]; try done.
  induction kvs as [|[k x] kvs IH] using rev_ind; [done|].
  rewrite !decode_struct_snoc.
  destruct (decode_struct set (JObject kvs) a) as [a1 ok1], (decode_struct set' (JObject kvs) (f a)) as [b1 ok2].
  simpl in IH. subst b1. specialize (Hset k x a1).
  destruct (set k x a1), (set' k x (f a1)). by simpl in *.
Qed.
