(* ===== verification/Http.v ===== *)
(** * Requests, addresses and bearer tokens

    What the handlers read of a [*http.Request], [net.SplitHostPort], and
    [BearerToken] of internal/authn/authn.go. *)
From S2P Require Import Prelude Crypto GoStrings Text.
Local Open Scope Z_scope.

(** [Header] maps canonical names to values; [Query] and [Form] hold the first
    value of each parameter, [PathValue] the wildcards of the matched route. *)
Record Request := mkRequest {
  Request_Method : string;
  Request_Header : gmap string (list string);
  Request_RemoteAddr : string;
  Request_Query : gmap string string;
  Request_Form : result (gmap string string);
  Request_PathValue : gmap string string;
  Request_Body : list byte }.

(** ** Header names *)

(** The bytes of a header name: letters, digits and some punctuation. *)
Definition is_token_byte (b : byte) : bool :=
  in_range 48 57 b || in_range 65 90 b || in_range 97 122 b ||
  bool_decide (b2z b ∈ [33; 35; 36; 37; 38; 39; 42; 43; 45; 46; 94; 95; 96; 124; 126]).

Fixpoint canonical_bytes (upper : bool) (l : list byte) : list byte :=
  match l with
  | [] => []
  | b :: l' => (if upper then upper_byte b else lower_byte b) :: canonical_bytes (b2z b =? 45) l'
  end.

(** [textproto.CanonicalMIMEHeaderKey] *)
Definition CanonicalMIMEHeaderKey (s : string) : string :=
  let l := bytes_of_string s in
  if forallb is_token_byte l then string_of_bytes (canonical_bytes true l) else s.

(** [h.Get(key)] and [h.Set(key, value)] *)
Definition Header_Get (h : gmap string (list string)) (key : string) : string :=
  match h !! CanonicalMIMEHeaderKey key with
  | Some (v :: _) => v
  | _ => EmptyString
  end.
Definition Header_Set (key value : string) (h : gmap string (list string))
    : gmap string (list string) :=
  <[CanonicalMIMEHeaderKey key := [value]]> h.

Definition Request_Get (r : Request) (key : string) : string := Header_Get (Request_Header r) key.
Definition Request_Set (key value : string) (r : Request) : Request :=
  mkRequest (Request_Method r) (Header_Set key value (Request_Header r)) (Request_RemoteAddr r)
    (Request_Query r) (Request_Form r) (Request_PathValue r) (Request_Body r).

(** [func BearerToken(r *http.Request) (string, bool)]; [None] is [("", false)],
    and so is a blank token. *)
Definition BearerToken (r : Request) : option string :=
  let h := TrimSpace (Request_Get r "Authorization") in
  if (slen h <? 8) || negb (EqualFold (String.substring 0 7 h) "Bearer ") then None
  else
    let t := TrimSpace (String.substring 7 (String.length h - 7) h) in
    if decide (t = EmptyString) then None else Some t.

(** ** Network addresses *)

Definition ErrAddr : error := Foreign "net.AddrError".

(** The position of the last, the first [c]. *)
Fixpoint last_index (c : byte) (l : list byte) : option nat :=
  match l with
  | [] => None
  | b :: l' =>
      match last_index c l' with
      | Some i => Some (S i)
      | None => if decide (b = c) then Some O else None
      end
  end.
Fixpoint first_index (c : byte) (l : list byte) : option nat :=
  match l with
  | [] => None
  | b :: l' => if decide (b = c) then Some O else S <$> first_index c l'
  end.

Definition colon : byte := z2b 58.
Definition bracket_open : byte := z2b 91.
Definition bracket_close : byte := z2b 93.

(** [net.SplitHostPort] on bytes; [j] and [k] are the places from which no
    bracket may follow. *)
Definition check_brackets (l : list byte) (j k : nat) (host port : list byte)
    : result (list byte * list byte) :=
  if bool_decide (bracket_open ∈ drop j l) || bool_decide (bracket_close ∈ drop k l) then Err ErrAddr
  else Ok (host, port).

Definition split_host_port (l : list byte) : result (list byte * list byte) :=
  match last_index colon l with
  | None => Err ErrAddr
  | Some i =>
      let port := drop (S i) l in
      if decide (head l = Some bracket_open) then
        match first_index bracket_close l with
        | None => Err ErrAddr
        | Some e =>
            if decide (S e = i) then check_brackets l 1 (S e) (take (e - 1) (drop 1 l)) port
            else Err ErrAddr
        end
      else
        let host := take i l in
        if decide (colon ∈ host) then Err ErrAddr else check_brackets l 0 0 host port
  end.

Definition SplitHostPort (hostport : string) : result (string * string) :=
  '(h, p) ← split_host_port (bytes_of_string hostport); Ok (string_of_bytes h, string_of_bytes p).

(** [ip.IsLoopback()] for an address in its 16-byte form: an IPv4 address
    begins with ten zeros and two bytes of ones. *)
Definition IsLoopback (ip : list byte) : bool :=
  if decide (take 12 ip = bytes_of_Zs [0; 0; 0; 0; 0; 0; 0; 0; 0; 0; 255; 255] /\ length ip = 16%nat) then
    bool_decide (b2z <$> ip !! 12%nat = Some 127)
  else bool_decide (ip = bytes_of_Zs [0; 0; 0; 0; 0; 0; 0; 0; 0; 0; 0; 0; 0; 0; 0; 1]).

(** ** Facts *)

Example canonical_mcp : CanonicalMIMEHeaderKey "MCP-Protocol-Version" = "Mcp-Protocol-Version"%string.
Proof. vm_compute. reflexivity. Qed.

Example split_v4 : SplitHostPort "127.0.0.1:8080" = Ok ("127.0.0.1", "8080")%string.
Proof. vm_compute. reflexivity. Qed.

Example split_v6 : SplitHostPort "[::1]:80" = Ok ("::1", "80")%string.
Proof. vm_compute. reflexivity. Qed.

Example split_bare_v6 : SplitHostPort "::1:80" = Err ErrAddr.
Proof. vm_compute. reflexivity. Qed.

Lemma Request_Get_Set r k v : Request_Get (Request_Set k v r) k = v.
Proof. unfold Request_Get, Header_Get, Request_Set, Header_Set. simpl. by rewrite lookup_insert_eq. Qed.

Lemma Request_Get_Set_ne r k k' v :
  CanonicalMIMEHeaderKey k <> CanonicalMIMEHeaderKey k' -> Request_Get (Request_Set k v r) k' = Request_Get r k'.
Proof. intros. unfold Request_Get, Header_Get, Request_Set, Header_Set. simpl. by rewrite lookup_insert_ne. Qed.

(** ** Tokens without space *)

(** Printable ASCII is never trimmed. *)
Definition graphic (b : byte) : bool := in_range 33 126 b.

Definition starts_none (encs : list (list byte)) (b : byte) : bool :=
  forallb (fun e => match e with c :: _ => negb (bool_decide (c = b)) | [] => false end) encs.

Lemma strip_space_none encs b l : starts_none encs b = true -> strip_space encs (b :: l) = None.
Proof.
  intros He. unfold strip_space. induction encs as [|e encs IH]; [done|]. simpl in *.
  apply andb_true_iff in He as [He1 He2]. destruct e as [|c e]; [done|]. simpl.
  bool_props. rewrite decide_False by done. by apply IH.
Qed.

Lemma graphic_starts_none b :
  graphic b = true ->
  starts_none space_encodings b = true /\ starts_none (reverse <$> space_encodings) b = true.
Proof.
  assert (forall b, negb (graphic b) ||
    (starts_none space_encodings b && starts_none (reverse <$> space_encodings) b) = true) as H.
  { apply (forall_byte (fun b => negb (graphic b) ||
      (starts_none space_encodings b && starts_none (reverse <$> space_encodings) b))).
    vm_compute. reflexivity. }
  specialize (H b).
  intros Hb. cbv beta in H. rewrite Hb in H. by apply andb_true_iff in H.
Qed.

Lemma trim_left_none fuel encs l :
  match l with b :: _ => starts_none encs b = true | [] => encs = space_encodings \/ encs = reverse <$> space_encodings end ->
  trim_left fuel encs l = l.
Proof.
  destruct fuel as [|fuel]; [done|]. destruct l as [|b l]; simpl.
  - by intros [-> | ->].
  - intros H. by rewrite strip_space_none.
Qed.

Lemma trim_space_graphic l : Forall (fun b => graphic b = true) l -> trim_space l = l.
Proof.
  intros Hl. unfold trim_space. rewrite (trim_left_none _ space_encodings l).
  2:{ destruct Hl; [by left|]. by apply graphic_starts_none. }
  rewrite trim_left_none; [by rewrite reverse_involutive|].
  apply Forall_reverse in Hl. destruct Hl; [by right|]. by apply graphic_starts_none.
Qed.

Lemma substring_all t : String.substring 0 (String.length t) t = t.
Proof. induction t as [|c t IH]; [done|]. simpl. by rewrite IH. Qed.

Lemma substring_app n s t : String.length s = n -> String.substring n (String.length (s +:+ t) - n) (s +:+ t) = t.
Proof.
  revert n. induction s as [|c s IH]; intros n <-; simpl.
  - rewrite Nat.sub_0_r. apply substring_all.
  - exact (IH _ eq_refl).
Qed.

Lemma substring_prefix n s t : String.length s = n -> String.substring 0 n (s +:+ t) = s.
Proof.
  revert n. induction s as [|c s IH]; intros n <-; simpl; [by destruct t|]. f_equal. by apply IH.
Qed.

Lemma TrimSpace_graphic s : Forall (fun b => graphic b = true) (bytes_of_string s) -> TrimSpace s = s.
Proof.
  intros H. unfold TrimSpace. rewrite trim_space_graphic by done. apply String.string_of_list_byte_of_string.
Qed.

Lemma trim_space_bearer t :
  t <> [] -> Forall (fun b => graphic b = true) t ->
  trim_space (bytes_of_string "Bearer " ++ t) = bytes_of_string "Bearer " ++ t.
Proof.
  intros Hne Ht. unfold trim_space. rewrite (trim_left_none _ space_encodings) by (vm_compute; reflexivity).
  rewrite trim_left_none; [by rewrite reverse_involutive|].
  rewrite reverse_app. apply Forall_reverse in Ht. destruct (reverse t) as [|b t'] eqn:E.
  - apply (f_equal reverse) in E. rewrite reverse_involutive in E. done.
  - apply Forall_cons in Ht as [Hb _]. simpl. by apply graphic_starts_none.
Qed.

(** A header "Bearer t" carries the token [t]. *)
Lemma BearerToken_of_graphic r t :
  t <> EmptyString -> Forall (fun b => graphic b = true) (bytes_of_string t) ->
  Request_Get r "Authorization" = "Bearer " +:+ t -> BearerToken r = Some t.
Proof.
  intros Hne Ht Hh. unfold BearerToken. rewrite Hh.
  assert (TrimSpace ("Bearer " +:+ t) = "Bearer " +:+ t) as ->.
  { unfold TrimSpace. rewrite bytes_of_string_app, trim_space_bearer; [|by rewrite bytes_of_string_nil|done].
    rewrite <- bytes_of_string_app. apply String.string_of_list_byte_of_string. }
  rewrite (substring_prefix 7), (substring_app 7) by done.
  rewrite TrimSpace_graphic by done.
  assert (slen ("Bearer " +:+ t) <? 8 = false) as ->.
  { unfold slen. destruct t; [done|]. apply Z.ltb_ge. simpl. lia. }
  simpl. by rewrite decide_False.
Qed.
