(* ===== verification/Base64.v ===== *)
(** * encoding/base64: StdEncoding and RawURLEncoding

    [EncodeToString] and [DecodeString] as the program uses them: the standard
    alphabet with padding and the URL alphabet without.  Decoders skip
    carriage returns and newlines, and ignore the unused bits of the last
    character. *)
From S2P Require Import Prelude Crypto.
Local Open Scope Z_scope.

Inductive encoding := StdEncoding | RawURLEncoding.

#[global] Instance encoding_eq_dec : EqDecision encoding.
Proof. solve_decision. Defined.

(** The characters of 62 and 63. *)
Definition c62 (e : encoding) : Z := match e with StdEncoding => 43 | RawURLEncoding => 45 end.
Definition c63 (e : encoding) : Z := match e with StdEncoding => 47 | RawURLEncoding => 95 end.

(** The character of a six-bit value. *)
Definition digit (e : encoding) (v : Z) : byte :=
  z2b (if v <? 26 then 65 + v
       else if v <? 52 then 71 + v
       else if v <? 62 then v - 4
       else if v <? 63 then c62 e else c63 e).

(** The six-bit value of a character. *)
Definition value (e : encoding) (b : byte) : option Z :=
  let c := b2z b in
  if (65 <=? c) && (c <=? 90) then Some (c - 65)
  else if (97 <=? c) && (c <=? 122) then Some (c - 71)
  else if (48 <=? c) && (c <=? 57) then Some (c + 4)
  else if c =? c62 e then Some 62
  else if c =? c63 e then Some 63
  else None.

Definition pad : byte := z2b 61.

(** The padding of a last quantum that lacks [n] characters. *)
Definition padding (e : encoding) (n : nat) : list byte :=
  match e with StdEncoding => replicate n pad | RawURLEncoding => [] end.

Fixpoint encode (e : encoding) (l : list byte) : list byte :=
  match l with
  | [] => []
  | [a] =>
      digit e (b2z a / 4) :: digit e (b2z a mod 4 * 16) :: padding e 2
  | [a; b] =>
      digit e (b2z a / 4) :: digit e (b2z a mod 4 * 16 + b2z b / 16) ::
      digit e (b2z b mod 16 * 4) :: padding e 1
  | a :: b :: c :: l' =>
      digit e (b2z a / 4) :: digit e (b2z a mod 4 * 16 + b2z b / 16) ::
      digit e (b2z b mod 16 * 4 + b2z c / 64) :: digit e (b2z c mod 64) :: encode e l'
  end.

(** The bytes of a last quantum of two or three characters. *)
Definition last_1 (e : encoding) (w x : byte) : option (list byte) :=
  a ← value e w; b ← value e x; Some [z2b (a * 4 + b / 16)].
Definition last_2 (e : encoding) (w x y : byte) : option (list byte) :=
  a ← value e w; b ← value e x; c ← value e y;
  Some [z2b (a * 4 + b / 16); z2b (b mod 16 * 16 + c / 4)].

(** Quanta of four characters.  With padding, it completes the last quantum
    and ends the input; without, the last quantum may be short. *)
Fixpoint decode_quanta (e : encoding) (l : list byte) : option (list byte) :=
  match l with
  | [] => Some []
  | [w; x] => match e with RawURLEncoding => last_1 e w x | StdEncoding => None end
  | [w; x; y] => match e with RawURLEncoding => last_2 e w x y | StdEncoding => None end
  | w :: x :: y :: z :: rest =>
      if decide (e = StdEncoding /\ z = pad /\ rest = []) then
        if decide (y = pad) then last_1 e w x else last_2 e w x y
      else
        a ← value e w;
        b ← value e x;
        c ← value e y;
        d ← value e z;
        l' ← decode_quanta e rest;
        Some (z2b (a * 4 + b / 16) :: z2b (b mod 16 * 16 + c / 4) :: z2b (c mod 4 * 64 + d) :: l')
  | _ => None
  end.

Definition is_newline (b : byte) : bool := (b2z b =? 10) || (b2z b =? 13).

Definition decode (e : encoding) (l : list byte) : option (list byte) :=
  decode_quanta e (filter (fun b => is_newline b = false) l).

(** [func (enc *Encoding) EncodeToString] and [DecodeString] *)
Definition Encoding_EncodeToString (e : encoding) (b : list byte) : string :=
  string_of_bytes (encode e b).
Definition Encoding_DecodeString (e : encoding) (s : string) : result (list byte) :=
  match decode e (bytes_of_string s) with
  | Some b => Ok b
  | None => Err (Foreign "base64.CorruptInputError")
  end.

(** [base64.StdEncoding.EncodeToString] and [DecodeString] *)
Definition EncodeToString : list byte -> string := Encoding_EncodeToString StdEncoding.
Definition DecodeString : string -> result (list byte) := Encoding_DecodeString StdEncoding.

(** ** Decoding undoes encoding *)

Lemma digit_spec e v :
  0 <= v < 64 -> value e (digit e v) = Some v /\ digit e v <> pad /\
    is_newline (digit e v) = false /\ b2z (digit e v) <> 46.
Proof.
  intros Hv. pose proof (forall_range 64 (fun v =>
    match value e (digit e v) with Some w => w =? v | None => false end &&
    (negb (b2z (digit e v) =? 61) && (negb (is_newline (digit e v)) && negb (b2z (digit e v) =? 46))))
    ltac:(destruct e; vm_compute; reflexivity) v Hv) as H.
  cbv beta in H. bool_props. split_and!; [|intros E; by rewrite E in *|done|done].
  destruct (value e (digit e v)); bool_props; congruence.
Qed.

Lemma value_digit e v : 0 <= v < 64 -> value e (digit e v) = Some v.
Proof. intros. by apply digit_spec. Qed.

Lemma digit_not_pad e v : 0 <= v < 64 -> digit e v <> pad.
Proof. intros. by apply digit_spec. Qed.

Lemma list_ind3 {A} (P : list A -> Prop) :
  P [] -> (forall a, P [a]) -> (forall a b, P [a; b]) ->
  (forall a b c l, P l -> P (a :: b :: c :: l)) -> forall l, P l.
Proof.
  intros H0 H1 H2 H3 l. assert (P l /\ (forall a, P (a :: l)) /\ forall a b, P (a :: b :: l)) as [? _]; [|done].
  induction l as [|x l (IH0 & IH1 & IH2)]; [done|]. split_and!; auto.
Qed.

Ltac sextets a :=
  let H := fresh in pose proof (b2z_range a) as H;
  pose proof (Z.div_mod (b2z a) 4 ltac:(lia)); pose proof (Z.mod_pos_bound (b2z a) 4 ltac:(lia));
  pose proof (Z.div_mod (b2z a) 16 ltac:(lia)); pose proof (Z.mod_pos_bound (b2z a) 16 ltac:(lia));
  pose proof (Z.div_mod (b2z a) 64 ltac:(lia)); pose proof (Z.mod_pos_bound (b2z a) 64 ltac:(lia)).

(** The three bytes of a quantum, from its sextets. *)
Lemma join_12 a b : 0 <= b < 16 -> b2z a / 4 * 4 + (b2z a mod 4 * 16 + b) / 16 = b2z a.
Proof.
  intros. rewrite Z.div_add_l, (Z.div_small b) by lia. pose proof (Z.div_mod (b2z a) 4). lia.
Qed.

Lemma mod_drop x n y : 0 <= y < n -> (x * n + y) mod n = y.
Proof. intros. rewrite Z.add_comm, Z_mod_plus_full. by apply Z.mod_small. Qed.

Lemma join_23 x b c :
  0 <= c < 4 -> (x * 16 + b2z b / 16) mod 16 * 16 + (b2z b mod 16 * 4 + c) / 4 = b2z b.
Proof.
  intros. sextets b. rewrite mod_drop by lia. rewrite Z.div_add_l, (Z.div_small c) by lia. lia.
Qed.

Lemma join_34 x c : (x * 4 + b2z c / 64) mod 4 * 64 + b2z c mod 64 = b2z c.
Proof. sextets c. rewrite mod_drop by lia. lia. Qed.

Ltac decode_digits :=
  unfold last_1, last_2; rewrite ?value_digit by lia; cbn [mbind option_bind].

Lemma decode_quanta_encode e l : decode_quanta e (encode e l) = Some l.
Proof.
  induction l as [|a|a b|a b c l IH] using list_ind3; cbn [encode decode_quanta].
  - done.
  - sextets a. destruct e; cbn [padding replicate decode_quanta].
    + rewrite !decide_True by done. decode_digits.
      rewrite <- (Z.add_0_r (b2z a mod 4 * 16)), join_12 by lia. by rewrite z2b_b2z.
    + decode_digits. rewrite <- (Z.add_0_r (b2z a mod 4 * 16)), join_12 by lia. by rewrite z2b_b2z.
  - sextets a. sextets b. destruct e; cbn [padding replicate decode_quanta].
    + rewrite decide_True by done. rewrite decide_False by (apply digit_not_pad; lia). decode_digits.
      rewrite <- (Z.add_0_r (b2z b mod 16 * 4)), join_12, join_23 by lia. by rewrite !z2b_b2z.
    + decode_digits. rewrite <- (Z.add_0_r (b2z b mod 16 * 4)), join_12, join_23 by lia. by rewrite !z2b_b2z.
  - sextets a. sextets b. sextets c.
    rewrite decide_False by (intros (_ & E & _); revert E; apply digit_not_pad; lia).
    decode_digits. rewrite IH. cbn [mbind option_bind].
    rewrite join_12, join_23, join_34 by lia. by rewrite !z2b_b2z.
Qed.

(** Encoded text has no newline and no dot. *)
Lemma encode_chars e l : Forall (fun b => is_newline b = false /\ b2z b <> 46) (encode e l).
Proof.
  assert (is_newline pad = false /\ b2z pad <> 46) as Hp by (split; [vm_compute; reflexivity|done]).
  induction l as [|a|a b|a b c l IH] using list_ind3; cbn [encode]; [done|..];
    try sextets a; try sextets b; try sextets c;
    repeat (constructor; [first [done | apply digit_spec; lia]|]); try done; destruct e; by repeat constructor.
Qed.

Lemma Encoding_DecodeString_EncodeToString e l :
  Encoding_DecodeString e (Encoding_EncodeToString e l) = Ok l.
Proof.
  unfold Encoding_DecodeString, Encoding_EncodeToString, decode.
  rewrite String.list_byte_of_string_of_list_byte, filter_Forall_id, decode_quanta_encode; [done|].
  eapply Forall_impl; [apply encode_chars|]. by intros ? [].
Qed.

Lemma DecodeString_EncodeToString l : DecodeString (EncodeToString l) = Ok l.
Proof. apply Encoding_DecodeString_EncodeToString. Qed.

Example encode_foobar : EncodeToString (bytes_of_string "fooba") = "Zm9vYmE="%string.
Proof. vm_compute. reflexivity. Qed.

Example encode_raw_url : Encoding_EncodeToString RawURLEncoding (z2b <$> [251; 239; 255; 250]) = "--__-g"%string.
Proof. vm_compute. reflexivity. Qed.
