(* ===== verification/Authn.v ===== *)
(** * Authentication: internal/authn/authn.go, trusted.go

    Identities, the HMAC token issuer and verifier, the caching introspection
    verifier, and the trust in loopback connections.  [json.Marshal] and
    [json.Unmarshal] of [Claims] are arguments; so is the answer of the
    introspection endpoint, as the JSON value found in its first 64 KiB. *)
From S2P Require Import Prelude Crypto GoStrings Text Json Http Base64.
Local Open Scope Z_scope.

Definition ErrInvalidToken : error := Sentinel "authn.ErrInvalidToken" "invalid token".
Definition ErrScope : error := Sentinel "authn.ErrScope" "insufficient scope".

Record Identity := mkIdentity {
  Identity_Subject : string;
  Identity_Scopes : gset string;
  Identity_Expiry : Z }.

(** [func (i Identity) HasScope(scope string) bool] *)
Definition HasScope (i : Identity) (scope : string) : bool := bool_decide (scope ∈ Identity_Scopes i).

(** [func Require(ctx, verifier Verifier, token, scope string)]; [verify] is
    the verifier's method. *)
Definition Require_ (verify : string -> result Identity) (token scope : string) : result Identity :=
  match verify token with
  | Err e => Err e
  | Ok id =>
      if bool_decide (scope <> EmptyString) && negb (HasScope id scope) then Err ErrScope else Ok id
  end.

(** [t.Unix()] and [time.Unix(sec, 0)]: seconds since 1970, with the wrap-around
    of 64-bit integers. *)
Definition unixToInternal : Z := 62135596800.
Definition Unix (t : Z) : Z := wrap64 (t / Second - unixToInternal).
Definition time_Unix (sec : Z) : Z := wrap64 (sec + unixToInternal) * Second.

(** ** HMAC tokens *)

Record Claims := mkClaims {
  Claims_Subject : string;
  Claims_Audience : string;
  Claims_Scopes : list string;
  Claims_Expiry : Z;
  Claims_IssuedAt : Z }.

Record HMACVerifier := mkHMACVerifier { hv_secret : list byte; hv_audience : string }.

(** [func NewHMACVerifier(secret []byte, audience string)] *)
Definition NewHMACVerifier (secret : list byte) (audience : string) : result HMACVerifier :=
  if len secret <? 32 then Err (New "HMAC secret must be at least 32 bytes")
  else if decide (TrimSpace audience = EmptyString) then Err (New "audience is required")
  else Ok (mkHMACVerifier secret audience).

Definition dot : Ascii.ascii := Ascii.ascii_of_nat 46.
Definition RawURL_Encode (b : list byte) : string := Encoding_EncodeToString RawURLEncoding b.
Definition RawURL_Decode (s : string) : result (list byte) := Encoding_DecodeString RawURLEncoding s.

(** The text [{"alg":"HS256","typ":"JWT"}]; 34 is the quotation mark. *)
Definition quoted (s : string) : list byte := z2b 34 :: bytes_of_string s ++ [z2b 34].
Definition jwt_header : list byte :=
  bytes_of_string "{" ++ quoted "alg" ++ bytes_of_string ":" ++ quoted "HS256" ++
  bytes_of_string "," ++ quoted "typ" ++ bytes_of_string ":" ++ quoted "JWT" ++ bytes_of_string "}".

Definition scope_set (l : list string) : gset string :=
  list_to_set (filter (fun s => s <> EmptyString) l).

Section HMAC.
Context (json_Marshal : Claims -> result (list byte)).
Context (json_Unmarshal : list byte -> result Claims).

(** [func (v *HMACVerifier) Mint(subject, scopes, ttl) (string, error)] *)
Definition Mint (now : Z) (subject : string) (scopes : list string) (ttl : Z) (v : HMACVerifier)
    : result string :=
  if decide (TrimSpace subject = EmptyString) then Err (New "subject is required")
  else if (ttl <=? 0) || (30 * 24 * Hour <? ttl) then Err (New "ttl must be between 1ns and 30d")
  else
    let claims := mkClaims subject (hv_audience v) scopes (Unix (now + ttl)) (Unix now) in
    payloadBytes ← json_Marshal claims;
    let signing := RawURL_Encode jwt_header +:+ "." +:+ RawURL_Encode payloadBytes in
    Ok (signing +:+ "." +:+ RawURL_Encode (hmac_sha256 (hv_secret v) (bytes_of_string signing))).

(** The checks on decoded claims. *)
Definition check_claims (now : Z) (audience : string) (c : Claims) : result Identity :=
  let now := Unix now in
  if bool_decide (Claims_Subject c = EmptyString) || bool_decide (Claims_Audience c <> audience)
     || (Claims_Expiry c <=? now) || (wrap64 (now + 60) <? Claims_IssuedAt c)
  then Err ErrInvalidToken
  else Ok (mkIdentity (Claims_Subject c) (scope_set (Claims_Scopes c)) (time_Unix (Claims_Expiry c))).

(** [func (v *HMACVerifier) Verify(ctx, token string) (Identity, error)] *)
Definition Verify (now : Z) (token : string) (v : HMACVerifier) : result Identity :=
  match Split token dot with
  | [p0; p1; p2] =>
      let expected := hmac_sha256 (hv_secret v) (bytes_of_string (p0 +:+ "." +:+ p1)) in
      match RawURL_Decode p2 with
      | Err _ => Err ErrInvalidToken
      | Ok got =>
          if negb (ConstantTimeCompare got expected =? 1) then Err ErrInvalidToken
          else
            match RawURL_Decode p1 with
            | Err _ => Err ErrInvalidToken
            | Ok payload =>
                match json_Unmarshal payload with
                | Err _ => Err ErrInvalidToken
                | Ok c => check_claims now (hv_audience v) c
                end
            end
      end
  | _ => Err ErrInvalidToken
  end.
End HMAC.

(** ** Token introspection *)

Record cacheEntry := mkCacheEntry { ce_identity : Identity; ce_expires : Z }.

(** [Endpoint] is [None] for nil, else its scheme and its text. *)
Record IntrospectionVerifier := mkIntrospectionVerifier {
  iv_Endpoint : option (string * string);
  iv_Audience : string;
  iv_CacheTTL : Z;
  iv_cache : gmap (list byte) cacheEntry }.

Definition iv_set_cache (v : IntrospectionVerifier) c : IntrospectionVerifier :=
  mkIntrospectionVerifier (iv_Endpoint v) (iv_Audience v) (iv_CacheTTL v) c.

Record introspectionResponse := mkIntrospectionResponse {
  ir_Active : bool;
  ir_Sub : string;
  ir_Scope : json;
  ir_Exp : option json;
  ir_Aud : json }.

Definition zero_response : introspectionResponse := mkIntrospectionResponse false EmptyString JNull None JNull.

(** The json tags of [introspectionResponse]. *)
Definition set_response (key : string) (x : json) (r : introspectionResponse)
    : introspectionResponse * bool :=
  let '(mkIntrospectionResponse active sub scope exp aud) := r in
  if EqualFold key "active" then
    let '(b, ok) := decode_bool x active in (mkIntrospectionResponse b sub scope exp aud, ok)
  else if EqualFold key "sub" then
    let '(s, ok) := decode_string x sub in (mkIntrospectionResponse active s scope exp aud, ok)
  else if EqualFold key "scope" then (mkIntrospectionResponse active sub x exp aud, true)
  else if EqualFold key "exp" then (mkIntrospectionResponse active sub scope (Some x) aud, true)
  else if EqualFold key "aud" then (mkIntrospectionResponse active sub scope exp x, true)
  else (r, true).

(** What [json.Unmarshal] stores in a [json.Number] or a [string]: a number,
    or a string; a string is a [json.Number] only if it reads as one, and
    then [ParseInt] decides, so both targets agree on what [parseUnix] returns. *)
Definition numeral_text (x : json) : option string :=
  match x with JNumber t => Some t | JString s => Some s | _ => None end.

(** [func parseUnix(raw json.RawMessage) (time.Time, error)] *)
Definition parseUnix (raw : option json) : result Z :=
  match raw with
  | None | Some JNull => Err (New "missing exp")
  | Some x =>
      match numeral_text x with
      | Some t =>
          match ParseInt t with
          | Ok i => Ok (time_Unix i)
          | Err _ => Err (New "invalid exp")
          end
      | None => Err (New "invalid exp")
      end
  end.

(** [func audienceContains(v any, want string) bool] *)
Definition audienceContains (v : json) (want : string) : bool :=
  match v with
  | JString x => bool_decide (x = want)
  | JArray l => existsb (fun item => match item with JString s => bool_decide (s = want) | _ => false end) l
  | _ => false
  end.

(** [func parseScopes(v any) map[string]struct{}] *)
Definition parseScopes (v : json) : gset string :=
  match v with
  | JString x => list_to_set (Fields x)
  | JArray l => scope_set (omap (fun item => match item with JString s => Some s | _ => None end) l)
  | _ => ∅
  end.

(** What the request to the endpoint came to. *)
Inductive http_answer :=
| Unreachable (e : error)
| Replied (status : Z) (body : option json).

(** The entry guard, and the first critical section: a cached identity. *)
Definition usable (v : IntrospectionVerifier) (token : string) : bool :=
  bool_decide (token <> EmptyString) && bool_decide (iv_Audience v <> EmptyString) &&
  match iv_Endpoint v with Some (scheme, _) => bool_decide (scheme = "https"%string) | None => false end.

Definition token_hash (token : string) : list byte := Sha256.Sum256 (bytes_of_string token).

Definition cached (now : Z) (token : string) (v : IntrospectionVerifier) : option Identity :=
  e ← iv_cache v !! token_hash token;
  if Before now (ce_expires e) && Before now (Identity_Expiry (ce_identity e))
  then Some (ce_identity e) else None.

(** From the endpoint's answer to an identity. *)
Definition judge (now : Z) (audience : string) (a : http_answer) : result Identity :=
  match a with
  | Unreachable e => Err (Wrapf "introspection: %w" [] e)
  | Replied status body =>
      if negb (status =? 200) then Err ErrInvalidToken
      else
        match body with
        | None => Err ErrInvalidToken
        | Some x =>
            let '(ir, ok) := decode_struct set_response x zero_response in
            if negb ok then Err ErrInvalidToken
            else if negb (ir_Active ir) || bool_decide (ir_Sub ir = EmptyString)
                    || negb (audienceContains (ir_Aud ir) audience)
            then Err ErrInvalidToken
            else
              match parseUnix (ir_Exp ir) with
              | Err _ => Err ErrInvalidToken
              | Ok exp =>
                  if negb (After exp now) then Err ErrInvalidToken
                  else Ok (mkIdentity (ir_Sub ir) (parseScopes (ir_Scope ir)) exp)
              end
        end
  end.

Definition cache_until (now ttl exp : Z) : Z :=
  let ttl := if (ttl <=? 0) || (30 * Second <? ttl) then 15 * Second else ttl in
  if Before exp (now + ttl) then exp else now + ttl.

(** Making room: expired entries go, and if that does not help one more, the
    [victim] that the iteration over the map meets first. *)
Definition make_room (now : Z) (victim : list byte) (c : gmap (list byte) cacheEntry)
    : option (gmap (list byte) cacheEntry) :=
  if Z.of_nat (size c) <? 1024 then Some c
  else
    let c := filter (fun ke => After now (ce_expires ke.2) = false) c in
    if Z.of_nat (size c) <? 1024 then Some c
    else if decide (is_Some (c !! victim)) then Some (delete victim c) else None.

(** The second critical section; [None] when [victim] is not in the map. *)
Definition remember (now : Z) (token : string) (id : Identity) (victim : list byte)
    (v : IntrospectionVerifier) : option IntrospectionVerifier :=
  c ← make_room now victim (iv_cache v);
  Some (iv_set_cache v
    (<[token_hash token := mkCacheEntry id (cache_until now (iv_CacheTTL v) (Identity_Expiry id))]> c)).

(** ** The introspection verifier as a transition system

    [Verify] is two actions with the request between them; [calls] holds the
    token and the time of each call that waits for the endpoint. *)
Record Introspection := mkIntrospection {
  in_verifier : IntrospectionVerifier;
  in_calls : gmap nat (string * Z) }.

Inductive action :=
| AVerify (c : nat) (token : string) (now : Z)
| AAnswer (c : nat) (a : http_answer) (victim : list byte).

(** What [Verify] returns in the first action, [None] if it goes on. *)
Definition verify_early (token : string) (now : Z) (v : IntrospectionVerifier) : option (result Identity) :=
  if usable v token then Ok <$> cached now token v else Some (Err ErrInvalidToken).

Definition exec (a : action) (s : Introspection) : option Introspection :=
  match a with
  | AVerify c token now =>
      match in_calls s !! c, verify_early token now (in_verifier s) with
      | Some _, _ => None
      | None, Some _ => Some s
      | None, None => Some (mkIntrospection (in_verifier s) (<[c := (token, now)]> (in_calls s)))
      end
  | AAnswer c a victim =>
      '(token, now) ← in_calls s !! c;
      match judge now (iv_Audience (in_verifier s)) a with
      | Err _ => Some (mkIntrospection (in_verifier s) (delete c (in_calls s)))
      | Ok id =>
          v ← remember now token id victim (in_verifier s);
          Some (mkIntrospection v (delete c (in_calls s)))
      end
  end.

(** The questions put to the endpoint along a schedule: token, time of the
    call, answer. *)
Fixpoint consulted (acts : list action) (s : Introspection) : list (string * Z * http_answer) :=
  match acts with
  | [] => []
  | a :: acts' =>
      match a with
      | AAnswer c ans _ => match in_calls s !! c with Some (token, now) => [(token, now, ans)] | None => [] end
      | AVerify _ _ _ => []
      end ++
      match exec a s with Some s' => consulted acts' s' | None => [] end
  end.

(** ** Trust in loopback connections *)

Record LoopbackTrust (B : Type) := mkLoopbackTrust {
  lt_token : string;
  lt_base : B;
  lt_identity : Identity }.
Arguments mkLoopbackTrust {B}.
Arguments lt_token {B}.
Arguments lt_base {B}.
Arguments lt_identity {B}.

(** [func NewLoopbackTrust(base Verifier, subject string)]; [raw] is what
    [rand.Read] gave, [expiry] is [time.Now().AddDate(100, 0, 0)]. *)
Definition NewLoopbackTrust {B} (base : option B) (subject : string) (raw : result (list byte))
    (expiry : Z) : result (LoopbackTrust B) :=
  match base with
  | None => Err (New "base verifier is required")
  | Some base =>
      if decide (TrimSpace subject = EmptyString) then Err (New "trusted subject is required")
      else
        raw ← raw;
        Ok (mkLoopbackTrust (RawURL_Encode raw) base
              (mkIdentity subject {["orc:tools"%string]} expiry))
  end.

(** [func (v *loopbackTrustVerifier) Verify(ctx, token string)], over the
    method of the verifier it wraps. *)
Definition trust_Verify (t : LoopbackTrust (string -> result Identity)) (token : string) : result Identity :=
  if ConstantTimeCompare (bytes_of_string token) (bytes_of_string (lt_token t)) =? 1
  then Ok (lt_identity t)
  else lt_base t token.

Section Loopback.
Context (ParseIP : string -> option (list byte)).

(** [func remoteIsLoopback(remoteAddr string) bool] *)
Definition remoteIsLoopback (remoteAddr : string) : bool :=
  match SplitHostPort remoteAddr with
  | Err _ => false
  | Ok (host, _) => match ParseIP host with Some ip => IsLoopback ip | None => false end
  end.

(** [func (t *LoopbackTrust) Middleware(next http.Handler) http.Handler]: the
    request that [next] gets. *)
Definition Middleware {B} (t : LoopbackTrust B) (r : Request) : Request :=
  if bool_decide (TrimSpace (Request_Get r "Authorization") = EmptyString)
     && remoteIsLoopback (Request_RemoteAddr r)
  then Request_Set "Authorization" ("Bearer " +:+ lt_token t) r
  else r.
End Loopback.
