(* ===== verification/AuthnProps.v ===== *)
(** * What authentication guarantees

    Tokens: which ones the HMAC verifier accepts, and that a minted one is
    accepted until it expires.  Introspection: cached answers are fresh and
    few.  Loopback trust: who is trusted without a token. *)
From S2P Require Import Prelude Crypto GoStrings Text Json Http Base64 Authn.
Local Open Scope Z_scope.

(** ** Splitting a token at its dots *)

Lemma Split_word w sep s :
  sep ∉ String.list_ascii_of_string w -> Split (w +:+ String sep s) sep = w :: Split s sep.
Proof.
  induction w as [|c w IH]; intros Hn; simpl.
  - by rewrite decide_True.
  - change (String c w +:+ String sep s) with (String c (w +:+ String sep s)). simpl in *.
    rewrite decide_False by set_solver. rewrite IH by set_solver. done.
Qed.

Lemma Split_last w sep : sep ∉ String.list_ascii_of_string w -> Split w sep = [w].
Proof.
  induction w as [|c w IH]; intros Hn; simpl in *; [done|].
  rewrite decide_False by set_solver. by rewrite IH by set_solver.
Qed.

Definition no_dot (s : string) : Prop := dot ∉ String.list_ascii_of_string s.

Lemma Split_three token p0 p1 p2 :
  Split token dot = [p0; p1; p2] <->
  token = p0 +:+ "." +:+ p1 +:+ "." +:+ p2 /\ no_dot p0 /\ no_dot p1 /\ no_dot p2.
Proof.
  split.
  - intros H. pose proof (Split_no_sep token dot) as Hn. pose proof (Join_Split token dot) as Hj.
    rewrite H in Hn, Hj. rewrite !Forall_cons in Hn. destruct Hn as (? & ? & ? & _).
    split; [|done]. by rewrite <- Hj.
  - intros (-> & H0 & H1 & H2).
    change ("." +:+ p1 +:+ "." +:+ p2) with (String dot (p1 +:+ String dot p2)).
    by rewrite !Split_word, Split_last.
Qed.

Lemma RawURL_Encode_no_dot l : no_dot (RawURL_Encode l).
Proof.
  unfold no_dot, RawURL_Encode, Encoding_EncodeToString. intros Hin.
  assert (Ascii.byte_of_ascii dot ∈ bytes_of_string (string_of_bytes (encode RawURLEncoding l))) as Hb.
  { unfold String.list_byte_of_string. apply list_elem_of_In, in_map, list_elem_of_In. done. }
  rewrite bytes_of_string_of_bytes in Hb.
  pose proof (encode_chars RawURLEncoding l) as Hc. rewrite Forall_forall in Hc.
  by destruct (Hc _ Hb) as [_ []].
Qed.

Lemma RawURL_Decode_Encode l : RawURL_Decode (RawURL_Encode l) = Ok l.
Proof. apply Encoding_DecodeString_EncodeToString. Qed.

(** ** HMAC tokens *)

Section HMAC.
Context (json_Marshal : Claims -> result (list byte)).
Context (json_Unmarshal : list byte -> result Claims).

(** The signed part of a token. *)
Definition signature (v : HMACVerifier) (signing : string) : list byte :=
  hmac_sha256 (hv_secret v) (bytes_of_string signing).

(** What the claims must say at time [now]. *)
Definition claims_good (now : Z) (audience : string) (c : Claims) : Prop :=
  Claims_Subject c <> EmptyString /\ Claims_Audience c = audience /\
  Unix now < Claims_Expiry c /\ Claims_IssuedAt c <= wrap64 (Unix now + 60).

Lemma check_claims_Ok now audience c id :
  check_claims now audience c = Ok id <->
  claims_good now audience c /\
  id = mkIdentity (Claims_Subject c) (scope_set (Claims_Scopes c)) (time_Unix (Claims_Expiry c)).
Proof.
  unfold check_claims, claims_good. split.
  - case_guards. intros [= <-]. split; [|done]. split_and!; done || lia.
  - intros [(H1 & H2 & H3 & H4) ->]. rewrite !bool_decide_eq_false_2 by naive_solver.
    destruct (Z.leb_spec (Claims_Expiry c) (Unix now)); [lia|].
    destruct (Z.ltb_spec (wrap64 (Unix now + 60)) (Claims_IssuedAt c)); [lia|]. done.
Qed.

(** C16 The HMAC verifier accepts exactly the tokens of three parts without a
    dot in which the last part is an encoding of the HMAC, under the
    verifier's secret, of the first two and the dot between them, and the
    middle part encodes claims with a subject, for the verifier's audience,
    not expired, and issued at most a minute in the future.  The identity is
    the one the claims name. *)
Theorem Verify_accepts now token v id :
  Verify json_Unmarshal now token v = Ok id <->
  exists p0 p1 p2 payload c,
    token = p0 +:+ "." +:+ p1 +:+ "." +:+ p2 /\ no_dot p0 /\ no_dot p1 /\ no_dot p2 /\
    RawURL_Decode p2 = Ok (signature v (p0 +:+ "." +:+ p1)) /\
    RawURL_Decode p1 = Ok payload /\ json_Unmarshal payload = Ok c /\
    claims_good now (hv_audience v) c /\
    id = mkIdentity (Claims_Subject c) (scope_set (Claims_Scopes c)) (time_Unix (Claims_Expiry c)).
Proof.
  unfold Verify. split.
  - intros H. destruct (Split token dot) as [|p0 [|p1 [|p2 []]]] eqn:Es; try done.
    apply Split_three in Es as (Ht & H0 & H1 & H2).
    destruct (RawURL_Decode p2) as [got|] eqn:E2; [|done].
    destruct (ConstantTimeCompare got _ =? 1) eqn:Ec; [|done]. simpl in H.
    apply Z.eqb_eq, ConstantTimeCompare_1 in Ec. subst got.
    destruct (RawURL_Decode p1) as [payload|] eqn:E1; [|done].
    destruct (json_Unmarshal payload) as [c|] eqn:Ej; [|done].
    apply check_claims_Ok in H. exists p0, p1, p2, payload, c. tauto.
  - intros (p0 & p1 & p2 & payload & c & Ht & H0 & H1 & H2 & Hs & Hp & Hj & Hg).
    rewrite (proj2 (Split_three token p0 p1 p2)) by done.
    rewrite Hs. unfold signature. rewrite (proj2 (ConstantTimeCompare_1 _ _) eq_refl). simpl.
    rewrite Hp, Hj. by apply check_claims_Ok.
Qed.

(** encoding/json reads back the claims that it wrote, if their strings are
    valid UTF-8 and their numbers have 64 bits. *)
Definition text (s : string) : Prop := utf8_Valid (bytes_of_string s) = true.
Definition claims_text (c : Claims) : Prop :=
  text (Claims_Subject c) /\ text (Claims_Audience c) /\ Forall text (Claims_Scopes c) /\
  int64_ok (Claims_Expiry c) /\ int64_ok (Claims_IssuedAt c).
Context (json_roundtrip : forall c b, claims_text c -> json_Marshal c = Ok b -> json_Unmarshal b = Ok c).

Lemma Verify_Mint t0 t subject scopes ttl token v :
  text subject -> text (hv_audience v) -> Forall text scopes ->
  Mint json_Marshal t0 subject scopes ttl v = Ok token ->
  0 < ttl <= 30 * 24 * Hour /\
  Verify json_Unmarshal t token v =
    check_claims t (hv_audience v) (mkClaims subject (hv_audience v) scopes (Unix (t0 + ttl)) (Unix t0)).
Proof.
  intros Hs Ha Hsc Hm. unfold Mint in Hm. case_decide; [done|].
  destruct ((ttl <=? 0) || (30 * 24 * Hour <? ttl)) eqn:Et; [done|]. bool_props. split; [lia|].
  apply result_bind_ok in Hm as (b & Hb & [= <-]).
  set (signing := RawURL_Encode jwt_header +:+ "." +:+ RawURL_Encode b).
  unfold Verify. rewrite (proj2 (Split_three _ (RawURL_Encode jwt_header) (RawURL_Encode b)
    (RawURL_Encode (hmac_sha256 (hv_secret v) (bytes_of_string signing))))).
  2:{ split; [|auto using RawURL_Encode_no_dot]. subst signing. by rewrite !append_assoc. }
  rewrite !RawURL_Decode_Encode. rewrite (proj2 (ConstantTimeCompare_1 _ _) eq_refl). simpl.
  erewrite (json_roundtrip _ b); [done| |exact Hb].
  exact (conj Hs (conj Ha (conj Hsc (conj (wrap64_ok _) (wrap64_ok _))))).
Qed.

(** A time of which the seconds since 1970 are a 64-bit number, with room. *)
Definition time_ok (t : Z) : Prop := 0 <= t / Second < 2 ^ 62.

(** A token that [Mint] issued at [t0] is accepted by the same verifier
    from one minute before [t0] until the second in which it expires, as the
    subject and the scopes it was minted for, and refused at every other
    time. *)
Theorem minted_token_verifies t0 t subject scopes ttl token v :
  text subject -> text (hv_audience v) -> Forall text scopes ->
  time_ok t0 -> time_ok t -> time_ok (t0 + ttl) ->
  Mint json_Marshal t0 subject scopes ttl v = Ok token ->
  Verify json_Unmarshal t token v =
    if decide (t0 / Second - 60 <= t / Second < (t0 + ttl) / Second)
    then Ok (mkIdentity subject (scope_set scopes) ((t0 + ttl) / Second * Second))
    else Err ErrInvalidToken.
Proof.
  unfold time_ok. intros Hs Ha Hsc H0 Ht Hx Hm.
  assert (subject <> EmptyString) as Hne.
  { intros ->. revert Hm. unfold Mint. by rewrite decide_True. }
  destruct (Verify_Mint t0 t _ _ _ _ _ Hs Ha Hsc Hm) as [Httl ->].
  assert (forall x, 0 <= x < 2 ^ 62 -> wrap64 (x - unixToInternal) = x - unixToInternal) as Hw.
  { intros x Hr. apply wrap64_small. unfold int64_ok, unixToInternal. lia. }
  unfold check_claims, Unix, time_Unix. simpl. rewrite !Hw by done.
  rewrite (wrap64_small (_ - _ + 60)) by (unfold int64_ok, unixToInternal; lia).
  rewrite (wrap64_small (_ - _ + unixToInternal)) by (unfold int64_ok, unixToInternal; lia).
  rewrite !bool_decide_eq_false_2 by naive_solver. simpl.
  case_decide as Hin.
  - destruct (Z.leb_spec ((t0 + ttl) / Second - unixToInternal) (t / Second - unixToInternal)); [lia|].
    destruct (Z.ltb_spec (t / Second - unixToInternal + 60) (t0 / Second - unixToInternal)); [lia|].
    do 2 f_equal. lia.
  - destruct (Z.leb_spec ((t0 + ttl) / Second - unixToInternal) (t / Second - unixToInternal)); [done|].
    destruct (Z.ltb_spec (t / Second - unixToInternal + 60) (t0 / Second - unixToInternal)); [done|]. lia.
Qed.
End HMAC.

(** ** Introspection *)

Lemma judge_Ok now audience a id :
  judge now audience a = Ok id ->
  exists x ir,
    a = Replied 200 (Some x) /\ decode_struct set_response x zero_response = (ir, true) /\
    ir_Active ir = true /\ ir_Sub ir = Identity_Subject id /\ Identity_Subject id <> EmptyString /\
    audienceContains (ir_Aud ir) audience = true /\ Identity_Scopes id = parseScopes (ir_Scope ir) /\
    parseUnix (ir_Exp ir) = Ok (Identity_Expiry id) /\ now < Identity_Expiry id.
Proof.
  unfold judge. destruct a as [|status [x|]]; [done| |by case_match].
  destruct (status =? 200) eqn:Es; [|done]. apply Z.eqb_eq in Es. subst status.
  destruct (decode_struct set_response x zero_response) as [ir ok] eqn:Ed. simpl.
  destruct ok; [simpl|done]. destruct (_ || _) eqn:Eb; [done|]. bool_props.
  destruct (parseUnix (ir_Exp ir)) as [exp|] eqn:Ex; [|done].
  unfold After. destruct (Z.ltb_spec now exp); [|done]. intros [= <-]. exists x, ir. done.
Qed.

Lemma cache_until_bounds now ttl exp : cache_until now ttl exp <= now + 30 * Second /\ cache_until now ttl exp <= exp.
Proof.
  unfold cache_until, Before.
  set (t := if (ttl <=? 0) || (30 * Second <? ttl) then 15 * Second else ttl).
  assert (t <= 30 * Second) by (subst t; destruct (_ || _) eqn:E; bool_props; unfold Second, Millisecond in *; lia).
  destruct (Z.ltb_spec exp (now + t)); lia.
Qed.

Lemma make_room_spec now victim c c' :
  make_room now victim c = Some c' -> Z.of_nat (size c) <= 1024 ->
  c' ⊆ c /\ Z.of_nat (size c') <= 1023.
Proof.
  unfold make_room. intros H Hs. destruct (Z.ltb_spec (Z.of_nat (size c)) 1024); [injection H as <-; split; [done|lia]|].
  set (f := filter _ c) in *. assert (f ⊆ c) by apply map_filter_subseteq.
  destruct (Z.ltb_spec (Z.of_nat (size f)) 1024); [injection H as <-; split; [done|lia]|].
  case_decide as Hv; [|done]. injection H as <-. split; [etrans; [apply delete_subseteq|done]|].
  rewrite map_size_delete. destruct Hv as [e He]. rewrite He.
  pose proof (map_subseteq_size _ _ H1). lia.
Qed.

(** Where a cache entry comes from. *)
Definition entry_from (v : IntrospectionVerifier) (log : list (string * Z * http_answer))
    (h : list byte) (e : cacheEntry) : Prop :=
  exists token now a, (token, now, a) ∈ log /\ token_hash token = h /\
    judge now (iv_Audience v) a = Ok (ce_identity e) /\
    ce_expires e = cache_until now (iv_CacheTTL v) (Identity_Expiry (ce_identity e)).

Definition cache_ok (v0 : IntrospectionVerifier) (log : list (string * Z * http_answer)) (s : Introspection) : Prop :=
  iv_set_cache (in_verifier s) (iv_cache v0) = v0 /\ Z.of_nat (size (iv_cache (in_verifier s))) <= 1024 /\
  map_Forall (entry_from v0 log) (iv_cache (in_verifier s)).

Lemma entry_from_app v log log' h e : entry_from v log h e -> entry_from v (log ++ log') h e.
Proof. intros (token & now & a & Hin & ?). exists token, now, a. split; [set_solver|done]. Qed.

Lemma run_cache_ok v0 acts log s s' :
  cache_ok v0 log s -> run exec acts s = Some s' -> cache_ok v0 (log ++ consulted acts s) s'.
Proof.
  revert log s. induction acts as [|a acts IH]; intros log s Hok Hrun; simpl in *.
  - injection Hrun as <-. by rewrite app_nil_r.
  - destruct (exec a s) as [s1|] eqn:Ex; [|done]. simpl in Hrun. rewrite app_assoc. eapply IH; [|exact Hrun].
    destruct Hok as (Hv & Hsz & Hf). destruct a as [c token now|c a victim]; simpl in Ex.
    + rewrite app_nil_r. repeat case_match; by simplify_eq.
    + destruct (in_calls s !! c) as [[token now]|]; [|done]. simpl in Ex.
      assert (map_Forall (entry_from v0 (log ++ [(token, now, a)])) (iv_cache (in_verifier s))) as Hf'.
      { intros h e He. by apply entry_from_app, Hf. }
      destruct (judge now _ a) as [id|] eqn:Ej; [|by injection Ex as <-].
      apply bind_Some in Ex as (v & Hr & [= <-]). apply bind_Some in Hr as (c' & Hm & [= <-]).
      apply make_room_spec in Hm as [Hsub Hsz']; [|done]. split; [done|]. simpl. split.
      * rewrite map_size_insert. destruct (c' !! _); simpl; lia.
      * apply map_Forall_insert_2; [|intros h e He; by apply Hf', (lookup_weaken _ _ _ _ He)].
        exists token, now, a. rewrite <- Hv. split; [set_solver|done].
Qed.

(** C30 Answers from the cache are fresh: in every interleaving of calls, an
    identity that [Verify] returns without asking the endpoint is one that
    the endpoint vouched for less than 30 seconds earlier, for a token with
    the same SHA-256, in a reply that called it active and meant for this
    audience; and the identity has not expired.  The cache never holds more
    than 1024 entries. *)
Theorem introspected_answers_are_fresh v0 acts s :
  iv_cache v0 = ∅ -> run exec acts (mkIntrospection v0 ∅) = Some s ->
  Z.of_nat (size (iv_cache (in_verifier s))) <= 1024 /\
  forall token now id, verify_early token now (in_verifier s) = Some (Ok id) ->
    now < Identity_Expiry id /\
    exists token0 now0 x ir,
      (token0, now0, Replied 200 (Some x)) ∈ consulted acts (mkIntrospection v0 ∅) /\
      token_hash token0 = token_hash token /\ now < now0 + 30 * Second /\
      decode_struct set_response x zero_response = (ir, true) /\ ir_Active ir = true /\
      ir_Sub ir = Identity_Subject id /\ audienceContains (ir_Aud ir) (iv_Audience v0) = true /\
      Identity_Scopes id = parseScopes (ir_Scope ir).
Proof.
  intros Hc Hrun. apply (run_cache_ok v0 acts [] _ s) in Hrun as (Hv & Hsz & Hf).
  2:{ split_and!; simpl; [by destruct v0|by rewrite Hc|rewrite Hc; apply map_Forall_empty]. }
  split; [done|]. intros token now id He. unfold verify_early in He.
  destruct (usable _ _); [|done]. unfold cached in He.
  destruct (iv_cache (in_verifier s) !! token_hash token) as [e|] eqn:El; [|done]. simpl in He.
  destruct (Before now (ce_expires e) && _) eqn:Eb; [|done]. injection He as <-.
  unfold Before in Eb. bool_props. split; [done|].
  apply Hf in El as (token0 & now0 & a & Hin & Hh & Hj & Hx).
  apply judge_Ok in Hj as (x & ir & -> & Hd & Ha & Hs & _ & Hau & Hsc & _). exists token0, now0, x, ir.
  pose proof (cache_until_bounds now0 (iv_CacheTTL v0) (Identity_Expiry (ce_identity e))).
  split_and!; done || lia.
Qed.

(** ** Loopback trust *)

Lemma digit_graphic e v : 0 <= v < 64 -> graphic (digit e v) = true.
Proof.
  intros Hv. apply (forall_range 64 (fun v => graphic (digit e v))); [|done].
  destruct e; vm_compute; reflexivity.
Qed.

Lemma encode_graphic e l : Forall (fun b => graphic b = true) (encode e l).
Proof.
  assert (graphic pad = true) as Hp by (vm_compute; reflexivity).
  induction l as [|a|a b|a b c l IH] using list_ind3; cbn [encode]; [done|..];
    try sextets a; try sextets b; try sextets c;
    repeat (constructor; [apply digit_graphic; lia|]); try done; destruct e; by repeat constructor.
Qed.

Lemma RawURL_Encode_graphic l : Forall (fun b => graphic b = true) (bytes_of_string (RawURL_Encode l)).
Proof. unfold RawURL_Encode, Encoding_EncodeToString. rewrite bytes_of_string_of_bytes. apply encode_graphic. Qed.

Lemma RawURL_Encode_nonempty l : l <> [] -> RawURL_Encode l <> EmptyString.
Proof.
  intros Hl E. apply (f_equal bytes_of_string) in E. unfold RawURL_Encode, Encoding_EncodeToString in E.
  rewrite bytes_of_string_of_bytes in E. by destruct l as [|a [|b [|c l]]].
Qed.

Section Loopback.
Context (ParseIP : string -> option (list byte)).

(** Whom a request is authenticated as, behind the middleware. *)
Definition authenticate (t : LoopbackTrust (string -> result Identity)) (r : Request)
    : option (result Identity) :=
  tok ← BearerToken (Middleware ParseIP t r); Some (trust_Verify t tok).

(** With loopback trust a request is the trusted subject's, with the scope
    orc:tools, exactly if it has no Authorization header and comes from a
    loopback address, or carries the random token itself; every other request
    is decided by the base verifier on its own token, and one without a token
    is not authenticated. *)
Theorem loopback_trust_decides base subject raw expiry t r :
  len raw = 32 -> NewLoopbackTrust (Some base) subject (Ok raw) expiry = Ok t ->
  authenticate t r =
    if decide (TrimSpace (Request_Get r "Authorization") = EmptyString /\
               remoteIsLoopback ParseIP (Request_RemoteAddr r) = true)
    then Some (Ok (mkIdentity subject {["orc:tools"%string]} expiry))
    else
      tok ← BearerToken r;
      Some (if decide (tok = RawURL_Encode raw) then Ok (mkIdentity subject {["orc:tools"%string]} expiry)
            else base tok).
Proof.
  intros Hl Ht. unfold NewLoopbackTrust in Ht. case_decide; [done|]. injection Ht as <-.
  assert (raw <> []) as Hne by (by intros ->).
  assert (forall tok, trust_Verify (mkLoopbackTrust (RawURL_Encode raw) base
      (mkIdentity subject {["orc:tools"%string]} expiry)) tok =
    if decide (tok = RawURL_Encode raw) then Ok (mkIdentity subject {["orc:tools"%string]} expiry)
    else base tok) as Hv.
  { intros tok. unfold trust_Verify, ConstantTimeCompare. simpl. case_decide as E.
    - apply bytes_of_string_inj in E. by rewrite decide_True.
    - rewrite decide_False by (by intros ->). done. }
  unfold authenticate, Middleware. case_decide as Hc.
  - destruct Hc as [Ha Hr]. rewrite bool_decide_eq_true_2 by done. rewrite Hr. simpl.
    rewrite (BearerToken_of_graphic _ (RawURL_Encode raw)).
    + simpl. rewrite Hv. by rewrite decide_True.
    + by apply RawURL_Encode_nonempty.
    + apply RawURL_Encode_graphic.
    + apply Request_Get_Set.
  - replace (bool_decide _ && _) with false.
    + destruct (BearerToken r) as [tok|]; simpl; [by rewrite Hv|done].
    + symmetry. apply not_true_is_false. intros Hb. bool_props. by apply Hc.
Qed.
End Loopback.

(** ** Witnesses *)

(** A stand-in for encoding/json: the claims as bits. *)
Fixpoint bits_of_pos (p : positive) : list byte :=
  match p with xH => [] | xO p => z2b 0 :: bits_of_pos p | xI p => z2b 1 :: bits_of_pos p end.
Fixpoint pos_of_bits (l : list byte) : positive :=
  match l with [] => xH | b :: l => if decide (b = z2b 0) then xO (pos_of_bits l) else xI (pos_of_bits l) end.

Lemma pos_of_bits_of_pos p : pos_of_bits (bits_of_pos p) = p.
Proof. induction p as [p IH|p IH|]; simpl; [by rewrite IH|by rewrite IH|done]. Qed.

Definition claims_tuple (c : Claims) : string * string * list string * Z * Z :=
  (Claims_Subject c, Claims_Audience c, Claims_Scopes c, Claims_Expiry c, Claims_IssuedAt c).
Definition claims_of_tuple (t : string * string * list string * Z * Z) : Claims :=
  let '(s, a, sc, e, i) := t in mkClaims s a sc e i.
Definition demo_Marshal (c : Claims) : result (list byte) := Ok (bits_of_pos (countable.encode (claims_tuple c))).
Definition demo_Unmarshal (b : list byte) : result Claims :=
  match countable.decode (pos_of_bits b) with Some t => Ok (claims_of_tuple t) | None => Err (New "invalid JSON") end.

Lemma demo_roundtrip c b : claims_text c -> demo_Marshal c = Ok b -> demo_Unmarshal b = Ok c.
Proof.
  intros _ [= <-]. unfold demo_Unmarshal. rewrite pos_of_bits_of_pos, countable.decode_encode. by destruct c.
Qed.

Definition demo_verifier : HMACVerifier :=
  mkHMACVerifier (replicate 32 (z2b 7)) "http://127.0.0.1:8080/mcp".
(** Seconds since 1970, as a time. *)
Definition at_second (s : Z) : Z := (unixToInternal + s) * Second.
Definition demo_token : string :=
  match Mint demo_Marshal (at_second 1000) "alice" ["orc:tools"; ""]%string Hour demo_verifier with
  | Ok t => t | Err _ => EmptyString end.

Lemma minted_token_verifies_witness :
  Verify demo_Unmarshal (at_second 2000) demo_token demo_verifier =
    if decide (at_second 1000 / Second - 60 <= at_second 2000 / Second < (at_second 1000 + Hour) / Second)
    then Ok (mkIdentity "alice" (scope_set ["orc:tools"; ""]%string) ((at_second 1000 + Hour) / Second * Second))
    else Err ErrInvalidToken.
Proof.
  apply (minted_token_verifies demo_Marshal demo_Unmarshal demo_roundtrip);
    try (vm_compute; reflexivity); try (repeat constructor; vm_compute; reflexivity);
    split; vm_compute; congruence.
Defined.

(** Two calls for the same token, the second answered from the cache. *)
Definition demo_introspection : IntrospectionVerifier :=
  mkIntrospectionVerifier (Some ("https", "https://issuer/introspect")%string) "orc" 0 ∅.
Definition demo_reply : json :=
  JObject [("active", JBool true); ("sub", JString "alice"); ("scope", JString "orc:tools read");
           ("exp", JNumber "5000"); ("aud", JArray [JString "other"; JString "orc"])]%string.
Definition demo_acts : list action :=
  [AVerify 0 "opaque" (at_second 1000); AAnswer 0 (Replied 200 (Some demo_reply)) []].
Definition demo_state : Introspection :=
  default (mkIntrospection demo_introspection ∅) (run exec demo_acts (mkIntrospection demo_introspection ∅)).

Example demo_cached :
  option_map (fun r => is_ok r) (verify_early "opaque" (at_second 1014) (in_verifier demo_state)) = Some true /\
  verify_early "opaque" (at_second 1015) (in_verifier demo_state) = None.
Proof. split; vm_compute; reflexivity. Qed.

Lemma introspected_answers_are_fresh_witness :
  Z.of_nat (size (iv_cache (in_verifier demo_state))) <= 1024 /\
  forall token now id, verify_early token now (in_verifier demo_state) = Some (Ok id) ->
    now < Identity_Expiry id /\
    exists token0 now0 x ir,
      (token0, now0, Replied 200 (Some x)) ∈ consulted demo_acts (mkIntrospection demo_introspection ∅) /\
      token_hash token0 = token_hash token /\ now < now0 + 30 * Second /\
      decode_struct set_response x zero_response = (ir, true) /\ ir_Active ir = true /\
      ir_Sub ir = Identity_Subject id /\ audienceContains (ir_Aud ir) (iv_Audience demo_introspection) = true /\
      Identity_Scopes id = parseScopes (ir_Scope ir).
Proof. apply introspected_answers_are_fresh; vm_compute; reflexivity. Defined.

(** IPv4 and one IPv6 address, enough to run the middleware. *)
Definition demo_ParseIP (s : string) : option (list byte) :=
  if decide (s = "127.0.0.1"%string) then
    Some (bytes_of_Zs [0; 0; 0; 0; 0; 0; 0; 0; 0; 0; 255; 255; 127; 0; 0; 1])
  else if decide (s = "::1"%string) then
    Some (bytes_of_Zs [0; 0; 0; 0; 0; 0; 0; 0; 0; 0; 0; 0; 0; 0; 0; 1])
  else None.
Definition demo_request (addr : string) : Request :=
  mkRequest "POST" ∅ addr ∅ (Ok ∅) ∅ [].
Definition demo_raw : list byte := replicate 32 (z2b 200).
Definition demo_trust : LoopbackTrust (string -> result Identity) :=
  mkLoopbackTrust (RawURL_Encode demo_raw) (fun _ => Err ErrInvalidToken)
    (mkIdentity "local" {["orc:tools"%string]} (at_second 9000)).

Lemma loopback_trust_decides_witness :
  authenticate demo_ParseIP demo_trust (demo_request "127.0.0.1:555") =
    Some (Ok (mkIdentity "local" {["orc:tools"%string]} (at_second 9000))).
Proof.
  rewrite (loopback_trust_decides demo_ParseIP (fun _ => Err ErrInvalidToken) "local" demo_raw (at_second 9000)
    demo_trust (demo_request "127.0.0.1:555") eq_refl eq_refl).
  vm_compute. reflexivity.
Defined.
