(* ===== verification/Ws.v ===== *)
(** * WebSocket framing: internal/ws/ws.go

    A connection is the bytes still to be read, the bytes written so far, the
    role and the message limit.  The four mask bytes that [writeFrame] draws
    from crypto/rand come from the list [c_rand]; an empty list is a failing
    random source.  Reads past the end of the input fail with [io.EOF] (or
    [io.ErrUnexpectedEOF] inside a field), writes succeed unless [c_broken]. *)
From stdpp Require Import pretty.
From S2P Require Import Prelude Crypto GoStrings.
Local Open Scope Z_scope.

Definition ErrClosed : error := Sentinel "ws.ErrClosed" "websocket closed".
Definition ErrProtocol : error := Sentinel "ws.ErrProtocol" "websocket protocol error".
Definition EOF : error := Sentinel "io.EOF" "EOF".
Definition ErrUnexpectedEOF : error := Sentinel "io.ErrUnexpectedEOF" "unexpected EOF".

Inductive Role : Type := Server | Client.

#[global] Instance Role_eq_dec : EqDecision Role.
Proof. solve_decision. Defined.

Record Conn := mkConn {
  c_in : list byte;
  c_out : list byte;
  c_role : Role;
  c_max : Z;
  c_rand : list (byte * byte * byte * byte);
  c_broken : bool }.

(** ** A small state and error monad over the connection *)

Definition W (A : Type) : Type := Conn -> result A * Conn.

#[global] Instance W_ret : MRet W := fun A a c => (Ok a, c).
#[global] Instance W_bind : MBind W := fun A B f m c =>
  match m c with
  | (Ok a, c') => f a c'
  | (Err e, c') => (Err e, c')
  end.

Definition fail {A} (e : error) : W A := fun c => (Err e, c).
Definition gets {A} (f : Conn -> A) : W A := fun c => (Ok (f c), c).
Definition guard_ok (b : bool) (e : error) : W unit := if b then mret tt else fail e.

Definition set_in (c : Conn) (l : list byte) : Conn :=
  mkConn l (c_out c) (c_role c) (c_max c) (c_rand c) (c_broken c).

(** [c.br.ReadByte()] *)
Definition ReadByte : W byte := fun c =>
  match c_in c with
  | [] => (Err EOF, c)
  | b :: l => (Ok b, set_in c l)
  end.

(** [io.ReadFull(c.br, b)] with [n = len(b)] *)
Definition ReadFull (n : nat) : W (list byte) := fun c =>
  if decide (n <= length (c_in c))%nat then
    (Ok (take n (c_in c)), set_in c (drop n (c_in c)))
  else
    (Err (if decide (c_in c = []) then EOF else ErrUnexpectedEOF), set_in c []).

(** [c.conn.Write(b)] *)
Definition conn_Write (b : list byte) : W unit := fun c =>
  if c_broken c then (Err (Foreign "net write"), c)
  else (Ok tt, mkConn (c_in c) (c_out c ++ b) (c_role c) (c_max c) (c_rand c) (c_broken c)).

(** [rand.Read(mask[:])] *)
Definition rand_mask : W (list byte) := fun c =>
  match c_rand c with
  | [] => (Err (Foreign "crypto/rand"), c)
  | (m0, m1, m2, m3) :: l =>
      (Ok [m0; m1; m2; m3], mkConn (c_in c) (c_out c) (c_role c) (c_max c) l (c_broken c))
  end.

(** ** Big-endian fields and masking *)

(** [binary.BigEndian.Uint16] and [Uint64] *)
Definition be_uint (l : list byte) : Z := Sha256.be_word l.
(** [binary.BigEndian.PutUint16] and [PutUint64] *)
Definition put_be (n : nat) (z : Z) : list byte := Sha256.be_bytes n z.

(** [for i := range out { out[i] ^= mask[i&3] }], from index [i] *)
Fixpoint apply_mask (mask : list byte) (i : nat) (l : list byte) : list byte :=
  match l with
  | [] => []
  | b :: l' => byte_xor b (nth (Nat.land i 3) mask (z2b 0)) :: apply_mask mask (S i) l'
  end.

(** ** Frames *)

(** The length of a frame, from the low seven bits of its second byte. *)
Definition read_length (length7 : Z) : W Z :=
  if decide (length7 = 126) then
    b ← ReadFull 2;
    let len := be_uint b in
    guard_ok (126 <=? len) (Wrapf "%w: non-canonical length" [] ErrProtocol);;
    mret len
  else if decide (length7 = 127) then
    b ← ReadFull 8;
    let len := be_uint b in
    guard_ok ((Z.land len (2 ^ 63) =? 0) && (65536 <=? len))
      (Wrapf "%w: invalid length" [] ErrProtocol);;
    mret len
  else mret length7.

(** [func (c *Conn) readFrame() (bool, byte, []byte, error)] *)
Definition readFrame : W (bool * Z * list byte) :=
  h ← ReadByte;
  guard_ok (Z.land (b2z h) 112 =? 0) (Wrapf "%w: RSV bits set" [] ErrProtocol);;
  let fin := negb (Z.land (b2z h) 128 =? 0) in
  let opcode := Z.land (b2z h) 15 in
  b2 ← ReadByte;
  let masked := negb (Z.land (b2z b2) 128 =? 0) in
  role ← gets c_role;
  guard_ok (negb ((bool_decide (role = Server) && negb masked)
                  || (bool_decide (role = Client) && masked)))
    (Wrapf "%w: invalid masking" [] ErrProtocol);;
  let length7 := Z.land (b2z b2) 127 in
  len ← read_length length7;
  guard_ok (negb ((8 <=? opcode) && (negb fin || (125 <? len))))
    (Wrapf "%w: invalid control frame" [] ErrProtocol);;
  max ← gets c_max;
  guard_ok (len <=? max `mod` 2 ^ 64) (New "websocket frame exceeds configured maximum");;
  mask ← (if masked then ReadFull 4 else mret (replicate 4 (z2b 0)));
  payload ← ReadFull (Z.to_nat len);
  mret (fin, opcode, if masked then apply_mask mask 0 payload else payload).

(** [func (c *Conn) writeFrame(opcode byte, payload []byte) error] *)
Definition writeFrame (opcode : Z) (payload : list byte) : W unit :=
  guard_ok (negb ((8 <=? opcode) && (125 <? len payload))) (New "control frame too large");;
  role ← gets c_role;
  let masked := bool_decide (role = Client) in
  let maskBit := if masked then 128 else 0 in
  let l := len payload in
  let header :=
    z2b (Z.lor 128 opcode) ::
    (if l <? 126 then [z2b (Z.lor maskBit (l `mod` 256))]
     else if l <=? 65535 then z2b (Z.lor maskBit 126) :: put_be 2 (l `mod` 2 ^ 16)
     else z2b (Z.lor maskBit 127) :: put_be 8 (l `mod` 2 ^ 64)) in
  '(header, out) ←
    (if masked then
       mask ← rand_mask;
       mret (header ++ mask, apply_mask mask 0 payload)
     else mret (header, payload));
  conn_Write header;;
  conn_Write out.

(** [func (c *Conn) WriteMessage(payload []byte) error] *)
Definition WriteMessage (payload : list byte) : W unit :=
  max ← gets c_max;
  if max <? len payload then fail (New "websocket message exceeds configured maximum")
  else writeFrame 1 payload.

(** [func (c *Conn) ReadMessage() ([]byte, error)].  Every turn of the loop
    consumes at least two input bytes, so [length (c_in c) + 1] turns are
    enough (see [ReadMessage_terminates]). *)
Fixpoint read_loop (fuel : nat) (out : list byte) (started : bool) : W (list byte) :=
  match fuel with
  | O => fail (Foreign "out of fuel")
  | S fuel' =>
      frame ← readFrame;
      let '(fin, opcode, payload) := (frame : bool * Z * list byte) in
      let continue (out : list byte) : W (list byte) :=
        max ← gets c_max;
        if max <? len out then fail (New "websocket message exceeds configured maximum")
        else if fin then mret out
        else read_loop fuel' out true in
      if decide (opcode = 8) then fail ErrClosed
      else if decide (opcode = 9) then writeFrame 10 payload;; read_loop fuel' out started
      else if decide (opcode = 10) then read_loop fuel' out started
      else if decide (opcode = 1) then
        if started then fail (Wrapf "%w: unexpected data frame" [] ErrProtocol)
        else continue (out ++ payload)
      else if decide (opcode = 2) then
        if started then fail (Wrapf "%w: unexpected data frame" [] ErrProtocol)
        else continue (out ++ payload)
      else if decide (opcode = 0) then
        if negb started then fail (Wrapf "%w: unexpected continuation" [] ErrProtocol)
        else continue (out ++ payload)
      else fail (Wrapf "%w: opcode %d" [pretty opcode] ErrProtocol)
  end.

Definition ReadMessage : W (list byte) := fun c =>
  read_loop (S (length (c_in c))) [] false c.

(** [func (c *Conn) Close() error]: a close frame is tried first. *)
Definition Close (closed : result unit) : W unit := fun c =>
  (closed, (writeFrame 8 [] c).2).
