(* ===== verification/Filepath.v ===== *)
(** * path/filepath on Unix, as far as the program uses it

    [Clean], [Join], [Dir], [Base], [Rel], [IsAbs] and [Abs] of Go's standard
    library on slash-separated byte strings, with the facts that reduce them,
    on clean absolute paths, to operations on lists of names. *)
From S2P Require Import Prelude Crypto GoStrings.

Definition slash : Ascii.ascii := Ascii.Ascii true true true true false true false false.
Definition parts (s : string) : list string := Split s slash.

Definition IsAbs (path : string) : bool := HasPrefix path "/".

(** One element of the path, on the elements kept so far (last one first). *)
Definition clean_step (rooted : bool) (stack : list string) (c : string) : list string :=
  if decide (c = EmptyString \/ c = "."%string) then stack
  else if decide (c = ".."%string) then
    match stack with
    | t :: stack' => if decide (t = ".."%string) then c :: stack else stack'
    | [] => if rooted then [] else [c]
    end
  else c :: stack.

Definition elements (rooted : bool) (ps : list string) : list string :=
  reverse (foldl (clean_step rooted) [] ps).

Definition render (rooted : bool) (cs : list string) : string :=
  if rooted then ("/" ++ Join cs "/")%string
  else if decide (cs = []) then "."%string else Join cs "/".

(** [filepath.Clean] *)
Definition Clean (path : string) : string :=
  let rooted := IsAbs path in render rooted (elements rooted (parts path)).

(** [filepath.Join]: empty elements are ignored. *)
Definition JoinPath (elems : list string) : string :=
  match filter (fun e => e <> EmptyString) elems with
  | [] => EmptyString
  | es => Clean (Join es "/")
  end.

(** [filepath.Dir]: [Clean] of everything up to the last slash. *)
Definition Dir (path : string) : string :=
  Clean (Join (removelast (parts path) ++ [EmptyString]) "/").

(** [filepath.Base] *)
Definition Base (path : string) : string :=
  if decide (path = EmptyString) then "."%string
  else match last (filter (fun c => c <> EmptyString) (parts path)) with
       | Some c => c
       | None => "/"%string
       end.

(** [filepath.Rel]: what is left of both paths after their common elements. *)
Fixpoint strip_common (b t : list string) : list string * list string :=
  match b, t with
  | x :: b', y :: t' => if decide (x = y) then strip_common b' t' else (b, t)
  | _, _ => (b, t)
  end.

Definition rel_elements (path : string) : list string :=
  filter (fun c => c <> EmptyString) (parts path).

Definition Rel (basepath targpath : string) : result string :=
  let b := Clean basepath in
  let t := Clean targpath in
  if decide (t = b) then Ok "."%string
  else
    let b := if decide (b = "."%string) then EmptyString else b in
    if decide (IsAbs b <> IsAbs t) then Err (New "Rel: can't make path relative")
    else
      match strip_common (rel_elements b) (rel_elements t) with
      | ([], rt) => Ok (Join rt "/")
      | ((x :: _) as rb, rt) =>
          if decide (x = ".."%string) then Err (New "Rel: can't make path relative")
          else Ok (Join (replicate (length rb) ".."%string ++ rt) "/")
      end.

(** [filepath.Abs], with the working directory as [os.Getwd] reports it. *)
Definition Abs (getwd : result string) (path : string) : result string :=
  if IsAbs path then Ok (Clean path)
  else wd ← getwd; Ok (JoinPath [wd; path]).

(** ** Names and clean absolute paths *)

(** A name that a directory can hold. *)
Definition name (c : string) : Prop :=
  c <> EmptyString /\ c <> "."%string /\ c <> ".."%string /\
  slash ∉ String.list_ascii_of_string c.

Lemma clean_step_names stack c :
  slash ∉ String.list_ascii_of_string c ->
  Forall name stack -> Forall name (clean_step true stack c).
Proof.
  intros Hc Hs. unfold clean_step. repeat case_decide; try done.
  - destruct stack; [done|]. apply Forall_cons in Hs as [(?&?&?&?) ?]. by case_decide.
  - constructor; [|done]. split_and!; naive_solver.
Qed.

Lemma elements_names ps :
  Forall (fun c => slash ∉ String.list_ascii_of_string c) ps -> Forall name (elements true ps).
Proof.
  intros H. unfold elements. apply Forall_reverse.
  assert (Forall name []) as Hs by constructor. revert Hs. generalize (@nil string) as st.
  induction H as [|c ps Hc Hps IH]; intros st Hs; simpl; [done|].
  by apply IH, clean_step_names.
Qed.

Lemma clean_step_name rooted stack c : name c -> clean_step rooted stack c = c :: stack.
Proof. intros (?&?&?&?). unfold clean_step. rewrite !decide_False by naive_solver. done. Qed.

Lemma foldl_names rooted st cs :
  Forall name cs -> foldl (clean_step rooted) st cs = reverse cs ++ st.
Proof.
  intros H. revert st. induction H as [|c cs Hc Hcs IH]; intros st; simpl; [done|].
  by rewrite clean_step_name, IH, reverse_cons, <- app_assoc by done.
Qed.

Lemma elements_of_names rooted cs : Forall name cs -> elements rooted cs = cs.
Proof.
  intros. unfold elements. by rewrite foldl_names, app_nil_r, reverse_involutive.
Qed.

Lemma elements_empty_head rooted ps : elements rooted (EmptyString :: ps) = elements rooted ps.
Proof. unfold elements. simpl. unfold clean_step at 2. by rewrite decide_True by auto. Qed.

(** Splitting what was joined. *)
Lemma Split_app_sep c s :
  slash ∉ String.list_ascii_of_string c ->
  Split (c ++ String slash s)%string slash = c :: Split s slash.
Proof.
  induction c as [|a c IH]; intros Hc; simpl in *.
  - done.
  - apply not_elem_of_cons in Hc as [Ha Hc]. rewrite decide_False by congruence.
    by rewrite (IH Hc).
Qed.

Lemma Split_no_slash c : slash ∉ String.list_ascii_of_string c -> Split c slash = [c].
Proof.
  induction c as [|a c IH]; intros Hc; simpl in *; [done|].
  apply not_elem_of_cons in Hc as [Ha Hc]. rewrite decide_False by congruence. by rewrite (IH Hc).
Qed.

Lemma Split_Join cs :
  cs <> [] -> Forall (fun c => slash ∉ String.list_ascii_of_string c) cs ->
  Split (Join cs "/") slash = cs.
Proof.
  intros Hne H. induction H as [|c cs Hc Hcs IH]; [done|].
  destruct cs as [|d cs]; [by apply Split_no_slash|].
  change (Join (c :: d :: cs) "/") with (c ++ String slash (Join (d :: cs) "/"))%string.
  rewrite Split_app_sep by done. by rewrite IH.
Qed.

Lemma names_no_slash cs :
  Forall name cs -> Forall (fun c => slash ∉ String.list_ascii_of_string c) cs.
Proof. intros H. eapply Forall_impl; [exact H|]. by intros c (?&?&?&?). Qed.

Lemma parts_render cs :
  Forall name cs ->
  parts (render true cs) = EmptyString :: (if decide (cs = []) then [EmptyString] else cs).
Proof.
  intros H. unfold parts, render. change ("/" ++ Join cs "/")%string with (String slash (Join cs "/")).
  cbn [Split]. rewrite decide_True by done. f_equal. case_decide as E; [by subst|].
  apply Split_Join; [done|]. by apply names_no_slash.
Qed.

Lemma IsAbs_slash s : IsAbs (String slash s) = true.
Proof. unfold IsAbs, HasPrefix. simpl. by destruct s. Qed.

Lemma IsAbs_render cs : IsAbs (render true cs) = true.
Proof. unfold IsAbs, HasPrefix, render. simpl. by destruct (Join cs "/"). Qed.

Lemma elements_render cs : Forall name cs -> elements true (parts (render true cs)) = cs.
Proof.
  intros H. rewrite parts_render, elements_empty_head by done. case_decide as E.
  - subst. by rewrite elements_empty_head.
  - by apply elements_of_names.
Qed.

(** A path that is absolute and clean: the image of a list of names. *)
Definition clean_abs (path : string) : Prop := exists cs, Forall name cs /\ path = render true cs.

Lemma Clean_abs path :
  IsAbs path = true -> Clean path = render true (elements true (parts path)).
Proof. unfold Clean. by intros ->. Qed.

Lemma parts_names path : Forall name (elements true (parts path)).
Proof. apply elements_names, Split_no_sep. Qed.

Lemma Clean_render cs : Forall name cs -> Clean (render true cs) = render true cs.
Proof. intros. by rewrite Clean_abs, elements_render by (done || apply IsAbs_render). Qed.

Lemma render_inj cs ds :
  Forall name cs -> Forall name ds -> render true cs = render true ds -> cs = ds.
Proof.
  intros Hc Hd E. rewrite <- (elements_render cs), <- (elements_render ds) by done. by rewrite E.
Qed.

Lemma filter_names cs : Forall name cs -> filter (fun c => c <> EmptyString) cs = cs.
Proof.
  intros H. apply filter_Forall_id. eapply Forall_impl; [exact H|]. by intros c (?&?).
Qed.

Lemma nonempty_parts_render cs :
  Forall name cs -> filter (fun c => c <> EmptyString) (parts (render true cs)) = cs.
Proof.
  intros H. rewrite parts_render, filter_cons_False by naive_solver. case_decide; [by subst|].
  by apply filter_names.
Qed.

Lemma Base_render cs c : Forall name (cs ++ [c]) -> Base (render true (cs ++ [c])) = c.
Proof.
  intros H. unfold Base. rewrite decide_False by done.
  by rewrite nonempty_parts_render, last_snoc.
Qed.

Lemma removelast_snoc {A} (l : list A) x : removelast (l ++ [x]) = l.
Proof. by rewrite removelast_app, app_nil_r. Qed.

Lemma elements_snoc_empty rooted ps : elements rooted (ps ++ [EmptyString]) = elements rooted ps.
Proof. unfold elements. rewrite foldl_app. simpl. unfold clean_step at 1. by rewrite decide_True by auto. Qed.

Lemma Clean_Join ps :
  Forall (fun c => slash ∉ String.list_ascii_of_string c) ps ->
  Clean (Join (EmptyString :: ps ++ [EmptyString]) "/") = render true (elements true ps).
Proof.
  intros H. rewrite Clean_abs.
  - unfold parts. rewrite Split_Join, elements_empty_head, elements_snoc_empty; [done|done|].
    constructor; [set_solver|]. apply Forall_app. split; [done|]. repeat constructor. set_solver.
  - unfold IsAbs, HasPrefix. destruct ps as [|p ps]; [done|].
    change (Join _ "/") with (String slash (Join ((p :: ps) ++ [EmptyString]) "/")).
    apply IsAbs_slash.
Qed.

Lemma Dir_render cs c :
  Forall name (cs ++ [c]) -> Dir (render true (cs ++ [c])) = render true cs.
Proof.
  intros H. unfold Dir. rewrite parts_render, decide_False by (done || by destruct cs).
  assert (removelast (EmptyString :: cs ++ [c]) = EmptyString :: cs) as ->.
  { change (EmptyString :: cs ++ [c]) with ((EmptyString :: cs) ++ [c]). apply removelast_snoc. }
  apply Forall_app in H as [H _]. cbn [app].
  rewrite Clean_Join, elements_of_names by (done || by apply names_no_slash). done.
Qed.

Lemma Dir_root : Dir "/" = "/"%string.
Proof. vm_compute. reflexivity. Qed.

(** Joining one name to a clean absolute path. *)
Lemma JoinPath_render cs c :
  Forall name cs -> name c -> JoinPath [render true cs; c] = render true (cs ++ [c]).
Proof.
  intros Hcs Hc. unfold JoinPath. rewrite filter_cons_True by done.
  rewrite filter_cons_True by apply Hc. rewrite filter_nil.
  change (Join [render true cs; c] "/") with (render true cs ++ String slash c)%string.
  assert (Split (render true cs ++ String slash c) slash =
    parts (render true cs) ++ [c]) as E.
  { unfold parts. generalize (render true cs) as s.
    intros s. induction s as [|a s IH]; [simpl; by rewrite Split_no_slash by apply Hc|].
    simpl. rewrite IH. case_decide; [done|].
    pose proof (Split_not_nil s slash). by destruct (Split s slash). }
  rewrite Clean_abs by apply IsAbs_slash.
  unfold parts at 1. rewrite E, parts_render by done. cbn [app].
  rewrite elements_empty_head. case_decide; subst.
  - simpl. rewrite elements_empty_head. by rewrite elements_of_names by (repeat constructor; apply Hc).
  - rewrite elements_of_names; [done|]. apply Forall_app. split; [done|]. by constructor.
Qed.

(** ** Relative paths *)

Lemma HasPrefix_app s p : HasPrefix s p = true <-> exists s', s = (p ++ s')%string.
Proof.
  unfold HasPrefix. revert s. induction p as [|a p IH]; intros s; simpl.
  - split; [by exists s|]. by destruct s.
  - destruct s as [|b s]; simpl; [split; [done|by intros []]|].
    destruct (Ascii.ascii_dec a b) as [->|Hne].
    + rewrite IH. split; intros [s' E]; exists s'; [by rewrite E|by injection E].
    + split; [done|]. intros [s' E]. by injection E.
Qed.

Lemma strip_common_spec b t rb rt :
  strip_common b t = (rb, rt) -> exists cs, b = cs ++ rb /\ t = cs ++ rt.
Proof.
  revert t rb rt. induction b as [|x b IH]; intros t rb rt; simpl.
  - intros [= <- <-]. by exists [].
  - destruct t as [|y t]; [intros [= <- <-]; by exists []|]. case_decide as E; subst.
    + intros (cs & -> & ->)%IH. by exists (y :: cs).
    + intros [= <- <-]. by exists [].
Qed.

Lemma strip_common_prefix b t : strip_common b (b ++ t) = ([], t).
Proof. induction b; simpl; [by destruct t|]. by rewrite decide_True. Qed.

Lemma Rel_render b t :
  Forall name b -> Forall name t ->
  Rel (render true b) (render true t) =
    if decide (t = b) then Ok "."%string
    else let '(rb, rt) := strip_common b t in
         Ok (Join (replicate (length rb) ".."%string ++ rt) "/").
Proof.
  intros Hb Ht. unfold Rel. rewrite !Clean_render by done.
  destruct (decide (t = b)) as [->|Hne]; [by rewrite decide_True|].
  rewrite decide_False by (intros E; by apply Hne, render_inj).
  rewrite (decide_False (P := render true b = "."%string)) by (intros E; discriminate E).
  rewrite !IsAbs_render, (decide_False (P := true <> true)) by naive_solver.
  unfold rel_elements. rewrite !nonempty_parts_render by done.
  destruct (strip_common b t) as [rb rt] eqn:E. apply strip_common_spec in E as (cs & -> & ->).
  destruct rb as [|x rb]; [done|]. rewrite decide_False; [done|].
  apply Forall_app in Hb as [_ Hb]. by apply Forall_cons in Hb as [(?&?&?&?) _].
Qed.

(** The test on a relative path that keeps it below its base. *)
Definition below (rel : string) : bool :=
  bool_decide (rel = "."%string) ||
  (bool_decide (rel <> ".."%string) && negb (HasPrefix rel "../") && negb (IsAbs rel)).

Lemma below_names rt : Forall name rt -> rt <> [] -> below (Join rt "/") = true.
Proof.
  intros H Hne. pose proof (Split_Join rt Hne (names_no_slash rt H)) as E.
  unfold below. apply orb_true_iff. right. rewrite !andb_true_iff. split_and!.
  - apply bool_decide_eq_true. intros Hr. rewrite Hr in E. subst rt.
    by apply Forall_cons in H as [(?&?&?&?) _].
  - apply negb_true_iff, not_true_is_false. intros [s' Hs]%HasPrefix_app. rewrite Hs in E.
    change ("../" ++ s')%string with (".." ++ String slash s')%string in E.
    rewrite Split_app_sep in E by (simpl; set_solver). subst rt.
    by apply Forall_cons in H as [(?&?&?&?) _].
  - apply negb_true_iff, not_true_is_false. intros [s' Hs]%HasPrefix_app. rewrite Hs in E.
    change ("/" ++ s')%string with ("" ++ String slash s')%string in E.
    rewrite Split_app_sep in E by (simpl; set_solver). subst rt.
    by apply Forall_cons in H as [(?&?) _].
Qed.

Lemma below_up n rt : below (Join (replicate (S n) ".."%string ++ rt) "/") = false.
Proof.
  unfold below. simpl. destruct (replicate n ".."%string ++ rt) as [|y l].
  - by vm_compute.
  - change (Join (".."%string :: y :: l) "/") with ("../" ++ Join (y :: l) "/")%string.
    rewrite bool_decide_eq_false_2 by done. simpl.
    rewrite (proj2 (HasPrefix_app _ _)) by by eexists. done.
Qed.

(** The test holds iff the base's names are the first names of the path. *)
Lemma below_Rel b t :
  Forall name b -> Forall name t ->
  (exists rel, Rel (render true b) (render true t) = Ok rel /\ below rel = true) <-> b `prefix_of` t.
Proof.
  intros Hb Ht. rewrite Rel_render by done. destruct (decide (t = b)) as [->|Hne].
  { split; [done|]. intros _. by exists "."%string. }
  destruct (strip_common b t) as [rb rt] eqn:E. split.
  - intros (rel & [= <-] & Hrel). destruct rb as [|x rb].
    + apply strip_common_spec in E as (cs & -> & ->). rewrite app_nil_r. by eexists.
    + simpl length in Hrel. by rewrite below_up in Hrel.
  - intros [k ->]. rewrite strip_common_prefix in E. injection E as <- <-.
    eexists; split; [done|]. cbn [length replicate app]. apply below_names; [by apply Forall_app in Ht as [_ ?]|].
    intros ->. by rewrite app_nil_r in Hne.
Qed.

Lemma Abs_clean_abs getwd path abs :
  (forall wd, getwd = Ok wd -> IsAbs wd = true) ->
  Abs getwd path = Ok abs -> clean_abs abs.
Proof.
  intros Hwd. unfold Abs. destruct (IsAbs path) eqn:Ep.
  - intros [= <-]. rewrite Clean_abs by done. eexists; split; [apply parts_names|done].
  - intros H. apply result_bind_ok in H as (wd & Hg & [= <-]). specialize (Hwd wd Hg).
    assert (wd <> EmptyString) by (intros ->; by vm_compute in Hwd).
    unfold JoinPath. rewrite filter_cons_True by done.
    assert (forall l, IsAbs (Join (wd :: l) "/") = true) as Ha.
    { intros l. apply HasPrefix_app in Hwd as [s ->]. destruct l; apply IsAbs_slash. }
    rewrite Clean_abs by apply Ha. eexists; split; [apply parts_names|done].
Qed.
