(* ===== verification/FileSystem.v ===== *)
(** * A Unix file system and the calls of package os that resolve paths

    A file system maps canonical paths (lists of names below the root) to
    nodes.  [walk] resolves a path against it one element at a time and
    follows symbolic links, at most a given number of them: it is both the
    kernel's path resolution and the loop of [filepath.EvalSymlinks], which
    differ in that number. *)
From S2P Require Import Prelude Crypto GoStrings Filepath.

Inductive node : Type :=
| NDir
| NFile (content : list byte) (perm : Z)
| NLink (target : string).

#[global] Instance node_eq_dec : EqDecision node.
Proof. solve_decision. Defined.

Notation fsys := (gmap (list string) node).

(** What the program sees of the operating system. *)
Record Os := mkOs { os_getwd : result string; os_fs : fsys }.

Definition ENOENT : error := Foreign "ENOENT".
Definition ENOTDIR : error := Foreign "ENOTDIR".
Definition ELOOP : error := Foreign "ELOOP".
Definition IsNotExist (e : error) : bool := errors_Is e ENOENT.

(** The root directory always exists. *)
Definition node_at (fs : fsys) (p : list string) : option node :=
  if decide (p = []) then Some NDir else fs !! p.

Fixpoint walk (fs : fsys) (too_many : error) (links : nat) {struct links} :
    list string -> list string -> result (list string) :=
  fix go (dest todo : list string) {struct todo} :=
    match todo with
    | [] => Ok dest
    | c :: rest =>
        if decide (c = EmptyString \/ c = "."%string) then go dest rest
        else if decide (c = ".."%string) then go (removelast dest) rest
        else
          match node_at fs (dest ++ [c]) with
          | None => Err ENOENT
          | Some NDir => go (dest ++ [c]) rest
          | Some (NFile _ _) => if decide (rest = []) then Ok (dest ++ [c]) else Err ENOTDIR
          | Some (NLink t) =>
              match links with
              | O => Err too_many
              | S links' =>
                  walk fs too_many links' (if IsAbs t then [] else dest) (parts t ++ rest)
              end
          end
    end.

(** [filepath.EvalSymlinks] on an absolute path: up to 255 links. *)
Definition EvalSymlinks (os : Os) (path : string) : result string :=
  cs ← walk (os_fs os) (New "EvalSymlinks: too many links") 255 [] (parts path);
  Ok (render true cs).

(** The kernel resolves up to 40 links. *)
Definition namei (fs : fsys) (ps : list string) : result (list string) := walk fs ELOOP 40 [] ps.

(** [os.Lstat] on a clean absolute path: the last element is not followed. *)
Definition Lstat (os : Os) (path : string) : result node :=
  match reverse (rel_elements path) with
  | [] => Ok NDir
  | c :: dirs =>
      dir ← namei (os_fs os) (reverse dirs);
      match node_at (os_fs os) dir with
      | Some NDir =>
          match node_at (os_fs os) (dir ++ [c]) with
          | Some n => Ok n
          | None => Err ENOENT
          end
      | _ => Err ENOTDIR
      end
  end.

(** [os.Stat] on an absolute path. *)
Definition Stat (os : Os) (path : string) : result node :=
  cs ← namei (os_fs os) (parts path);
  match node_at (os_fs os) cs with
  | Some n => Ok n
  | None => Err ENOENT
  end.

(** ** Canonical paths *)

(** A file system as the kernel keeps it: the entries of directories. *)
Definition fs_ok (fs : fsys) : Prop :=
  fs !! [] = None /\
  forall p c n, fs !! (p ++ [c]) = Some n -> name c /\ node_at fs p = Some NDir.

(** Every directory on the way to [p], [p] excluded, is a real directory. *)
Definition real_parents (fs : fsys) (p : list string) : Prop :=
  forall q c k, p = q ++ c :: k -> node_at fs q = Some NDir.

(** [p] is a canonical path: it exists, and no symbolic link is on it. *)
Definition canonical (fs : fsys) (p : list string) : Prop :=
  real_parents fs p /\
  exists n, node_at fs p = Some n /\ (forall t, n <> NLink t).

Definition real_dir (fs : fsys) (p : list string) : Prop :=
  real_parents fs p /\ node_at fs p = Some NDir.

Lemma node_at_root fs : node_at fs [] = Some NDir.
Proof. done. Qed.

Lemma real_dir_root fs : real_dir fs [].
Proof. split; [|done]. intros q c k E. by destruct q. Qed.

Lemma real_parents_snoc fs p c :
  real_dir fs p -> real_parents fs (p ++ [c]).
Proof.
  intros [Hp Hd] q d k E. destruct k as [|x k] using rev_ind.
  - by apply app_inj_tail in E as [<- _].
  - rewrite app_comm_cons, app_assoc in E. apply app_inj_tail in E as [-> _]. by eapply Hp.
Qed.

Lemma real_parents_prefix fs p k : real_parents fs (p ++ k) -> real_parents fs p.
Proof. intros H q c k' ->. eapply (H q c (k' ++ k)). by rewrite <- app_assoc. Qed.

Lemma real_dir_removelast fs p : real_dir fs p -> real_dir fs (removelast p).
Proof.
  intros [Hp Hd]. destruct p as [|c p] using rev_ind; [done|]. clear IHp.
  rewrite removelast_snoc. split; [by eapply real_parents_prefix|]. by eapply Hp.
Qed.

Lemma real_dir_canonical fs p : real_dir fs p -> canonical fs p.
Proof. intros [? ?]. split; [done|]. by exists NDir. Qed.

Section walk.
Context (fs : fsys) (too_many : error).

(** One step of [walk] on an ordinary name. *)
Lemma walk_name links dest c rest :
  name c ->
  walk fs too_many links dest (c :: rest) =
    match node_at fs (dest ++ [c]) with
    | None => Err ENOENT
    | Some NDir => walk fs too_many links (dest ++ [c]) rest
    | Some (NFile _ _) => if decide (rest = []) then Ok (dest ++ [c]) else Err ENOTDIR
    | Some (NLink t) =>
        match links with
        | O => Err too_many
        | S links' => walk fs too_many links' (if IsAbs t then [] else dest) (parts t ++ rest)
        end
    end.
Proof.
  intros (?&?&?&?). destruct links; cbn [walk]; rewrite !decide_False by naive_solver; done.
Qed.

Lemma walk_nil links dest : walk fs too_many links dest [] = Ok dest.
Proof. by destruct links. Qed.

Lemma walk_empty links dest rest :
  walk fs too_many links dest (EmptyString :: rest) = walk fs too_many links dest rest.
Proof. destruct links; cbn [walk]; by rewrite decide_True by auto. Qed.

(** What [walk] returns is canonical, whatever the links on the way. *)
Lemma walk_canonical links dest todo p :
  real_dir fs dest -> walk fs too_many links dest todo = Ok p -> canonical fs p.
Proof.
  revert dest todo. induction links as [links IHl] using lt_wf_ind.
  intros dest todo. revert dest. induction todo as [|c rest IHt]; intros dest Hd.
  - rewrite walk_nil. intros [= <-]. by apply real_dir_canonical.
  - destruct links as [|links]; cbn [walk]; repeat case_decide; try by apply IHt.
    all: try by (apply IHt, real_dir_removelast).
    all: destruct (node_at fs (dest ++ [c])) as [[| |t]|] eqn:E; try done.
    all: try by (apply IHt; split; [by apply real_parents_snoc|]).
    all: try by (intros [= <-]; split; [by apply real_parents_snoc|by eexists]).
    all: apply (IHl links); [lia|].
    all: by destruct (IsAbs t); [apply real_dir_root|].
Qed.

(** A canonical path resolves to itself, without following anything. *)
Lemma walk_of_canonical links dest todo :
  Forall name todo -> canonical fs (dest ++ todo) ->
  walk fs too_many links dest todo = Ok (dest ++ todo).
Proof.
  revert dest. induction todo as [|c rest IH]; intros dest Hn [Hp [n [Hat Hl]]].
  - by rewrite walk_nil, app_nil_r.
  - apply Forall_cons in Hn as [Hc Hn]. rewrite walk_name by done.
    destruct rest as [|d rest].
    + rewrite Hat. destruct n as [| |t]; [by rewrite walk_nil|done|by destruct (Hl t)].
    + rewrite (Hp (dest ++ [c]) d rest) by (by rewrite <- app_assoc).
      rewrite (IH (dest ++ [c])); rewrite <- ?app_assoc; [done|done|].
      split; [done|by exists n].
Qed.
End walk.

Lemma canonical_names fs p : fs_ok fs -> canonical fs p -> Forall name p.
Proof.
  intros [H0 Hok] [Hp [n [Hat _]]]. clear -Hok Hp Hat. revert n Hat.
  induction p as [|c p IH] using rev_ind; intros n Hat; [constructor|].
  unfold node_at in Hat. rewrite decide_False in Hat by (by destruct p).
  apply Hok in Hat as [Hc Hd]. apply Forall_app. split; [|by repeat constructor; apply Hc].
  by apply (IH (real_parents_prefix _ _ _ Hp) NDir).
Qed.

Lemma EvalSymlinks_canonical os path r :
  EvalSymlinks os path = Ok r -> exists p, r = render true p /\ canonical (os_fs os) p.
Proof.
  unfold EvalSymlinks. intros (p & Hw & [= <-])%result_bind_ok. exists p. split; [done|].
  eapply walk_canonical; [apply real_dir_root|exact Hw].
Qed.

Lemma EvalSymlinks_of_canonical os p :
  Forall name p -> canonical (os_fs os) p -> EvalSymlinks os (render true p) = Ok (render true p).
Proof.
  intros Hn Hc. unfold EvalSymlinks. rewrite parts_render, walk_empty by done.
  case_decide as E; [by subst|]. by rewrite walk_of_canonical.
Qed.

(** Allowing more links changes an answer only if the limit was the reason. *)
Lemma walk_more fs e1 e2 l1 l2 dest todo r :
  walk fs e1 l1 dest todo = r -> r <> Err e1 -> (l1 <= l2)%nat -> walk fs e2 l2 dest todo = r.
Proof.
  intros <-. revert l2 dest todo. induction l1 as [|l1 IHl]; intros l2 dest todo; revert dest;
    (induction todo as [|c rest IHt]; intros dest Hr Hle; [by rewrite !walk_nil|]).
  - destruct l2 as [|l2]; cbn [walk] in Hr |- *; repeat case_decide; try (by apply IHt);
      destruct (node_at fs (dest ++ [c])) as [[| |t]|]; try done; by apply IHt.
  - destruct l2 as [|l2]; [lia|]. cbn [walk] in Hr |- *. repeat case_decide; try (by apply IHt);
      destruct (node_at fs (dest ++ [c])) as [[| |t]|]; try done; try (by apply IHt);
      apply IHl; try done; lia.
Qed.

Lemma Lstat_render os cs c :
  Forall name (cs ++ [c]) ->
  Lstat os (render true (cs ++ [c])) =
    (dir ← namei (os_fs os) cs;
     match node_at (os_fs os) dir with
     | Some NDir =>
         match node_at (os_fs os) (dir ++ [c]) with
         | Some n => Ok n
         | None => Err ENOENT
         end
     | _ => Err ENOTDIR
     end).
Proof.
  intros H. unfold Lstat, rel_elements. rewrite nonempty_parts_render by done.
  by rewrite reverse_app, reverse_singleton; cbn [app]; rewrite reverse_involutive.
Qed.

Lemma node_at_missing fs p k :
  fs_ok fs -> node_at fs p = None -> node_at fs (p ++ k) = None.
Proof.
  intros [_ Hok] Hp. induction k as [|c k IH] using rev_ind; [by rewrite app_nil_r|].
  rewrite app_assoc. unfold node_at at 1. rewrite decide_False by (by destruct (p ++ k)).
  destruct (fs !! ((p ++ k) ++ [c])) eqn:E; [|done]. apply Hok in E as [_ E]. congruence.
Qed.

(** The errors of path resolution. *)
Lemma walk_errors fs e links dest todo e' :
  walk fs e links dest todo = Err e' -> e' = ENOENT \/ e' = ENOTDIR \/ e' = e.
Proof.
  revert dest todo. induction links as [|links IHl]; intros dest todo; revert dest;
    (induction todo as [|c rest IHt]; intros dest; [by rewrite walk_nil|]); cbn [walk];
    repeat case_decide; try (by apply IHt);
    destruct (node_at fs (dest ++ [c])) as [[| |t]|]; try (by apply IHt); try (by apply IHl);
    naive_solver.
Qed.

Lemma Lstat_errors os cs e :
  Forall name cs -> Lstat os (render true cs) = Err e -> e = ENOENT \/ e = ENOTDIR \/ e = ELOOP.
Proof.
  intros Hcs. destruct cs as [|c cs _] using rev_ind.
  - unfold Lstat. by vm_compute.
  - rewrite Lstat_render by done. destruct (namei (os_fs os) cs) as [dir|e'] eqn:E; cbn.
    + repeat case_match; naive_solver.
    + intros [= <-]. by apply walk_errors in E.
Qed.

(** Checking a concrete file system. *)
#[global] Instance name_dec c : Decision (name c).
Proof. unfold name. apply _. Defined.

Definition fs_okb (fs : fsys) : bool :=
  forallb (fun kv : list string * node =>
    match reverse kv.1 with
    | [] => false
    | c :: q => bool_decide (name c) && bool_decide (node_at fs (reverse q) = Some NDir)
    end) (map_to_list fs).

Lemma fs_okb_ok fs : fs_okb fs = true -> fs_ok fs.
Proof.
  unfold fs_okb. rewrite forallb_forall. intros H. split.
  - destruct (fs !! []) as [n|] eqn:E; [|done].
    apply elem_of_map_to_list, list_elem_of_In, H in E. done.
  - intros p c n E. apply elem_of_map_to_list, list_elem_of_In, H in E. cbn [fst] in E.
    rewrite reverse_app, reverse_singleton in E. cbn [app] in E. rewrite reverse_involutive in E.
    by bool_props.
Qed.
