(* ===== verification/PathPolicy.v ===== *)
(** * The path policy: internal/pathpolicy/pathpolicy.go

    Which paths the agent's tools may touch.  The working directory and the
    file system are an explicit [Os] argument, because they can differ between
    [New] and the calls. *)
From S2P Require Import Prelude Crypto GoStrings Filepath FileSystem.

Definition ErrOutsideRoots : error :=
  Sentinel "pathpolicy.ErrOutsideRoots" "path is outside allowed roots".

Record Policy := mkPolicy { roots : list string }.

(** [func dedupe(in []string) []string] *)
Definition dedupe (l : list string) : list string :=
  (foldl (fun (acc : gset string * list string) v =>
     if decide (v ∈ acc.1) then acc else ({[v]} ∪ acc.1, acc.2 ++ [v])) (∅, []) l).2.

(** One root, in [New]'s loop. *)
Definition resolve_root (os : Os) (root : string) : result string :=
  match Abs (os_getwd os) root with
  | Err e => Err (Wrapf "absolute root %q: %w" [root] e)
  | Ok abs =>
      match EvalSymlinks os abs with
      | Err e => Err (Wrapf "resolve root %q: %w" [root] e)
      | Ok resolved =>
          match Stat os resolved with
          | Ok NDir => Ok (Clean resolved)
          | _ => Err (Errorf "allowed root %q is not a directory" [root])
          end
      end
  end.

(** [func New(roots []string) ( *Policy, error)] *)
Definition New (os : Os) (rs : list string) : result Policy :=
  if decide (rs = []) then Err (Prelude.New "at least one allowed root is required")
  else out ← mapM (resolve_root os) rs; Ok (mkPolicy (dedupe out)).

(** [func (p *Policy) allowed(path string) bool] *)
Definition allowed (p : Policy) (path : string) : bool :=
  existsb (fun root =>
    match Rel root path with
    | Err _ => false
    | Ok rel =>
        bool_decide (rel = "."%string) ||
        (bool_decide (rel <> ".."%string) && negb (HasPrefix rel "../") && negb (IsAbs rel))
    end) (roots p).

(** [func (p *Policy) ResolveExisting(path string) (string, error)] *)
Definition ResolveExisting (os : Os) (p : Policy) (path : string) : result string :=
  if decide (TrimSpace path = EmptyString) then Err (Prelude.New "path is required")
  else
    abs ← Abs (os_getwd os) path;
    resolved ← EvalSymlinks os abs;
    let resolved := Clean resolved in
    if negb (allowed p resolved) then Err ErrOutsideRoots else Ok resolved.

(** The loop of [ResolveForCreate]: up to the nearest existing ancestor.  One
    turn per element of the path, plus one for the root, is enough
    ([ResolveForCreate_terminates]). *)
Fixpoint climb (os : Os) (fuel : nat) (cur : string) (suffix : list string) :
    result (string * list string) :=
  match fuel with
  | O => Err (Foreign "out of fuel")
  | S fuel' =>
      match Lstat os cur with
      | Ok _ => Ok (cur, suffix)
      | Err e =>
          if negb (IsNotExist e) then Err e
          else
            let parent := Dir cur in
            if decide (parent = cur) then Err ErrOutsideRoots
            else climb os fuel' parent (suffix ++ [Base cur])
      end
  end.

(** [func (p *Policy) ResolveForCreate(path string) (string, error)] *)
Definition ResolveForCreate (os : Os) (p : Policy) (path : string) : result string :=
  if decide (TrimSpace path = EmptyString) then Err (Prelude.New "path is required")
  else
    abs ← Abs (os_getwd os) path;
    let abs := Clean abs in
    cs ← climb os (S (length (parts abs))) abs [];
    let '(cur, suffix) := (cs : string * list string) in
    resolved ← EvalSymlinks os cur;
    let resolved := foldl (fun r s => JoinPath [r; s]) resolved (reverse suffix) in
    let resolved := Clean resolved in
    if negb (allowed p resolved) then Err ErrOutsideRoots else Ok resolved.

(** ** The policy's test *)

(** [cs] lies below one of the policy's roots. *)
Definition under_root (p : Policy) (cs : list string) : Prop :=
  exists rc, Forall name rc /\ render true rc ∈ roots p /\ rc `prefix_of` cs.

Definition roots_clean (p : Policy) : Prop := Forall clean_abs (roots p).

Lemma allowed_render p cs :
  roots_clean p -> Forall name cs -> allowed p (render true cs) = true <-> under_root p cs.
Proof.
  intros Hr Hcs. unfold allowed. rewrite existsb_exists. split.
  - intros (root & Hin & H). apply list_elem_of_In in Hin.
    pose proof (proj1 (Forall_forall _ _) Hr root Hin) as (rc & Hrc & ->).
    exists rc. split_and!; [done|done|]. apply below_Rel; [done|done|].
    destruct (Rel _ _) as [rel|]; [by exists rel|done].
  - intros (rc & Hrc & Hin & Hpre). exists (render true rc).
    split; [by apply list_elem_of_In|].
    apply below_Rel in Hpre as (rel & -> & Hrel); done.
Qed.

Lemma dedupe_spec l : (forall x, x ∈ dedupe l <-> x ∈ l) /\ NoDup (dedupe l).
Proof.
  unfold dedupe.
  assert (forall (s : gset string) out, (forall x, x ∈ s <-> x ∈ out) -> NoDup out ->
    let r := (foldl (fun (acc : gset string * list string) v =>
      if decide (v ∈ acc.1) then acc else ({[v]} ∪ acc.1, acc.2 ++ [v])) (s, out) l).2 in
    (forall x, x ∈ r <-> x ∈ out \/ x ∈ l) /\ NoDup r) as H.
  { induction l as [|v l IH]; intros s out Hs Hnd; cbn [foldl fst snd].
    - split; [|done]. intros x. rewrite elem_of_nil. tauto.
    - case_decide as Hv.
      + destruct (IH s out Hs Hnd) as [H1 H2]. split; [|done]. intros x. rewrite H1, elem_of_cons.
        split; [tauto|]. intros [?|[->|?]]; [tauto| |tauto]. left. by apply Hs.
      + destruct (IH ({[v]} ∪ s) (out ++ [v])) as [H1 H2].
        * intros x. rewrite elem_of_union, elem_of_singleton, elem_of_app, list_elem_of_singleton, Hs. tauto.
        * apply NoDup_app. split_and!; [done| |apply NoDup_singleton].
          intros x Hx ->%list_elem_of_singleton. by apply Hv, Hs.
        * split; [|done]. intros x. rewrite H1, elem_of_app, list_elem_of_singleton, elem_of_cons. tauto. }
  destruct (H ∅ []) as [H1 H2]; [set_solver|constructor|]. split; [|done].
  intros x. rewrite H1, elem_of_nil. tauto.
Qed.

Lemma resolve_root_Ok os root r :
  fs_ok (os_fs os) -> resolve_root os root = Ok r ->
  exists cs, Forall name cs /\ r = render true cs /\ real_dir (os_fs os) cs.
Proof.
  intros Hok. unfold resolve_root. destruct (Abs _ _) as [a|]; [|done].
  destruct (EvalSymlinks os a) as [s|] eqn:E; [|done].
  apply EvalSymlinks_canonical in E as (cs & -> & Hc).
  pose proof (canonical_names _ _ Hok Hc) as Hn.
  destruct (Stat _ _) as [[| |]|] eqn:Hs; try done. intros Hr. exists cs.
  assert (r = render true cs) as -> by (rewrite Clean_render in Hr by done; congruence). split_and!; [done|done|]. split; [apply Hc|].
  unfold Stat, namei in Hs. rewrite parts_render, walk_empty in Hs by done.
  assert (walk (os_fs os) ELOOP 40 [] (if decide (cs = []) then [EmptyString] else cs) = Ok cs) as Hw.
  { case_decide; [subst; by rewrite walk_empty|]. by rewrite walk_of_canonical. }
  rewrite Hw in Hs. cbn in Hs. by destruct (node_at (os_fs os) cs) as [[| |]|].
Qed.

Lemma New_Ok os rs p :
  fs_ok (os_fs os) -> New os rs = Ok p ->
  rs <> [] /\ NoDup (roots p) /\
  Forall (fun r => exists cs, Forall name cs /\ r = render true cs /\ real_dir (os_fs os) cs) (roots p) /\
  (forall r, r ∈ roots p <-> exists root, root ∈ rs /\ resolve_root os root = Ok r).
Proof.
  intros Hok. unfold New. case_decide; [done|]. intros (out & Hm & [= <-])%result_bind_ok.
  assert (forall r, r ∈ out <-> exists root, root ∈ rs /\ resolve_root os root = Ok r) as Hout.
  { clear H. revert out Hm. induction rs as [|root rs IH]; intros out; cbn [mapM].
    - intros [= <-] r. split; [by intros ?%elem_of_nil|]. by intros (? & ?%elem_of_nil & _).
    - intros (r1 & H1 & H2)%result_bind_ok. apply result_bind_ok in H2 as (out' & H2 & [= <-]).
      intros r. rewrite elem_of_cons, (IH _ H2). split.
      + intros [->|(root' & ? & ?)]; [exists root|exists root']; rewrite elem_of_cons; auto.
      + intros (root' & [->|Hin]%elem_of_cons & Hr); [left; congruence|right; eauto]. }
  destruct (dedupe_spec out) as [Hd Hnd]. simpl. split_and!; [done|done| |].
  - apply Forall_forall. intros r (root & _ & Hr)%Hd%Hout. by eapply resolve_root_Ok.
  - intros r. by rewrite Hd.
Qed.

Lemma New_fails os rs p root e :
  New os rs = Ok p -> root ∈ rs -> resolve_root os root <> Err e.
Proof.
  unfold New. case_decide; [done|]. intros (out & Hm & _)%result_bind_ok. clear H.
  revert out Hm. induction rs as [|r rs IH]; intros out; cbn [mapM]; [by intros _ ?%elem_of_nil|].
  intros (r1 & H1 & H2)%result_bind_ok. apply result_bind_ok in H2 as (out' & H2 & _).
  intros [->|Hin]%elem_of_cons; [congruence|by eapply IH].
Qed.

Lemma New_roots_clean os rs p : fs_ok (os_fs os) -> New os rs = Ok p -> roots_clean p.
Proof.
  intros Hok (_ & _ & H & _)%New_Ok; [|done]. eapply Forall_impl; [exact H|].
  intros r (cs & ? & ? & _). by exists cs.
Qed.

(** ** Climbing to the nearest existing ancestor *)

Section climb.
Context (os : Os).

(** Where the loop stops: an existing ancestor whose next element towards the
    path, if there is one, does not exist. *)
Lemma climb_spec fuel cs suffix cur sfx :
  Forall name cs ->
  climb os fuel (render true cs) suffix = Ok (cur, sfx) ->
  exists ds k, cs = ds ++ k /\ cur = render true ds /\ sfx = suffix ++ reverse k /\
    (exists n, Lstat os cur = Ok n) /\
    (k = [] \/ exists c k', k = c :: k' /\
       exists e, Lstat os (render true (ds ++ [c])) = Err e /\ IsNotExist e = true).
Proof.
  revert cs suffix. induction fuel as [|fuel IH]; intros cs suffix Hcs; [done|]. cbn [climb].
  destruct (Lstat os (render true cs)) as [n|e] eqn:El.
  - intros [= <- <-]. exists cs, []. split_and!; [by rewrite app_nil_r|done|by rewrite app_nil_r| |by left].
    by exists n.
  - destruct (IsNotExist e) eqn:Ee; [|done]. cbn [negb].
    destruct cs as [|c cs] using rev_ind; [by rewrite decide_True by (vm_compute; reflexivity)|].
    clear IHcs. rewrite Dir_render by done.
    pose proof (proj1 (Forall_app _ _ _) Hcs) as [Hn Hc].
    rewrite decide_False.
    2: { intros E%render_inj; [|done|done]. by apply (f_equal length) in E; rewrite length_app in E; simpl in E; lia. }
    rewrite Base_render by done.
    intros (ds & k & -> & -> & -> & Hex & Hk)%IH; [|done].
    exists ds, (k ++ [c]). split_and!; [by rewrite app_assoc|done| |done|].
    + by rewrite reverse_app, reverse_singleton, <- app_assoc.
    + right. destruct Hk as [->|(d & k' & -> & Hd)]; [|by exists d, (k' ++ [c])].
      exists c, []. split; [done|]. exists e. by rewrite app_nil_r in El.
Qed.

Lemma climb_fuel fuel cs suffix :
  Forall name cs -> (length cs < fuel)%nat ->
  climb os fuel (render true cs) suffix <> Err (Foreign "out of fuel").
Proof.
  revert cs suffix. induction fuel as [|fuel IH]; intros cs suffix Hcs Hf; [lia|]. cbn [climb].
  destruct (Lstat os (render true cs)) as [n|e] eqn:El; [done|].
  destruct (IsNotExist e) eqn:Ee.
  - cbn [negb]. destruct cs as [|c cs] using rev_ind.
    { by rewrite decide_True by (vm_compute; reflexivity). }
    clear IHcs. rewrite Dir_render by done. case_decide; [done|].
    apply IH; [by apply Forall_app in Hcs as [? _]|]. rewrite length_app in Hf. simpl in Hf. lia.
  - cbn [negb]. apply Lstat_errors in El as [->|[->| ->]]; done.
Qed.

Lemma climb_enough f1 f2 cs suffix :
  Forall name cs -> (length cs < f1)%nat -> (length cs < f2)%nat ->
  climb os f1 (render true cs) suffix = climb os f2 (render true cs) suffix.
Proof.
  revert f2 cs suffix. induction f1 as [|f1 IH]; intros f2 cs suffix Hcs H1 H2; [lia|].
  destruct f2 as [|f2]; [lia|]. cbn [climb].
  destruct (Lstat os (render true cs)) as [n|e]; [done|].
  destruct (IsNotExist e); [|done]. cbn [negb].
  destruct cs as [|c cs _] using rev_ind; [by rewrite !decide_True by (vm_compute; reflexivity)|].
  rewrite Dir_render by done. case_decide; [done|]. rewrite length_app in *. simpl in *.
  apply IH; [by apply Forall_app in Hcs as [? _]|lia|lia].
Qed.
End climb.

(** A kernel's file system, and a working directory as [getcwd] reports it. *)
Definition os_ok (os : Os) : Prop :=
  fs_ok (os_fs os) /\ forall wd, os_getwd os = Ok wd -> IsAbs wd = true.

Lemma foldl_JoinPath ds k :
  Forall name (ds ++ k) ->
  foldl (fun r s => JoinPath [r; s]) (render true ds) k = render true (ds ++ k).
Proof.
  revert ds. induction k as [|c k IH]; intros ds H; cbn [foldl]; [by rewrite app_nil_r|].
  assert (Forall name ds /\ name c) as [? ?].
  { apply Forall_app in H as [? H]. by apply Forall_cons in H as [? _]. }
  rewrite JoinPath_render, IH by (rewrite <- ?app_assoc; done). by rewrite <- app_assoc.
Qed.

(** The kernel and [EvalSymlinks] agree on an existing ancestor. *)
Lemma Lstat_missing os ds c base e :
  os_ok os -> Forall name (ds ++ [c]) ->
  EvalSymlinks os (render true ds) = Ok (render true base) -> Forall name base ->
  Lstat os (render true (ds ++ [c])) = Err e -> IsNotExist e = true ->
  node_at (os_fs os) (base ++ [c]) = None.
Proof.
  intros [Hok _] Hn He Hb Hl Hne. rewrite Lstat_render in Hl by done.
  apply Forall_app in Hn as [Hn _].
  unfold EvalSymlinks in He. apply result_bind_ok in He as (b & Hw & Hr).
  assert (canonical (os_fs os) b) as Hc by (eapply walk_canonical; [apply real_dir_root|exact Hw]).
  assert (render true b = render true base) as Hr' by congruence.
  apply (render_inj b base (canonical_names _ _ Hok Hc) Hb) in Hr'. subst b. clear Hr.
  assert (walk (os_fs os) (Prelude.New "EvalSymlinks: too many links") 255 [] ds = Ok base) as Hw'.
  { rewrite parts_render, walk_empty in Hw by done. case_decide; [subst; by rewrite walk_empty in Hw|done]. }
  clear Hw. unfold namei in Hl. destruct (walk (os_fs os) ELOOP 40 [] ds) as [dir|e'] eqn:Hk.
  - apply (walk_more _ _ (Prelude.New "EvalSymlinks: too many links") _ 255) in Hk; [|discriminate|lia].
    rewrite Hw' in Hk. injection Hk as <-. cbn in Hl.
    destruct (node_at (os_fs os) base) as [[| |]|];
      try (injection Hl as <-; discriminate Hne).
    destruct (node_at (os_fs os) (base ++ [c])); [discriminate Hl|reflexivity].
  - injection Hl as <-. destruct (decide (e' = ELOOP)) as [->|Hne']; [discriminate Hne|].
    apply (walk_more _ _ (Prelude.New "EvalSymlinks: too many links") _ 255) in Hk;
      [|intros [= E]; congruence|lia].
    rewrite Hw' in Hk. discriminate Hk.
Qed.

(** ** The claims *)

(** No element of [cs] is a symbolic link: what the kernel opens under that
    path is that path itself. *)
Definition link_free (fs : fsys) (cs : list string) : Prop :=
  forall q k t, cs = q ++ k -> node_at fs q <> Some (NLink t).

Lemma canonical_link_free fs cs : canonical fs cs -> link_free fs cs.
Proof.
  intros [Hp [n [Hat Hl]]] q k t ->. destruct k as [|c k].
  - rewrite app_nil_r in Hat. rewrite Hat. naive_solver.
  - by rewrite (Hp q c k).
Qed.

Lemma ResolveExisting_Ok p os path r :
  roots_clean p -> os_ok os ->
  ResolveExisting os p path = Ok r <->
  TrimSpace path <> EmptyString /\
  exists a cs, Abs (os_getwd os) path = Ok a /\ EvalSymlinks os a = Ok r /\ r = render true cs /\
    under_root p cs /\ Forall name cs /\ canonical (os_fs os) cs.
Proof.
  intros Hroots Hos.
  unfold ResolveExisting. case_decide as Ht; [naive_solver|]. split.
  - intros (a & Ha & H)%result_bind_ok. apply result_bind_ok in H as (s & Hs & H).
    pose proof Hs as (cs & -> & Hc)%EvalSymlinks_canonical.
    pose proof (canonical_names _ _ (proj1 Hos) Hc) as Hn. rewrite Clean_render in H by done.
    destruct (allowed p (render true cs)) eqn:Hal; [|done]. cbn [negb] in H. injection H as <-.
    split; [done|]. exists a, cs. split_and!; try done. by apply allowed_render.
  - intros (_ & a & cs & Ha & He & -> & Hu & Hn & Hc). rewrite (result_bind_eq _ _ _ Ha), (result_bind_eq _ _ _ He).
    rewrite Clean_render by done. by rewrite (proj2 (allowed_render p cs Hroots Hn) Hu).
Qed.

Lemma ResolveForCreate_Ok p os path r :
  roots_clean p -> os_ok os ->
  ResolveForCreate os p path = Ok r ->
  exists base k, r = render true (base ++ k) /\ Forall name (base ++ k) /\ under_root p (base ++ k) /\
    canonical (os_fs os) base /\
    (k = [] \/ exists c k', k = c :: k' /\ node_at (os_fs os) (base ++ [c]) = None) /\
    link_free (os_fs os) (base ++ k).
Proof.
  intros Hroots Hos.
  unfold ResolveForCreate. case_decide as Ht; [done|].
  intros (a & Ha & H)%result_bind_ok.
  pose proof (Abs_clean_abs _ _ _ (proj2 Hos) Ha) as (cs & Hcs & ->).
  rewrite Clean_render in H by done. apply result_bind_ok in H as ([cur sfx] & Hc & H).
  apply climb_spec in Hc as (ds & k & -> & -> & -> & _ & Hk); [|done].
  apply result_bind_ok in H as (s & Hs & H).
  pose proof Hs as (base & -> & Hcan)%EvalSymlinks_canonical.
  pose proof (canonical_names _ _ (proj1 Hos) Hcan) as Hb.
  pose proof (proj1 (Forall_app _ _ _) Hcs) as [Hds Hkn].
  assert (Forall name (base ++ k)) as Hbk by by apply Forall_app.
  rewrite app_nil_l, reverse_involutive, foldl_JoinPath, Clean_render in H by done.
  destruct (allowed p (render true (base ++ k))) eqn:Hal; [|done]. cbn [negb] in H. injection H as <-.
  exists base, k. apply allowed_render in Hal; [|done|done].
  assert (k = [] \/ exists c k', k = c :: k' /\ node_at (os_fs os) (base ++ [c]) = None) as Hmiss.
  { destruct Hk as [->|(c & k' & -> & e & He & Hne)]; [by left|]. right. exists c, k'. split; [done|].
    eapply Lstat_missing; try done. apply Forall_app. split; [done|].
    by apply Forall_cons in Hkn as [? _]; constructor. }
  split_and!; try done.
  destruct Hmiss as [->|(c & k' & -> & Hmiss)]; [rewrite app_nil_r; by apply canonical_link_free|].
  intros q k0 t E. destruct (decide (length q <= length base)%nat).
  - assert (exists k1, base = q ++ k1) as [k1 ->].
    { exists (drop (length q) base). apply (f_equal (take (length base))) in E.
      rewrite take_app_length, take_app_ge in E by lia. apply (f_equal (drop (length q))) in E as E'.
      rewrite drop_app_length in E'. rewrite E'. by rewrite E at 1. }
    by eapply canonical_link_free.
  - assert (exists k1, q = (base ++ [c]) ++ k1) as [k1 ->].
    { exists (drop (length (base ++ [c])) q). apply (f_equal (take (length q))) in E.
      rewrite take_app_length in E. rewrite <- E. rewrite (take_app_ge base) by lia.
      rewrite <- app_assoc. f_equal. rewrite length_app. simpl. rewrite drop_app_ge by lia.
      destruct (length q - length base)%nat as [|m] eqn:Em; [lia|]. cbn [take app].
      replace (length base + 1 - length base)%nat with 1%nat by lia. done. }
    by rewrite (node_at_missing _ _ k1 (proj1 Hos) Hmiss).
Qed.

(** C4 An existing path resolves to [r] iff it is not blank, its absolute form
    with all symbolic links resolved is [r], and [r] lies below a root, name by
    name.  The result exists and no element of it is a symbolic link. *)
Theorem ResolveExisting_confined os0 rs p os path r :
  os_ok os0 -> os_ok os -> New os0 rs = Ok p ->
  ResolveExisting os p path = Ok r <->
  TrimSpace path <> EmptyString /\
  exists a cs, Abs (os_getwd os) path = Ok a /\ EvalSymlinks os a = Ok r /\ r = render true cs /\
    under_root p cs /\ Forall name cs /\ canonical (os_fs os) cs.
Proof. intros Hos0 Hos Hnew. apply ResolveExisting_Ok; [|done]. by apply (New_roots_clean os0 rs); [apply Hos0|]. Qed.

(** C5 A path resolved for creation stays below a root even when it does not
    exist yet: the result is an existing, canonical ancestor followed by names
    of which the first does not exist there, the whole of it lies below a
    root, and no element of it is a symbolic link, so creating it component by
    component follows none. *)
Theorem ResolveForCreate_confined os0 rs p os path r :
  os_ok os0 -> os_ok os -> New os0 rs = Ok p ->
  ResolveForCreate os p path = Ok r ->
  exists base k, r = render true (base ++ k) /\ Forall name (base ++ k) /\ under_root p (base ++ k) /\
    canonical (os_fs os) base /\
    (k = [] \/ exists c k', k = c :: k' /\ node_at (os_fs os) (base ++ [c]) = None) /\
    link_free (os_fs os) (base ++ k).
Proof. intros Hos0 Hos Hnew. apply ResolveForCreate_Ok; [|done]. by apply (New_roots_clean os0 rs); [apply Hos0|]. Qed.

(** The loop of [ResolveForCreate] ends: on the absolute form of any path,
    whatever the file system holds, one turn per element and one for the root
    are enough, and more turns change nothing. *)
Theorem ResolveForCreate_terminates os path a fuel :
  os_ok os -> Abs (os_getwd os) path = Ok a -> (length (parts (Clean a)) < fuel)%nat ->
  climb os fuel (Clean a) [] <> Err (Foreign "out of fuel") /\
  climb os fuel (Clean a) [] = climb os (S (length (parts (Clean a)))) (Clean a) [].
Proof.
  intros Hos Ha Hf. pose proof (Abs_clean_abs _ _ _ (proj2 Hos) Ha) as (cs & Hcs & ->).
  rewrite Clean_render in * by done.
  assert (length cs < length (parts (render true cs)))%nat as Hlen.
  { rewrite parts_render by done. case_decide; [subst; simpl; lia|simpl; lia]. }
  split; [apply climb_fuel; [done|lia]|]. apply climb_enough; [done|lia|lia].
Qed.

(** The policy's test compares whole names: a clean absolute path is allowed
    iff the names of some root are its first names.  A sibling such as
    [/rootX] of a root [/root] is not below it. *)
Theorem allowed_by_components os rs p cs :
  os_ok os -> New os rs = Ok p -> Forall name cs ->
  allowed p (render true cs) = true <->
  exists rc, Forall name rc /\ render true rc ∈ roots p /\ rc `prefix_of` cs.
Proof.
  intros Hos Hnew Hcs. pose proof (New_roots_clean _ _ _ (proj1 Hos) Hnew) as Hroots.
  by apply allowed_render.
Qed.

Lemma TrimSpace_render cs : TrimSpace (render true cs) <> EmptyString.
Proof.
  apply (TrimSpace_keeps _ (z2b 47)); [vm_compute; reflexivity|].
  apply list_elem_of_here.
Qed.

Lemma ResolveExisting_canonical os p cs :
  roots_clean p -> Forall name cs -> canonical (os_fs os) cs -> under_root p cs ->
  ResolveExisting os p (render true cs) = Ok (render true cs).
Proof.
  intros Hr Hn Hc Hu. unfold ResolveExisting. rewrite decide_False by apply TrimSpace_render.
  assert (Abs (os_getwd os) (render true cs) = Ok (render true cs)) as Ha.
  { unfold Abs. by rewrite IsAbs_render, Clean_render. }
  rewrite (result_bind_eq _ _ _ Ha).
  rewrite (result_bind_eq _ _ _ (EvalSymlinks_of_canonical _ _ Hn Hc)).
  rewrite Clean_render by done. by rewrite (proj2 (allowed_render p cs Hr Hn) Hu).
Qed.

(** The roots of a policy are usable: [New] keeps one canonical directory
    per configured root, without duplicates, each of them is allowed and
    resolves to itself; and what [ResolveExisting] returns once is returned
    again for its own result. *)
Theorem roots_and_results_are_fixed_points os rs p :
  os_ok os -> New os rs = Ok p ->
  roots p <> [] /\ NoDup (roots p) /\
  (forall root, root ∈ rs -> exists r, resolve_root os root = Ok r /\ r ∈ roots p) /\
  (forall r, r ∈ roots p -> ResolveExisting os p r = Ok r) /\
  (forall path r, ResolveExisting os p path = Ok r -> ResolveExisting os p r = Ok r).
Proof.
  intros Hos Hnew. pose proof (New_roots_clean _ _ _ (proj1 Hos) Hnew) as Hroots.
  pose proof (New_Ok _ _ _ (proj1 Hos) Hnew) as (Hne & Hnd & Hdir & Hin).
  assert (forall root, root ∈ rs -> exists r, resolve_root os root = Ok r /\ r ∈ roots p) as Hall.
  { intros root Hr. destruct (resolve_root os root) as [r|e] eqn:E; [|by eapply New_fails in Hnew].
    exists r. split; [done|]. apply Hin. by exists root. }
  split_and!; try done.
  - destruct rs as [|root rs]; [done|]. destruct (Hall root) as (r & _ & Hr); [apply list_elem_of_here|].
    intros E. rewrite E in Hr. by apply elem_of_nil in Hr.
  - intros r Hr. pose proof (proj1 (Forall_forall _ _) Hdir r Hr) as (cs & Hn & -> & Hd).
    apply ResolveExisting_canonical; [done|done|by apply real_dir_canonical|]. by exists cs.
  - intros path r H. unfold ResolveExisting in H. case_decide; [done|].
    apply result_bind_ok in H as (a & Ha & H). apply result_bind_ok in H as (s & Hs & H).
    apply EvalSymlinks_canonical in Hs as (cs & -> & Hc).
    pose proof (canonical_names _ _ (proj1 Hos) Hc) as Hn. rewrite Clean_render in H by done.
    destruct (allowed p (render true cs)) eqn:Hal; [|done]. cbn [negb] in H. injection H as <-.
    apply ResolveExisting_canonical; [done|done|done|]. by apply allowed_render.
Qed.

(** ** Witnesses *)

(** /srv/data is a root; in it a file, a link to a sibling of the root, and a
    link back into the root. *)
Definition demo_fs : fsys :=
  list_to_map [(["srv"], NDir); (["srv"; "data"], NDir); (["srv"; "data"; "f"], NFile [] 420);
    (["srv"; "data"; "out"], NLink "../secret"); (["srv"; "data"; "in"], NLink "/srv/./data/d");
    (["srv"; "data"; "d"], NDir); (["srv"; "secret"], NDir); (["srv"; "database"], NDir)]%string.
Definition demo_os : Os := mkOs (Ok "/srv/data"%string) demo_fs.
Definition demo_policy : Policy := mkPolicy ["/srv/data"%string].

Lemma demo_os_ok : os_ok demo_os.
Proof.
  split; [apply fs_okb_ok; vm_compute; reflexivity|]. intros wd [= <-]. vm_compute. reflexivity.
Qed.

Lemma demo_New : New demo_os ["."; "/srv/data/in/.."]%string = Ok demo_policy.
Proof. vm_compute. reflexivity. Qed.

Lemma ResolveExisting_confined_witness :
  exists a cs, Abs (os_getwd demo_os) "in/../f" = Ok a /\ EvalSymlinks demo_os a = Ok "/srv/data/f"%string /\
    "/srv/data/f"%string = render true cs /\
    under_root demo_policy cs /\ Forall name cs /\ canonical (os_fs demo_os) cs.
Proof.
  apply (ResolveExisting_confined demo_os ["."; "/srv/data/in/.."]%string demo_policy demo_os "in/../f" "/srv/data/f"
    demo_os_ok demo_os_ok demo_New).
  vm_compute. reflexivity.
Defined.

Lemma ResolveForCreate_confined_witness :
  exists base k, "/srv/data/d/new/file"%string = render true (base ++ k) /\ Forall name (base ++ k) /\
    under_root demo_policy (base ++ k) /\ canonical (os_fs demo_os) base /\
    (k = [] \/ exists c k', k = c :: k' /\ node_at (os_fs demo_os) (base ++ [c]) = None) /\
    link_free (os_fs demo_os) (base ++ k).
Proof.
  apply (ResolveForCreate_confined demo_os ["."; "/srv/data/in/.."]%string demo_policy demo_os "/srv/data/in/new/file"
    "/srv/data/d/new/file" demo_os_ok demo_os_ok demo_New).
  vm_compute. reflexivity.
Defined.

Lemma ResolveForCreate_terminates_witness :
  climb demo_os 9 (Clean "/srv/data/a/b/c") [] <> Err (Foreign "out of fuel") /\
  climb demo_os 9 (Clean "/srv/data/a/b/c") [] =
    climb demo_os (S (length (parts (Clean "/srv/data/a/b/c")))) (Clean "/srv/data/a/b/c") [].
Proof.
  apply (ResolveForCreate_terminates demo_os "a/b/c" "/srv/data/a/b/c" 9 demo_os_ok);
    [vm_compute; reflexivity|vm_compute; lia].
Defined.

Lemma allowed_by_components_witness :
  allowed demo_policy (render true ["srv"; "database"]%string) = true <->
  exists rc, Forall name rc /\ render true rc ∈ roots demo_policy /\ rc `prefix_of` ["srv"; "database"]%string.
Proof.
  apply (allowed_by_components demo_os ["."; "/srv/data/in/.."]%string demo_policy
    ["srv"; "database"]%string demo_os_ok demo_New).
  by repeat (constructor; [vm_compute; set_solver|]).
Defined.

Lemma roots_and_results_are_fixed_points_witness :
  roots demo_policy <> [] /\ NoDup (roots demo_policy) /\
  (forall root, root ∈ ["."; "/srv/data/in/.."]%string ->
     exists r, resolve_root demo_os root = Ok r /\ r ∈ roots demo_policy) /\
  (forall r, r ∈ roots demo_policy -> ResolveExisting demo_os demo_policy r = Ok r) /\
  (forall path r, ResolveExisting demo_os demo_policy path = Ok r ->
     ResolveExisting demo_os demo_policy r = Ok r).
Proof.
  apply (roots_and_results_are_fixed_points demo_os _ demo_policy demo_os_ok demo_New).
Defined.

(** A link out of the root, a sibling with the root's name as a prefix, and a
    creation through a link are refused. *)
Example escapes_refused :
  (ResolveExisting demo_os demo_policy "out", ResolveExisting demo_os demo_policy "../database",
   ResolveForCreate demo_os demo_policy "out/x", ResolveForCreate demo_os demo_policy "/srv/data-x") =
  (Err ErrOutsideRoots, Err ErrOutsideRoots, Err ErrOutsideRoots, Err ErrOutsideRoots).
Proof. vm_compute. reflexivity. Qed.
