(* ===== verification/Store.v ===== *)
(** * Device and pairing storage: internal/store/store.go, memory.go

    The in-memory store.  Every method of [Memory] runs under [m.mu], so each
    is one atomic function from the store to a result and a new store.
    [time.Now().UTC()] is the argument [now]. *)
From S2P Require Import Prelude Crypto.

Definition ErrNotFound : error := Sentinel "store.ErrNotFound" "not found".
Definition ErrUnauthorized : error := Sentinel "store.ErrUnauthorized" "unauthorized".
Definition ErrPairingPending : error := Sentinel "store.ErrPairingPending" "pairing pending".
Definition ErrPairingExpired : error := Sentinel "store.ErrPairingExpired" "pairing expired".
Definition ErrPairingUsed : error :=
  Sentinel "store.ErrPairingUsed" "pairing already used".

Record Device := mkDevice {
  Device_ID : string;
  Device_OwnerSubject : string;
  Device_Name : string;
  Device_CreatedAt : Z;
  Device_LastSeenAt : option Z;
  Device_RevokedAt : option Z;
  Device_Online : bool }.

Record AuditEvent := mkAuditEvent {
  AuditEvent_OwnerSubject : string;
  AuditEvent_DeviceID : string;
  AuditEvent_ToolName : string;
  AuditEvent_Status : string;
  AuditEvent_Duration : Z;
  AuditEvent_ErrorCode : string }.

Record Pairing := mkPairing {
  Pairing_DeviceCodeHash : string;
  Pairing_UserCodeHash : string;
  Pairing_DeviceName : string;
  Pairing_ExpiresAt : Z;
  Pairing_OwnerSubject : string;
  Pairing_ApprovedAt : option Z;
  Pairing_ConsumedAt : option Z }.

#[global] Instance Device_eq_dec : EqDecision Device.
Proof. solve_decision. Defined.
#[global] Instance Pairing_eq_dec : EqDecision Pairing.
Proof. solve_decision. Defined.
#[global] Instance AuditEvent_eq_dec : EqDecision AuditEvent.
Proof. solve_decision. Defined.

(** The zero value that reading a missing map key gives. *)
Definition zero_Pairing : Pairing := mkPairing "" "" "" 0 "" None None.

(** [func HashSecret(secret string) string] *)
Definition HashSecret (secret : string) : string :=
  hex_EncodeToString (Sha256.Sum256 (bytes_of_string secret)).

Record memoryDevice := mkMemoryDevice {
  md_device : Device;
  md_tokenHash : string }.

Record Memory := mkMemory {
  m_devices : gmap string memoryDevice;
  m_pairings : gmap string Pairing;
  m_userCode : gmap string string;
  m_audit : list AuditEvent }.

Definition NewMemory : Memory := mkMemory ∅ ∅ ∅ [].

(** Assignments to one field. *)
Definition Device_set_CreatedAt (d : Device) (t : Z) : Device :=
  mkDevice (Device_ID d) (Device_OwnerSubject d) (Device_Name d) t
    (Device_LastSeenAt d) (Device_RevokedAt d) (Device_Online d).
Definition Device_set_LastSeenAt (d : Device) (t : option Z) : Device :=
  mkDevice (Device_ID d) (Device_OwnerSubject d) (Device_Name d) (Device_CreatedAt d)
    t (Device_RevokedAt d) (Device_Online d).
Definition Device_set_RevokedAt (d : Device) (t : option Z) : Device :=
  mkDevice (Device_ID d) (Device_OwnerSubject d) (Device_Name d) (Device_CreatedAt d)
    (Device_LastSeenAt d) t (Device_Online d).
Definition Device_set_identity (d : Device) (owner name : string) : Device :=
  mkDevice (Device_ID d) owner name (Device_CreatedAt d)
    (Device_LastSeenAt d) (Device_RevokedAt d) (Device_Online d).
Definition m_set_devices (m : Memory) ds : Memory :=
  mkMemory ds (m_pairings m) (m_userCode m) (m_audit m).
Definition m_set_pairings (m : Memory) ps : Memory :=
  mkMemory (m_devices m) ps (m_userCode m) (m_audit m).
Definition m_set_audit (m : Memory) l : Memory :=
  mkMemory (m_devices m) (m_pairings m) (m_userCode m) l.

(** [if d.CreatedAt.IsZero() { d.CreatedAt = now }] *)
Definition default_CreatedAt (now : Z) (d : Device) : Device :=
  if IsZero (Device_CreatedAt d) then Device_set_CreatedAt d now else d.

(** ** Devices *)

Definition CreateDevice (now : Z) (d : Device) (token : string) (m : Memory)
    : result unit * Memory :=
  match m_devices m !! Device_ID d with
  | Some _ => (Err (New "device already exists"), m)
  | None =>
      let d := default_CreatedAt now d in
      (Ok tt, m_set_devices m
                (<[Device_ID d := mkMemoryDevice d (HashSecret token)]> (m_devices m)))
  end.

Definition GetDevice (owner id : string) (m : Memory) : result Device :=
  match m_devices m !! id with
  | None => Err ErrNotFound
  | Some d =>
      if bool_decide (Device_OwnerSubject (md_device d) <> owner)
         || bool_decide (Device_RevokedAt (md_device d) <> None)
      then Err ErrNotFound
      else Ok (md_device d)
  end.

(** [sort.Slice(out, CreatedAt.Before)] after a loop over the map.  The order
    in which Go visits the map is the argument [order]; the sort is a stable
    one, and every outcome of an unstable one is the stable sort of some order
    (see [ListDevices_outcomes]). *)
Definition created_le (d e : Device) : Prop := (Device_CreatedAt d <= Device_CreatedAt e)%Z.
#[global] Instance created_le_dec : RelDecision created_le.
Proof. intros d e. unfold created_le. apply _. Defined.

Definition listed (owner : string) (kd : string * memoryDevice) : bool :=
  bool_decide (Device_OwnerSubject (md_device kd.2) = owner)
  && bool_decide (Device_RevokedAt (md_device kd.2) = None).

Definition ListDevices (order : list (string * memoryDevice)) (owner : string)
    : list Device :=
  isort created_le
    ((fun kd => md_device kd.2) <$> filter (fun kd => listed owner kd = true) order).

Definition AuthenticateDevice (id token : string) (m : Memory) : result Device :=
  match m_devices m !! id with
  | None => Err ErrUnauthorized
  | Some d =>
      if bool_decide (Device_RevokedAt (md_device d) <> None)
         || negb (ConstantTimeCompare (bytes_of_string (md_tokenHash d))
                    (bytes_of_string (HashSecret token)) =? 1)%Z
      then Err ErrUnauthorized
      else Ok (md_device d)
  end.

Definition TouchDevice (now : Z) (id : string) (m : Memory) : result unit * Memory :=
  match m_devices m !! id with
  | None => (Err ErrNotFound, m)
  | Some d =>
      let d := mkMemoryDevice (Device_set_LastSeenAt (md_device d) (Some now))
                 (md_tokenHash d) in
      (Ok tt, m_set_devices m (<[id := d]> (m_devices m)))
  end.

Definition RevokeDevice (now : Z) (owner id : string) (m : Memory)
    : result unit * Memory :=
  match m_devices m !! id with
  | None => (Err ErrNotFound, m)
  | Some d =>
      if bool_decide (Device_OwnerSubject (md_device d) <> owner)
         || bool_decide (Device_RevokedAt (md_device d) <> None)
      then (Err ErrNotFound, m)
      else
        let d := mkMemoryDevice (Device_set_RevokedAt (md_device d) (Some now))
                   (md_tokenHash d) in
        (Ok tt, m_set_devices m (<[id := d]> (m_devices m)))
  end.

(** ** Audit log *)

(** [copy(m.audit, m.audit[len-5000:]); m.audit = m.audit[:5000]] keeps the
    last 5000 events. *)
Definition WriteAudit (e : AuditEvent) (m : Memory) : result unit * Memory :=
  let l := m_audit m in
  let l := if (10000 <=? len l)%Z
           then take (Z.to_nat 5000) (drop (Z.to_nat (len l - 5000)) l) else l in
  (Ok tt, m_set_audit m (l ++ [e])).

(** ** Pairings *)

Definition CreatePairing (p : Pairing) (m : Memory) : result unit * Memory :=
  match m_pairings m !! Pairing_DeviceCodeHash p with
  | Some _ => (Err (New "pairing exists"), m)
  | None =>
      match m_userCode m !! Pairing_UserCodeHash p with
      | Some _ => (Err (New "user code collision"), m)
      | None =>
          (Ok tt, mkMemory (m_devices m)
                    (<[Pairing_DeviceCodeHash p := p]> (m_pairings m))
                    (<[Pairing_UserCodeHash p := Pairing_DeviceCodeHash p]> (m_userCode m))
                    (m_audit m))
      end
  end.

Definition Pairing_approve (now : Z) (owner : string) (p : Pairing) : Pairing :=
  mkPairing (Pairing_DeviceCodeHash p) (Pairing_UserCodeHash p) (Pairing_DeviceName p)
    (Pairing_ExpiresAt p) owner (Some now) (Pairing_ConsumedAt p).

Definition Pairing_consume (now : Z) (p : Pairing) : Pairing :=
  mkPairing (Pairing_DeviceCodeHash p) (Pairing_UserCodeHash p) (Pairing_DeviceName p)
    (Pairing_ExpiresAt p) (Pairing_OwnerSubject p) (Pairing_ApprovedAt p) (Some now).

Definition ApprovePairing (now : Z) (userCodeHash owner : string) (m : Memory)
    : result unit * Memory :=
  match m_userCode m !! userCodeHash with
  | None => (Err ErrNotFound, m)
  | Some deviceHash =>
      let p := default zero_Pairing (m_pairings m !! deviceHash) in
      if After now (Pairing_ExpiresAt p) then (Err ErrPairingExpired, m)
      else if bool_decide (Pairing_ConsumedAt p <> None) then (Err ErrPairingUsed, m)
      else (Ok tt, m_set_pairings m
                     (<[deviceHash := Pairing_approve now owner p]> (m_pairings m)))
  end.

Definition ConsumePairing (now : Z) (deviceCodeHash : string) (d : Device)
    (token : string) (m : Memory) : result Device * Memory :=
  match m_pairings m !! deviceCodeHash with
  | None => (Err ErrNotFound, m)
  | Some p =>
      if After now (Pairing_ExpiresAt p) then (Err ErrPairingExpired, m)
      else if bool_decide (Pairing_ConsumedAt p <> None) then (Err ErrPairingUsed, m)
      else if bool_decide (Pairing_ApprovedAt p = None)
              || bool_decide (Pairing_OwnerSubject p = "")
      then (Err ErrPairingPending, m)
      else
        match m_devices m !! Device_ID d with
        | Some _ => (Err (New "device id collision"), m)
        | None =>
            let d := default_CreatedAt now
                       (Device_set_identity d (Pairing_OwnerSubject p) (Pairing_DeviceName p)) in
            (Ok d, mkMemory
                     (<[Device_ID d := mkMemoryDevice d (HashSecret token)]> (m_devices m))
                     (<[deviceCodeHash := Pairing_consume now p]> (m_pairings m))
                     (m_userCode m) (m_audit m))
        end
  end.
