(* ===== verification/StoreProps.v ===== *)
(** * Properties of the in-memory store

    The store as a transition system over its methods, its well-formedness
    invariant, the pairing protocol it implements, and tenant isolation. *)
From S2P Require Import Prelude Crypto Store.

(** ** The store as a transition system *)

Inductive op : Type :=
| OpCreateDevice (d : Device) (token : string)
| OpTouchDevice (id : string)
| OpRevokeDevice (owner id : string)
| OpWriteAudit (e : AuditEvent)
| OpCreatePairing (p : Pairing)
| OpApprovePairing (userCodeHash owner : string)
| OpConsumePairing (code : string) (d : Device) (token : string).

(** One call at clock [now]; the result is whether it succeeded. *)
Definition apply (now : Z) (o : op) (m : Memory) : bool * Memory :=
  match o with
  | OpCreateDevice d tok => let r := CreateDevice now d tok m in (is_ok r.1, r.2)
  | OpTouchDevice id => let r := TouchDevice now id m in (is_ok r.1, r.2)
  | OpRevokeDevice ow id => let r := RevokeDevice now ow id m in (is_ok r.1, r.2)
  | OpWriteAudit e => let r := WriteAudit e m in (is_ok r.1, r.2)
  | OpCreatePairing p => let r := CreatePairing p m in (is_ok r.1, r.2)
  | OpApprovePairing u ow => let r := ApprovePairing now u ow m in (is_ok r.1, r.2)
  | OpConsumePairing c d tok => let r := ConsumePairing now c d tok m in (is_ok r.1, r.2)
  end.

Definition exec (o : Z * op) (m : Memory) : option Memory := Some (apply o.1 o.2 m).2.

(** The control plane creates pairings with only the hashes, the name and the
    expiry set (controlplane/http.go, [startPairing]). *)
Definition fresh_pairing (p : Pairing) : Prop :=
  Pairing_OwnerSubject p = "" /\ Pairing_ApprovedAt p = None /\ Pairing_ConsumedAt p = None.

Definition op_ok (o : op) : Prop :=
  match o with OpCreatePairing p => fresh_pairing p | _ => True end.

(** Unfold one call down to its successful branch. *)
Ltac unfold_op :=
  unfold exec, apply, CreateDevice, TouchDevice, RevokeDevice, WriteAudit,
    CreatePairing, ApprovePairing, ConsumePairing in *.

(** ** Well-formedness *)

Record wf (m : Memory) : Prop := mkWf {
  wf_device_id : forall id d, m_devices m !! id = Some d -> Device_ID (md_device d) = id;
  wf_pairing : forall c p, m_pairings m !! c = Some p ->
    Pairing_DeviceCodeHash p = c /\ m_userCode m !! Pairing_UserCodeHash p = Some c;
  wf_userCode : forall u c, m_userCode m !! u = Some c ->
    exists p, m_pairings m !! c = Some p /\ Pairing_UserCodeHash p = u;
  wf_consumed : forall c p, m_pairings m !! c = Some p -> Pairing_ConsumedAt p <> None ->
    Pairing_ApprovedAt p <> None /\ Pairing_OwnerSubject p <> "" }.

Lemma wf_NewMemory : wf NewMemory.
Proof. split; simpl; intros *; rewrite lookup_empty; done. Qed.

Lemma default_CreatedAt_id now d : Device_ID (default_CreatedAt now d) = Device_ID d.
Proof. unfold default_CreatedAt. by case_match. Qed.
Lemma default_CreatedAt_owner now d :
  Device_OwnerSubject (default_CreatedAt now d) = Device_OwnerSubject d.
Proof. unfold default_CreatedAt. by case_match. Qed.
Lemma default_CreatedAt_name now d : Device_Name (default_CreatedAt now d) = Device_Name d.
Proof. unfold default_CreatedAt. by case_match. Qed.
Lemma default_CreatedAt_revoked now d :
  Device_RevokedAt (default_CreatedAt now d) = Device_RevokedAt d.
Proof. unfold default_CreatedAt. by case_match. Qed.
#[export] Hint Rewrite default_CreatedAt_id default_CreatedAt_owner
  default_CreatedAt_name default_CreatedAt_revoked : orc.

(** Inserting a device under its own id, or updating one in place. *)
Lemma wf_insert_device m id d :
  wf m -> Device_ID (md_device d) = id ->
  wf (m_set_devices m (<[id := d]> (m_devices m))).
Proof.
  intros [Hid Hp Hu Hc] <-. split; simpl; eauto.
  intros id d' H. apply lookup_insert_Some in H as [[<- <-]|[_ H]]; eauto.
Qed.

(** Replacing a pairing by one with the same hashes. *)
Lemma wf_update_pairing m c p p' :
  wf m -> m_pairings m !! c = Some p ->
  Pairing_DeviceCodeHash p' = Pairing_DeviceCodeHash p ->
  Pairing_UserCodeHash p' = Pairing_UserCodeHash p ->
  (Pairing_ConsumedAt p' <> None ->
   Pairing_ApprovedAt p' <> None /\ Pairing_OwnerSubject p' <> "") ->
  wf (m_set_pairings m (<[c := p']> (m_pairings m))).
Proof.
  intros [Hid Hp Hu Hc] Hlk Hd Hu' Hcons. split; simpl; eauto.
  - intros c' q H. apply lookup_insert_Some in H as [[<- <-]|[_ H]]; [|eauto].
    rewrite Hd, Hu'. eauto.
  - intros u c' H. destruct (Hu _ _ H) as (q & Hq & <-).
    destruct (decide (c = c')) as [->|].
    + exists p'. rewrite lookup_insert_eq. naive_solver.
    + exists q. by rewrite lookup_insert_ne.
  - intros c' q H. apply lookup_insert_Some in H as [[<- <-]|[_ H]]; eauto.
Qed.

Lemma wf_create_pairing m p :
  wf m -> fresh_pairing p ->
  m_pairings m !! Pairing_DeviceCodeHash p = None ->
  m_userCode m !! Pairing_UserCodeHash p = None ->
  wf (mkMemory (m_devices m) (<[Pairing_DeviceCodeHash p := p]> (m_pairings m))
        (<[Pairing_UserCodeHash p := Pairing_DeviceCodeHash p]> (m_userCode m)) (m_audit m)).
Proof.
  intros [Hid Hp Hu Hc] (Ho & Ha & Hn) Hfc Hfu. split; simpl; eauto.
  - intros c q H. apply lookup_insert_Some in H as [[<- <-]|[Hne H]].
    + by rewrite lookup_insert_eq.
    + destruct (Hp _ _ H) as [? Hq]. split; [done|].
      rewrite lookup_insert_ne; [done|]. congruence.
  - intros u c H. apply lookup_insert_Some in H as [[<- <-]|[Hne H]].
    + exists p. by rewrite lookup_insert_eq.
    + destruct (Hu _ _ H) as (q & Hq & <-). exists q.
      rewrite lookup_insert_ne; [done|]. congruence.
  - intros c q H. apply lookup_insert_Some in H as [[<- <-]|[Hne H]]; eauto.
    by rewrite Hn.
Qed.

Lemma wf_set_devices_pairings m1 m2 ds :
  wf (m_set_devices m1 ds) -> wf m2 -> wf (m_set_devices m2 ds).
Proof. intros [] []. by split. Qed.

Lemma apply_wf now o m : wf m -> op_ok o -> wf (apply now o m).2.
Proof.
  intros Hwf Hok. destruct o; unfold_op; simpl in *; case_guards.
  - by apply wf_insert_device.
  - apply wf_insert_device; [done|]. simpl; eauto using wf_device_id.
  - apply wf_insert_device; [done|]. simpl; eauto using wf_device_id.
  - by destruct Hwf.
  - by destruct Hwf.
  - by apply wf_create_pairing.
  - destruct (wf_userCode _ Hwf _ _ ltac:(eassumption)) as (p & Hp & _).
    rewrite Hp in *. simpl in *. by eapply wf_update_pairing; eauto.
  - eapply (wf_set_devices_pairings _ (m_set_pairings m _)).
    + by apply wf_insert_device.
    + eapply wf_update_pairing; eauto.
Qed.

Definition ops_ok (os : list (Z * op)) : Prop := Forall (fun o => op_ok o.2) os.

Lemma run_wf os m m' : ops_ok os -> wf m -> run exec os m = Some m' -> wf m'.
Proof.
  intros Hok. revert m. induction Hok as [|o os Ho _ IH]; intros m Hwf Hrun.
  - by simplify_eq/=.
  - simpl in Hrun. eapply IH; [|exact Hrun]. by apply apply_wf.
Qed.

(** ** The pairing protocol, abstractly *)

(** What the store promises about one device code: it is pending, then
    approved by a subject (who may be replaced by a later approver), then
    consumed once; nothing happens to it after it expires. *)
Module PairingSpec.
Inductive phase : Type :=
| Pending
| Approved (owner : string)
| Consumed (owner : string).

Record entry := mkEntry { expires : Z; current : phase }.

Inductive label : Type :=
| LTau
| LStart (c : string)
| LApprove (c owner : string)
| LConsume (c owner : string).

Inductive step (now : Z) : label -> gmap string entry -> gmap string entry -> Prop :=
| step_tau s : step now LTau s s
| step_start s c t :
    s !! c = None -> step now (LStart c) s (<[c := mkEntry t Pending]> s)
| step_approve s c t ph o :
    s !! c = Some (mkEntry t ph) -> (now <= t)%Z -> (forall o', ph <> Consumed o') ->
    step now (LApprove c o) s (<[c := mkEntry t (Approved o)]> s)
| step_consume s c t o :
    s !! c = Some (mkEntry t (Approved o)) -> (now <= t)%Z -> o <> "" ->
    step now (LConsume c o) s (<[c := mkEntry t (Consumed o)]> s).
End PairingSpec.
Import PairingSpec.

Definition abs_pairing (p : Pairing) : entry :=
  mkEntry (Pairing_ExpiresAt p)
    (match Pairing_ConsumedAt p, Pairing_ApprovedAt p with
     | Some _, _ => Consumed (Pairing_OwnerSubject p)
     | None, Some _ => Approved (Pairing_OwnerSubject p)
     | None, None => Pending
     end).

Definition abs (m : Memory) : gmap string entry := abs_pairing <$> m_pairings m.

(** The protocol event a call performs; failed calls perform none. *)
Definition label_of (now : Z) (o : op) (m : Memory) : label :=
  match o with
  | OpCreatePairing p =>
      if is_ok (CreatePairing p m).1 then LStart (Pairing_DeviceCodeHash p) else LTau
  | OpApprovePairing u ow =>
      if is_ok (ApprovePairing now u ow m).1
      then LApprove (default "" (m_userCode m !! u)) ow else LTau
  | OpConsumePairing c d tok =>
      match (ConsumePairing now c d tok m).1 with
      | Ok d' => LConsume c (Device_OwnerSubject d')
      | Err _ => LTau
      end
  | _ => LTau
  end.

Lemma abs_lookup m c : abs m !! c = abs_pairing <$> m_pairings m !! c.
Proof. apply lookup_fmap. Qed.

Lemma abs_insert m c p :
  abs_pairing <$> <[c := p]> (m_pairings m) = <[c := abs_pairing p]> (abs m).
Proof. apply fmap_insert. Qed.

(** ** Lookups after an operation *)

(** No method removes a pairing, changes its hashes or clears [ConsumedAt]. *)
Lemma apply_keeps_pairing now o m c p :
  wf m -> m_pairings m !! c = Some p ->
  exists p', m_pairings (apply now o m).2 !! c = Some p' /\
    Pairing_UserCodeHash p' = Pairing_UserCodeHash p /\
    (Pairing_ConsumedAt p <> None -> Pairing_ConsumedAt p' <> None).
Proof.
  intros Hwf Hc.
  destruct o; unfold_op; simpl; case_guards; eauto.
  - exists p. rewrite lookup_insert_ne by congruence. eauto.
  - destruct (decide (s = c)) as [->|].
    + rewrite lookup_insert_eq, Hc in *. simpl in *. eauto.
    + exists p. rewrite lookup_insert_ne by done. eauto.
  - destruct (decide (code = c)) as [->|].
    + rewrite lookup_insert_eq in *. simplify_eq. eauto.
    + exists p. rewrite lookup_insert_ne by done. eauto.
Qed.

(** No method removes a device, changes its id or clears [RevokedAt]. *)
Lemma apply_keeps_device now o m id d :
  m_devices m !! id = Some d ->
  exists d', m_devices (apply now o m).2 !! id = Some d' /\
    (Device_RevokedAt (md_device d) <> None -> Device_RevokedAt (md_device d') <> None).
Proof.
  intros Hd. destruct o; unfold_op; simpl; case_guards; eauto.
  all: rewrite lookup_insert; case_decide; simplify_eq/=; eauto.
  all: autorewrite with orc in *; simpl in *; congruence.
Qed.

(** ** The audit window *)

Definition audit_window (l : list AuditEvent) : list AuditEvent :=
  if (10000 <=? len l)%Z then lastn (Z.to_nat 5000) l else l.

Lemma WriteAudit_window e m :
  WriteAudit e m = (Ok tt, m_set_audit m (audit_window (m_audit m) ++ [e])).
Proof.
  unfold WriteAudit, audit_window. case_match; [|done]. bool_props.
  unfold lastn.
  replace (length (m_audit m) - Z.to_nat 5000) with (Z.to_nat (len (m_audit m) - 5000)) by lia.
  rewrite take_ge; [done|]. rewrite length_drop. lia.
Qed.

(** Events recorded by a schedule, oldest first. *)
Definition recorded (os : list (Z * op)) : list AuditEvent :=
  omap (fun o => match o.2 with OpWriteAudit e => Some e | _ => None end) os.

Lemma apply_audit now o m :
  m_audit (apply now o m).2 =
  match o with OpWriteAudit e => audit_window (m_audit m) ++ [e] | _ => m_audit m end.
Proof. destruct o; unfold apply; rewrite ?WriteAudit_window; unfold_op; by case_guards. Qed.

Lemma audit_step (all l : list AuditEvent) e :
  (len l <= 10000)%Z -> (len all <= len l \/ 5000 <= len l)%Z ->
  l = lastn (length l) all ->
  let l' := audit_window l ++ [e] in
  (len l' <= 10000)%Z /\ (len (all ++ [e]) <= len l' \/ 5000 <= len l')%Z /\
  l' = lastn (length l') (all ++ [e]).
Proof.
  intros Hle Hge Hl. assert (length l <= length all).
  { rewrite Hl, length_lastn. lia. }
  unfold audit_window. case_match; bool_props; cbv zeta.
  - rewrite !length_app, length_lastn. simpl length. split; [lia|]. split; [lia|].
    rewrite lastn_app_l by (simpl length; lia). f_equal. simpl length.
    rewrite Hl, lastn_lastn by lia. f_equal. rewrite length_lastn. lia.
  - rewrite !length_app. simpl length. split; [lia|]. split; [lia|].
    rewrite lastn_app_l by (simpl length; lia). f_equal. simpl length.
    rewrite Hl at 1. f_equal. lia.
Qed.

(** ** Properties *)


(** The store as one tenant sees it: the devices it owns that are not revoked. *)
Definition visible (owner : string) (d : memoryDevice) : option Device :=
  if decide (Device_OwnerSubject (md_device d) = owner) then
    if decide (Device_RevokedAt (md_device d) = None) then Some (md_device d) else None
  else None.
Definition view (owner : string) (m : Memory) : gmap string Device :=
  omap (visible owner) (m_devices m).

Lemma view_lookup owner m id : view owner m !! id = m_devices m !! id ≫= visible owner.
Proof. apply lookup_omap. Qed.

(** Calls that are not the tenant's own. *)
Definition foreign (owner : string) (m : Memory) (o : op) : Prop :=
  match o with
  | OpCreateDevice d _ => Device_OwnerSubject d <> owner
  | OpTouchDevice id => view owner m !! id = None
  | OpRevokeDevice owner' _ => owner' <> owner
  | OpConsumePairing c _ _ => forall p, m_pairings m !! c = Some p -> Pairing_OwnerSubject p <> owner
  | _ => True
  end.

Lemma visible_other owner d :
  Device_OwnerSubject (md_device d) <> owner -> visible owner d = None.
Proof. intros. unfold visible. by rewrite decide_False. Qed.

(** Everything a tenant can read or revoke is a function of its own view,
    so a foreign device and a missing one give the same answers. *)
Theorem answers_depend_on_own_view now owner id m1 m2 :
  view owner m1 = view owner m2 ->
  GetDevice owner id m1 = GetDevice owner id m2 /\
  (RevokeDevice now owner id m1).1 = (RevokeDevice now owner id m2).1 /\
  view owner (RevokeDevice now owner id m1).2 = view owner (RevokeDevice now owner id m2).2.
Proof.
  intros Hv.
  assert (forall m, GetDevice owner id m =
    match view owner m !! id with Some d => Ok d | None => Err ErrNotFound end) as Hget.
  { intros m. unfold GetDevice. rewrite view_lookup.
    destruct (m_devices m !! id) as [d|]; simpl; [|done].
    unfold visible. case_guards. }
  assert (forall m, (RevokeDevice now owner id m).1 =
    match view owner m !! id with Some d => Ok tt | None => Err ErrNotFound end) as Hrev.
  { intros m. unfold RevokeDevice. rewrite view_lookup.
    destruct (m_devices m !! id) as [d|]; simpl; [|done].
    unfold visible. case_guards. }
  assert (forall m, view owner (RevokeDevice now owner id m).2 = delete id (view owner m)) as Hdel.
  { intros m. apply map_eq. intros i. rewrite lookup_delete, !view_lookup.
    unfold RevokeDevice. destruct (m_devices m !! id) as [d|] eqn:Hd; simpl.
    - case_guards; rewrite ?Hd; simpl; rewrite ?lookup_insert; unfold visible; case_guards.
    - case_decide; [|done]. subst. by rewrite Hd. }
  by rewrite !Hget, !Hrev, !Hdel, Hv.
Qed.

(** No call made by or for another tenant changes what a tenant sees. *)
Theorem tenant_isolation now owner o m :
  foreign owner m o -> view owner (apply now o m).2 = view owner m.
Proof.
  intros Hf. apply map_eq. intros i. rewrite !view_lookup.
  destruct o; unfold_op; simpl in *; case_guards; rewrite ?lookup_insert; case_guards;
    rewrite ?view_lookup, ?default_CreatedAt_id in *; simpl in *; try done;
    match goal with H : m_devices _ !! _ = _ |- _ => rewrite H in *; simpl in * end.
  - apply visible_other. simpl. by autorewrite with orc.
  - revert Hf. unfold visible. simpl. case_guards.
  - by rewrite !visible_other.
  - apply visible_other. simpl. autorewrite with orc. simpl. eauto.
Qed.

Lemma listed_view order owner :
  (fun kd => md_device kd.2) <$> filter (fun kd => listed owner kd = true) order =
  (omap (fun kd => pair kd.1 <$> visible owner kd.2) order).*2.
Proof.
  induction order as [|[id d] l IH]; simpl; [done|].
  rewrite filter_cons. unfold listed at 1, visible at 1. simpl.
  repeat case_decide; bool_props; try congruence; simpl; try f_equal; exact IH.
Qed.

Lemma view_list owner m :
  map_to_list (view owner m) ≡ₚ
  omap (fun kd => pair kd.1 <$> visible owner kd.2) (map_to_list (m_devices m)).
Proof. apply map_to_list_omap_perm. Qed.

(** [ListDevices] returns exactly the tenant's visible devices, oldest
    first, whatever order Go visits the map in. *)
Theorem ListDevices_sorted_view order owner m :
  order ≡ₚ map_to_list (m_devices m) ->
  StronglySorted created_le (ListDevices order owner) /\
  ListDevices order owner ≡ₚ (map_to_list (view owner m)).*2.
Proof.
  intros Hord. split.
  - apply isort_sorted.
    + intros ???. unfold created_le. lia.
    + intros ??. unfold created_le. lia.
  - unfold ListDevices. by rewrite isort_perm, listed_view, Hord, view_list.
Qed.

(** Conversely every sorted arrangement of the view is what [ListDevices]
    returns for some visiting order, so the model allows all that Go allows. *)
Lemma ListDevices_outcomes owner m out :
  StronglySorted created_le out -> out ≡ₚ (map_to_list (view owner m)).*2 ->
  exists order, order ≡ₚ map_to_list (m_devices m) /\ ListDevices order owner = out.
Proof.
  intros Hs Hp. rewrite view_list, <- listed_view in Hp.
  apply Permutation_map_inv in Hp as (l & -> & Hl).
  exists (l ++ filter (fun kd => ~ listed owner kd = true) (map_to_list (m_devices m))). split.
  - rewrite <- Hl. apply filter_app_complement.
  - unfold ListDevices.
    rewrite filter_app, (filter_Forall_nil _ (filter _ _)), app_nil_r.
    2: { apply Forall_forall. intros kd. by rewrite list_elem_of_filter; intros []. }
    rewrite filter_Forall_id; [by apply isort_id|].
    rewrite <- Hl. apply Forall_forall. intros kd. by rewrite list_elem_of_filter; intros [].
Qed.

(** A pairing that has been consumed stays so. *)
Lemma run_keeps_consumed os m m' c p :
  ops_ok os -> wf m -> run exec os m = Some m' ->
  m_pairings m !! c = Some p -> Pairing_ConsumedAt p <> None ->
  exists p', m_pairings m' !! c = Some p' /\ Pairing_ConsumedAt p' <> None.
Proof.
  intros Hok. revert m p. induction Hok as [|o os Ho _ IH]; intros m p Hwf Hrun Hp Hc.
  - simplify_eq/=. eauto.
  - simpl in Hrun. destruct (apply_keeps_pairing o.1 o.2 m c p Hwf Hp) as (p1 & Hp1 & _ & Hc1).
    eapply IH; [|exact Hrun|exact Hp1|auto]. by apply apply_wf.
Qed.

Lemma run_keeps_revoked os m m' id d :
  run exec os m = Some m' ->
  m_devices m !! id = Some d -> Device_RevokedAt (md_device d) <> None ->
  exists d', m_devices m' !! id = Some d' /\ Device_RevokedAt (md_device d') <> None.
Proof.
  revert m d. induction os as [|o os IH]; intros m d Hrun Hd Hr.
  - simplify_eq/=. eauto.
  - simpl in Hrun. destruct (apply_keeps_device o.1 o.2 m id d Hd) as (d1 & Hd1 & Hr1).
    eauto.
Qed.

(** A device code yields credentials at most once: after one successful
    [ConsumePairing], whatever happens in between, every further attempt with
    that code fails with used or expired and leaves the store unchanged. *)
Theorem pairing_consumed_once now d tok m c d' m1 os m2 now2 d2 tok2 :
  wf m -> ops_ok os ->
  ConsumePairing now c d tok m = (Ok d', m1) ->
  run exec os m1 = Some m2 ->
  exists e, ConsumePairing now2 c d2 tok2 m2 = (Err e, m2) /\
            e ∈ [ErrPairingUsed; ErrPairingExpired].
Proof.
  intros Hwf Hok Hcons Hrun.
  assert (wf m1) as Hwf1.
  { pose proof (apply_wf now (OpConsumePairing c d tok) m Hwf I) as H.
    unfold apply in H. by rewrite Hcons in H. }
  assert (exists p1, m_pairings m1 !! c = Some p1 /\ Pairing_ConsumedAt p1 <> None)
    as (p1 & Hp1 & Hc1).
  { unfold ConsumePairing in Hcons. case_guards. eexists.
    by rewrite lookup_insert_eq. }
  destruct (run_keeps_consumed os m1 m2 c p1 Hok Hwf1 Hrun Hp1 Hc1) as (p2 & Hp2 & Hc2).
  unfold ConsumePairing. rewrite Hp2. rewrite (bool_decide_eq_true_2 _ Hc2).
  case_match; eexists; split; try done; set_solver.
Qed.

(** Revocation is final: once [RevokeDevice] succeeded, no sequence of calls
    makes the device authenticate, resolve or be listed again. *)
Theorem revocation_is_final now owner id m m1 os m2 :
  RevokeDevice now owner id m = (Ok tt, m1) ->
  run exec os m1 = Some m2 ->
  forall token owner',
    AuthenticateDevice id token m2 = Err ErrUnauthorized /\
    GetDevice owner' id m2 = Err ErrNotFound /\
    view owner' m2 !! id = None.
Proof.
  intros Hrev Hrun token owner'.
  assert (exists d, m_devices m1 !! id = Some d /\ Device_RevokedAt (md_device d) <> None)
    as (d1 & Hd1 & Hr1).
  { unfold RevokeDevice in Hrev. case_guards. eexists. by rewrite lookup_insert_eq. }
  destruct (run_keeps_revoked os m1 m2 id d1 Hrun Hd1 Hr1) as (d2 & Hd2 & Hr2).
  unfold AuthenticateDevice, GetDevice. rewrite view_lookup, Hd2. simpl.
  rewrite (bool_decide_eq_true_2 _ Hr2). split_and!; [done| |].
  - by rewrite orb_true_r.
  - unfold visible. case_guards.
Qed.

(** The approvals that succeeded in a schedule: who approved which device code. *)
Definition approved_by (os : list (Z * op)) (m0 : Memory) (c owner : string) : Prop :=
  exists os1 now u os2 m1,
    os = os1 ++ (now, OpApprovePairing u owner) :: os2 /\
    run exec os1 m0 = Some m1 /\
    m_userCode m1 !! u = Some c /\
    (ApprovePairing now u owner m1).1 = Ok tt.

Lemma approved_by_snoc os o m0 c owner :
  approved_by os m0 c owner -> approved_by (os ++ [o]) m0 c owner.
Proof.
  intros (os1 & now & u & os2 & m1 & -> & ?).
  exists os1, now, u, (os2 ++ [o]), m1. by rewrite <- app_assoc.
Qed.

(** After one call, an approved pairing was approved before the call with the
    same owner, or the call is the approval. *)
Lemma apply_approval_origin now o m c p' :
  op_ok o ->
  m_pairings (apply now o m).2 !! c = Some p' -> Pairing_ApprovedAt p' <> None ->
  (exists p, m_pairings m !! c = Some p /\ Pairing_ApprovedAt p <> None /\
             Pairing_OwnerSubject p = Pairing_OwnerSubject p') \/
  (exists u, o = OpApprovePairing u (Pairing_OwnerSubject p') /\
             m_userCode m !! u = Some c /\
             (ApprovePairing now u (Pairing_OwnerSubject p') m).1 = Ok tt).
Proof.
  intros Hok Hp Ha. destruct o; unfold_op; simpl in *; case_guards; eauto.
  - apply lookup_insert_Some in Hp as [[<- <-]|[_ Hp]]; eauto.
    by destruct Hok as (_ & ? & _).
  - apply lookup_insert_Some in Hp as [[-> <-]|[_ Hp]]; eauto.
    right. exists userCodeHash. simpl. split; [done|]. split; [done|].
    rewrite H. simpl. rewrite bool_decide_eq_false_2 by naive_solver.
    by case_match.
  - apply lookup_insert_Some in Hp as [[-> <-]|[_ Hp]]; eauto.
Qed.

Lemma run_approval_origin os m c p :
  ops_ok os -> run exec os NewMemory = Some m ->
  m_pairings m !! c = Some p -> Pairing_ApprovedAt p <> None ->
  approved_by os NewMemory c (Pairing_OwnerSubject p).
Proof.
  revert m p. induction os as [|[now o] os IH] using rev_ind; intros m p Hok Hrun Hp Ha.
  - by simplify_eq/=.
  - apply Forall_app in Hok as [Hok Ho]. apply Forall_inv in Ho.
    rewrite run_app in Hrun. destruct (run exec os NewMemory) as [m1|] eqn:Hr; [|done].
    simpl in Hrun. unfold exec in Hrun. simplify_eq/=.
    destruct (apply_approval_origin now o m1 c p Ho Hp Ha)
      as [(p1 & Hp1 & Ha1 & <-)|(u & -> & Hu & Hok1)].
    + apply approved_by_snoc. eauto.
    + exists os, now, u, [], m1. eauto.
Qed.

(** Provenance of credentials: a device issued by [ConsumePairing] belongs to
    a non-empty subject who approved that very device code earlier. *)
Theorem issued_device_was_approved os m now c d tok d' m' :
  ops_ok os -> run exec os NewMemory = Some m -> Device_RevokedAt d = None ->
  ConsumePairing now c d tok m = (Ok d', m') ->
  approved_by os NewMemory c (Device_OwnerSubject d') /\
  Device_OwnerSubject d' <> "" /\
  AuthenticateDevice (Device_ID d) tok m' = Ok d'.
Proof.
  intros Hok Hrun Hnr Hcons. unfold ConsumePairing in Hcons. case_guards.
  autorewrite with orc. simpl. split; [by eapply run_approval_origin|]. split; [done|].
  unfold AuthenticateDevice. simpl.
  rewrite lookup_insert_eq. simpl. rewrite default_CreatedAt_revoked. simpl.
  rewrite Hnr, (proj2 (ConstantTimeCompare_1 _ _)); done.
Qed.

(** The audit log is a window on the recorded events: always the newest
    ones, at most 10000, and never fewer than the last 5000. *)
Theorem audit_log_is_recent_window os m :
  run exec os NewMemory = Some m ->
  m_audit m = lastn (length (m_audit m)) (recorded os) /\
  (len (m_audit m) <= 10000)%Z /\
  (len (recorded os) <= len (m_audit m) \/ 5000 <= len (m_audit m))%Z.
Proof.
  revert m. induction os as [|[now o] os IH] using rev_ind; intros m Hrun.
  - simplify_eq/=. split; [done|]. simpl. lia.
  - rewrite run_app in Hrun. destruct (run exec os NewMemory) as [m1|]; [|done].
    simpl in Hrun. unfold exec in Hrun. simplify_eq/=.
    destruct (IH _ eq_refl) as (Hl & Hle & Hge). rewrite apply_audit.
    unfold recorded. rewrite omap_app. fold (recorded os).
    destruct o; simpl; rewrite ?app_nil_r; try done.
    destruct (audit_step (recorded os) (m_audit m1) e Hle Hge Hl) as (? & ? & ?). done.
Qed.

(** ** Witnesses: one device is paired, consumed and revoked *)

Definition ex_pairing : Pairing := mkPairing "dc" "uc" "Mac" 1000 "" None None.
Definition ex_device : Device := mkDevice "dev_1" "" "" 0 None None false.
Definition ex_ops : list (Z * op) :=
  [(1%Z, OpCreatePairing ex_pairing); (2%Z, OpApprovePairing "uc" "alice")].
Definition ex_memory : Memory := default NewMemory (run exec ex_ops NewMemory).
Definition ex_paired : Memory := (ConsumePairing 3 "dc" ex_device "tok" ex_memory).2.

Lemma ex_ops_ok : ops_ok ex_ops.
Proof. repeat constructor. Qed.

Lemma ex_memory_wf : wf ex_memory.
Proof. eapply (run_wf ex_ops NewMemory); [apply ex_ops_ok|apply wf_NewMemory|reflexivity]. Qed.


Lemma pairing_consumed_once_witness :
  exists e, ConsumePairing 5 "dc" (mkDevice "dev_2" "" "" 0 None None false) "tok2" ex_paired
            = (Err e, ex_paired) /\ e ∈ [ErrPairingUsed; ErrPairingExpired].
Proof.
  eapply (pairing_consumed_once 3 ex_device "tok" ex_memory "dc" _ ex_paired []
    ex_paired).
  - apply ex_memory_wf.
  - constructor.
  - reflexivity.
  - reflexivity.
Defined.

Lemma issued_device_was_approved_witness :
  approved_by ex_ops NewMemory "dc" "alice" /\ "alice" <> "" /\
  AuthenticateDevice "dev_1" "tok" ex_paired =
    Ok (mkDevice "dev_1" "alice" "Mac" 3 None None false).
Proof.
  eapply (issued_device_was_approved ex_ops ex_memory 3 "dc" ex_device "tok"
    (mkDevice "dev_1" "alice" "Mac" 3 None None false) ex_paired).
  - apply ex_ops_ok.
  - reflexivity.
  - reflexivity.
  - reflexivity.
Defined.

Lemma revocation_is_final_witness :
  AuthenticateDevice "dev_1" "tok" (RevokeDevice 4 "alice" "dev_1" ex_paired).2
    = Err ErrUnauthorized.
Proof.
  eapply (revocation_is_final 4 "alice" "dev_1" ex_paired _ [] _).
  - reflexivity.
  - reflexivity.
  - exact EmptyString.
Defined.

Lemma answers_depend_on_own_view_witness :
  GetDevice "bob" "dev_1" ex_paired = GetDevice "bob" "dev_1" NewMemory.
Proof.
  apply (answers_depend_on_own_view 0 "bob" "dev_1" ex_paired NewMemory).
  vm_compute. reflexivity.
Defined.

Lemma tenant_isolation_witness :
  view "bob" (apply 3 (OpConsumePairing "dc" ex_device "tok") ex_memory).2
  = view "bob" ex_memory.
Proof.
  apply (tenant_isolation 3 "bob" (OpConsumePairing "dc" ex_device "tok") ex_memory).
  intros p Hp. vm_compute in Hp. injection Hp as <-. discriminate.
Defined.

Lemma ListDevices_sorted_view_witness :
  StronglySorted created_le (ListDevices (map_to_list (m_devices ex_paired)) "alice") /\
  length (ListDevices (map_to_list (m_devices ex_paired)) "alice") = 1.
Proof.
  split; [|vm_compute; reflexivity].
  apply (ListDevices_sorted_view (map_to_list (m_devices ex_paired)) "alice" ex_paired).
  reflexivity.
Defined.

Lemma audit_log_is_recent_window_witness :
  let e := mkAuditEvent "alice" "dev_1" "ping" "ok" 1 "" in
  m_audit (m_set_audit NewMemory [e]) = lastn 1 (recorded [(0%Z, OpWriteAudit e)]).
Proof.
  apply (audit_log_is_recent_window [(0%Z, OpWriteAudit _)]). reflexivity.
Defined.
