(* ===== verification/AuditWriter.v ===== *)
(** * The asynchronous audit writer: internal/audit/writer.go

    [Record] never blocks: it drops an event when the queue is full.  One
    goroutine takes events from the queue and writes them; [Close] cancels it
    and waits until it has drained the queue.  The store is reached through
    the one method of the [store.Store] interface that the writer uses, the
    class [AuditSink]; [Store.Memory] is an instance. *)
From S2P Require Import Prelude Store.
Local Open Scope Z_scope.

(** [WriteAudit] of the interface [store.Store]. *)
Class AuditSink (S : Type) := sink_WriteAudit : AuditEvent -> S -> result unit * S.

#[export] Instance Memory_sink : AuditSink Memory := WriteAudit.

(** [loop]: at its [select], in [write] (in the main loop or while draining),
    draining, gone. *)
Inductive loop_pc :=
| L_select
| L_write (e : AuditEvent) (draining : bool)
| L_drain
| L_gone.

#[global] Instance loop_pc_eq_dec : EqDecision loop_pc.
Proof. solve_decision. Defined.

Section AuditWriter.
Context {St : Type} `{!AuditSink St}.

Record Writer := mkWriter {
  w_store : St;
  w_queue : list AuditEvent;
  w_capacity : Z;
  w_cancelled : bool;
  w_loop : loop_pc }.

(** [func New(s store.Store, logger, capacity int) *Writer] *)
Definition New (s : St) (capacity : Z) : Writer :=
  mkWriter s [] (if capacity <? 1 then 1024 else capacity) false L_select.

(** [func (w *Writer) Record(e store.AuditEvent)] *)
Definition Record_ (e : AuditEvent) (w : Writer) : Writer :=
  if len (w_queue w) <? w_capacity w then
    mkWriter (w_store w) (w_queue w ++ [e]) (w_capacity w) (w_cancelled w) (w_loop w)
  else w.

(** [Close]: [w.cancel()]; it returns when [w_loop] is [L_gone]. *)
Definition cancel (w : Writer) : Writer :=
  mkWriter (w_store w) (w_queue w) (w_capacity w) true (w_loop w).
Definition Close_returns (w : Writer) : bool :=
  match w_loop w with L_gone => w_cancelled w | _ => false end.

(** Taking an event from the queue. *)
Definition receive (draining : bool) (w : Writer) : option Writer :=
  match w_queue w with
  | [] => None
  | e :: q => Some (mkWriter (w_store w) q (w_capacity w) (w_cancelled w) (L_write e draining))
  end.

Definition at_loop (w : Writer) (pc : loop_pc) : Writer :=
  mkWriter (w_store w) (w_queue w) (w_capacity w) (w_cancelled w) pc.

(** One step of [loop]; [done] chooses the case of the outer [select]. *)
Definition loop_step (done : bool) (w : Writer) : option Writer :=
  match w_loop w with
  | L_select =>
      if done then if w_cancelled w then Some (at_loop w L_drain) else None
      else receive false w
  | L_write e draining =>
      Some (mkWriter (sink_WriteAudit e (w_store w)).2 (w_queue w) (w_capacity w) (w_cancelled w)
              (if draining then L_drain else L_select))
  | L_drain =>
      match w_queue w with
      | [] => Some (at_loop w L_gone)
      | _ => receive true w
      end
  | L_gone => None
  end.

Inductive action := ARecord (e : AuditEvent) | ACancel | ALoop (done : bool).

Definition exec (a : action) (w : Writer) : option Writer :=
  match a with
  | ARecord e => Some (Record_ e w)
  | ACancel => Some (cancel w)
  | ALoop done => loop_step done w
  end.

(** ** What is accepted, what is written *)

Definition in_hand (w : Writer) : list AuditEvent :=
  match w_loop w with L_write e _ => [e] | _ => [] end.

(** The events that [Record] put in the queue, along a schedule. *)
Fixpoint accepted (acts : list action) (w : Writer) : list AuditEvent :=
  match acts with
  | [] => []
  | a :: acts' =>
      match a with
      | ARecord e => if len (w_queue w) <? w_capacity w then [e] else []
      | _ => []
      end ++
      match exec a w with Some w' => accepted acts' w' | None => [] end
  end.

(** The store after writing a sequence of events. *)
Definition write_all (s : St) (l : list AuditEvent) : St :=
  foldl (fun s e => (sink_WriteAudit e s).2) s l.

Lemma exec_flow a w w' :
  exec a w = Some w' ->
  exists written,
    w_store w' = write_all (w_store w) written /\
    written ++ in_hand w' ++ w_queue w' =
      in_hand w ++ w_queue w ++
      match a with ARecord e => if len (w_queue w) <? w_capacity w then [e] else [] | _ => [] end.
Proof.
  destruct a as [e| |done]; simpl.
  - intros [= <-]. exists []. split; [by unfold Record_; case_match|].
    unfold Record_, in_hand. destruct (_ <? _); simpl; [done|]. by rewrite app_nil_r.
  - intros [= <-]. exists []. by rewrite app_nil_r.
  - unfold loop_step, receive, in_hand. destruct (w_loop w) as [|e dr| |] eqn:E; [| | |done].
    + destruct done; [destruct (w_cancelled w); [|done]|destruct (w_queue w) eqn:Eq; [done|]];
        intros [= <-]; exists []; simpl; by rewrite app_nil_r.
    + intros [= <-]. exists [e]. rewrite app_nil_r. by destruct dr.
    + destruct (w_queue w) eqn:Eq; intros [= <-]; exists []; simpl; rewrite ?app_nil_r; [by rewrite Eq|done].
Qed.

Lemma run_flow acts w w' :
  run exec acts w = Some w' ->
  exists written,
    w_store w' = write_all (w_store w) written /\
    written ++ in_hand w' ++ w_queue w' = in_hand w ++ w_queue w ++ accepted acts w.
Proof.
  revert w. induction acts as [|a acts IH]; intros w; simpl.
  - intros [= <-]. exists []. by rewrite app_nil_r.
  - intros (w1 & Hex & Hrun)%bind_Some. rewrite Hex.
    destruct (exec_flow _ _ _ Hex) as (l1 & Hs1 & E1).
    destruct (IH _ Hrun) as (l2 & Hs2 & E2). exists (l1 ++ l2).
    split; [unfold write_all in *; by rewrite foldl_app, Hs2, Hs1|].
    rewrite <- app_assoc, E2, !app_assoc. f_equal. by rewrite <- !app_assoc, E1, !app_assoc.
Qed.

(** No event is lost, repeated or reordered between [Record] and the
    store: at any moment the store is what writing a prefix of the accepted
    events, in the order of the calls of [Record], made of it, and the
    accepted events that are not written yet are exactly the one in hand
    and those in the queue, which never exceeds its capacity. *)
Theorem audit_queue_is_fifo s capacity acts w :
  run exec acts (New s capacity) = Some w ->
  exists written,
    w_store w = write_all s written /\
    accepted acts (New s capacity) = written ++ in_hand w ++ w_queue w /\
    len (w_queue w) <= (if capacity <? 1 then 1024 else capacity).
Proof.
  intros Hrun. destruct (run_flow _ _ _ Hrun) as (l & Hs & E). exists l.
  split; [done|]. split; [by rewrite E|].
  assert (w_capacity w = (if capacity <? 1 then 1024 else capacity) /\ len (w_queue w) <= w_capacity w) as [<- ?]; [|done].
  eapply (run_invariant exec (fun w => w_capacity w = (if capacity <? 1 then 1024 else capacity) /\
    len (w_queue w) <= w_capacity w)); [| |exact Hrun].
  - intros a x x' [Hc Hl] Hex. destruct a as [e| |done]; simpl in Hex.
    + injection Hex as <-. unfold Record_. destruct (Z.ltb_spec (len (w_queue x)) (w_capacity x)); simpl; [|done].
      rewrite length_app. simpl. split; [done|lia].
    + by injection Hex as <-.
    + unfold loop_step, receive in Hex. repeat case_match; simplify_eq/=; split; try done;
        try match goal with E : w_queue _ = _ |- _ => rewrite E in * end; simpl in *; lia.
  - simpl. split; [done|]. destruct (Z.ltb_spec capacity 1); lia.
Qed.

(** The loop drains and ends only after the cancellation. *)
Lemma run_uncancelled s capacity acts w :
  run exec acts (New s capacity) = Some w -> w_cancelled w = false -> w_loop w <> L_gone.
Proof.
  intros Hrun Hc. assert (match w_loop w with
    | L_drain | L_gone | L_write _ true => w_cancelled w = true | _ => True end) as H.
  { eapply (run_invariant exec (fun w => match w_loop w with
      | L_drain | L_gone | L_write _ true => w_cancelled w = true | _ => True end)); [| |exact Hrun]; [|done].
    intros a x x' HI Hex. destruct a as [e| |done]; simpl in Hex.
    - injection Hex as <-. unfold Record_. by destruct (_ <? _).
    - injection Hex as <-. simpl. by destruct (w_loop x) as [|? []| |].
    - unfold loop_step, receive in Hex. destruct (w_loop x) as [|? []| |] eqn:E; repeat case_match; by simplify_eq/=. }
  intros E. rewrite E, Hc in H. done.
Qed.

Lemma gone_writes_nothing acts w w' :
  run exec acts w = Some w' -> w_loop w = L_gone -> w_store w' = w_store w.
Proof.
  revert w. induction acts as [|a acts IH]; intros w; simpl; [by intros [= <-]|].
  intros (w1 & Hex & Hrun)%bind_Some Hg. assert (w_store w1 = w_store w /\ w_loop w1 = L_gone) as [<- Hg1].
  { destruct a; simpl in Hex.
    - injection Hex as <-. unfold Record_. by case_match.
    - by injection Hex as <-.
    - unfold loop_step in Hex. by rewrite Hg in Hex. }
  by apply IH.
Qed.

(** The loop ends in a state where everything accepted has been written. *)
Lemma run_to_gone acts w w' :
  run exec acts w = Some w' -> w_loop w <> L_gone -> w_loop w' = L_gone ->
  exists written later, w_store w' = write_all (w_store w) written /\
    written ++ later = in_hand w ++ w_queue w ++ accepted acts w /\
    (length (in_hand w ++ w_queue w) <= length written)%nat.
Proof.
  revert w. induction acts as [|a acts IH]; intros w; simpl; [by intros [= <-]|].
  intros (w1 & Hex & Hrun)%bind_Some Hn Hg. rewrite Hex.
  destruct (exec_flow _ _ _ Hex) as (l1 & Hs1 & E1).
  set (acc := match a with ARecord _ => _ | _ => _ end) in *.
  destruct (decide (in_hand w1 ++ w_queue w1 = [] /\ w_loop w1 = L_gone)) as [[Hq Hg1]|Hng].
  - rewrite Hq, app_nil_r in E1. exists l1, (accepted acts w1).
    rewrite (gone_writes_nothing _ _ _ Hrun Hg1), Hs1. split; [done|].
    rewrite E1, !app_assoc. split; [done|]. rewrite !length_app. lia.
  - assert (w_loop w1 <> L_gone) as Hn1.
    { intros Hg1. apply Hng. split; [|done]. unfold in_hand. rewrite Hg1. simpl.
      destruct a; simpl in Hex.
      - injection Hex as <-. unfold Record_ in Hg1. by case_match.
      - by injection Hex as <-.
      - unfold loop_step, receive in Hex. repeat case_match; simplify_eq/=; done. }
    destruct (IH _ Hrun Hn1 Hg) as (l2 & later & Hs2 & E2 & Hlen).
    exists (l1 ++ l2), later. split; [unfold write_all in *; by rewrite foldl_app, Hs2, Hs1|].
    split; [rewrite <- app_assoc, E2, !app_assoc; f_equal; by rewrite <- !app_assoc, E1, !app_assoc|].
    apply (f_equal length) in E1. rewrite !length_app in *. lia.
Qed.

(** C39 [Close] flushes: when the first call of it returns, every event that
    was accepted before the call has been written, in order, whatever other
    goroutines recorded meanwhile. *)
Theorem close_flushes_accepted_events s capacity acts1 w1 acts2 w2 :
  run exec acts1 (New s capacity) = Some w1 -> w_cancelled w1 = false ->
  run exec acts2 (cancel w1) = Some w2 -> Close_returns w2 = true ->
  exists written,
    w_store w2 = write_all s written /\ accepted acts1 (New s capacity) `prefix_of` written.
Proof.
  intros Hrun1 Hc Hrun2 Hcl. pose proof (run_uncancelled _ _ _ _ Hrun1 Hc) as Hn.
  assert (w_loop w2 = L_gone) as Hg by (unfold Close_returns in Hcl; by destruct (w_loop w2)).
  destruct (run_flow _ _ _ Hrun1) as (l1 & Hs1 & E1).
  destruct (run_to_gone _ _ _ Hrun2) as (l2 & later & Hs2 & E2 & Hlen); [done|done|].
  simpl in *. exists (l1 ++ l2). split; [unfold write_all in *; by rewrite foldl_app, Hs2, Hs1|].
  rewrite <- E1. apply prefix_app. change (in_hand (cancel w1)) with (in_hand w1) in *.
  rewrite app_assoc in E2.
  exists (drop (length (in_hand w1 ++ w_queue w1)) l2).
  rewrite <- (take_drop (length (in_hand w1 ++ w_queue w1)) l2) at 1. f_equal.
  apply (f_equal (take (length (in_hand w1 ++ w_queue w1)))) in E2.
  rewrite take_app_length, take_app_le in E2 by done. done.
Qed.

(** The drain ends: after the cancellation, if nobody records any more, the
    goroutine ends within two steps per queued event and three more. *)
Theorem cancelled_writer_ends w :
  w_cancelled w = true ->
  exists n w', (n <= 2 * length (w_queue w) + 3)%nat /\
    run exec (replicate n (ALoop true)) w = Some w' /\ Close_returns w' = true.
Proof.
  intros Hc.
  assert (forall x : Writer, w_loop x = L_drain -> forall e q, w_queue x = e :: q ->
    run exec [ALoop true; ALoop true] x =
      Some (mkWriter (sink_WriteAudit e (w_store x)).2 q (w_capacity x) (w_cancelled x) L_drain)) as Htwo.
  { intros x Hl e q Hq.
    rewrite (run_cons exec _ _ _ (mkWriter (w_store x) q (w_capacity x) (w_cancelled x) (L_write e true)));
      [reflexivity|].
    simpl. unfold loop_step. rewrite Hl, Hq. unfold receive. by rewrite Hq. }
  assert (forall q (x : Writer), w_queue x = q -> w_cancelled x = true -> w_loop x = L_drain ->
    exists w', run exec (replicate (2 * length q + 1) (ALoop true)) x = Some w' /\ Close_returns w' = true) as Hdrain.
  { induction q as [|e q IH]; intros x Hq Hx Hl.
    - exists (at_loop x L_gone). simpl. unfold loop_step. rewrite Hl, Hq. simpl. split; [done|].
      unfold Close_returns. simpl. by rewrite Hx.
    - destruct (IH (mkWriter (sink_WriteAudit e (w_store x)).2 q (w_capacity x) (w_cancelled x) L_drain))
        as (w' & Hr & Hcl); try done. exists w'. split; [|done].
      replace (2 * length (e :: q) + 1)%nat with (2 + (2 * length q + 1))%nat by (simpl; lia).
      rewrite replicate_add, run_app. change (replicate 2 (ALoop true)) with [ALoop true; ALoop true].
      by rewrite (Htwo x Hl e q Hq). }
  assert (forall x : Writer, w_cancelled x = true -> w_loop x = L_drain -> w_queue x = w_queue w ->
    exists w', run exec (replicate (2 * length (w_queue w) + 1) (ALoop true)) x = Some w' /\
      Close_returns w' = true) as Hd by (intros x Hx Hl Hq; by apply Hdrain).
  destruct (w_loop w) as [|e dr| |] eqn:El.
  - destruct (Hd (at_loop w L_drain) Hc eq_refl eq_refl) as (w' & Hr & Hcl).
    exists (1 + (2 * length (w_queue w) + 1))%nat, w'. split; [lia|]. split; [|done].
    rewrite replicate_add. cbn [replicate app]. rewrite (run_cons exec _ _ _ (at_loop w L_drain)); [exact Hr|].
    simpl. unfold loop_step. by rewrite El, Hc.
  - set (w1 := mkWriter (sink_WriteAudit e (w_store w)).2 (w_queue w) (w_capacity w) (w_cancelled w)
      (if dr then L_drain else L_select)).
    assert (exec (ALoop true) w = Some w1) as Hex by (simpl; unfold loop_step; by rewrite El).
    destruct dr.
    + destruct (Hd w1 Hc eq_refl eq_refl) as (w' & Hr & Hcl).
      exists (1 + (2 * length (w_queue w) + 1))%nat, w'. split; [lia|]. split; [|done].
      rewrite replicate_add. cbn [replicate app]. by rewrite (run_cons _ _ _ _ _ Hex).
    + destruct (Hd (at_loop w1 L_drain) Hc eq_refl eq_refl) as (w' & Hr & Hcl).
      exists (2 + (2 * length (w_queue w) + 1))%nat, w'. split; [lia|]. split; [|done].
      rewrite replicate_add. cbn [replicate app]. rewrite (run_cons _ _ _ _ _ Hex).
      rewrite (run_cons exec _ _ _ (at_loop w1 L_drain)); [exact Hr|]. simpl. unfold loop_step. simpl. by rewrite Hc.
  - destruct (Hd w Hc El eq_refl) as (w' & Hr & Hcl).
    exists (2 * length (w_queue w) + 1)%nat, w'. split; [lia|done].
  - exists 0%nat, w. split; [lia|]. split; [done|]. unfold Close_returns. by rewrite El.
Qed.
End AuditWriter.

(** ** Witnesses, with the in-memory store *)

Definition demo_event (tool : string) : AuditEvent := mkAuditEvent "alice" "dev" tool "ok" 1 "".
Definition demo_acts : list action :=
  [ARecord (demo_event "a"); ALoop false; ARecord (demo_event "b"); ARecord (demo_event "c"); ALoop false].
Definition demo_writer (acts : list action) : Writer := default (New NewMemory 2) (run exec acts (New NewMemory 2)).

Lemma audit_queue_is_fifo_witness :
  exists written,
    w_store (demo_writer demo_acts) = write_all NewMemory written /\
    accepted demo_acts (New NewMemory 2) =
      written ++ in_hand (demo_writer demo_acts) ++ w_queue (demo_writer demo_acts) /\
    len (w_queue (demo_writer demo_acts)) <= 2.
Proof.
  apply (audit_queue_is_fifo NewMemory 2 demo_acts (demo_writer demo_acts)). vm_compute. reflexivity.
Defined.

Definition demo_closed : Writer :=
  default (New NewMemory 2) (run exec (replicate 6 (ALoop true)) (cancel (demo_writer demo_acts))).

Lemma close_flushes_accepted_events_witness :
  exists written,
    w_store demo_closed = write_all NewMemory written /\
    accepted demo_acts (New NewMemory 2) `prefix_of` written.
Proof.
  apply (close_flushes_accepted_events NewMemory 2 demo_acts (demo_writer demo_acts)
    (replicate 6 (ALoop true)) demo_closed); vm_compute; reflexivity.
Defined.

Lemma cancelled_writer_ends_witness :
  exists n w', (n <= 2 * length (w_queue (cancel (demo_writer demo_acts))) + 3)%nat /\
    run exec (replicate n (ALoop true)) (cancel (demo_writer demo_acts)) = Some w' /\
    Close_returns w' = true.
Proof. apply (cancelled_writer_ends (cancel (demo_writer demo_acts))). reflexivity. Defined.
