(* ===== verification/Ring.v ===== *)
(** * The output ring buffer: [ring] in internal/processmgr/manager.go

    A window on the bytes a process has printed, addressed by an absolute
    cursor.  The specification is the whole output [hist]. *)
From S2P Require Import Prelude Crypto.
Local Open Scope Z_scope.

Record ring := mkRing {
  r_data : list byte;
  r_base : Z;
  r_max : Z }.

(** [func (r *ring) write(p []byte)] *)
Definition ring_write (p : list byte) (r : ring) : ring :=
  if r_max r <=? 0 then r
  else if r_max r <=? len p then
    mkRing (drop (Z.to_nat (len p - r_max r)) p)
      (wrap64 (r_base r + (len (r_data r) + len p - r_max r))) (r_max r)
  else
    let data := r_data r ++ p in
    if r_max r <? len data then
      let n := len data - r_max r in
      mkRing (take (Z.to_nat (r_max r)) (go_copy data (drop (Z.to_nat n) data)))
        (wrap64 (r_base r + n)) (r_max r)
    else mkRing data (r_base r) (r_max r).

(** [func (r *ring) read(cursor int64, limit int) ([]byte, int64, bool)]; [None]
    is the panic of a slice expression out of range. *)
Definition ring_read (cursor limit : Z) (r : ring) : option (list byte * Z * bool) :=
  let truncated := cursor <? r_base r in
  let cursor := if cursor <? r_base r then r_base r else cursor in
  let end_ := wrap64 (r_base r + len (r_data r)) in
  let cursor := if end_ <? cursor then end_ else cursor in
  let startIdx := wrap64 (cursor - r_base r) in
  let available := len (r_data r) - startIdx in
  let available := if limit <? available then limit else available in
  out ← slice startIdx (startIdx + available) (r_data r);
  Some (out, wrap64 (cursor + available), truncated).

(** ** Specification: the ring is the end of the whole output *)

Record ring_ok (hist : list byte) (r : ring) : Prop := mkRingOk {
  ring_pos : 0 < r_max r;
  ring_data : r_data r = lastn (Z.to_nat (r_max r)) hist;
  ring_base : r_base r = len hist - len (r_data r);
  ring_fits : len hist < 2 ^ 63 }.

(** The first byte still held, as a position in the output. *)
Definition window_start (hist : list byte) (r : ring) : Z := len hist - len (r_data r).

Lemma ring_ok_empty max : 0 < max -> ring_ok [] (mkRing [] 0 max).
Proof. split; simpl; try done; lia. Qed.

Lemma ring_data_le hist r : ring_ok hist r -> len (r_data r) <= len hist.
Proof. intros [_ -> _ _]. rewrite length_lastn. lia. Qed.

(** Writing appends to the output: the ring keeps exactly the newest [max]
    bytes and the absolute position of the first of them. *)
Theorem ring_write_appends hist r p :
  ring_ok hist r -> len (hist ++ p) < 2 ^ 63 -> ring_ok (hist ++ p) (ring_write p r).
Proof.
  intros [Hpos Hdata Hbase Hfit] Hlen.
  assert (len (r_data r) <= len hist) as Hle by (by apply ring_data_le).
  assert (length (r_data r) = (Z.to_nat (r_max r) `min` length hist)%nat) as Hl
    by (by rewrite Hdata, length_lastn).
  rewrite length_app in Hlen.
  unfold ring_write. rewrite (proj2 (Z.leb_gt _ _)) by done.
  case_match; bool_props; [|case_match; bool_props]; split; simpl; try done.
  - rewrite lastn_app_r by lia. unfold lastn. f_equal. lia.
  - rewrite length_app, length_drop, wrap64_small; unfold int64_ok; lia.
  - rewrite length_app. lia.
  - rewrite go_copy_shift, take_ge by (rewrite ?length_drop; lia).
    rewrite <- lastn_window, <- Hdata. unfold lastn. f_equal. lia.
  - rewrite go_copy_shift, length_take, length_drop by lia. rewrite !length_app in *.
    rewrite wrap64_small; unfold int64_ok; lia.
  - rewrite length_app. lia.
  - rewrite length_app in *. rewrite <- lastn_window, <- Hdata, lastn_ge; [done|].
    rewrite length_app. lia.
  - rewrite !length_app. lia.
  - rewrite length_app. lia.
Qed.

(** Where a read really starts: the requested cursor, moved into the window. *)
Definition clamp (hist : list byte) (r : ring) (cursor : Z) : Z :=
  Z.min (Z.max cursor (window_start hist r)) (len hist).

(** Dropping inside the window is dropping in the whole output. *)
Lemma window_drop hist r c :
  ring_ok hist r -> window_start hist r <= c ->
  drop (Z.to_nat (c - window_start hist r)) (r_data r) = drop (Z.to_nat c) hist.
Proof.
  intros Hok Hc. pose proof (ring_data_le hist r Hok). destruct Hok as [_ Hdata _ _].
  unfold window_start in *. rewrite Hdata at 2. unfold lastn. rewrite drop_drop. f_equal.
  assert (length (r_data r) = (Z.to_nat (r_max r) `min` length hist)%nat)
    by (by rewrite Hdata, length_lastn). lia.
Qed.

(** A read at any 64-bit cursor succeeds and returns the bytes of the output
    from the cursor (moved into the window) on, at most [limit] of them, the
    position after them, and whether bytes before the window were skipped. *)
Theorem ring_read_window hist r cursor limit :
  ring_ok hist r -> int64_ok cursor -> 0 <= limit ->
  let start := clamp hist r cursor in
  let out := take (Z.to_nat limit) (drop (Z.to_nat start) hist) in
  ring_read cursor limit r =
    Some (out, start + len out, bool_decide (cursor < window_start hist r)).
Proof.
  intros Hok Hcur Hlim. pose proof (ring_data_le hist r Hok) as Hle.
  pose proof (fun c => window_drop hist r c Hok) as Hdrop.
  destruct Hok as [_ _ Hbase Hfit]. unfold int64_ok in *. cbv zeta.
  set (start := clamp hist r cursor).
  assert (0 <= window_start hist r <= start /\ start <= len hist) as Hs
    by (unfold start, clamp, window_start in *; lia).
  unfold ring_read. rewrite Hbase. fold (window_start hist r).
  replace (window_start hist r + len (r_data r)) with (len hist)
    by (unfold window_start; lia).
  rewrite (wrap64_small (len hist)) by (unfold int64_ok; lia).
  set (c1 := if cursor <? _ then _ else cursor).
  assert ((if len hist <? c1 then len hist else c1) = start) as ->.
  { unfold start, clamp, c1. repeat case_match; bool_props; lia. }
  rewrite (wrap64_small (start - _)) by (unfold int64_ok, window_start in *; lia).
  set (n := if limit <? _ then _ else _).
  assert (0 <= n <= len hist - start /\ n <= limit /\ (n = limit \/ n = len hist - start)) as Hn.
  { unfold n, window_start in *. case_match; bool_props; lia. }
  clearbody n. rewrite slice_Some by (unfold window_start in *; lia). simpl.
  replace (start - window_start hist r + n - (start - window_start hist r)) with n by lia.
  rewrite Hdrop by lia.
  assert (take (Z.to_nat n) (drop (Z.to_nat start) hist)
    = take (Z.to_nat limit) (drop (Z.to_nat start) hist)) as Ht.
  { destruct Hn as (Hn & Hnl & [->| ->]); [done|].
    rewrite !take_ge by (rewrite length_drop; lia). done. }
  rewrite Ht. repeat f_equal.
  - rewrite <- Ht, length_take, length_drop, wrap64_small; unfold int64_ok; lia.
  - case_bool_decide; [by apply Z.ltb_lt|apply Z.ltb_ge; lia].
Qed.

(** ** A client that polls *)

(** What happens to one buffer: the process prints, or a client reads at most
    [limit] bytes at its cursor. *)
Inductive event : Type :=
| EvPrint (p : list byte)
| EvPoll (limit : Z).

(** A client keeps the cursor of its last read and collects the data, until a
    read reports that output was lost. *)
Fixpoint poll (evs : list event) (r : ring) (cursor : Z) (got : list byte)
    : option (ring * Z * list byte) :=
  match evs with
  | [] => Some (r, cursor, got)
  | EvPrint p :: evs' => poll evs' (ring_write p r) cursor got
  | EvPoll limit :: evs' =>
      match ring_read cursor limit r with
      | Some (out, next, false) => poll evs' r next (got ++ out)
      | _ => None
      end
  end.

Definition printed (evs : list event) : list byte :=
  evs ≫= fun e => match e with EvPrint p => p | EvPoll _ => [] end.

Definition polls_ok (evs : list event) : Prop :=
  Forall (fun e => match e with EvPoll l => 0 <= l | _ => True end) evs.

(** C25 No gaps and no repeats: as long as no read is flagged as truncated, what
    a client has collected is exactly the output up to its cursor. *)
Theorem polling_is_gap_free evs hist r cursor got r' cursor' got' :
  ring_ok hist r -> len (hist ++ printed evs) < 2 ^ 63 -> polls_ok evs ->
  0 <= cursor <= len hist -> got = take (Z.to_nat cursor) hist ->
  poll evs r cursor got = Some (r', cursor', got') ->
  0 <= cursor' <= len (hist ++ printed evs) /\
  got' = take (Z.to_nat cursor') (hist ++ printed evs).
Proof.
  revert hist r cursor got. induction evs as [|[p|limit] evs IH];
    intros hist r cursor got Hok Hfit Hpolls Hcur -> Hrun; simpl in *.
  - rewrite app_nil_r in *. by simplify_eq.
  - apply Forall_cons in Hpolls as [_ Hpolls]. rewrite app_assoc in Hfit |- *.
    rewrite length_app in Hfit.
    eapply IH; [| | |  | |exact Hrun]; eauto.
    + apply ring_write_appends; [done|]. lia.
    + rewrite length_app. lia.
    + rewrite length_app. lia.
    + by rewrite take_app_le by lia.
  - apply Forall_cons in Hpolls as [Hlim Hpolls].
    rewrite (ring_read_window hist r cursor limit) in Hrun;
      [|done|destruct Hok; unfold int64_ok; lia|done].
    case_match; simplify_eq/=. bool_props.
    assert (clamp hist r cursor = cursor) as Hc by (unfold clamp; lia).
    rewrite Hc in *. eapply IH; [exact Hok| | | | |exact Hrun]; eauto.
    + rewrite length_take, length_drop. lia.
    + rewrite Z2Nat.inj_add, Nat2Z.id, <- take_take_drop by lia. f_equal.
      by rewrite length_take, <- take_take, firstn_all.
Qed.

(** ** Witnesses *)

Lemma ring_write_appends_witness :
  ring_ok (bytes_of_string "abcdef")
    (ring_write (bytes_of_string "abcdef") (mkRing [] 0 5)).
Proof.
  apply (ring_write_appends [] (mkRing [] 0 5) (bytes_of_string "abcdef")).
  - apply ring_ok_empty. reflexivity.
  - reflexivity.
Defined.

Lemma ring_read_window_witness :
  ring_read 0 10 (ring_write (bytes_of_string "abcdef") (mkRing [] 0 5))
  = Some (bytes_of_string "bcdef", 6, true).
Proof.
  apply (ring_read_window (bytes_of_string "abcdef")
    (ring_write (bytes_of_string "abcdef") (mkRing [] 0 5)) 0 10).
  - split; vm_compute; reflexivity.
  - unfold int64_ok. lia.
  - lia.
Defined.

Lemma polling_is_gap_free_witness :
  let evs := [EvPrint (bytes_of_string "abc"); EvPoll 2; EvPrint (bytes_of_string "def"); EvPoll 9] in
  0 <= 6 <= len ([] ++ printed evs) /\
  bytes_of_string "abcdef" = take (Z.to_nat 6) ([] ++ printed evs).
Proof.
  eapply (polling_is_gap_free
    [EvPrint (bytes_of_string "abc"); EvPoll 2; EvPrint (bytes_of_string "def"); EvPoll 9]
    [] (mkRing [] 0 5) 0 []).
  - apply ring_ok_empty. reflexivity.
  - reflexivity.
  - repeat constructor; lia.
  - simpl. lia.
  - reflexivity.
  - vm_compute. reflexivity.
Defined.
