(* ===== verification/ProcessMgr.v ===== *)
(** * Process sessions: internal/processmgr/manager.go

    The manager keeps a map from session id to a pointer; the process objects
    live in a heap, because the goroutine that waits for a process keeps using
    its object after the map entry is gone.  Each action below is one critical
    section of the code ([m.mu] or [p.mu] held): [Start] holds [m.mu] from the
    limit check to the map insertion; the waiting goroutine is three separate
    actions (record the exit, free the slot, expire the entry). *)
From S2P Require Import Prelude Crypto GoStrings Ring.
Local Open Scope Z_scope.

Definition ErrNotFound : error :=
  Sentinel "processmgr.ErrNotFound" "process session not found".
Definition ErrLimit : error :=
  Sentinel "processmgr.ErrLimit" "process concurrency limit reached".

Record StartRequest := mkStartRequest {
  Argv : list string;
  Command : string;
  Cwd : string;
  Env : gmap string string }.

Record StartResult := mkStartResult { ProcessID : string; PID : Z }.

Record ReadResult := mkReadResult {
  Data : list byte;
  NextCursor : Z;
  Truncated : bool;
  Exited : bool;
  ExitCode : option Z }.

(** What [exec.Cmd] is told to run: program and arguments, directory, and the
    environment, [None] for the inherited one. *)
Record Cmd := mkCmd {
  cmd_argv : list string;
  cmd_Dir : string;
  cmd_Env : option (list string) }.

(** [p_id] is the session id captured by the waiting goroutine, [p_released]
    whether that goroutine has freed its slot, [p_stdin] what was written to
    the process. *)
Record process := mkProcess {
  p_id : string;
  p_cmd : Cmd;
  p_pid : Z;
  p_stdin : list byte;
  p_buf : ring;
  p_exitCode : option Z;
  p_exitedAt : Z;
  p_cancelled : bool;
  p_released : bool }.

Record Manager := mkManager {
  procs : gmap string nat;
  heap : gmap nat process;
  maxProcs : Z;
  maxBuffer : Z;
  maxRuntime : Z;
  allowShell : bool;
  active : Z }.

Definition NewManager (maxProcs maxBuffer maxRuntime : Z) (allowShell : bool) : Manager :=
  mkManager ∅ ∅ maxProcs maxBuffer maxRuntime allowShell 0.

(** What the operating system and the Go runtime answer during one [Start]. *)
Record StartEnv := mkStartEnv {
  env_randomID : result string;
  env_windows : bool;
  env_Environ : list string;
  env_StdinPipe : result unit;
  env_Start : result Z }.

(** Assignments to one field. *)
Definition set_procs (m : Manager) ps : Manager :=
  mkManager ps (heap m) (maxProcs m) (maxBuffer m) (maxRuntime m) (allowShell m) (active m).
Definition set_heap (m : Manager) h : Manager :=
  mkManager (procs m) h (maxProcs m) (maxBuffer m) (maxRuntime m) (allowShell m) (active m).
Definition set_active (m : Manager) a : Manager :=
  mkManager (procs m) (heap m) (maxProcs m) (maxBuffer m) (maxRuntime m) (allowShell m) a.
Definition set_buf (p : process) b : process :=
  mkProcess (p_id p) (p_cmd p) (p_pid p) (p_stdin p) b (p_exitCode p) (p_exitedAt p)
    (p_cancelled p) (p_released p).
Definition set_exit (p : process) (code now : Z) : process :=
  mkProcess (p_id p) (p_cmd p) (p_pid p) (p_stdin p) (p_buf p) (Some code) now true
    (p_released p).
Definition set_stdin (p : process) s : process :=
  mkProcess (p_id p) (p_cmd p) (p_pid p) s (p_buf p) (p_exitCode p) (p_exitedAt p)
    (p_cancelled p) (p_released p).
Definition set_cancelled (p : process) : process :=
  mkProcess (p_id p) (p_cmd p) (p_pid p) (p_stdin p) (p_buf p) (p_exitCode p)
    (p_exitedAt p) true (p_released p).
Definition set_released (p : process) : process :=
  mkProcess (p_id p) (p_cmd p) (p_pid p) (p_stdin p) (p_buf p) (p_exitCode p)
    (p_exitedAt p) (p_cancelled p) true.

Definition NUL : byte := z2b 0.

(** [func commandFor(ctx, req, allowShell)] returning a command or an error *)
Definition commandFor (windows : bool) (req : StartRequest) (allowShell : bool)
    : result (list string) :=
  if 0 <? len (Argv req) then
    if 128 <? len (Argv req) then Err (New "too many argv entries")
    else if existsb (fun a => ContainsAny a [NUL] || (64 * 1024 <? slen a)) (Argv req)
    then Err (New "invalid argv")
    else Ok (Argv req)
  else if decide (TrimSpace (Command req) = "") then
    Err (New "argv or command is required")
  else if negb allowShell then Err (New "shell commands are disabled; use argv")
  else if 128 * 1024 <? slen (Command req) then Err (New "command exceeds 128KiB")
  else if windows then Ok ["cmd.exe"; "/D"; "/S"; "/C"; Command req]
  else Ok ["/bin/sh"; "-lc"; Command req].

(** The environment overrides of [Start]: names first, then the count, then the
    values in sorted key order. *)
Definition bad_env_name (k : string) : bool :=
  ContainsAny k [z2b 61; NUL] || (256 <? slen k).
Definition bad_env_value (v : string) : bool :=
  ContainsAny v [NUL] || (32 * 1024 <? slen v).

Fixpoint env_append (kvs : list (string * string)) (env : list string)
    : result (list string) :=
  match kvs with
  | [] => Ok env
  | (k, v) :: kvs' =>
      if bad_env_value v then Err (New "invalid environment variable value")
      else env_append kvs' (env ++ [k +:+ "=" +:+ v])
  end.

Definition key_le (kv kv' : string * string) : Prop := String.le kv.1 kv'.1.
#[global] Instance key_le_dec : RelDecision key_le.
Proof. intros ? ?. unfold key_le. apply _. Defined.

Definition cmd_environment (environ : list string) (overrides : gmap string string)
    : result (option (list string)) :=
  if 0 <? Z.of_nat (size overrides) then
    let kvs := map_to_list overrides in
    if existsb (fun kv => bad_env_name kv.1) kvs then
      Err (New "invalid environment variable name")
    else if 64 <? len kvs then Err (New "too many environment overrides")
    else Some <$> env_append (isort key_le kvs) environ
  else Ok None.

(** A fresh heap address. *)
Definition fresh_ref (h : gmap nat process) : nat := fresh (dom h).

(** [func (m *Manager) Start(req StartRequest) (StartResult, error)] *)
Definition Start (req : StartRequest) (e : StartEnv) (m : Manager)
    : result StartResult * Manager :=
  if maxProcs m <=? active m then (Err ErrLimit, m)
  else
    match
      id ← env_randomID e;
      argv ← commandFor (env_windows e) req (allowShell m);
      environment ← cmd_environment (env_Environ e) (Env req);
      _ ← env_StdinPipe e;
      pid ← env_Start e;
      Ok (id, mkCmd argv (Cwd req) environment, pid)
    with
    | Err err => (Err err, m)
    | Ok (id, cmd, pid) =>
        let p := mkProcess id cmd pid [] (mkRing [] 0 (maxBuffer m)) None 0 false false in
        let ref := fresh_ref (heap m) in
        (Ok (mkStartResult id pid),
         set_active
           (set_procs (set_heap m (<[ref := p]> (heap m))) (<[id := ref]> (procs m)))
           (active m + 1))
    end.

(** [func (m *Manager) get(id string)] returning the object or an error *)
Definition get (id : string) (m : Manager) : result (nat * process) :=
  match procs m !! id with
  | None => Err ErrNotFound
  | Some ref =>
      match heap m !! ref with
      | Some p => Ok (ref, p)
      | None => Err ErrNotFound
      end
  end.

(** [func (m *Manager) Read(id, cursor, maxBytes)]; [None] is a panic. *)
Definition Read (id : string) (cursor maxBytes : Z) (m : Manager)
    : option (result ReadResult) :=
  match get id m with
  | Err e => Some (Err e)
  | Ok (_, p) =>
      let maxBytes := if (maxBytes <=? 0) || (256 * 1024 <? maxBytes)
                      then 64 * 1024 else maxBytes in
      '(data, next, truncated) ← ring_read cursor maxBytes (p_buf p);
      Some (Ok (mkReadResult data next truncated
                  (bool_decide (p_exitCode p <> None)) (p_exitCode p)))
  end.

(** [func (m *Manager) Write(id string, data []byte) error]; [wr] is what the
    write to the pipe returns. *)
Definition Write (id : string) (data : list byte) (wr : result unit) (m : Manager)
    : result unit * Manager :=
  if 64 * 1024 <? len data then (Err (New "stdin chunk exceeds 64KiB"), m)
  else
    match get id m with
    | Err e => (Err e, m)
    | Ok (ref, p) =>
        if bool_decide (p_exitCode p <> None) then (Err (New "process already exited"), m)
        else
          match wr with
          | Err e => (Err e, m)
          | Ok _ => (Ok tt, set_heap m (<[ref := set_stdin p (p_stdin p ++ data)]> (heap m)))
          end
    end.

(** [func (m *Manager) Terminate(id string) error]; [kill] is what
    [Process.Kill] returns. *)
Definition Terminate (id : string) (kill : result unit) (m : Manager)
    : result unit * Manager :=
  match get id m with
  | Err e => (Err e, m)
  | Ok (ref, p) =>
      if bool_decide (p_exitCode p <> None) then (Ok tt, m)
      else (kill, set_heap m (<[ref := set_cancelled p]> (heap m)))
  end.

(** [func (m *Manager) CleanupExited(olderThan time.Duration)] *)
Definition cleanable (cutoff : Z) (h : gmap nat process) (ref : nat) : bool :=
  match h !! ref with
  | Some p => bool_decide (p_exitCode p <> None) && negb (IsZero (p_exitedAt p))
              && negb (After (p_exitedAt p) cutoff)
  | None => false
  end.
Definition CleanupExited (now olderThan : Z) (m : Manager) : Manager :=
  let cutoff := now - olderThan in
  set_procs m (filter (fun kr => cleanable cutoff (heap m) kr.2 = false) (procs m)).

Record SessionSummary := mkSessionSummary {
  ss_ProcessID : string;
  ss_PID : Z;
  ss_Exited : bool;
  ss_ExitCode : option Z }.

(** [func (m *Manager) List() []SessionSummary], in map order. *)
Definition List (m : Manager) : list SessionSummary :=
  omap (fun kr => p ← heap m !! kr.2;
    Some (mkSessionSummary kr.1 (p_pid p) (bool_decide (p_exitCode p <> None)) (p_exitCode p)))
    (map_to_list (procs m)).

(** ** The goroutines of one process *)

(** [func (w outputWriter) Write(b []byte) (int, error)] *)
Definition outputWriter_Write (prefix b : list byte) (p : process) : process :=
  let buf := if bool_decide (prefix <> []) && (0 <? len b)
             then ring_write prefix (p_buf p) else p_buf p in
  set_buf p (ring_write b buf).

Definition stderr_prefix : list byte := bytes_of_string "[stderr] ".

(** How [cmd.Wait] ended. *)
Inductive wait_result : Type :=
| WaitOk
| WaitExit (code : Z)
| WaitOther.

Definition exit_code (w : wait_result) : Z :=
  match w with WaitOk => 0 | WaitExit c => c | WaitOther => -1 end.

(** The waiting goroutine: first under [p.mu], then under [m.mu], then in the
    timer it starts. *)
Definition wait_exit (ref : nat) (w : wait_result) (now : Z) (m : Manager) : option Manager :=
  p ← heap m !! ref;
  if decide (p_exitCode p = None)
  then Some (set_heap m (<[ref := set_exit p (exit_code w) now]> (heap m)))
  else None.

Definition wait_release (ref : nat) (m : Manager) : option Manager :=
  p ← heap m !! ref;
  if bool_decide (p_exitCode p <> None) && negb (p_released p) then
    let m := set_heap m (<[ref := set_released p]> (heap m)) in
    Some (if 0 <? active m then set_active m (active m - 1) else m)
  else None.

Definition wait_expire (ref : nat) (m : Manager) : option Manager :=
  p ← heap m !! ref;
  if p_released p then
    Some (if decide (procs m !! p_id p = Some ref)
          then set_procs m (delete (p_id p) (procs m)) else m)
  else None.

(** ** The manager as a transition system *)

Inductive action : Type :=
| AStart (req : StartRequest) (e : StartEnv)
| AOutput (ref : nat) (stderr : bool) (b : list byte)
| AWrite (id : string) (data : list byte) (wr : result unit)
| ATerminate (id : string) (kill : result unit)
| ACleanup (now olderThan : Z)
| AWaitExit (ref : nat) (w : wait_result) (now : Z)
| AWaitRelease (ref : nat)
| AWaitExpire (ref : nat).

Definition exec (a : action) (m : Manager) : option Manager :=
  match a with
  | AStart req e => Some (Start req e m).2
  | AOutput ref stderr b =>
      p ← heap m !! ref;
      if decide (p_exitCode p = None) then
        Some (set_heap m (<[ref := outputWriter_Write
          (if stderr then stderr_prefix else []) b p]> (heap m)))
      else None
  | AWrite id data wr => Some (Write id data wr m).2
  | ATerminate id kill => Some (Terminate id kill m).2
  | ACleanup now olderThan => Some (CleanupExited now olderThan m)
  | AWaitExit ref w now => wait_exit ref w now m
  | AWaitRelease ref => wait_release ref m
  | AWaitExpire ref => wait_expire ref m
  end.
