(* ===== verification/ProcessProps.v ===== *)
(** * Properties of the process manager

    The bound on concurrent processes, the life of a session, and what a
    client reads back of a process's output. *)
From S2P Require Import Prelude Crypto GoStrings Ring ProcessMgr.
Local Open Scope Z_scope.

(** ** Counting the slots in use *)

Definition unreleased (h : gmap nat process) : gmap nat process :=
  filter (fun rp => p_released rp.2 = false) h.
Definition running (h : gmap nat process) : gmap nat process :=
  filter (fun rp => p_exitCode rp.2 = None) h.

Lemma unreleased_fresh h ref p :
  h !! ref = None -> p_released p = false ->
  size (unreleased (<[ref := p]> h)) = S (size (unreleased h)).
Proof.
  intros Hr Hp. unfold unreleased. rewrite map_filter_insert_True by done.
  apply map_size_insert_None. apply map_lookup_filter_None. auto.
Qed.

Lemma unreleased_update h ref p p' :
  h !! ref = Some p -> p_released p' = p_released p ->
  size (unreleased (<[ref := p']> h)) = size (unreleased h).
Proof.
  intros Hr Hp. unfold unreleased. destruct (p_released p) eqn:E.
  - rewrite map_filter_insert_False, map_filter_delete by (simpl; congruence).
    rewrite delete_id; [done|]. apply map_lookup_filter_None. right.
    intros q Hq. simplify_eq. simpl. congruence.
  - rewrite map_filter_insert_True by (simpl; congruence).
    apply map_size_insert_Some. exists p. by apply map_lookup_filter_Some.
Qed.

Lemma unreleased_release h ref p :
  h !! ref = Some p -> p_released p = false ->
  size (unreleased h) = S (size (unreleased (<[ref := set_released p]> h))).
Proof.
  intros Hr Hp. unfold unreleased.
  rewrite map_filter_insert_False, map_filter_delete by (simpl; congruence).
  rewrite map_size_delete_Some by (exists p; by apply map_lookup_filter_Some).
  assert (size (filter (fun rp : nat * process => p_released rp.2 = false) h) <> 0%nat); [|lia].
  apply map_size_ne_0_lookup. exists ref, p. by apply map_lookup_filter_Some.
Qed.

(** ** The invariant *)

Record inv (m : Manager) : Prop := mkInv {
  inv_slots : active m = Z.of_nat (size (unreleased (heap m)));
  inv_bound : active m <= Z.max 0 (maxProcs m);
  inv_procs : forall id ref, procs m !! id = Some ref ->
    exists p, heap m !! ref = Some p /\ p_id p = id;
  inv_released : forall ref p, heap m !! ref = Some p -> p_released p = true ->
    p_exitCode p <> None }.

Lemma inv_NewManager mp mb mr sh : inv (NewManager mp mb mr sh).
Proof. split; simpl; try done; lia. Qed.

(** Replacing a process object without touching its id or its slot. *)
Lemma inv_update m ref p p' :
  inv m -> heap m !! ref = Some p -> p_id p' = p_id p -> p_released p' = p_released p ->
  (p_exitCode p <> None -> p_exitCode p' <> None) ->
  inv (set_heap m (<[ref := p']> (heap m))).
Proof.
  intros [Hs Hb Hp Hr] Hlk Hid Hrel Hex. split; simpl; [|done| |].
  - by erewrite unreleased_update.
  - intros id ref' H. destruct (Hp _ _ H) as (q & Hq & <-). rewrite lookup_insert.
    case_decide; naive_solver.
  - intros ref' q. rewrite lookup_insert. case_decide; naive_solver.
Qed.

Lemma inv_sub_procs m ps :
  inv m -> (forall id ref, ps !! id = Some ref -> procs m !! id = Some ref) ->
  inv (set_procs m ps).
Proof. intros [] Hsub. split; simpl; eauto. Qed.

Lemma get_Some id m ref p :
  get id m = Ok (ref, p) <-> procs m !! id = Some ref /\ heap m !! ref = Some p.
Proof. unfold get. case_guards; naive_solver. Qed.

Lemma fresh_ref_None h : h !! fresh_ref h = None.
Proof. unfold fresh_ref. apply not_elem_of_dom, is_fresh. Qed.

Lemma Start_inv req e m : inv m -> inv (Start req e m).2.
Proof.
  intros Hinv. unfold Start. case_match eqn:Hact; [done|]. bool_props.
  destruct (_ ≫= _) as [[[id cmd] pid]|]; [|done].
  destruct Hinv as [Hs Hb Hp Hr]. pose proof (fresh_ref_None (heap m)) as Hf.
  split; simpl.
  - rewrite unreleased_fresh by done. lia.
  - lia.
  - intros id' ref H. apply lookup_insert_Some in H as [[<- <-]|[_ H]].
    + eexists. by rewrite lookup_insert_eq.
    + destruct (Hp _ _ H) as (p & Hlk & Hid). exists p.
      rewrite lookup_insert_ne; [done|]. congruence.
  - intros ref p H. apply lookup_insert_Some in H as [[_ <-]|[_ H]]; [done|eauto].
Qed.

Lemma wait_release_inv ref m m' : inv m -> wait_release ref m = Some m' -> inv m'.
Proof.
  unfold wait_release. intros [Hs Hb Hp Hr] H.
  destruct (heap m !! ref) as [p|] eqn:Hlk; simpl in H; [|done]. case_match eqn:Hg; [|done].
  apply andb_true_iff in Hg as [Hg Hn]. bool_props.
  pose proof (unreleased_release _ _ _ Hlk Hn) as Hsz.
  assert (inv (set_active (set_heap m (<[ref:=set_released p]> (heap m))) (active m - 1))).
  { split; simpl; [lia|lia| |].
    - intros id ref' H'. destruct (Hp _ _ H') as (q & Hq & <-). rewrite lookup_insert.
      case_decide; naive_solver.
    - intros ref' q. rewrite lookup_insert. case_decide; naive_solver. }
  simplify_eq/=. rewrite (proj2 (Z.ltb_lt _ _)); [done|lia].
Qed.

Lemma exec_inv a m m' : inv m -> exec a m = Some m' -> inv m'.
Proof.
  intros Hinv Hex. destruct a; simpl in Hex.
  - simplify_eq. by apply Start_inv.
  - destruct (heap m !! ref) eqn:?; simpl in Hex; [|done]. case_decide; simplify_eq.
    by eapply inv_update.
  - simplify_eq. unfold Write. case_guards.
    match goal with H : get _ _ = _ |- _ => apply get_Some in H as [_ ?] end.
    by eapply inv_update.
  - simplify_eq. unfold Terminate. case_guards.
    match goal with H : get _ _ = _ |- _ => apply get_Some in H as [_ ?] end.
    by eapply inv_update.
  - simplify_eq. apply inv_sub_procs; [done|]. intros id r.
    by rewrite map_lookup_filter_Some; intros [].
  - unfold wait_exit in Hex. destruct (heap m !! ref) eqn:?; simpl in Hex; [|done].
    case_guards. by eapply inv_update.
  - by eapply wait_release_inv.
  - unfold wait_expire in Hex. destruct (heap m !! ref) eqn:?; simpl in Hex; [|done].
    case_guards; [|done]. apply inv_sub_procs; [done|]. intros id r.
    by rewrite lookup_delete_Some; intros [].
Qed.

Lemma run_inv acts m m' : inv m -> run exec acts m = Some m' -> inv m'.
Proof. apply run_invariant. intros a s s' Hs He. exact (exec_inv a s s' Hs He). Qed.

Lemma exec_maxProcs a m m' : exec a m = Some m' -> maxProcs m' = maxProcs m.
Proof.
  intros Hex. destruct a; simpl in Hex; simplify_eq;
    unfold Start, Write, Terminate, wait_exit, wait_release, wait_expire in *;
    try (by repeat case_match);
    destruct (heap m !! ref); simpl in Hex; case_guards; done.
Qed.

Lemma run_maxProcs acts m m' : run exec acts m = Some m' -> maxProcs m' = maxProcs m.
Proof.
  intros Hrun. apply (run_invariant exec (fun s => maxProcs s = maxProcs m)) with acts m;
    [|done|done].
  intros a s s' <-. apply exec_maxProcs.
Qed.

(** ** The concurrency bound *)

(** A process that still runs has not released its slot. *)
Lemma running_le_unreleased h :
  (forall ref p, h !! ref = Some p -> p_released p = true -> p_exitCode p <> None) ->
  (size (running h) <= size (unreleased h))%nat.
Proof.
  intros Hr. rewrite <- !size_dom. apply subseteq_size. intros ref.
  rewrite !elem_of_dom. intros [p Hp]. apply map_lookup_filter_Some in Hp as [Hlk Hx].
  exists p. apply map_lookup_filter_Some. split; [done|].
  destruct (p_released p) eqn:E; [|done]. by destruct (Hr _ _ Hlk E).
Qed.

(** C23 At most [maxProcs] processes run at any moment, whatever the order of
    starts, exits and cleanups; the counter that enforces this is exactly the
    number of processes whose waiting goroutine has not freed its slot. *)
Theorem concurrency_is_bounded mp mb mr sh acts m :
  0 <= mp -> run exec acts (NewManager mp mb mr sh) = Some m ->
  active m = Z.of_nat (size (unreleased (heap m))) /\
  Z.of_nat (size (running (heap m))) <= active m <= mp.
Proof.
  intros Hmp Hrun.
  destruct (run_inv acts _ _ (inv_NewManager mp mb mr sh) Hrun) as [Hs Hb _ Hr].
  assert (maxProcs m = mp) as Hm by (by eapply (run_maxProcs acts (NewManager mp mb mr sh))).
  pose proof (running_le_unreleased _ Hr). lia.
Qed.

(** ** Slots always drain *)

Definition slot_measure (m : Manager) : nat :=
  size (running (heap m)) + size (unreleased (heap m)).

Definition is_wait (a : action) : Prop :=
  match a with AWaitExit _ _ _ | AWaitRelease _ => True | _ => False end.

Lemma running_update h ref p p' :
  h !! ref = Some p -> (p_exitCode p' = None <-> p_exitCode p = None) ->
  size (running (<[ref := p']> h)) = size (running h).
Proof.
  intros Hr Hp. unfold running. destruct (decide (p_exitCode p = None)) as [E|E].
  - rewrite map_filter_insert_True by (simpl; tauto).
    apply map_size_insert_Some. exists p. by apply map_lookup_filter_Some.
  - rewrite map_filter_insert_False, map_filter_delete by (simpl; tauto).
    rewrite delete_id; [done|]. apply map_lookup_filter_None. right.
    intros q Hq. simplify_eq. simpl. congruence.
Qed.

Lemma running_exit h ref p code now :
  h !! ref = Some p -> p_exitCode p = None ->
  size (running h) = S (size (running (<[ref := set_exit p code now]> h))).
Proof.
  intros Hr Hp. unfold running.
  rewrite map_filter_insert_False, map_filter_delete by done.
  rewrite map_size_delete_Some by (exists p; by apply map_lookup_filter_Some).
  assert (size (filter (fun rp : nat * process => p_exitCode rp.2 = None) h) <> 0%nat); [|lia].
  apply map_size_ne_0_lookup. exists ref, p. by apply map_lookup_filter_Some.
Qed.

(** As long as a slot is in use, the goroutine that holds it can move. *)
Lemma slot_progress m :
  inv m -> active m <> 0 ->
  exists a m', is_wait a /\ exec a m = Some m' /\ procs m' = procs m /\
               (slot_measure m' < slot_measure m)%nat.
Proof.
  intros Hinv Hne. destruct (inv_slots _ Hinv).
  assert (size (unreleased (heap m)) <> 0%nat) as Hsz by (rewrite (inv_slots _ Hinv) in Hne; lia).
  apply map_size_ne_0_lookup in Hsz as [ref [p Hp]].
  apply map_lookup_filter_Some in Hp as [Hlk Hrel]. simpl in Hrel.
  destruct (decide (p_exitCode p = None)) as [Hex|Hex].
  - exists (AWaitExit ref WaitOk 1). eexists. split; [done|].
    simpl. unfold wait_exit. rewrite Hlk. simpl. rewrite decide_True by done.
    split; [done|]. split; [done|]. unfold slot_measure. simpl.
    erewrite (unreleased_update _ _ p) by done.
    rewrite (running_exit (heap m) ref p 0 1 Hlk Hex). lia.
  - exists (AWaitRelease ref). eexists. split; [done|].
    simpl. unfold wait_release. rewrite Hlk. simpl.
    rewrite bool_decide_eq_true_2, Hrel by done. simpl. split; [done|].
    split; [by case_match|]. unfold slot_measure.
    rewrite (unreleased_release _ _ _ Hlk Hrel).
    rewrite <- (running_update (heap m) ref p (set_released p)) by done.
    case_match; simpl; lia.
Qed.


(** ** What a client reads is what the process printed *)

(** The bytes one output action puts in the buffer. *)
Definition output_bytes (stderr : bool) (b : list byte) : list byte :=
  (if stderr && (0 <? len b) then stderr_prefix else []) ++ b.

(** Everything a schedule makes process [ref] print. *)
Definition output_of (ref : nat) (acts : list action) : list byte :=
  acts ≫= fun a =>
    match a with
    | AOutput ref' stderr b => if decide (ref' = ref) then output_bytes stderr b else []
    | _ => []
    end.

Lemma outputWriter_ring hist stderr b p :
  ring_ok hist (p_buf p) -> len (hist ++ output_bytes stderr b) < 2 ^ 63 ->
  ring_ok (hist ++ output_bytes stderr b)
    (p_buf (outputWriter_Write (if stderr then stderr_prefix else []) b p)).
Proof.
  unfold output_bytes, outputWriter_Write. intros Hok Hlen.
  destruct stderr; cbn [p_buf set_buf andb] in *;
    [|by apply ring_write_appends].
  rewrite (bool_decide_eq_true_2 (stderr_prefix <> [])) by done. cbn [andb].
  destruct (0 <? len b); [|by apply ring_write_appends].
  rewrite app_assoc in *. apply ring_write_appends; [|done].
  apply ring_write_appends; [done|]. rewrite length_app in Hlen. lia.
Qed.

(** How one action changes the object at [ref], if it was there. *)
Lemma exec_object a m m' ref p :
  exec a m = Some m' -> heap m !! ref = Some p ->
  exists p', heap m' !! ref = Some p' /\
    (p_exitCode p <> None -> p_exitCode p' = p_exitCode p /\ p_exitedAt p' = p_exitedAt p) /\
    p_buf p' = match a with
               | AOutput ref' stderr b =>
                   if decide (ref' = ref)
                   then p_buf (outputWriter_Write (if stderr then stderr_prefix else []) b p)
                   else p_buf p
               | _ => p_buf p
               end.
Proof.
  intros Hex Hp. destruct a; simpl in Hex.
  - simplify_eq. unfold Start. case_guards; eauto. exists p. simpl.
    rewrite lookup_insert_ne; [done|]. intros <-. by rewrite fresh_ref_None in Hp.
  - destruct (heap m !! ref0) as [q|] eqn:Hq; simpl in Hex; [|done]. case_decide; simplify_eq.
    simpl. rewrite lookup_insert. case_decide; simplify_eq; eauto.
  - simplify_eq. unfold Write, get. case_guards; eauto. rewrite lookup_insert.
    case_decide; simplify_eq; eauto.
  - simplify_eq. unfold Terminate, get. case_guards; eauto. rewrite lookup_insert.
    case_decide; simplify_eq; eauto.
  - simplify_eq. simpl. eauto.
  - unfold wait_exit in Hex. destruct (heap m !! ref0) as [q|] eqn:Hq; simpl in Hex; [|done].
    case_decide; simplify_eq. simpl. rewrite lookup_insert.
    case_decide; simplify_eq; eauto. eexists. split; [done|]. split; [by intros ?|done].
  - unfold wait_release in Hex. destruct (heap m !! ref0) as [q|] eqn:Hq; simpl in Hex; [|done].
    case_match; [|done]. assert (heap m' = <[ref0 := set_released q]> (heap m)) as ->
      by (simplify_eq; by case_match).
    rewrite lookup_insert. case_decide; simplify_eq; eauto.
  - unfold wait_expire in Hex. destruct (heap m !! ref0) as [q|] eqn:Hq; simpl in Hex; [|done].
    assert (heap m' = heap m) as -> by (case_guards; done). eauto.
Qed.

(** An object that appears starts with an empty buffer. *)
Lemma exec_new_object a m m' ref p :
  exec a m = Some m' -> heap m !! ref = None -> heap m' !! ref = Some p ->
  p_buf p = mkRing [] 0 (maxBuffer m) /\
  (forall stderr b, a <> AOutput ref stderr b).
Proof.
  intros Hex Hn Hp. destruct a; simpl in Hex; simplify_eq.
  - unfold Start in Hp. case_guards. apply lookup_insert_Some in Hp as [[_ <-]|[_ Hp]];
      [done|congruence].
  - destruct (heap m !! ref0) as [q|] eqn:Hq; simpl in Hex; [|done]. case_guards;
      apply lookup_insert_Some in Hp as [[-> _]|[_ Hp]]; congruence.
  - unfold Write, get in Hp. case_guards.
    apply lookup_insert_Some in Hp as [[-> _]|[_ Hp]]; congruence.
  - unfold Terminate, get in Hp. case_guards.
    apply lookup_insert_Some in Hp as [[-> _]|[_ Hp]]; congruence.
  - simpl in Hp. congruence.
  - unfold wait_exit in Hex. destruct (heap m !! ref0) as [q|] eqn:Hq; simpl in Hex; [|done].
    case_guards. apply lookup_insert_Some in Hp as [[-> _]|[_ Hp]]; congruence.
  - unfold wait_release in Hex. destruct (heap m !! ref0) as [q|] eqn:Hq; simpl in Hex; [|done].
    case_guards; apply lookup_insert_Some in Hp as [[-> _]|[_ Hp]]; congruence.
  - unfold wait_expire in Hex. destruct (heap m !! ref0) as [q|] eqn:Hq; simpl in Hex; [|done].
    case_guards; congruence.
Qed.

Lemma exec_output_enabled ref stderr b m m' :
  exec (AOutput ref stderr b) m = Some m' -> exists p, heap m !! ref = Some p.
Proof. simpl. destruct (heap m !! ref); [eauto|done]. Qed.

Lemma exec_maxBuffer a m m' : exec a m = Some m' -> maxBuffer m' = maxBuffer m.
Proof.
  intros Hex. destruct a; simpl in Hex; simplify_eq;
    unfold Start, Write, Terminate, wait_exit, wait_release, wait_expire in *;
    try (by repeat case_match);
    destruct (heap m !! ref); simpl in Hex; case_guards; done.
Qed.

(** Every buffer is a ring over the output of its process. *)
Lemma run_output mp mb mr sh acts m ref :
  0 < mb -> run exec acts (NewManager mp mb mr sh) = Some m ->
  len (output_of ref acts) < 2 ^ 63 ->
  maxBuffer m = mb /\
  match heap m !! ref with
  | Some p => ring_ok (output_of ref acts) (p_buf p)
  | None => output_of ref acts = []
  end.
Proof.
  intros Hmb. revert m. induction acts as [|a acts IH] using rev_ind; intros m Hrun Hlen.
  - simpl in Hrun. by simplify_eq.
  - rewrite run_app in Hrun.
    destruct (run exec acts _) as [m1|] eqn:Hr; [|done]. simpl in Hrun.
    destruct (exec a m1) as [m2|] eqn:Hex; simpl in Hrun; simplify_eq.
    assert (output_of ref (acts ++ [a]) = output_of ref acts ++ output_of ref [a]) as Hout
      by apply bind_app.
    rewrite Hout, length_app in *.
    destruct (IH m1 eq_refl ltac:(lia)) as [Hmax Hring].
    rewrite (exec_maxBuffer _ _ _ Hex). split; [done|].
    destruct (heap m1 !! ref) as [p1|] eqn:Hp1.
    + destruct (exec_object _ _ _ _ _ Hex Hp1) as (p & Hp & _ & Hbuf).
      rewrite Hp, Hbuf. unfold output_of at 2. simpl. rewrite app_nil_r.
      destruct a; rewrite ?app_nil_r; try done. case_decide; rewrite ?app_nil_r; [|done].
      apply outputWriter_ring; [done|]. rewrite length_app.
      unfold output_of in Hlen at 2. simpl in Hlen. rewrite app_nil_r, decide_True in Hlen by done.
      lia.
    + assert (output_of ref [a] = []) as Hnil.
      { unfold output_of. simpl. rewrite app_nil_r. destruct a; try done.
        case_decide; [|done]. subst.
        destruct (exec_output_enabled _ _ _ _ _ Hex). congruence. }
      rewrite Hring, Hnil. destruct (heap m !! ref) as [p|] eqn:Hp; [|done].
      destruct (exec_new_object _ _ _ _ _ Hex Hp1 Hp) as [-> _].
      apply ring_ok_empty. by rewrite Hmax.
Qed.

Definition read_limit (maxBytes : Z) : Z :=
  if (maxBytes <=? 0) || (256 * 1024 <? maxBytes) then 64 * 1024 else maxBytes.

(** C26 End to end: reading a session returns, at any cursor and in any reachable
    state, the bytes the process has printed from that cursor on (with the
    stderr marker before each stderr chunk), at most 256 KiB of them; the only
    loss is what the window dropped, and then the read says so. *)
Theorem session_read_is_process_output mp mb mr sh acts m id ref cursor maxBytes :
  0 < mb -> run exec acts (NewManager mp mb mr sh) = Some m ->
  procs m !! id = Some ref -> len (output_of ref acts) < 2 ^ 63 -> int64_ok cursor ->
  exists p r,
    heap m !! ref = Some p /\
    Read id cursor maxBytes m = Some (Ok r) /\
    let hist := output_of ref acts in
    let start := clamp hist (p_buf p) cursor in
    Data r = take (Z.to_nat (read_limit maxBytes)) (drop (Z.to_nat start) hist) /\
    NextCursor r = start + len (Data r) /\
    Truncated r = bool_decide (cursor < window_start hist (p_buf p)) /\
    len (Data r) <= 256 * 1024 /\
    ExitCode r = p_exitCode p.
Proof.
  intros Hmb Hrun Hid Hlen Hcur.
  pose proof (run_inv acts _ _ (inv_NewManager mp mb mr sh) Hrun) as Hinv.
  destruct (inv_procs _ Hinv _ _ Hid) as (p & Hp & _).
  destruct (run_output mp mb mr sh acts m ref Hmb Hrun Hlen) as [_ Hring].
  rewrite Hp in Hring.
  assert (0 <= read_limit maxBytes <= 256 * 1024) as Hlim
    by (unfold read_limit; case_match; bool_props; lia).
  pose proof (ring_read_window _ _ cursor (read_limit maxBytes) Hring Hcur ltac:(lia)) as Hread.
  exists p. unfold Read. rewrite (proj2 (get_Some id m ref p) (conj Hid Hp)).
  fold (read_limit maxBytes). rewrite Hread. simpl.
  eexists. split; [done|]. split; [done|]. simpl. split_and!; try done.
  rewrite length_take. lia.
Qed.

(** The exit status of a process is recorded once and never changes. *)
Theorem exit_status_is_final acts m m' ref p c :
  run exec acts m = Some m' -> heap m !! ref = Some p -> p_exitCode p = Some c ->
  exists p', heap m' !! ref = Some p' /\ p_exitCode p' = Some c /\
             p_exitedAt p' = p_exitedAt p.
Proof.
  revert m p. induction acts as [|a acts IH]; intros m p Hrun Hp Hc; simpl in Hrun.
  - simplify_eq. eauto.
  - destruct (exec a m) as [m1|] eqn:Hex; simpl in Hrun; [|done].
    destruct (exec_object _ _ _ _ _ Hex Hp) as (p1 & Hp1 & Hkeep & _).
    destruct Hkeep as [He Ht]; [congruence|].
    destruct (IH m1 p1 Hrun Hp1) as (p' & ? & ? & ?); [congruence|].
    exists p'. split_and!; congruence.
Qed.

(** ** What may be started *)

(** The environment a command gets: the inherited one, then the overrides by
    increasing name. *)
Lemma env_append_ok kvs env env' :
  env_append kvs env = Ok env' ->
  env' = env ++ ((fun kv => kv.1 +:+ "=" +:+ kv.2) <$> kvs) /\
  Forall (fun kv => bad_env_value kv.2 = false) kvs.
Proof.
  revert env. induction kvs as [|[k v] kvs IH]; intros env H; simpl in *.
  - simplify_eq. by rewrite app_nil_r.
  - case_match eqn:Hv; [done|]. apply IH in H as [-> H]. rewrite <- app_assoc. simpl.
    split; [done|]. by constructor.
Qed.

Lemma existsb_false {A} (f : A -> bool) (l : list A) :
  existsb f l = false -> Forall (fun x => f x = false) l.
Proof.
  induction l as [|x l IH]; simpl; [by constructor|].
  intros [? ?]%orb_false_iff. constructor; auto.
Qed.

Lemma commandFor_ok windows req sh argv :
  commandFor windows req sh = Ok argv ->
  (argv = Argv req /\ Argv req <> []) \/
  (Argv req = [] /\ sh = true /\ last argv = Some (Command req)).
Proof.
  unfold commandFor. intros H. destruct (Argv req) as [|a l] eqn:Ha; simpl in H.
  - right. case_guards; done.
  - left. case_guards; done.
Qed.

Lemma cmd_environment_ok environ overrides env :
  cmd_environment environ overrides = Ok env ->
  match env with
  | None => overrides = ∅
  | Some env =>
      env = environ ++
            ((fun kv => kv.1 +:+ "=" +:+ kv.2) <$> isort key_le (map_to_list overrides)) /\
      map_Forall (fun k v => bad_env_name k = false /\ bad_env_value v = false) overrides
  end.
Proof.
  unfold cmd_environment. case_match eqn:Hsz; bool_props.
  - case_match eqn:Hn; [done|]. case_match; [done|].
    destruct (env_append _ _) as [env'|] eqn:He; [|done]. intros [= <-].
    apply env_append_ok in He as [-> Hv]. split; [done|].
    rewrite isort_perm in Hv. apply existsb_false in Hn.
    intros k v Hkv. apply elem_of_map_to_list in Hkv.
    rewrite Forall_forall in Hn, Hv. split; [by apply (Hn (k, v))|by apply (Hv (k, v))].
  - intros [= <-]. apply map_size_empty_inv. lia.
Qed.

(** A session that starts holds exactly the command that was asked for: the
    argument vector unchanged, or a shell on the command line, and the latter
    only when the policy allows it; every override is NUL-free and bounded, and
    overrides follow the inherited environment in name order. *)
Theorem started_command_is_requested req e m res m' :
  Start req e m = (Ok res, m') ->
  exists p, get (ProcessID res) m' = Ok (fresh_ref (heap m), p) /\
    p_exitCode p = None /\ p_pid p = PID res /\ cmd_Dir (p_cmd p) = Cwd req /\
    (cmd_argv (p_cmd p) = Argv req /\ Argv req <> [] \/
     Argv req = [] /\ allowShell m = true /\ last (cmd_argv (p_cmd p)) = Some (Command req)) /\
    match cmd_Env (p_cmd p) with
    | None => Env req = ∅
    | Some env =>
        env = env_Environ e ++
              ((fun kv => kv.1 +:+ "=" +:+ kv.2) <$> isort key_le (map_to_list (Env req))) /\
        map_Forall (fun k v => bad_env_name k = false /\ bad_env_value v = false) (Env req)
    end.
Proof.
  unfold Start. case_match; [done|]. destruct (_ ≫= _) as [[[id cmd] pid]|] eqn:Hb; [|done].
  intros Hst. simplify_eq/=.
  apply result_bind_ok in Hb as (id' & _ & Hb).
  apply result_bind_ok in Hb as (argv & Hargv & Hb).
  apply result_bind_ok in Hb as (environment & Henv & Hb).
  apply result_bind_ok in Hb as ([] & _ & Hb).
  apply result_bind_ok in Hb as (pid' & _ & Hb). injection Hb as <- <- <-.
  eexists. split; [apply get_Some; simpl; by rewrite !lookup_insert_eq|].
  simpl. split_and!; try done; [by eapply commandFor_ok|by apply cmd_environment_ok].
Qed.

(** ** The window between exit and free slot *)

Definition ex_req : StartRequest := mkStartRequest ["/bin/echo"; "one"] "" "" ∅.
Definition ex_env (id : string) (pid : Z) : StartEnv :=
  mkStartEnv (Ok id) false ["PATH=/bin"] (Ok tt) (Ok pid).
Definition ex_out : list byte := bytes_of_string "one".
(** One process starts, prints and exits; its waiting goroutine has recorded the
    exit but not yet freed the slot. *)
Definition ex_acts : list action :=
  [AStart ex_req (ex_env "p1" 100); AOutput 0 false ex_out; AWaitExit 0 WaitOk 7].
Definition ex_manager : Manager := NewManager 1 65536 0 false.
Definition ex_exited : Manager := default ex_manager (run exec ex_acts ex_manager).

(** With a limit of one process there is a reachable state in which a client
    has read that the process exited and a new start is still refused: the exit
    becomes visible before the slot is freed. *)
Theorem exit_visible_before_slot_free :
  exists m r, reachable exec ex_manager m /\
    Read "p1" 0 1024 m = Some (Ok r) /\ Exited r = true /\ Data r = ex_out /\
    (Start ex_req (ex_env "p2" 101) m).1 = Err ErrLimit.
Proof.
  exists ex_exited. eexists. split; [exists ex_acts; reflexivity|].
  split; [vm_compute; reflexivity|]. done.
Qed.

(** ** Witnesses *)

Lemma ex_exited_run : run exec ex_acts ex_manager = Some ex_exited.
Proof. reflexivity. Qed.

Lemma concurrency_is_bounded_witness :
  active ex_exited = Z.of_nat (size (unreleased (heap ex_exited))) /\
  Z.of_nat (size (running (heap ex_exited))) <= active ex_exited <= 1.
Proof. apply (concurrency_is_bounded 1 65536 0 false ex_acts); [lia|reflexivity]. Defined.


Lemma session_read_is_process_output_witness :
  exists p r, heap ex_exited !! 0%nat = Some p /\
    Read "p1" 0 1024 ex_exited = Some (Ok r) /\ Data r = ex_out.
Proof.
  destruct (session_read_is_process_output 1 65536 0 false ex_acts ex_exited "p1" 0 0 1024)
    as (p & r & Hp & Hr & _); [lia|reflexivity|reflexivity|reflexivity|unfold int64_ok; lia|].
  exists p, r. split; [exact Hp|]. split; [exact Hr|].
  vm_compute in Hr. injection Hr as <-. reflexivity.
Defined.

Lemma exit_status_is_final_witness :
  exists p', heap ex_exited !! 0%nat = Some p' /\ p_exitCode p' = Some 0.
Proof.
  destruct (heap ex_exited !! 0%nat) as [p|] eqn:Hp; [|vm_compute in Hp; discriminate].
  destruct (exit_status_is_final [] ex_exited ex_exited 0 p 0) as (p' & Hp' & Hc & _).
  - reflexivity.
  - exact Hp.
  - vm_compute in Hp. injection Hp as <-. reflexivity.
  - exists p'. split; [|exact Hc]. rewrite <- Hp. exact Hp'.
Defined.

Lemma started_command_is_requested_witness :
  exists p, get "p1" (Start ex_req (ex_env "p1" 100) ex_manager).2 = Ok (0%nat, p) /\
    p_pid p = 100.
Proof.
  destruct (started_command_is_requested ex_req (ex_env "p1" 100) ex_manager
    (mkStartResult "p1" 100) (Start ex_req (ex_env "p1" 100) ex_manager).2)
    as (p & Hg & _ & Hpid & _); [reflexivity|].
  exists p. split; [exact Hg|exact Hpid].
Defined.
