(* ===== verification/WsProps.v ===== *)
(** * What the WebSocket codec does to the wire

    [encode] is the wire image of one frame (RFC 6455, section 5.2, with the
    shortest length field), and [message] says which sequences of frames carry
    one message.  The reader accepts exactly these sequences; what the writer
    produces is one of them. *)
From S2P Require Import Prelude Crypto GoStrings Ws.
Local Open Scope Z_scope.

Definition mask_key : Type := byte * byte * byte * byte.
Definition mask_bytes (m : mask_key) : list byte :=
  let '(m0, m1, m2, m3) := m in [m0; m1; m2; m3].

Definition peer (r : Role) : Role := match r with Server => Client | Client => Server end.
Lemma peer_peer r : peer (peer r) = r.
Proof. by destruct r. Qed.

Definition masks (r : Role) : bool := bool_decide (r = Client).

(** The flag-and-length field, in the shortest of its three forms. *)
Definition length_field (masked : bool) (n : Z) : list byte :=
  let bit := if masked then 128 else 0 in
  if n <? 126 then [z2b (bit + n)]
  else if n <=? 65535 then z2b (bit + 126) :: put_be 2 n
  else z2b (bit + 127) :: put_be 8 n.

(** The bytes a sender of role [r] puts on the wire for one frame. *)
Definition encode (r : Role) (m : mask_key) (fin : bool) (op : Z) (payload : list byte) : list byte :=
  z2b ((if fin then 128 else 0) + op) :: length_field (masks r) (len payload) ++
  (if masks r then mask_bytes m ++ apply_mask (mask_bytes m) 0 payload else payload).

(** The frames a reader with message limit [max] lets through. *)
Definition frame_allowed (max : Z) (fin : bool) (op : Z) (payload : list byte) : Prop :=
  0 <= op < 16 /\ (8 <= op -> fin = true /\ len payload <= 125) /\
  len payload < 2 ^ 63 /\ len payload <= max mod 2 ^ 64.

(** ** Running the connection monad *)

Lemma bind_Ok {A B} (m : W A) (f : A -> W B) c b c2 :
  (m ≫= f) c = (Ok b, c2) <-> exists a c1, m c = (Ok a, c1) /\ f a c1 = (Ok b, c2).
Proof.
  unfold mbind, W_bind. destruct (m c) as [[a|e] c1]; naive_solver.
Qed.

Lemma ret_Ok {A} (a : A) c b c1 : (mret a : W A) c = (Ok b, c1) <-> b = a /\ c1 = c.
Proof. unfold mret, W_ret. naive_solver. Qed.

Lemma gets_Ok {A} (f : Conn -> A) c b c1 : gets f c = (Ok b, c1) <-> b = f c /\ c1 = c.
Proof. unfold gets. naive_solver. Qed.

Lemma guard_Ok b e c u c1 : guard_ok b e c = (Ok u, c1) <-> b = true /\ c1 = c.
Proof. destruct b, u; unfold guard_ok, fail, mret, W_ret; naive_solver. Qed.

Lemma ReadByte_Ok c b c1 :
  ReadByte c = (Ok b, c1) <-> exists l, c_in c = b :: l /\ c1 = set_in c l.
Proof. unfold ReadByte. destruct (c_in c); naive_solver. Qed.

Lemma ReadFull_Ok n c p c1 :
  ReadFull n c = (Ok p, c1) <-> exists l, length p = n /\ c_in c = p ++ l /\ c1 = set_in c l.
Proof.
  unfold ReadFull. case_decide as H; split.
  - intros [= <- <-]. exists (drop n (c_in c)).
    rewrite length_take, take_drop. split_and!; [lia|done|done].
  - intros (l & <- & E & ->). by rewrite E, take_app_length, drop_app_length.
  - done.
  - intros (l & <- & E & ->). rewrite E, length_app in H. lia.
Qed.

Lemma set_in_set_in c l l' : set_in (set_in c l) l' = set_in c l'.
Proof. done. Qed.

Lemma apply_mask_length m i l : length (apply_mask m i l) = length l.
Proof. revert i. induction l; intros; simpl; auto. Qed.

Lemma apply_mask_involutive m i l : apply_mask m i (apply_mask m i l) = l.
Proof. revert i. induction l as [|b l IH]; intros; simpl; [done|]. by rewrite byte_xor_cancel, IH. Qed.

Lemma mask_bytes_length m : length (mask_bytes m) = 4%nat.
Proof. by destruct m as [[[??]?]?]. Qed.

Lemma mask_bytes_surj l : length l = 4%nat -> exists m, l = mask_bytes m.
Proof. destruct l as [|a[|b[|c[|d[]]]]]; try done. by exists (a, b, c, d). Qed.

(** ** The two header bytes, checked over all their values *)

Lemma head_byte_read h :
  (Z.land (b2z h) 112 =? 0) = true ->
  h = z2b ((if negb (Z.land (b2z h) 128 =? 0) then 128 else 0) + Z.land (b2z h) 15) /\
  0 <= Z.land (b2z h) 15 < 16.
Proof.
  pose proof (forall_byte (fun h => implb (Z.land (b2z h) 112 =? 0)
    ((b2z h =? b2z (z2b ((if negb (Z.land (b2z h) 128 =? 0) then 128 else 0) + Z.land (b2z h) 15))) &&
     ((0 <=? Z.land (b2z h) 15) && (Z.land (b2z h) 15 <? 16)))) ltac:(vm_compute; reflexivity) h) as H.
  intros E. cbv beta in H. rewrite E in H. cbn [implb] in H. bool_props. split; [by apply b2z_inj|lia].
Qed.

Lemma head_byte_write (fin : bool) op :
  0 <= op < 16 ->
  let h := b2z (z2b ((if fin then 128 else 0) + op)) in
  (Z.land h 112 =? 0) = true /\ negb (Z.land h 128 =? 0) = fin /\ Z.land h 15 = op.
Proof.
  intros Hop. pose proof (forall_range 16 (fun op =>
    forallb (fun fin => let h := b2z (z2b ((if fin : bool then 128 else 0) + op)) in
      (Z.land h 112 =? 0) && (eqb (negb (Z.land h 128 =? 0)) fin && (Z.land h 15 =? op)))
      [true; false]) ltac:(vm_compute; reflexivity) op Hop) as H.
  cbv beta zeta in H. cbn [forallb] in H. cbv zeta.
  destruct fin; bool_props; split_and!; first [done | by apply Z.eqb_eq | by apply eqb_prop].
Qed.

Lemma len_byte_read b :
  b = z2b ((if negb (Z.land (b2z b) 128 =? 0) then 128 else 0) + Z.land (b2z b) 127) /\
  0 <= Z.land (b2z b) 127 < 128.
Proof.
  pose proof (forall_byte (fun b =>
    (b2z b =? b2z (z2b ((if negb (Z.land (b2z b) 128 =? 0) then 128 else 0) + Z.land (b2z b) 127))) &&
    ((0 <=? Z.land (b2z b) 127) && (Z.land (b2z b) 127 <? 128))) ltac:(vm_compute; reflexivity) b) as H.
  cbv beta in H. bool_props. split; [by apply b2z_inj|lia].
Qed.

Lemma len_byte_write (m : bool) n :
  0 <= n < 128 ->
  let b := b2z (z2b ((if m then 128 else 0) + n)) in
  negb (Z.land b 128 =? 0) = m /\ Z.land b 127 = n.
Proof.
  intros Hn. pose proof (forall_range 128 (fun n =>
    forallb (fun m => let b := b2z (z2b ((if m : bool then 128 else 0) + n)) in
      eqb (negb (Z.land b 128 =? 0)) m && (Z.land b 127 =? n))
      [true; false]) ltac:(vm_compute; reflexivity) n Hn) as H.
  cbv beta zeta in H. cbn [forallb] in H. cbv zeta.
  destruct m; bool_props; split_and!; first [done | by apply Z.eqb_eq | by apply eqb_prop].
Qed.

(** ** The length field *)

Lemma high_bit_clear n : 0 <= n < 2 ^ 64 -> (Z.land n (2 ^ 63) =? 0) = (n <? 2 ^ 63).
Proof.
  intros Hn. replace (Z.land n (2 ^ 63)) with (if Z.testbit n 63 then 2 ^ 63 else 0).
  - rewrite Z.testbit_odd, Z.shiftr_div_pow2 by lia.
    destruct (Z.lt_ge_cases n (2 ^ 63)).
    + rewrite Z.div_small by lia. simpl. symmetry. apply Z.ltb_lt. lia.
    + replace (n / 2 ^ 63) with 1 by (apply (Z.div_unique n (2 ^ 63) 1 (n - 2 ^ 63)); lia).
      simpl. symmetry. apply Z.ltb_ge. lia.
  - apply Z.bits_inj'. intros i Hi. rewrite Z.land_spec, Z.pow2_bits_eqb by lia.
    destruct (Z.eqb_spec 63 i) as [<-|Hne].
    + destruct (Z.testbit n 63); [by rewrite Z.pow2_bits_true by lia|by rewrite Z.testbit_0_l].
    + rewrite andb_false_r. destruct (Z.testbit n 63); [by apply Z.pow2_bits_false|apply Z.testbit_0_l].
Qed.

Lemma read_length_Ok b2 c n c1 :
  read_length (Z.land (b2z b2) 127) c = (Ok n, c1) ->
  exists field l,
    c_in c = field ++ l /\ c1 = set_in c l /\ 0 <= n < 2 ^ 63 /\
    b2 :: field = length_field (negb (Z.land (b2z b2) 128 =? 0)) n.
Proof.
  destruct (len_byte_read b2) as [E R]. set (m := negb _) in *. set (k := Z.land _ 127) in *.
  unfold read_length, length_field. case_decide as H1; [|case_decide as H2].
  - rewrite bind_Ok. intros (p & c' & (l & Hp & Hin & ->)%ReadFull_Ok & H).
    apply bind_Ok in H as ([] & ? & [G ->]%guard_Ok & [-> ->]%ret_Ok). bool_props.
    unfold be_uint in *. pose proof (be_word_range p) as Hr. rewrite Hp in Hr.
    exists p, l. split_and!; try done; [lia|lia|].
    rewrite (proj2 (Z.ltb_ge _ _)), (proj2 (Z.leb_le _ _)) by lia.
    unfold put_be. rewrite <- Hp, be_bytes_be_word. by rewrite E at 1; rewrite H1.
  - rewrite bind_Ok. intros (p & c' & (l & Hp & Hin & ->)%ReadFull_Ok & H).
    apply bind_Ok in H as ([] & ? & [G ->]%guard_Ok & [-> ->]%ret_Ok).
    unfold be_uint in *. pose proof (be_word_range p) as Hr. rewrite Hp in Hr.
    rewrite high_bit_clear in G by lia. bool_props.
    exists p, l. split_and!; try done; [lia|].
    rewrite (proj2 (Z.ltb_ge _ _)), (proj2 (Z.leb_gt _ _)) by lia.
    unfold put_be. rewrite <- Hp, be_bytes_be_word. by rewrite E at 1; rewrite H2.
  - intros [-> ->]%ret_Ok. exists [], (c_in c). split_and!; try done; [by destruct c|lia|lia|].
    rewrite (proj2 (Z.ltb_lt _ _)) by lia. by rewrite E at 1.
Qed.

Lemma read_length_field m n :
  0 <= n < 2 ^ 63 ->
  exists b2 field,
    length_field m n = b2 :: field /\ negb (Z.land (b2z b2) 128 =? 0) = m /\
    forall c l, c_in c = field ++ l ->
      read_length (Z.land (b2z b2) 127) c = (Ok n, set_in c l).
Proof.
  intros Hn. unfold length_field.
  destruct (Z.ltb_spec n 126); [|destruct (Z.leb_spec n 65535)]; eexists _, _; (split; [done|]).
  - destruct (len_byte_write m n) as [-> ->]; [lia|]. split; [done|]. intros c l Hin.
    unfold read_length. rewrite !decide_False by lia. apply ret_Ok. split; [done|].
    simpl in Hin. subst l. by destruct c.
  - destruct (len_byte_write m 126) as [-> ->]; [lia|]. split; [done|]. intros c l Hin.
    unfold read_length. rewrite decide_True by done. apply bind_Ok. eexists _, _; split.
    { apply ReadFull_Ok. exists l. split_and!; [apply length_be_bytes|done|done]. }
    unfold be_uint. cbv zeta. unfold put_be. rewrite be_word_be_bytes, Z.mod_small by lia.
    apply bind_Ok. exists tt. eexists. split; [apply guard_Ok; split; [lia|done]|]. by apply ret_Ok.
  - destruct (len_byte_write m 127) as [-> ->]; [lia|]. split; [done|]. intros c l Hin.
    unfold read_length. rewrite decide_False, decide_True by done. apply bind_Ok. eexists _, _; split.
    { apply ReadFull_Ok. exists l. split_and!; [apply length_be_bytes|done|done]. }
    unfold be_uint. cbv zeta. unfold put_be. rewrite be_word_be_bytes, Z.mod_small by lia.
    rewrite high_bit_clear by lia. apply bind_Ok. exists tt. eexists.
    split; [apply guard_Ok; split; [lia|done]|]. by apply ret_Ok.
Qed.

(** ** One frame *)

Lemma masking_check r (m : bool) :
  negb ((bool_decide (r = Server) && negb m) || (bool_decide (r = Client) && m)) = true <->
  m = masks (peer r).
Proof. by destruct r, m. Qed.

Lemma control_check (fin : bool) op n :
  negb ((8 <=? op) && (negb fin || (125 <? n))) = true <-> (8 <= op -> fin = true /\ n <= 125).
Proof.
  destruct (Z.leb_spec 8 op), fin, (Z.ltb_spec 125 n); simpl; (split; [intros ?|]); try done;
    try (intros _; lia); try lia; intros HH; exfalso; destruct (HH ltac:(lia)); try done; lia.
Qed.

(** The bytes that follow the header of a frame. *)
Lemma read_payload (m fin : bool) op n c fr c1 :
  (mask ← (if m then ReadFull 4 else mret (replicate 4 (z2b 0)));
   payload ← ReadFull n;
   (mret (fin, op, if m then apply_mask mask 0 payload else payload) : W (bool * Z * list byte)))
    c = (Ok fr, c1) <->
  exists k p l, fr = (fin, op, p) /\ length p = n /\
    c_in c = (if m then mask_bytes k ++ apply_mask (mask_bytes k) 0 p else p) ++ l /\
    c1 = set_in c l.
Proof.
  split.
  - intros (mask & c2 & H1 & H2)%bind_Ok.
    apply bind_Ok in H2 as (p & c3 & (l & Hp & Hin & ->)%ReadFull_Ok & [-> ->]%ret_Ok).
    destruct m.
    + apply ReadFull_Ok in H1 as (l' & [k ->]%mask_bytes_surj & Hin' & ->). simpl in Hin. subst l'.
      exists k, (apply_mask (mask_bytes k) 0 p), l.
      by rewrite apply_mask_length, apply_mask_involutive, <- app_assoc.
    + apply ret_Ok in H1 as [_ ->]. by exists (z2b 0, z2b 0, z2b 0, z2b 0), p, l.
  - intros (k & p & l & -> & Hp & Hin & ->). apply bind_Ok. destruct m.
    + rewrite <- app_assoc in Hin. eexists _, _; split.
      { apply ReadFull_Ok. eexists; split_and!; [apply mask_bytes_length|exact Hin|done]. }
      apply bind_Ok. eexists _, _; split.
      { apply ReadFull_Ok. exists l; split_and!; [|done|done]. by rewrite apply_mask_length. }
      apply ret_Ok. by rewrite apply_mask_involutive.
    + eexists _, _; split; [by apply ret_Ok|]. apply bind_Ok. eexists _, _; split; [|by apply ret_Ok].
      apply ReadFull_Ok. by exists l.
Qed.

Lemma readFrame_sound c fr c' :
  readFrame c = (Ok fr, c') ->
  exists m l, c_in c = encode (peer (c_role c)) m fr.1.1 fr.1.2 fr.2 ++ l /\
    c' = set_in c l /\ frame_allowed (c_max c) fr.1.1 fr.1.2 fr.2.
Proof.
  unfold readFrame. intros (h & ? & (l1 & Hin1 & ->)%ReadByte_Ok & H)%bind_Ok.
  apply bind_Ok in H as ([] & ? & [G1 ->]%guard_Ok & H). apply head_byte_read in G1 as [Eh Rh].
  apply bind_Ok in H as (b2 & ? & (l2 & Hin2 & ->)%ReadByte_Ok & H).
  apply bind_Ok in H as (? & ? & [-> ->]%gets_Ok & H).
  apply bind_Ok in H as ([] & ? & [G2 ->]%guard_Ok & H). apply masking_check in G2.
  apply bind_Ok in H as (n & ? & (field & l3 & Hin3 & -> & Hn & Ef)%read_length_Ok & H).
  apply bind_Ok in H as ([] & ? & [G3 ->]%guard_Ok & H). pose proof (proj1 (control_check _ _ _) G3) as G3'. clear G3.
  apply bind_Ok in H as (? & ? & [-> ->]%gets_Ok & H).
  apply bind_Ok in H as ([] & ? & [G4 ->]%guard_Ok & H). bool_props.
  apply read_payload in H as (k & p & l & -> & Hp & Hin4 & ->).
  assert (n = len p) as -> by lia. rewrite G2 in Ef, Hin4. simpl in *. subst.
  exists k, l. split_and!; [|done|unfold frame_allowed; tauto].
  rewrite Hin1. unfold encode. simpl. rewrite <- Eh, <- Ef. simpl. by rewrite <- app_assoc.
Qed.

Lemma readFrame_complete c m fin op payload l :
  c_in c = encode (peer (c_role c)) m fin op payload ++ l ->
  frame_allowed (c_max c) fin op payload ->
  readFrame c = (Ok (fin, op, payload), set_in c l).
Proof.
  intros Hin (Hop & Hctl & Hlen & Hmax). unfold encode in Hin.
  destruct (read_length_field (masks (peer (c_role c))) (len payload)) as (b2 & field & Ef & Em & Hrd);
    [lia|]. rewrite Ef in Hin. cbn [app] in Hin. rewrite <- !app_assoc in Hin.
  destruct (head_byte_write fin op Hop) as (E1 & E2 & E3).
  unfold readFrame. apply bind_Ok. eexists _, _; split; [apply ReadByte_Ok; by eexists|].
  apply bind_Ok. exists tt. eexists. split; [by apply guard_Ok|].
  apply bind_Ok. eexists _, _; split; [apply ReadByte_Ok; by eexists|].
  apply bind_Ok. eexists _, _; split; [by apply gets_Ok|].
  apply bind_Ok. exists tt. eexists. split; [apply guard_Ok; split; [by apply masking_check|done]|].
  apply bind_Ok. eexists _, _; split; [by apply Hrd|].
  apply bind_Ok. exists tt. eexists. split.
  { apply guard_Ok. split; [|done]. apply control_check. by rewrite E2, E3. }
  apply bind_Ok. eexists _, _; split; [by apply gets_Ok|].
  apply bind_Ok. exists tt. eexists. split; [apply guard_Ok; split; [by apply Z.leb_le|done]|].
  apply read_payload. exists m, payload, l. rewrite E2, E3, Em. split_and!; try done. lia.
Qed.

(** The frame reader accepts exactly the frames of RFC 6455: [readFrame]
    returns a frame and leaves [l] unread iff the input is the wire image of
    that frame, as the opposite role masks it and with the shortest length
    field, followed by [l], the frame is a complete one of at most 125 bytes
    when it is a control frame, and its payload respects the connection's
    maximum.  Nothing is written. *)
Theorem readFrame_accepts c fin op payload c' :
  readFrame c = (Ok (fin, op, payload), c') <->
  exists m l, c_in c = encode (peer (c_role c)) m fin op payload ++ l /\
    c' = set_in c l /\ frame_allowed (c_max c) fin op payload.
Proof.
  split; [apply (readFrame_sound c (fin, op, payload))|].
  intros (m & l & Hin & -> & Hok). by eapply readFrame_complete.
Qed.

(** ** Writing a frame *)

(** The mask for the next frame: a client draws it, a server sends none. *)
Definition draw (r : Role) (rnd : list mask_key) : option (mask_key * list mask_key) :=
  match r with
  | Server => Some ((z2b 0, z2b 0, z2b 0, z2b 0), rnd)
  | Client => match rnd with [] => None | m :: rnd' => Some (m, rnd') end
  end.

Definition written (c : Conn) (bytes : list byte) (rnd : list mask_key) : Conn :=
  mkConn (c_in c) (c_out c ++ bytes) (c_role c) (c_max c) rnd (c_broken c).

Lemma lor_bit (b : bool) n :
  0 <= n < 128 -> Z.lor (if b then 128 else 0) n = (if b then 128 else 0) + n.
Proof.
  intros Hn. pose proof (forall_range 128 (fun n =>
    (Z.lor 128 n =? 128 + n) && (Z.lor 0 n =? 0 + n)) ltac:(vm_compute; reflexivity) n Hn) as H.
  cbv beta in H. bool_props. by destruct b.
Qed.

Lemma conn_Write_Ok bs c u c1 :
  conn_Write bs c = (Ok u, c1) <-> c_broken c = false /\ c1 = written c bs (c_rand c).
Proof. unfold conn_Write, written. destruct (c_broken c), u; naive_solver. Qed.

Lemma writeFrame_Ok c op p c' :
  0 <= op < 16 -> len p < 2 ^ 63 ->
  writeFrame op p c = (Ok tt, c') <->
  (8 <= op -> len p <= 125) /\ c_broken c = false /\
  exists m rnd, draw (c_role c) (c_rand c) = Some (m, rnd) /\
    c' = written c (encode (c_role c) m true op p) rnd.
Proof.
  intros Hop Hlen. unfold writeFrame. rewrite bind_Ok.
  assert (forall m : bool, z2b (Z.lor 128 op) ::
    (if len p <? 126 then [z2b (Z.lor (if m then 128 else 0) (len p `mod` 256))]
     else if len p <=? 65535 then z2b (Z.lor (if m then 128 else 0) 126) :: put_be 2 (len p `mod` 2 ^ 16)
     else z2b (Z.lor (if m then 128 else 0) 127) :: put_be 8 (len p `mod` 2 ^ 64)) =
    z2b (128 + op) :: length_field m (len p)) as Hh.
  { intros m. unfold length_field. f_equal; [f_equal; apply (lor_bit true); lia|].
    destruct (Z.ltb_spec (len p) 126); [|destruct (Z.leb_spec (len p) 65535)].
    - rewrite Z.mod_small, lor_bit by lia. done.
    - rewrite lor_bit, Z.mod_small by lia. done.
    - rewrite lor_bit, Z.mod_small by lia. done. }
  assert (negb ((8 <=? op) && (125 <? len p)) = true <-> (8 <= op -> len p <= 125)) as Hg.
  { pose proof (control_check true op (len p)) as H. simpl in H. rewrite H. naive_solver. }
  split.
  - intros ([] & c1 & [G ->]%guard_Ok & H). pose proof (proj1 Hg G). split; [done|].
    apply bind_Ok in H as (? & ? & [-> ->]%gets_Ok & H). rewrite Hh in H.
    apply bind_Ok in H as ([hd out] & c1 & H1 & H2).
    apply bind_Ok in H2 as ([] & c2 & [Hb ->]%conn_Write_Ok & [_ ->]%conn_Write_Ok).
    unfold encode, masks, draw. destruct (c_role c) eqn:Er; simpl in *.
    + apply ret_Ok in H1 as [[= -> ->] ->]. split; [done|]. eexists _, _; split; [done|].
      unfold written. simpl. by rewrite <- app_assoc.
    + apply bind_Ok in H1 as (k & c3 & H1 & [[= -> ->] ->]%ret_Ok).
      unfold rand_mask in H1. destruct (c_rand c) as [|[[[m0 m1] m2] m3] rnd]; simplify_eq.
      simpl in Hb. split; [done|]. eexists _, _; split; [done|]. unfold written. simpl.
      rewrite Er. by rewrite <- !app_assoc, <- !app_comm_cons, <- app_assoc.
  - intros (G & Hb & m & rnd & Hd & ->). exists tt, c. split; [by apply guard_Ok; split; [apply Hg|]|].
    apply bind_Ok. eexists _, _; split; [by apply gets_Ok|]. rewrite Hh. apply bind_Ok.
    unfold encode, masks, draw in *. destruct (c_role c) eqn:Er; simpl in *.
    + simplify_eq. eexists _, _; split; [by apply ret_Ok|]. cbv beta iota. apply bind_Ok.
      exists tt. eexists. split; [by apply conn_Write_Ok|]. apply conn_Write_Ok.
      unfold written. simpl. by rewrite Er, <- app_assoc.
    + destruct (c_rand c) as [|[[[m0 m1] m2] m3] rnd'] eqn:Ernd; simplify_eq.
      eexists _, _; split.
      { apply bind_Ok. eexists _, _; split; [by unfold rand_mask; rewrite Ernd|by apply ret_Ok]. }
      cbv beta iota. apply bind_Ok. exists tt. eexists. split; [by apply conn_Write_Ok|].
      apply conn_Write_Ok. unfold written. simpl. rewrite Er.
      by rewrite <- !app_assoc, <- !app_comm_cons, <- app_assoc.
Qed.

(** ** Messages: the grammar of frame sequences *)

Definition frame : Type := bool * Z * list byte.

(** The opcode of a data frame, before and after the first fragment. *)
Definition data_opcode (started : bool) (op : Z) : Prop :=
  if started then op = 0 else op = 1 \/ op = 2.

(** [message started fs out pings]: the frames [fs] are the (rest of the)
    fragments of one message with payload [out], with control frames between
    them, of which the pings carry [pings]. *)
Inductive message : bool -> list frame -> list byte -> list (list byte) -> Prop :=
| message_ping b p fs out pings :
    message b fs out pings -> message b ((true, 9, p) :: fs) out (p :: pings)
| message_pong b p fs out pings :
    message b fs out pings -> message b ((true, 10, p) :: fs) out pings
| message_last b op p :
    data_opcode b op -> message b [(true, op, p)] p []
| message_fragment b op p fs out pings :
    data_opcode b op -> message true fs out pings ->
    message b ((false, op, p) :: fs) (p ++ out) pings.

(** The wire image of a sequence of frames, each with its mask. *)
Definition stream (r : Role) (fs : list (mask_key * frame)) : list byte :=
  mjoin ((fun mf : mask_key * frame => encode r mf.1 mf.2.1.1 mf.2.1.2 mf.2.2) <$> fs).

Definition allowed (max : Z) (f : frame) : Prop := frame_allowed max f.1.1 f.1.2 f.2.

(** The pongs that answer [pings], in order. *)
Fixpoint replies (r : Role) (rnd : list mask_key) (pings : list (list byte)) :
    option (list byte * list mask_key) :=
  match pings with
  | [] => Some ([], rnd)
  | p :: pings' =>
      '(m, rnd1) ← draw r rnd;
      '(out, rnd2) ← replies r rnd1 pings';
      Some (encode r m true 10 p ++ out, rnd2)
  end.

Lemma frame_eta (f : frame) : f = (f.1.1, f.1.2, f.2).
Proof. by destruct f as [[]]. Qed.

Lemma stream_cons r m f fs : stream r ((m, f) :: fs) = encode r m f.1.1 f.1.2 f.2 ++ stream r fs.
Proof. done. Qed.

Lemma encode_length r m fin op p : (2 <= length (encode r m fin op p))%nat.
Proof.
  unfold encode, length_field. simpl.
  destruct (_ <? _); [|destruct (_ <=? _)]; rewrite length_app; simpl; lia.
Qed.

Lemma written_written c a b r1 r2 : written (written c a r1) b r2 = written c (a ++ b) r2.
Proof. unfold written. simpl. by rewrite app_assoc. Qed.

(** What [ReadMessage] has done to the connection when it returns. *)
Definition after_read (c : Conn) (l : list byte) (out : list byte) (rnd : list mask_key) : Conn :=
  set_in (written c out rnd) l.

(** The claim about the loop: [acc] has been collected, the rest follows. *)
Definition reads (started : bool) (acc msg : list byte) (c c' : Conn) : Prop :=
  exists (fs : list (mask_key * frame)) body pings l out rnd,
    message started fs.*2 body pings /\ msg = acc ++ body /\
    c_in c = stream (peer (c_role c)) fs ++ l /\ Forall (allowed (c_max c)) fs.*2 /\
    replies (c_role c) (c_rand c) pings = Some (out, rnd) /\
    (pings = [] \/ c_broken c = false) /\ len msg <= c_max c /\ c' = after_read c l out rnd.

(** One more frame in front of the rest. *)
Lemma reads_data b m (fin : bool) op p acc msg c c' l :
  data_opcode b op -> c_in c = encode (peer (c_role c)) m fin op p ++ l ->
  frame_allowed (c_max c) fin op p -> len (acc ++ p) <= c_max c ->
  (if fin then msg = acc ++ p /\ c' = set_in c l
   else reads true (acc ++ p) msg (set_in c l) c') ->
  reads b acc msg c c'.
Proof.
  intros Hop Hin Hok Hmax. destruct fin.
  - intros [-> ->]. exists [(m, (true, op, p))], p, [], l, [], (c_rand c).
    split_and!; [by apply message_last|done| |by apply Forall_singleton|done|by left|done|].
    + rewrite stream_cons. simpl. by rewrite app_nil_r.
    + unfold after_read, written, set_in. simpl. by rewrite app_nil_r.
  - intros (fs & body & pings & l' & out & rnd & Hm & -> & Hin' & Hall & Hre & Hbr & Hlen & ->).
    exists ((m, (false, op, p)) :: fs), (p ++ body), pings, l', out, rnd. simpl in Hin'. subst l.
    split_and!; [by apply message_fragment|by rewrite app_assoc| |by constructor|done|done|done|done].
    rewrite stream_cons. by rewrite <- app_assoc.
Qed.

Lemma reads_pong b m p acc msg c c' l :
  c_in c = encode (peer (c_role c)) m true 10 p ++ l -> frame_allowed (c_max c) true 10 p ->
  reads b acc msg (set_in c l) c' -> reads b acc msg c c'.
Proof.
  intros Hin Hok (fs & body & pings & l' & out & rnd & Hm & -> & Hin' & Hall & Hre & Hbr & Hlen & ->).
  exists ((m, (true, 10, p)) :: fs), body, pings, l', out, rnd. simpl in Hin'. subst l.
  split_and!; [by apply message_pong|done| |by constructor|done|done|done|done].
  rewrite stream_cons. by rewrite <- app_assoc.
Qed.

Lemma reads_ping b m p acc msg c c' l k rnd :
  c_in c = encode (peer (c_role c)) m true 9 p ++ l -> frame_allowed (c_max c) true 9 p ->
  c_broken c = false -> draw (c_role c) (c_rand c) = Some (k, rnd) ->
  reads b acc msg (written (set_in c l) (encode (c_role c) k true 10 p) rnd) c' ->
  reads b acc msg c c'.
Proof.
  intros Hin Hok Hb Hd
    (fs & body & pings & l' & out & rnd' & Hm & -> & Hin' & Hall & Hre & Hbr & Hlen & ->).
  exists ((m, (true, 9, p)) :: fs), body, (p :: pings), l',
    (encode (c_role c) k true 10 p ++ out), rnd'. simpl in Hin', Hre. subst l.
  split_and!; [by apply message_ping|done| |by constructor| |by right|done|].
  - rewrite stream_cons. by rewrite <- app_assoc.
  - simpl. rewrite Hd. simpl. by rewrite Hre.
  - unfold after_read. by rewrite written_written.
Qed.

(** ** The reading loop *)

Lemma readFrame_shrinks c fr c' :
  readFrame c = (Ok fr, c') -> (length (c_in c') < length (c_in c))%nat /\ c_out c' = c_out c.
Proof.
  intros (m & l & Hin & -> & _)%readFrame_sound. split; [|done].
  rewrite Hin, length_app. simpl. pose proof (encode_length (peer (c_role c)) m fr.1.1 fr.1.2 fr.2). lia.
Qed.

(** Running the loop on a data frame that is in order. *)
Definition data_turn (fuel : nat) (fin : bool) (out : list byte) : W (list byte) :=
  max ← gets c_max;
  if max <? len out then fail (New "websocket message exceeds configured maximum")
  else if fin then mret out
  else read_loop fuel out true.

Lemma read_loop_data fuel acc b c fin op p c1 :
  readFrame c = (Ok (fin, op, p), c1) -> data_opcode b op ->
  read_loop (S fuel) acc b c = data_turn fuel fin (acc ++ p) c1.
Proof.
  intros Hf Hop. cbn [read_loop]. unfold mbind at 1, W_bind at 1. rewrite Hf.
  destruct b; simpl in Hop; [subst op|destruct Hop; subst op]; reflexivity.
Qed.

Lemma read_loop_ping fuel acc b c fin p c1 :
  readFrame c = (Ok (fin, 9, p), c1) ->
  read_loop (S fuel) acc b c = (writeFrame 10 p;; read_loop fuel acc b) c1.
Proof. intros Hf. cbn [read_loop]. unfold mbind at 1, W_bind at 1. by rewrite Hf. Qed.

Lemma read_loop_pong fuel acc b c fin p c1 :
  readFrame c = (Ok (fin, 10, p), c1) -> read_loop (S fuel) acc b c = read_loop fuel acc b c1.
Proof. intros Hf. cbn [read_loop]. unfold mbind at 1, W_bind at 1. by rewrite Hf. Qed.

Lemma read_loop_cases fuel acc b c r c' :
  read_loop (S fuel) acc b c = (Ok r, c') ->
  exists fin op p c1, readFrame c = (Ok (fin, op, p), c1) /\
    (op = 9 /\ (exists c2, writeFrame 10 p c1 = (Ok tt, c2) /\ read_loop fuel acc b c2 = (Ok r, c')) \/
     op = 10 /\ read_loop fuel acc b c1 = (Ok r, c') \/
     data_opcode b op /\ data_turn fuel fin (acc ++ p) c1 = (Ok r, c')).
Proof.
  cbn [read_loop]. intros ([[fin op] p] & c1 & Hf & H)%bind_Ok. exists fin, op, p, c1. split; [done|].
  cbv beta iota zeta in H. repeat case_decide; subst; try done.
  - left. split; [done|]. apply bind_Ok in H as ([] & c2 & ? & ?). by exists c2.
  - right; left. done.
  - right; right. destruct b; [done|]. split; [by left|done].
  - right; right. destruct b; [done|]. split; [by right|done].
  - right; right. destruct b; [|done]. done.
Qed.

Lemma data_turn_Ok fuel fin out c r c' :
  data_turn fuel fin out c = (Ok r, c') <->
  len out <= c_max c /\
  (if fin then r = out /\ c' = c else read_loop fuel out true c = (Ok r, c')).
Proof.
  unfold data_turn. rewrite bind_Ok. split.
  - intros (? & ? & [-> ->]%gets_Ok & H). destruct (Z.ltb_spec (c_max c) (len out)); [done|].
    split; [done|]. destruct fin; [by apply ret_Ok|done].
  - intros [Hle H]. eexists _, _; split; [by apply gets_Ok|].
    rewrite (proj2 (Z.ltb_ge _ _)) by done. destruct fin; [by apply ret_Ok|done].
Qed.

Lemma read_loop_sound fuel acc b c r c' :
  read_loop fuel acc b c = (Ok r, c') -> reads b acc r c c'.
Proof.
  revert acc b c. induction fuel as [|fuel IH]; intros acc b c; [done|].
  intros (fin & op & p & c1 & Hf & H)%read_loop_cases.
  apply readFrame_sound in Hf as (m & l & Hin & -> & Hok). cbn [fst snd] in Hin, Hok.
  destruct H as [[-> (c2 & Hw & H)]|[[-> H]|[Hop H]]].
  - assert (fin = true) as -> by (apply Hok; lia).
    apply writeFrame_Ok in Hw as (_ & Hb & k & rnd & Hd & ->); [|lia|apply Hok].
    eapply reads_ping; eauto.
  - assert (fin = true) as -> by (apply Hok; lia). eapply reads_pong; eauto.
  - apply data_turn_Ok in H as [Hlen H]. eapply reads_data; eauto.
    destruct fin; [done|]. by apply IH.
Qed.

Lemma read_loop_complete fuel acc b c r c' :
  reads b acc r c c' -> (length (c_in c) < fuel)%nat -> read_loop fuel acc b c = (Ok r, c').
Proof.
  intros (fs & body & pings & l & out & rnd & Hm & -> & Hin & Hall & Hre & Hbr & Hlen & ->).
  remember fs.*2 as gs eqn:Eg. revert fuel fs Eg acc c out rnd Hin Hre Hbr Hlen Hall.
  induction Hm as [b p gs body pings Hm IH|b p gs body pings Hm IH|b op p Hop
    |b op p gs body pings Hop Hm IH]; intros fuel fs Eg acc c out rnd Hin Hre Hbr Hlen Hall Hfuel;
    destruct fs as [|[m f] fs]; simplify_eq; simpl in Eg; injection Eg as <- Eg;
    rewrite stream_cons in Hin; cbn [fst snd] in Hin; rewrite <- app_assoc in Hin;
    apply Forall_cons in Hall as [Hok Hall];
    pose proof (readFrame_complete _ _ _ _ _ _ Hin Hok) as Hf;
    pose proof (readFrame_shrinks _ _ _ Hf) as [Hs _]; destruct fuel as [|fuel]; try lia.
  all: cbn [fst snd] in Hf; simpl in Hs.
  - simpl in Hre. apply bind_Some in Hre as ([k rnd1] & Hd & Hre).
    apply bind_Some in Hre as ([out' rnd2] & Hre & [= <- <-]).
    rewrite (read_loop_ping _ _ _ _ _ _ _ Hf). apply bind_Ok. exists tt. eexists. split.
    { apply writeFrame_Ok; [lia|apply Hok|]. split; [intros; by apply Hok|].
      split; [by destruct Hbr|]. by exists k, rnd1. }
    erewrite IH; [|done|done|done|destruct Hbr; [done|by right]|done|done|simpl; lia].
    unfold after_read. by rewrite written_written.
  - rewrite (read_loop_pong _ _ _ _ _ _ _ Hf).
    erewrite IH; [done|done|done|done|done|done|done|simpl; lia].
  - destruct fs; [|done]. simpl in Hre. simplify_eq.
    rewrite (read_loop_data _ _ _ _ _ _ _ _ Hf Hop). apply data_turn_Ok. split; [done|].
    split; [done|]. unfold after_read, written, set_in. simpl. by rewrite app_nil_r.
  - rewrite (read_loop_data _ _ _ _ _ _ _ _ Hf Hop). apply data_turn_Ok.
    rewrite app_assoc in Hlen |- *. split; [simpl; rewrite length_app in Hlen; lia|].
    erewrite IH; [done|done|done|done|done|done|done|simpl; lia].
Qed.

(** ** The claims *)

(** C17 [ReadMessage] accepts exactly the messages of RFC 6455: it returns
    [msg] iff the input starts with a sequence of frames of the opposite role
    that carries [msg] (one data frame, or fragments in order, with control
    frames between them), every frame is allowed and the whole message fits
    the maximum.  It has then consumed exactly those frames and has written
    one pong per ping, with the ping's payload, in order. *)
Theorem ReadMessage_accepts c msg c' :
  ReadMessage c = (Ok msg, c') <->
  exists (fs : list (mask_key * frame)) pings l out rnd,
    message false fs.*2 msg pings /\
    c_in c = stream (peer (c_role c)) fs ++ l /\ Forall (allowed (c_max c)) fs.*2 /\
    replies (c_role c) (c_rand c) pings = Some (out, rnd) /\
    (pings = [] \/ c_broken c = false) /\ len msg <= c_max c /\ c' = after_read c l out rnd.
Proof.
  unfold ReadMessage. split.
  - intros (fs & body & pings & l & out & rnd & Hm & -> & H)%read_loop_sound.
    exists fs, pings, l, out, rnd. by split.
  - intros (fs & pings & l & out & rnd & Hm & H). apply read_loop_complete; [|lia].
    exists fs, msg, pings, l, out, rnd. by split.
Qed.

(** Sending and receiving several messages in a row. *)
Fixpoint write_all (msgs : list (list byte)) : W unit :=
  match msgs with
  | [] => mret tt
  | m :: msgs' => WriteMessage m;; write_all msgs'
  end.

Fixpoint read_all (n : nat) : W (list (list byte)) :=
  match n with
  | O => mret []
  | S n' => m ← ReadMessage; ms ← read_all n'; mret (m :: ms)
  end.

Lemma WriteMessage_Ok c p c' :
  c_max c < 2 ^ 63 ->
  WriteMessage p c = (Ok tt, c') ->
  len p <= c_max c /\ exists m rnd, c' = written c (encode (c_role c) m true 1 p) rnd.
Proof.
  intros Hmax. unfold WriteMessage. intros (? & ? & [-> ->]%gets_Ok & H)%bind_Ok.
  destruct (Z.ltb_spec (c_max c) (len p)); [done|]. split; [done|].
  apply writeFrame_Ok in H as (_ & _ & m & rnd & _ & ->); [by exists m, rnd|lia|lia].
Qed.

Lemma write_all_Ok msgs c c' :
  c_max c < 2 ^ 63 ->
  write_all msgs c = (Ok tt, c') ->
  Forall (fun p => len p <= c_max c) msgs /\
  exists ks rnd, length ks = length msgs /\
    c' = written c (stream (c_role c) (zip ks ((fun p => (true, 1, p)) <$> msgs))) rnd.
Proof.
  revert c. induction msgs as [|p msgs IH]; intros c Hmax; cbn [write_all].
  - intros [_ ->]%ret_Ok. split; [done|]. exists [], (c_rand c). split; [done|].
    unfold written. simpl. rewrite app_nil_r. by destruct c.
  - intros ([] & c1 & Hw & H)%bind_Ok.
    apply WriteMessage_Ok in Hw as (Hp & m & rnd & ->); [|done].
    apply IH in H as (Hall & ks & rnd' & Hks & ->); [|done].
    split; [by constructor|]. exists (m :: ks), rnd'. split; [simpl; lia|].
    by rewrite written_written.
Qed.

(** C18 Everything that was written is read back: when one side has written
    the messages [msgs] and the peer, whose maximum is at least as large, has
    received exactly those bytes, reading as many messages returns [msgs] in
    order, leaves no byte unread and sends nothing back. *)
Theorem messages_roundtrip msgs c1 c1' c2 :
  c_max c1 < 2 ^ 63 -> c_max c1 <= c_max c2 < 2 ^ 64 ->
  c_role c2 = peer (c_role c1) -> c_out c1 = [] ->
  write_all msgs c1 = (Ok tt, c1') -> c_in c2 = c_out c1' ->
  read_all (length msgs) c2 = (Ok msgs, set_in c2 []).
Proof.
  intros Hm1 Hm2 Hr Ho Hw Hin.
  apply write_all_Ok in Hw as (Hall & ks & rnd & Hks & ->); [|done].
  simpl in Hin. rewrite Ho in Hin. simpl in Hin. clear Ho rnd.
  revert ks c2 Hks Hm2 Hr Hin. induction Hall as [|p msgs Hp Hall IH];
    intros ks c2 Hks Hm2 Hr Hin; destruct ks as [|k ks]; try done; simpl in Hin.
  - apply ret_Ok. split; [done|]. change (c_in c2 = []) in Hin. rewrite <- Hin. by destruct c2.
  - cbn [length read_all]. rewrite stream_cons in Hin. cbn [fst snd] in Hin.
    apply bind_Ok. eexists _, _; split; [apply read_loop_complete; [|lia]|].
    + eapply reads_data with (fin := true) (op := 1).
      * by left.
      * rewrite Hr, peer_peer. exact Hin.
      * unfold frame_allowed. rewrite Z.mod_small by lia. split_and!; intros; lia.
      * simpl. lia.
      * done.
    + simpl. apply bind_Ok. eexists _, _; split; [apply (IH ks)|by apply ret_Ok];
        [simpl in Hks; lia|done|done|done].
Qed.

(** A computation that never ends in the error [e]. *)
Definition never {A} (e : error) (m : W A) : Prop := forall c, (m c).1 <> Err e.

Lemma never_bind {A B} e (m : W A) (f : A -> W B) :
  never e m -> (forall a, never e (f a)) -> never e (m ≫= f).
Proof.
  intros Hm Hf c. specialize (Hm c). unfold mbind, W_bind.
  destruct (m c) as [[a|e'] c']; [apply Hf|]. simpl in *. congruence.
Qed.

Lemma never_guard b e e' : e' <> e -> never e (guard_ok b e').
Proof. intros ? c. destruct b; unfold guard_ok, fail, mret, W_ret; simpl; congruence. Qed.

Definition no_fuel : error := Foreign "out of fuel".

Lemma never_basic :
  never no_fuel ReadByte /\ (forall n, never no_fuel (ReadFull n)) /\
  (forall bs, never no_fuel (conn_Write bs)) /\ never no_fuel rand_mask /\
  (forall A (f : Conn -> A), never no_fuel (gets f)) /\
  (forall A (a : A), never no_fuel (mret a : W A)).
Proof.
  unfold never, no_fuel. split_and!; intros; unfold ReadByte, ReadFull, conn_Write, rand_mask, gets,
    mret, W_ret; repeat (case_match || case_decide); simpl; discriminate.
Qed.

Ltac never_steps :=
  repeat first [apply never_bind; [|intros ?] | apply never_guard; discriminate
    | apply never_basic | case_match | case_decide ].

Lemma never_readFrame : never no_fuel readFrame.
Proof. unfold readFrame, read_length. never_steps. Qed.

Lemma never_writeFrame op p : never no_fuel (writeFrame op p).
Proof. unfold writeFrame. never_steps. Qed.

Lemma writeFrame_keeps_input op p c : c_in (writeFrame op p c).2 = c_in c.
Proof.
  unfold writeFrame, guard_ok, fail, gets, rand_mask, conn_Write, mret, W_ret, mbind, W_bind.
  repeat (case_match; simplify_eq/=); try done.
Qed.

Lemma read_loop_no_fuel fuel acc b c :
  (length (c_in c) < fuel)%nat -> (read_loop fuel acc b c).1 <> Err no_fuel.
Proof.
  revert acc b c. induction fuel as [|fuel IH]; intros acc b c Hfuel; [lia|].
  cbn [read_loop]. unfold mbind at 1, W_bind at 1.
  destruct (readFrame c) as [[fr|e] c1] eqn:Hf.
  2: { pose proof (never_readFrame c) as H. rewrite Hf in H. simpl in *. congruence. }
  apply readFrame_shrinks in Hf as [Hs _]. destruct fr as [[fin op] p]. cbv beta iota zeta.
  assert (forall acc', (data_turn fuel fin acc' c1).1 <> Err no_fuel) as Hd.
  { intros acc'. unfold data_turn, mbind, W_bind, gets. case_match; [discriminate|].
    destruct fin; [discriminate|]. apply IH. lia. }
  repeat case_decide; try discriminate; try (destruct b; [discriminate|]); try apply Hd.
  - unfold mbind, W_bind. destruct (writeFrame 10 p c1) as [[[]|e] c2] eqn:Hw.
    + apply IH. pose proof (writeFrame_keeps_input 10 p c1) as E. rewrite Hw in E. simpl in E. rewrite E. lia.
    + pose proof (never_writeFrame 10 p c1) as Hn. rewrite Hw in Hn. simpl in *. congruence.
  - apply IH. lia.
  - destruct b; [apply Hd|discriminate].
Qed.

(** [ReadMessage] terminates: on every input it ends with a message or
    with an error of the connection, after at most one turn of its loop per
    two input bytes; the bound on the turns is never what ends it. *)
Theorem ReadMessage_terminates c : (ReadMessage c).1 <> Err (Foreign "out of fuel").
Proof.
  apply read_loop_no_fuel. lia.
Qed.

(** A frame with a reserved bit set, an unmasked frame from a client and a
    masked frame from a server end the reading with a protocol error, whatever
    follows the two header bytes, and nothing is sent. *)
Theorem bad_header_refused c h b2 l :
  c_in c = h :: b2 :: l ->
  Z.land (b2z h) 112 <> 0 \/ negb (Z.land (b2z b2) 128 =? 0) <> masks (peer (c_role c)) ->
  exists e c', ReadMessage c = (Err e, c') /\ errors_Is e ErrProtocol = true /\ c_out c' = c_out c.
Proof.
  intros Hin Hbad. unfold ReadMessage. rewrite Hin. cbn [length read_loop].
  unfold mbind at 1, W_bind at 1. unfold readFrame, mbind, W_bind, ReadByte. rewrite Hin.
  unfold guard_ok, fail, mret, W_ret, gets. destruct (Z.land (b2z h) 112 =? 0) eqn:E1.
  2: { by eexists _, _. }
  apply Z.eqb_eq in E1. destruct Hbad as [|Hm]; [done|]. simpl.
  destruct (negb (Z.land (b2z b2) 128 =? 0)), (c_role c) eqn:Er; simpl in *; try done;
    by eexists _, _.
Qed.

(** ** Witnesses *)

Definition demo_client : Conn :=
  mkConn [] [] Client 1000 (replicate 3 (z2b 1, z2b 2, z2b 3, z2b 250)) false.
Definition demo_server (input : list byte) : Conn := mkConn input [] Server 1000 [] false.
Definition demo_msgs : list (list byte) :=
  [bytes_of_string "hello"; []; replicate 300 (z2b 7)].

Lemma messages_roundtrip_witness :
  let c1' := (write_all demo_msgs demo_client).2 in
  length (c_out c1') = 325%nat /\
  read_all 3 (demo_server (c_out c1')) = (Ok demo_msgs, demo_server []).
Proof.
  split; [vm_compute; reflexivity|].
  apply (messages_roundtrip demo_msgs demo_client (write_all demo_msgs demo_client).2
    (demo_server (c_out (write_all demo_msgs demo_client).2)));
    [vm_compute; reflexivity|by vm_compute|reflexivity|reflexivity|vm_compute; reflexivity|reflexivity].
Defined.

Lemma bad_header_refused_witness :
  exists e c', ReadMessage (demo_server [z2b 129; z2b 0]) = (Err e, c') /\
    errors_Is e ErrProtocol = true /\ c_out c' = [].
Proof.
  apply (bad_header_refused (demo_server [z2b 129; z2b 0]) (z2b 129) (z2b 0) []);
    [reflexivity|right; vm_compute; discriminate].
Defined.

(** A fragmented message with a ping in the middle, as a client sends it. *)
Example fragmented_with_ping :
  ReadMessage (demo_server (stream Client
    [((z2b 1, z2b 2, z2b 3, z2b 4), (false, 1, bytes_of_string "ab"));
     ((z2b 5, z2b 6, z2b 7, z2b 8), (true, 9, bytes_of_string "p"));
     ((z2b 9, z2b 8, z2b 7, z2b 6), (true, 0, bytes_of_string "c"))])) =
  (Ok (bytes_of_string "abc"),
   mkConn [] (z2b 138 :: z2b 1 :: bytes_of_string "p") Server 1000 [] false).
Proof. vm_compute. reflexivity. Qed.
