(* ===== verification/SearchMgr.v ===== *)
(** * Search sessions: internal/searchmgr/manager.go

    A session is the object that [run]'s goroutine fills and [GetMore] drains.
    The goroutine is a state machine: a stack of directory entries and of
    lines still to be looked at, one entry or line per step.  Each step is
    given the file system it finds, because files change while a search runs;
    a step that looks twice (the size, then the content) is given two.

    [strings.ToLower] (a Unicode table) and package regexp are parameters. *)
From S2P Require Import Prelude Crypto GoStrings Filepath FileSystem.
Local Open Scope Z_scope.

Definition ErrNotFound : error := Sentinel "searchmgr.ErrNotFound" "search session not found".
Definition ErrLimit : error := Sentinel "searchmgr.ErrLimit" "too many active search sessions".
Definition errEnough : error := Sentinel "searchmgr.errEnough" "result limit reached".
Definition Canceled : error := Sentinel "context.Canceled" "context canceled".
Definition DeadlineExceeded : error :=
  Sentinel "context.DeadlineExceeded" "context deadline exceeded".

Record Query := mkQuery {
  Query_Path : string;
  Query_Pattern : string;
  Query_SearchType : string;
  Query_Regex : bool;
  Query_CaseSensitive : bool;
  Query_IncludeHidden : bool;
  Query_MaxResults : Z;
  Query_MaxFileBytes : Z }.

Record Match := mkMatch {
  Match_Path : string;
  Match_Line : Z;
  Match_Column : Z;
  Match_Preview : string;
  Match_Kind : string }.

Record MoreResult := mkMore {
  More_Results : list Match;
  More_Done : bool;
  More_Error : string;
  More_TotalFound : Z }.

Record Summary := mkSummary {
  Summary_SessionID : string;
  Summary_Done : bool;
  Summary_Buffered : Z;
  Summary_Returned : Z;
  Summary_TotalFound : Z }.

(** [os.DirEntry]: the entry's path and the type its directory reported. *)
Inductive item :=
| IEntry (path : string) (kind : node)
| ILines (path : string) (line : Z) (lines : list string).

(** [run]: walking, back from [WalkDir], before the deferred function, gone. *)
Inductive run_pc :=
| Walking (todo : list item)
| Returned (err : option error)
| Closing
| Finished.

Record session := mkSession {
  s_results : list Match;
  s_next : Z;
  s_done : bool;
  s_err : string;
  s_ctx : option error;
  s_query : Query;
  s_matcher : string -> Z;
  s_run : run_pc }.

Record Manager := mkManager {
  sessions : gmap string nat;
  heap : gmap nat session;
  maxSessions : Z }.

Definition New (max : Z) : Manager := mkManager ∅ ∅ (if max <=? 0 then 8 else max).

(** [func isHidden(name string) bool] *)
Definition isHidden (name : string) : bool := (1 <? slen name) && HasPrefix name ".".

(** [strings.Index] *)
Definition Index (s sub : string) : Z :=
  match String.index 0 sub s with
  | Some n => Z.of_nat n
  | None => -1
  end.

Definition newline : Ascii.ascii := Ascii.ascii_of_nat 10.

(** [preview[:1000]] *)
Definition preview (line : string) : string :=
  if 1000 <? slen line then String.substring 0 (Z.to_nat 1000) line else line.

Section SearchMgr.
Context (ToLower : string -> string).
Context (compile : string -> result (string -> option (nat * nat))).

(** [literalMatcher.index] *)
Definition literal_index (needle : string) (caseSensitive : bool) (s : string) : Z :=
  Index (if caseSensitive then s else ToLower s) needle.

(** [regexMatcher.index], from [FindStringIndex] *)
Definition regex_index (re : string -> option (nat * nat)) (s : string) : Z :=
  match re s with
  | None => -1
  | Some (lo, _) => Z.of_nat lo
  end.

(** [func newMatcher(..) (matcher, error)] *)
Definition newMatcher (pattern : string) (regexMode caseSensitive : bool) : result (string -> Z) :=
  if regexMode then
    let p := if caseSensitive then pattern else ("(?i)" ++ pattern)%string in
    match compile p with
    | Err e => Err (Wrapf "invalid regex: %w" [] e)
    | Ok re => Ok (regex_index re)
    end
  else
    let pattern := if caseSensitive then pattern else ToLower pattern in
    Ok (literal_index pattern caseSensitive).

(** The defaults and bounds that [Start] applies. *)
Definition normalize (q : Query) : result Query :=
  let path := Clean (Query_Path q) in
  let pattern := TrimSpace (Query_Pattern q) in
  if decide (pattern = EmptyString) then Err (Prelude.New "search pattern is required")
  else
    let st := if decide (Query_SearchType q = EmptyString) then "content"%string else Query_SearchType q in
    if negb (bool_decide (st = "content"%string)) && negb (bool_decide (st = "files"%string)) then
      Err (Prelude.New "search_type must be content or files")
    else
      let mr := if Query_MaxResults q <=? 0 then 1000 else Query_MaxResults q in
      let mr := if 5000 <? mr then 5000 else mr in
      let mf := if Query_MaxFileBytes q <=? 0 then Z.shiftl 2 20 else Query_MaxFileBytes q in
      let mf := if Z.shiftl 16 20 <? mf then Z.shiftl 16 20 else mf in
      Ok (mkQuery path pattern st (Query_Regex q) (Query_CaseSensitive q) (Query_IncludeHidden q) mr mf).

Definition set_sessions (m : Manager) (ss : gmap string nat) : Manager := mkManager ss (heap m) (maxSessions m).
Definition set_heap (m : Manager) (h : gmap nat session) : Manager := mkManager (sessions m) h (maxSessions m).

Definition session_of (m : Manager) (id : string) : option session :=
  ref ← sessions m !! id; heap m !! ref.

(** The sessions in the table that are not done. *)
Definition active (m : Manager) : gmap string nat :=
  filter (fun kv : string * nat =>
    match heap m !! kv.2 with Some s => negb (s_done s) | None => false end = true) (sessions m).

(** [func (m *Manager) Start(q Query) (string, error)].  [rid] is what
    [randomID] draws; [root] is the first entry [WalkDir] visits, the root of
    the search as [os.Lstat] reports it, or nothing when that fails. *)
Definition Start (q : Query) (rid : result string) (root : result node) (m : Manager) :
    result string * Manager :=
  match normalize q with
  | Err e => (Err e, m)
  | Ok q =>
      match newMatcher (Query_Pattern q) (Query_Regex q) (Query_CaseSensitive q) with
      | Err e => (Err e, m)
      | Ok matcher =>
          match rid with
          | Err e => (Err e, m)
          | Ok id =>
              if maxSessions m <=? Z.of_nat (size (active m)) then (Err ErrLimit, m)
              else
                let todo := match root with Ok n => [IEntry (Query_Path q) n] | Err _ => [] end in
                let ref := fresh (dom (heap m)) in
                (Ok id,
                 mkManager (<[id := ref]> (sessions m))
                   (<[ref := mkSession [] 0 false "" None q matcher (Walking todo)]> (heap m))
                   (maxSessions m))
          end
      end
  end.

(** ** GetMore, Stop, List *)

Definition with_next (s : session) (n : Z) : session :=
  mkSession (s_results s) n (s_done s) (s_err s) (s_ctx s) (s_query s) (s_matcher s) (s_run s).

(** [func (m *Manager) GetMore(id string, limit int) (MoreResult, error)]; a
    slice expression out of range panics. *)
Definition GetMore (id : string) (limit : Z) (m : Manager) : result MoreResult * Manager :=
  match sessions m !! id with
  | None => (Err ErrNotFound, m)
  | Some ref =>
      match heap m !! ref with
      | None => (Err ErrNotFound, m)
      | Some s =>
          let limit := if limit <=? 0 then 100 else limit in
          let limit := if 500 <? limit then 500 else limit in
          let end_ := s_next s + limit in
          let end_ := if len (s_results s) <? end_ then len (s_results s) else end_ in
          match slice (s_next s) end_ (s_results s) with
          | None => (Err (Foreign "panic: slice bounds out of range"), m)
          | Some out =>
              (Ok (mkMore out (s_done s && (len (s_results s) <=? end_)) (s_err s) (len (s_results s))),
               set_heap m (<[ref := with_next s end_]> (heap m)))
          end
      end
  end.

(** [cancel]: the first cancellation or deadline is the one that counts. *)
Definition with_ctx (s : session) (e : error) : session :=
  mkSession (s_results s) (s_next s) (s_done s) (s_err s)
    (match s_ctx s with None => Some e | c => c end) (s_query s) (s_matcher s) (s_run s).

(** [func (m *Manager) Stop(id string) error] *)
Definition Stop (id : string) (m : Manager) : result unit * Manager :=
  match sessions m !! id with
  | None => (Err ErrNotFound, m)
  | Some ref =>
      match heap m !! ref with
      | None => (Err ErrNotFound, m)
      | Some s => (Ok tt, set_heap m (<[ref := with_ctx s Canceled]> (heap m)))
      end
  end.

(** [func (m *Manager) List() []Summary], in the order of the map. *)
Definition List (m : Manager) : list Summary :=
  omap (fun kv : string * nat =>
    s ← heap m !! kv.2;
    Some (mkSummary kv.1 (s_done s) (len (s_results s) - s_next s) (s_next s) (len (s_results s))))
    (map_to_list (sessions m)).

(** [time.AfterFunc(15*time.Minute, ..)]: the session is forgotten and cancelled. *)
Definition expire (id : string) (ref : nat) (m : Manager) : option Manager :=
  s ← heap m !! ref;
  let ss := if decide (sessions m !! id = Some ref) then delete id (sessions m) else sessions m in
  Some (mkManager ss (<[ref := with_ctx s Canceled]> (heap m)) (maxSessions m)).

(** ** run *)

Definition with_run (s : session) (pc : run_pc) : session :=
  mkSession (s_results s) (s_next s) (s_done s) (s_err s) (s_ctx s) (s_query s) (s_matcher s) pc.

(** [s.add(v)] *)
Definition add (s : session) (v : Match) : session :=
  mkSession (s_results s ++ [v]) (s_next s) (s_done s) (s_err s) (s_ctx s) (s_query s) (s_matcher s) (s_run s).

(** [os.ReadDir]: the entries in the order of their names. *)
Definition string_le (a b : string) : Prop := String.leb a b = true.
#[global] Instance string_le_dec : RelDecision string_le.
Proof. intros a b. unfold string_le. apply _. Defined.

Definition children (fs : fsys) (dir : list string) : list string :=
  isort string_le (omap (fun kv : list string * node =>
    match reverse kv.1 with
    | c :: q => if decide (reverse q = dir) then Some c else None
    | [] => None
    end) (map_to_list fs)).

Definition ReadDir (fs : fsys) (path : string) : result (list (string * node)) :=
  dir ← namei fs (parts path);
  match node_at fs dir with
  | Some NDir => Ok (omap (fun c => n ← node_at fs (dir ++ [c]); Some (c, n)) (children fs dir))
  | _ => Err ENOTDIR
  end.

(** [os.ReadFile] *)
Definition ReadFile (fs : fsys) (path : string) : result (list byte) :=
  p ← namei fs (parts path);
  match node_at fs p with
  | Some (NFile content _) => Ok content
  | _ => Err (Foreign "EISDIR")
  end.

(** The content of a file as lines, if [run] looks into it. *)
Definition searchable (q : Query) (os1 os2 : Os) (path : string) : option (list string) :=
  match Lstat os1 path with
  | Ok (NFile c _) =>
      if Query_MaxFileBytes q <? len c then None
      else
        match ReadFile (os_fs os2) path with
        | Err _ => None
        | Ok data =>
            if (Query_MaxFileBytes q <? len data) || negb (utf8_Valid data) || bool_decide (z2b 0 ∈ data)
            then None
            else Some (Split (string_of_bytes data) newline)
        end
  | _ => None
  end.

(** One call of the function given to [WalkDir]: the walk goes on with the
    items returned first, or ends with an error. *)
Definition visit (s : session) (path : string) (kind : node) (os1 os2 : Os) :
    session * result (list item) :=
  let q := s_query s in
  match s_ctx s with
  | Some e => (s, Err e)
  | None =>
      if bool_decide (path <> Query_Path q) && negb (Query_IncludeHidden q) && isHidden (Base path) then
        (s, Ok [])
      else
        match kind with
        | NDir =>
            (s, Ok match ReadDir (os_fs os1) path with
                   | Err _ => []
                   | Ok es => (fun e : string * node => IEntry (JoinPath [path; e.1]) e.2) <$> es
                   end)
        | NLink _ => (s, Ok [])
        | NFile _ _ =>
            if Query_MaxResults q <=? len (s_results s) then (s, Err errEnough)
            else if decide (Query_SearchType q = "files"%string) then
              let rel := match Rel (Query_Path q) path with Ok r => r | Err _ => EmptyString end in
              let idx := s_matcher s rel in
              (if 0 <=? idx then add s (mkMatch path 0 (idx + 1) "" "file") else s, Ok [])
            else
              (s, Ok match searchable q os1 os2 path with
                     | None => []
                     | Some lines => [ILines path 1 lines]
                     end)
        end
  end.

(** One line of a file, in the loop of the same function. *)
Definition visit_line (s : session) (path : string) (n : Z) (line : string) (rest : list string) :
    session * result (list item) :=
  let idx := s_matcher s line in
  if idx <? 0 then (s, Ok [ILines path (n + 1) rest])
  else
    let s := add s (mkMatch path n (idx + 1) (preview line) "content") in
    if Query_MaxResults (s_query s) <=? len (s_results s) then (s, Err errEnough)
    else (s, Ok [ILines path (n + 1) rest]).

(** [err.Error()] of the sentinels that can be returned here. *)
Definition error_text (e : error) : string :=
  match e with
  | Sentinel _ t | Prelude.New t | Errorf t _ | Wrapf t _ _ | Foreign t => t
  end.

Definition with_err (s : session) (t : string) : session :=
  mkSession (s_results s) (s_next s) (s_done s) t (s_ctx s) (s_query s) (s_matcher s) (s_run s).

(** What [run] does with the error that [WalkDir] returned. *)
Definition record_error (s : session) (err : option error) : session :=
  let s :=
    match err with
    | Some e =>
        if negb (errors_Is e errEnough) && negb (errors_Is e Canceled) && negb (errors_Is e DeadlineExceeded)
        then with_err s (error_text e) else s
    | None => s
    end in
  if match err with Some e => errors_Is e DeadlineExceeded | None => false end
     || match s_ctx s with Some e => errors_Is e DeadlineExceeded | None => false end
  then with_err s "search timed out" else s.

Definition finish (s : session) : session :=
  mkSession (s_results s) (s_next s) true (s_err s) (s_ctx s) (s_query s) (s_matcher s) Finished.

(** One step of the goroutine [m.run(ctx, s, q, matcher)]. *)
Definition run_step (os1 os2 : Os) (s : session) : option session :=
  match s_run s with
  | Walking [] => Some (with_run s (Returned None))
  | Walking (it :: todo) =>
      let '(s, r) :=
        match it with
        | IEntry path kind => visit s path kind os1 os2
        | ILines path n [] => (s, Ok [])
        | ILines path n (line :: rest) => visit_line s path n line rest
        end in
      Some (with_run s match r with
                       | Ok its => Walking (its ++ todo)
                       | Err e => Returned (Some e)
                       end)
  | Returned err => Some (with_run (record_error s err) Closing)
  | Closing => Some (finish s)
  | Finished => None
  end.

(** ** Actions *)

Inductive action :=
  | AStart (q : Query) (rid : result string) (root : result node)
  | AGetMore (id : string) (limit : Z)
  | AStop (id : string)
  | ADeadline (ref : nat)
  | AExpire (id : string) (ref : nat)
  | ARun (ref : nat) (os1 os2 : Os).

Definition exec (a : action) (m : Manager) : option Manager :=
  match a with
  | AStart q rid root => Some (Start q rid root m).2
  | AGetMore id limit => Some (GetMore id limit m).2
  | AStop id => Some (Stop id m).2
  | ADeadline ref =>
      s ← heap m !! ref; Some (set_heap m (<[ref := with_ctx s DeadlineExceeded]> (heap m)))
  | AExpire id ref => expire id ref m
  | ARun ref os1 os2 =>
      s ← heap m !! ref; s' ← run_step os1 os2 s; Some (set_heap m (<[ref := s']> (heap m)))
  end.

End SearchMgr.
