(* ===== verification/SearchProps.v ===== *)
(** * What the search manager guarantees

    All claims hold for every [ToLower] and every regular expression package,
    every schedule and every sequence of file systems the search meets. *)
From S2P Require Import Prelude Crypto GoStrings Filepath FileSystem SearchMgr.
Local Open Scope Z_scope.

Section SearchProps.
Context (ToLower : string -> string).
Context (compile : string -> result (string -> option (nat * nat))).
Notation exec := (exec ToLower compile).
Notation Start := (Start ToLower compile).

(** ** One session *)

(** The directories and files that a search may look at. *)
Inductive descends (q : Query) : string -> Prop :=
| descends_root : descends q (Query_Path q)
| descends_child p c :
    descends q p -> visible q p -> descends q (JoinPath [p; c])
with visible (q : Query) : string -> Prop :=
| visible_intro p :
    descends q p ->
    (p = Query_Path q \/ Query_IncludeHidden q = true \/ isHidden (Base p) = false) ->
    visible q p.

(** What a reported match stands for. *)
Definition justified (q : Query) (matcher : string -> Z) (v : Match) : Prop :=
  visible q (Match_Path v) /\
  ((Query_SearchType q = "files"%string /\ Match_Kind v = "file"%string /\
    exists rel, (Rel (Query_Path q) (Match_Path v) = Ok rel \/ rel = EmptyString) /\
      0 <= matcher rel /\ Match_Column v = matcher rel + 1) \/
   (Match_Kind v = "content"%string /\
    exists os1 os2 lines line,
      searchable q os1 os2 (Match_Path v) = Some lines /\
      1 <= Match_Line v /\ lines !! Z.to_nat (Match_Line v - 1) = Some line /\
      0 <= matcher line /\ Match_Column v = matcher line + 1 /\ Match_Preview v = preview line)).

Definition item_ok (q : Query) (it : item) : Prop :=
  match it with
  | IEntry path _ => descends q path
  | ILines path n rest =>
      visible q path /\ 1 <= n /\
      exists os1 os2 lines, searchable q os1 os2 path = Some lines /\ rest = drop (Z.to_nat (n - 1)) lines
  end.

Definition is_entry (it : item) : Prop :=
  match it with IEntry _ _ => True | ILines _ _ _ => False end.

(** The stack of a walk: only its top can be a file that is being read, and
    then there is room for one more result. *)
Definition todo_ok (q : Query) (found : Z) (todo : list item) : Prop :=
  Forall (item_ok q) todo /\
  match todo with
  | [] => True
  | it :: rest => Forall is_entry rest /\ (is_entry it \/ found < Query_MaxResults q)
  end.

Record session_ok (s : session) : Prop := mkSessionOk {
  sk_next : 0 <= s_next s <= len (s_results s);
  sk_max : len (s_results s) <= Query_MaxResults (s_query s) <= 5000;
  sk_done : s_done s = true <-> s_run s = Finished;
  sk_matches : Forall (justified (s_query s) (s_matcher s)) (s_results s);
  sk_todo : match s_run s with
    | Walking todo => todo_ok (s_query s) (len (s_results s)) todo
    | _ => True
    end }.

Lemma todo_ok_entries q n l :
  Forall (item_ok q) l -> Forall is_entry l -> todo_ok q n l.
Proof.
  intros Hl He. split; [done|]. destruct l; [done|]. apply Forall_cons in He as [? ?]. auto.
Qed.

Lemma todo_ok_cons q n it todo : todo_ok q n (it :: todo) ->
  item_ok q it /\ Forall (item_ok q) todo /\ Forall is_entry todo /\
  (is_entry it \/ n < Query_MaxResults q).
Proof. intros [[? ?]%Forall_cons [? ?]]. done. Qed.

(** A step that adds at most one justified result. *)
Lemma session_step s s2 pc :
  session_ok s -> s_run s <> Finished -> pc <> Finished ->
  s_next s2 = s_next s -> s_done s2 = s_done s -> s_query s2 = s_query s -> s_matcher s2 = s_matcher s ->
  (s_results s2 = s_results s \/
   exists v, s_results s2 = s_results s ++ [v] /\ len (s_results s) < Query_MaxResults (s_query s) /\
     justified (s_query s) (s_matcher s) v) ->
  match pc with Walking l => todo_ok (s_query s) (len (s_results s2)) l | _ => True end ->
  session_ok (with_run s2 pc).
Proof.
  intros [Hn Hm Hd Hj Ht] Hrun Hpc E1 E2 E3 E4 Hres Hl. split; simpl; rewrite ?E1, ?E2, ?E3, ?E4.
  - destruct Hres as [->|(v & -> & _)]; [done|]. rewrite length_app. simpl. lia.
  - destruct Hres as [->|(v & -> & Hlt & _)]; [done|]. rewrite length_app. simpl. lia.
  - rewrite Hd. naive_solver.
  - destruct Hres as [->|(v & -> & _ & Hv)]; [done|]. apply Forall_app. split; [done|]. by constructor.
  - done.
Qed.

(** The test for hidden names, passed. *)
Lemma visible_after_test q path :
  descends q path ->
  bool_decide (path <> Query_Path q) && negb (Query_IncludeHidden q) && isHidden (Base path) = false ->
  visible q path.
Proof.
  intros Hd H. constructor; [done|].
  destruct (decide (path = Query_Path q)) as [|Hne]; [by left|right].
  rewrite bool_decide_eq_true_2 in H by done. simpl in H.
  destruct (Query_IncludeHidden q); [by left|by right].
Qed.

Lemma ReadDir_items q path (r : result (list (string * node))) :
  descends q path -> visible q path ->
  let its := match r with
             | Err _ => []
             | Ok es => (fun e : string * node => IEntry (JoinPath [path; e.1]) e.2) <$> es
             end in
  Forall (item_ok q) its /\ Forall is_entry its.
Proof.
  intros Hd Hv. destruct r as [es|]; [|done]. split.
  - apply Forall_fmap, Forall_forall. intros e _. simpl. by constructor.
  - apply Forall_fmap, Forall_forall. done.
Qed.

(** The pc that [run_step] chooses. *)
Definition next_pc (r : result (list item)) (todo : list item) : run_pc :=
  match r with Ok its => Walking (its ++ todo) | Err e => Returned (Some e) end.

Lemma visit_ok s path kind os1 os2 s' r todo :
  session_ok s -> s_run s = Walking (IEntry path kind :: todo) ->
  visit s path kind os1 os2 = (s', r) -> session_ok (with_run s' (next_pc r todo)).
Proof.
  intros Hs Hrun Hv. pose proof (sk_todo s Hs) as Ht. rewrite Hrun in Ht.
  apply todo_ok_cons in Ht as (Hit & Hi & Hent & _). simpl in Hit.
  assert (forall pc, pc <> Finished ->
    match pc with Walking l => todo_ok (s_query s) (len (s_results s)) l | _ => True end ->
    session_ok (with_run s pc)) as Hquiet.
  { intros pc Hpc Hl. apply (session_step s); auto. congruence. }
  unfold visit in Hv. destruct (s_ctx s); [injection Hv as <- <-; by apply Hquiet|].
  destruct (_ && isHidden (Base path)) eqn:Eh.
  { injection Hv as <- <-. apply Hquiet; [done|]. by apply todo_ok_entries. }
  pose proof (visible_after_test _ _ Hit Eh) as Hvis.
  destruct kind as [|content perm|target].
  - injection Hv as <- <-. apply Hquiet; [done|].
    destruct (ReadDir_items _ _ (ReadDir (os_fs os1) path) Hit Hvis).
    apply todo_ok_entries; by apply Forall_app.
  - destruct (Z.leb_spec (Query_MaxResults (s_query s)) (len (s_results s))).
    { injection Hv as <- <-. by apply Hquiet. }
    destruct (decide (Query_SearchType (s_query s) = "files"%string)) as [Ef|Ef].
    + set (rel := match Rel _ _ with Ok r => r | Err _ => EmptyString end) in Hv.
      destruct (Z.leb_spec 0 (s_matcher s rel)); injection Hv as <- <-.
      * apply (session_step s); try done; [congruence| |by apply todo_ok_entries].
        right. eexists. split; [done|]. split; [done|]. split; [done|]. left.
        split_and!; try done. exists rel. split_and!; try done. subst rel. destruct (Rel _ _); auto.
      * apply Hquiet; [done|]. by apply todo_ok_entries.
    + injection Hv as <- <-. apply Hquiet; [done|].
      destruct (searchable (s_query s) os1 os2 path) as [lines|] eqn:Es; [|by apply todo_ok_entries].
      split; [|split; [done|by right]]. constructor; [|done]. split; [done|]. split; [lia|].
      by exists os1, os2, lines.
  - injection Hv as <- <-. apply Hquiet; [done|]. by apply todo_ok_entries.
Qed.

Lemma visit_line_ok s path n line rest s' r todo :
  session_ok s -> s_run s = Walking (ILines path n (line :: rest) :: todo) ->
  visit_line s path n line rest = (s', r) -> session_ok (with_run s' (next_pc r todo)).
Proof.
  intros Hs Hrun Hv. pose proof (sk_todo s Hs) as Ht. rewrite Hrun in Ht.
  apply todo_ok_cons in Ht as (Hit & Hi & Hent & [Hroom|Hroom]); [done|].
  destruct Hit as (Hvis & Hn & os1 & os2 & lines & Hse & Hrest).
  assert (item_ok (s_query s) (ILines path (n + 1) rest)) as Hnext.
  { split; [done|]. split; [lia|]. exists os1, os2, lines. split; [done|].
    replace (Z.to_nat (n + 1 - 1)) with (1 + Z.to_nat (n - 1))%nat by lia.
    by rewrite Nat.add_comm, <- drop_drop, <- Hrest. }
  assert (lines !! Z.to_nat (n - 1) = Some line) as Hline.
  { rewrite <- (Nat.add_0_r (Z.to_nat (n - 1))), <- lookup_drop, <- Hrest. done. }
  unfold visit_line in Hv. destruct (Z.ltb_spec (s_matcher s line) 0).
  - injection Hv as <- <-. apply (session_step s); try done; [congruence|by left|].
    split; [by constructor|]. split; [done|by right].
  - set (v := mkMatch _ _ _ _ _) in Hv.
    assert (justified (s_query s) (s_matcher s) v) as Hj.
    { split; [done|]. right. split; [done|]. by exists os1, os2, lines, line. }
    destruct (Query_MaxResults (s_query (add s v)) <=? len (s_results (add s v))) eqn:El;
      bool_props; simpl in El; injection Hv as <- <-.
    + apply (session_step s); try done; [congruence|]. right. by exists v.
    + apply (session_step s); try done; [congruence|right; by exists v|].
      split; [by constructor|]. split; [done|by right].
Qed.

Lemma run_step_ok os1 os2 s s' : session_ok s -> run_step os1 os2 s = Some s' -> session_ok s'.
Proof.
  intros Hs. unfold run_step. destruct (s_run s) as [[|it todo]|err| |] eqn:Hrun; [| | | |done].
  - intros [= <-]. apply (session_step s); try done; [congruence|by left].
  - destruct (match it with IEntry _ _ => _ | ILines _ _ _ => _ end) as [s2 r] eqn:Hv.
    intros [= <-]. change (session_ok (with_run s2 (next_pc r todo))).
    destruct it as [path kind|path n [|line rest]].
    + by eapply visit_ok.
    + injection Hv as <- <-. apply (session_step s); try done; [congruence|by left|].
      pose proof (sk_todo s Hs) as Ht. rewrite Hrun in Ht.
      apply todo_ok_cons in Ht as (_ & ? & ? & _). by apply todo_ok_entries.
    + by eapply visit_line_ok.
  - intros [= <-]. apply (session_step s); try done; try congruence;
      unfold record_error, with_err; repeat case_match; auto.
  - intros [= <-]. destruct Hs as [Hn Hm Hd Hj Ht]. by split.
Qed.

Lemma with_ctx_ok s e : session_ok s -> session_ok (with_ctx s e).
Proof. intros [Hn Hm Hd Hj Ht]. by split. Qed.

Lemma with_next_ok s n : session_ok s -> 0 <= n <= len (s_results s) -> session_ok (with_next s n).
Proof. intros [Hn Hm Hd Hj Ht] ?. by split. Qed.

Lemma normalize_ok q q' : normalize q = Ok q' -> 1 <= Query_MaxResults q' <= 5000.
Proof.
  unfold normalize. repeat case_match; try done; intros [= <-]; simpl in *; bool_props; lia.
Qed.

Lemma new_session_ok q matcher (root : result node) :
  1 <= Query_MaxResults q <= 5000 ->
  session_ok (mkSession [] 0 false "" None q matcher
    (Walking match root with Ok n => [IEntry (Query_Path q) n] | Err _ => [] end)).
Proof.
  intros Hm. split; simpl; try done; [lia|]. apply todo_ok_entries.
  - destruct root; [|done]. constructor; [constructor|done].
  - by destruct root; repeat constructor.
Qed.

(** ** The manager *)

Record manager_ok (m : Manager) : Prop := mkManagerOk {
  mk_max : 1 <= maxSessions m;
  mk_inj : forall id1 id2 ref, sessions m !! id1 = Some ref -> sessions m !! id2 = Some ref -> id1 = id2;
  mk_refs : forall id ref, sessions m !! id = Some ref -> is_Some (heap m !! ref);
  mk_sessions : forall ref s, heap m !! ref = Some s -> session_ok s;
  mk_active : Z.of_nat (size (active m)) <= maxSessions m }.

(** Sessions that finish or are forgotten only free slots. *)
Lemma active_subseteq m m' :
  (forall id ref s', sessions m' !! id = Some ref -> heap m' !! ref = Some s' -> s_done s' = false ->
     sessions m !! id = Some ref /\ exists s, heap m !! ref = Some s /\ s_done s = false) ->
  (size (active m') <= size (active m))%nat.
Proof.
  intros H. rewrite <- !size_dom. apply subseteq_size. intros id.
  rewrite !elem_of_dom. intros [ref Hr]. apply map_lookup_filter_Some in Hr as [Hs Hd].
  simpl in Hd. destruct (heap m' !! ref) as [s'|] eqn:Hh; [|done]. apply negb_true_iff in Hd.
  destruct (H _ _ _ Hs Hh Hd) as (Hs' & s & Hh' & Hd'). exists ref.
  apply map_lookup_filter_Some. split; [done|]. simpl. by rewrite Hh', Hd'.
Qed.

(** Replacing a session by a later state of it. *)
Lemma manager_update m ref s s' :
  manager_ok m -> heap m !! ref = Some s -> session_ok s' -> (s_done s = true -> s_done s' = true) ->
  manager_ok (set_heap m (<[ref := s']> (heap m))).
Proof.
  intros [Hm Hj Hr Hs Ha] Hlk Hok Hd. split; simpl; [done|done| | |].
  - intros id ref' H. rewrite lookup_insert. case_decide; eauto.
  - intros ref' s2. rewrite lookup_insert. case_decide; [by intros [= <-]|]. apply Hs.
  - assert (size (active (set_heap m (<[ref := s']> (heap m)))) <= size (active m))%nat; [|lia].
    apply active_subseteq. simpl. intros id ref' s2 H. rewrite lookup_insert. case_decide; [|by eauto].
    intros [= <-] H2. subst. split; [done|]. exists s. split; [done|].
    destruct (s_done s); [by rewrite Hd in H2|done].
Qed.

Lemma manager_forget m id :
  manager_ok m -> manager_ok (set_sessions m (delete id (sessions m))).
Proof.
  intros [Hm Hj Hr Hs Ha]. split; simpl; [done| | |done|].
  - intros id1 id2 ref [_ H1]%lookup_delete_Some [_ H2]%lookup_delete_Some. eauto.
  - intros id' ref [_ H]%lookup_delete_Some. eauto.
  - assert (size (active (set_sessions m (delete id (sessions m)))) <= size (active m))%nat; [|lia].
    apply active_subseteq. simpl. intros id' ref s [_ H]%lookup_delete_Some. eauto.
Qed.

Lemma Start_ok q rid root m : manager_ok m -> manager_ok (Start q rid root m).2.
Proof.
  intros Hok. unfold SearchMgr.Start. destruct (normalize q) as [q'|] eqn:Hq; [|done].
  destruct (newMatcher _ _ _ _ _) as [matcher|]; [|done]. destruct rid as [id|]; [|done].
  destruct (Z.leb_spec (maxSessions m) (Z.of_nat (size (active m)))) as [|Hlt]; [done|].
  destruct Hok as [Hm Hj Hr Hs Ha]. pose proof (is_fresh (dom (heap m))) as Hf%not_elem_of_dom.
  set (ref := fresh (dom (heap m))) in *. split; simpl; [done| | | |].
  - assert (forall id', sessions m !! id' <> Some ref) as Hn.
    { intros id' H. destruct (Hr _ _ H). congruence. }
    intros id1 id2 ref'. rewrite !lookup_insert. repeat case_decide; naive_solver.
  - intros id' ref'. rewrite !lookup_insert. repeat case_decide; naive_solver.
  - intros ref' s. rewrite lookup_insert. case_decide; [|apply Hs].
    intros [= <-]. apply new_session_ok. by eapply normalize_ok.
  - unfold active. simpl. set (P := fun kv : string * nat => _ = true).
    assert (size (filter P (<[id := ref]> (sessions m))) <= S (size (active m)))%nat; [|lia].
    rewrite <- (size_dom (active m)), <- size_dom. etransitivity.
    + apply (subseteq_size _ ({[id]} ∪ dom (active m))). intros id'.
      rewrite elem_of_union, elem_of_singleton, !elem_of_dom. intros [r Hr']. destruct (decide (id' = id)); [by left|right].
      apply map_lookup_filter_Some in Hr' as [H1 H2]. rewrite lookup_insert_ne in H1 by done.
      exists r. apply map_lookup_filter_Some. split; [done|]. subst P. simpl in H2 |- *.
      destruct (Hr _ _ H1) as [s Hlk]. rewrite Hlk.
      rewrite lookup_insert_ne in H2 by congruence. by rewrite Hlk in H2.
    + rewrite size_union_alt, size_singleton. apply le_n_S, subseteq_size. set_solver.
Qed.

Lemma exec_ok a m m' : manager_ok m -> exec a m = Some m' -> manager_ok m'.
Proof.
  intros Hok. destruct a as [q rid root|id limit|id|ref|id ref|ref os1 os2]; simpl.
  - intros [= <-]. by apply Start_ok.
  - intros [= <-]. unfold GetMore. destruct (sessions m !! id) as [ref|]; [|done].
    destruct (heap m !! ref) as [s|] eqn:Hs; [|done]. case_match eqn:Hsl; [|done]. simpl.
    eapply manager_update; [done|done| |done].
    pose proof (mk_sessions m Hok _ _ Hs) as Hses. apply with_next_ok; [done|].
    pose proof (sk_next s Hses). repeat case_match; bool_props; lia.
  - intros [= <-]. unfold Stop. destruct (sessions m !! id) as [ref|]; [|done].
    destruct (heap m !! ref) as [s|] eqn:Hs; [|done]. simpl.
    eapply manager_update; [done|done| |done]. apply with_ctx_ok. by eapply mk_sessions.
  - intros (s & Hs & [= <-])%bind_Some. eapply manager_update; [done|done| |done].
    apply with_ctx_ok. by eapply mk_sessions.
  - unfold expire. intros (s & Hs & [= <-])%bind_Some.
    assert (manager_ok (set_heap m (<[ref := with_ctx s Canceled]> (heap m)))) as H.
    { eapply manager_update; [done|done| |done]. apply with_ctx_ok. by eapply mk_sessions. }
    case_decide; [by apply (manager_forget _ id) in H|done].
  - intros (s & Hs & H)%bind_Some. apply bind_Some in H as (s' & Hst & [= <-]).
    pose proof (mk_sessions m Hok _ _ Hs) as Hses.
    eapply manager_update; [done|done|by eapply run_step_ok|].
    intros Hd. apply (sk_done s Hses) in Hd. unfold run_step in Hst. by rewrite Hd in Hst.
Qed.

Lemma New_ok max : manager_ok (New max).
Proof.
  split; simpl; try (intros *; by rewrite lookup_empty).
  - destruct (Z.leb_spec max 0); lia.
  - assert (active (New max) = ∅) as ->; [|rewrite map_size_empty; destruct (max <=? 0) eqn:E; bool_props; lia].
    apply map_filter_empty.
Qed.

Lemma run_ok acts m m' : manager_ok m -> run exec acts m = Some m' -> manager_ok m'.
Proof. apply (run_invariant exec manager_ok). intros. by eapply exec_ok. Qed.

Lemma exec_maxSessions a m m' : exec a m = Some m' -> maxSessions m' = maxSessions m.
Proof.
  destruct a; simpl; unfold SearchMgr.Start, GetMore, Stop, expire, mbind, option_bind;
    intros H; case_guards; done.
Qed.

(** At most [maxSessions] searches run at any moment, whatever the order of
    starts, stops, expirations and steps of the searching goroutines. *)
Theorem searches_are_bounded max acts m :
  run exec acts (New max) = Some m ->
  Z.of_nat (size (active m)) <= (if max <=? 0 then 8 else max).
Proof.
  intros Hrun. pose proof (mk_active m (run_ok _ _ _ (New_ok max) Hrun)) as H.
  assert (maxSessions m = maxSessions (New max)) as E; [|by rewrite E in H].
  eapply (run_invariant exec (fun m => maxSessions m = maxSessions (New max))); [|done|exact Hrun].
  intros a s s' Hs He. by rewrite (exec_maxSessions _ _ _ He).
Qed.


(** ** Pagination *)

(** What one action returns to a client that polls session [id]. *)
Definition polled_by (id : string) (a : action) (m : Manager) : list Match :=
  match a with
  | AGetMore id' limit =>
      if decide (id' = id) then
        match (GetMore id limit m).1 with Ok r => More_Results r | Err _ => [] end
      else []
  | _ => []
  end.

(** Everything that the calls of [GetMore] for [id] return along a schedule. *)
Fixpoint polled (id : string) (acts : list action) (m : Manager) : list Match :=
  match acts with
  | [] => []
  | a :: acts' =>
      polled_by id a m ++
      match exec a m with Some m' => polled id acts' m' | None => [] end
  end.

(** How a session changes over time. *)
Record later (s s' : session) : Prop := mkLater {
  lt_results : s_results s `prefix_of` s_results s';
  lt_next : s_next s <= s_next s';
  lt_done : s_done s = true -> s_done s' = true /\ s_results s' = s_results s }.

Lemma later_refl s : later s s.
Proof. split; [done|lia|done]. Qed.

Lemma later_trans s1 s2 s3 : later s1 s2 -> later s2 s3 -> later s1 s3.
Proof.
  intros [R1 N1 D1] [R2 N2 D2]. split; [by etransitivity|lia|].
  intros H. destruct (D1 H) as [H1 E1]. destruct (D2 H1) as [? E2]. split; [done|congruence].
Qed.

Lemma run_step_later os1 os2 s s' :
  session_ok s -> run_step os1 os2 s = Some s' -> later s s' /\ s_next s' = s_next s.
Proof.
  intros Hs H. assert (s_done s = true -> False) as Hnd.
  { intros Hd%(sk_done s Hs). unfold run_step in H. by rewrite Hd in H. }
  assert (s_results s `prefix_of` s_results s' /\ s_next s' = s_next s) as [? E].
  { revert H. unfold run_step, visit, visit_line, record_error, finish, with_run, with_err, add.
    intros H. case_guards; split; simpl; done || by eexists. }
  split; [split; [done|lia|by intros ?%Hnd]|done].
Qed.

(** One action, seen from the session that [id] names. *)
Lemma exec_session a m m' id ref s :
  manager_ok m -> exec a m = Some m' -> heap m !! ref = Some s ->
  exists s', heap m' !! ref = Some s' /\ later s s' /\
    (sessions m' !! id = Some ref -> sessions m !! id = Some ref) /\
    (sessions m !! id = Some ref ->
     polled_by id a m = drop (Z.to_nat (s_next s)) (take (Z.to_nat (s_next s')) (s_results s'))).
Proof.
  intros Hok Hex Hs. pose proof (mk_sessions m Hok _ _ Hs) as Hses.
  assert (forall n (l : list Match), drop n (take n l) = []) as Hnil
    by (intros n l; apply drop_ge; rewrite length_take; lia).
  assert (forall s', later s s' -> s_next s' = s_next s -> polled_by id a m = [] ->
    sessions m' !! id = sessions m !! id \/ sessions m' !! id = None -> heap m' !! ref = Some s' ->
    exists s', heap m' !! ref = Some s' /\ later s s' /\
      (sessions m' !! id = Some ref -> sessions m !! id = Some ref) /\
      (sessions m !! id = Some ref ->
       polled_by id a m = drop (Z.to_nat (s_next s)) (take (Z.to_nat (s_next s')) (s_results s')))) as Hquiet.
  { intros s' Hl Hn -> Hid Hh. exists s'. rewrite Hn, Hnil. split_and!; try done.
    destruct Hid as [->| ->]; done. }
  destruct a as [q rid root|id' limit|id'|ref'|id' ref'|ref' os1 os2]; simpl in Hex.
  - injection Hex as Hex. unfold SearchMgr.Start in Hex. repeat case_match; simpl in Hex; subst m';
      try (by eapply Hquiet; [apply later_refl|..]; auto).
    all: exists s; simpl; rewrite !lookup_insert, Hnil.
    all: pose proof (is_fresh (dom (heap m))) as Hf%not_elem_of_dom.
    all: rewrite (decide_False (P := fresh (dom (heap m)) = ref)) by congruence.
    all: split_and!; [done|apply later_refl| |done].
    all: case_decide; [|done]; intros [= E]; congruence.
  - injection Hex as Hex. unfold GetMore in Hex.
    destruct (sessions m !! id') as [r|] eqn:Hid'.
    2: { simpl in Hex. subst m'. eapply Hquiet; [apply later_refl|done| |by left|exact Hs].
         simpl. case_decide; [|done]. subst. unfold GetMore. by rewrite Hid'. }
    destruct (heap m !! r) as [s1|] eqn:Hr.
    2: { by destruct (mk_refs m Hok _ _ Hid'); congruence. }
    set (lim := if 500 <? _ then 500 else _) in Hex. set (e := if len (s_results s1) <? _ then _ else _) in Hex.
    assert (s_next s1 <= e <= len (s_results s1)) as He.
    { pose proof (sk_next s1 (mk_sessions m Hok _ _ Hr)). subst e lim.
      repeat case_match; bool_props; lia. }
    pose proof (sk_next s1 (mk_sessions m Hok _ _ Hr)) as Hn1.
    rewrite slice_Some in Hex by lia. simpl in Hex. subst m'. simpl.
    destruct (decide (r = ref)) as [->|Hne].
    + assert (s1 = s) by congruence. subst s1. exists (with_next s e). rewrite lookup_insert_eq. split; [done|].
      split; [split; simpl; [done|lia|done]|]. split; [done|].
      intros Hid. assert (id' = id) as -> by (by eapply mk_inj). rewrite decide_True by done.
      unfold GetMore. rewrite Hid, Hs. fold lim. fold e. rewrite slice_Some by lia. simpl.
      rewrite firstn_skipn_comm. f_equal. f_equal. lia.
    + exists s. rewrite lookup_insert_ne by done. split; [done|]. split; [apply later_refl|].
      split; [done|]. intros Hid. rewrite Hnil. rewrite decide_False by congruence. done.
  - injection Hex as Hex. unfold Stop in Hex. destruct (sessions m !! id') as [n|];
      [destruct (heap m !! n) as [s1|] eqn:Hs1|]; simpl in Hex; subst m';
      try (by eapply Hquiet; [apply later_refl|..]; auto).
    destruct (decide (n = ref)) as [->|Hne].
    + assert (s1 = s) by congruence. subst s1. eapply (Hquiet (with_ctx s Canceled)); simpl; auto; [by split|by rewrite lookup_insert_eq].
    + eapply Hquiet; [apply later_refl|..]; simpl; auto. by rewrite lookup_insert_ne.
  - apply bind_Some in Hex as (s1 & Hs1 & [= <-]). destruct (decide (ref' = ref)) as [->|Hne].
    + assert (s1 = s) by congruence. subst s1. eapply (Hquiet (with_ctx s DeadlineExceeded)); simpl; auto; [by split|by rewrite lookup_insert_eq].
    + eapply Hquiet; [apply later_refl|..]; simpl; auto. by rewrite lookup_insert_ne.
  - unfold expire in Hex. apply bind_Some in Hex as (s1 & Hs1 & [= <-]).
    assert (forall x, (if decide (sessions m !! id' = Some ref') then delete id' (sessions m) else sessions m) !! x =
      sessions m !! x \/ (if decide (sessions m !! id' = Some ref') then delete id' (sessions m) else sessions m) !! x = None) as Hx.
    { intros x. case_decide; [|by left]. rewrite lookup_delete. case_decide; auto. }
    destruct (decide (ref' = ref)) as [->|Hne].
    + assert (s1 = s) by congruence. subst s1. eapply (Hquiet (with_ctx s Canceled)); simpl; auto; [by split|by rewrite lookup_insert_eq].
    + eapply Hquiet; [apply later_refl|..]; simpl; auto. by rewrite lookup_insert_ne.
  - apply bind_Some in Hex as (s1 & Hs1 & Hex). apply bind_Some in Hex as (s2 & Hst & [= <-]).
    destruct (decide (ref' = ref)) as [->|Hne].
    + assert (s1 = s) by congruence. subst s1. apply run_step_later in Hst as [Hl Hn]; [|done].
      eapply (Hquiet s2); simpl; auto. by rewrite lookup_insert_eq.
    + eapply Hquiet; [apply later_refl|..]; simpl; auto. by rewrite lookup_insert_ne.
Qed.

(** A name, once lost, never names the same session again. *)
Lemma run_keeps_name acts m m' id ref s :
  manager_ok m -> run exec acts m = Some m' -> heap m !! ref = Some s ->
  sessions m' !! id = Some ref -> sessions m !! id = Some ref.
Proof.
  revert m s. induction acts as [|a acts IH]; intros m s Hok Hrun Hs Hid; simpl in Hrun; [by simplify_eq|].
  apply bind_Some in Hrun as (m1 & Hex & Hrun).
  destruct (exec_session _ _ _ id _ _ Hok Hex Hs) as (s1 & Hs1 & _ & Hname & _).
  eapply Hname, IH; eauto. by eapply exec_ok.
Qed.

Lemma slices_join {A} (l1 l2 : list A) a b c :
  0 <= a -> a <= b -> b <= c -> b <= len l1 -> l1 `prefix_of` l2 ->
  drop (Z.to_nat a) (take (Z.to_nat b) l1) ++ drop (Z.to_nat b) (take (Z.to_nat c) l2) =
  drop (Z.to_nat a) (take (Z.to_nat c) l2).
Proof.
  intros Ha Hab Hbc Hb [k ->].
  replace (take (Z.to_nat b) l1) with (take (Z.to_nat b) (take (Z.to_nat c) (l1 ++ k))).
  2: { rewrite take_take, Nat.min_l, take_app_le by lia. done. }
  set (l := take (Z.to_nat c) (l1 ++ k)).
  rewrite <- (take_drop (Z.to_nat b) l) at 3. rewrite drop_app_le; [done|].
  rewrite length_take. subst l. rewrite length_take, length_app. lia.
Qed.

Lemma run_polled acts m m' id ref s :
  manager_ok m -> run exec acts m = Some m' -> heap m !! ref = Some s ->
  sessions m' !! id = Some ref ->
  exists s', heap m' !! ref = Some s' /\ later s s' /\
    polled id acts m = drop (Z.to_nat (s_next s)) (take (Z.to_nat (s_next s')) (s_results s')).
Proof.
  revert m s. induction acts as [|a acts IH]; intros m s Hok Hrun Hs Hid; simpl in Hrun.
  - simplify_eq. exists s. split; [done|]. split; [apply later_refl|].
    simpl. symmetry. apply drop_ge. rewrite length_take. lia.
  - pose proof (run_keeps_name (a :: acts) m m' id ref s Hok Hrun Hs Hid) as Hid0.
    apply bind_Some in Hrun as (m1 & Hex & Hrun).
    destruct (exec_session _ _ _ id _ _ Hok Hex Hs) as (s1 & Hs1 & Hl1 & _ & Hout).
    pose proof (exec_ok _ _ _ Hok Hex) as Hok1.
    destruct (IH m1 s1 Hok1 Hrun Hs1 Hid) as (s2 & Hs2 & Hl2 & Hrest).
    exists s2. split; [done|]. split; [by eapply later_trans|].
    simpl. rewrite Hex, Hrest, Hout by done.
    destruct Hl1 as [R1 N1 _], Hl2 as [R2 N2 _].
    pose proof (sk_next s (mk_sessions m Hok _ _ Hs)).
    pose proof (sk_next s1 (mk_sessions m1 Hok1 _ _ Hs1)).
    rewrite <- (slices_join (s_results s1) (s_results s2) (s_next s) (s_next s1) (s_next s2)) by done || lia.
    done.
Qed.

Lemma run_later acts m m' ref s :
  manager_ok m -> run exec acts m = Some m' -> heap m !! ref = Some s ->
  exists s', heap m' !! ref = Some s' /\ later s s'.
Proof.
  revert m s. induction acts as [|a acts IH]; intros m s Hok Hrun Hs; simpl in Hrun.
  - simplify_eq. exists s. split; [done|apply later_refl].
  - apply bind_Some in Hrun as (m1 & Hex & Hrun).
    destruct (exec_session _ _ _ EmptyString _ _ Hok Hex Hs) as (s1 & Hs1 & Hl1 & _).
    destruct (IH m1 s1) as (s2 & Hs2 & Hl2); [by eapply exec_ok|done|done|].
    exists s2. split; [done|]. by eapply later_trans.
Qed.

(** C38 Polling returns every result exactly once, in order: between two states
    of a session, what the calls of [GetMore] for it returned, concatenated,
    is the stretch of its results from the old to the new position, whatever
    happened in between, and results found later only extend the list.  The
    slice expression in [GetMore] never panics. *)
Theorem polling_returns_each_result_once max acts0 m acts m' id ref s :
  run exec acts0 (New max) = Some m -> run exec acts m = Some m' ->
  heap m !! ref = Some s -> sessions m' !! id = Some ref ->
  exists s', heap m' !! ref = Some s' /\ s_results s `prefix_of` s_results s' /\
    polled id acts m = drop (Z.to_nat (s_next s)) (take (Z.to_nat (s_next s')) (s_results s')) /\
    forall limit, exists r, (GetMore id limit m').1 = Ok r.
Proof.
  intros Hrun0 Hrun Hs Hid. pose proof (run_ok _ _ _ (New_ok max) Hrun0) as Hok.
  destruct (run_polled acts m m' id ref s Hok Hrun Hs Hid) as (s' & Hs' & [R _ _] & Hp).
  exists s'. split_and!; try done. intros limit. unfold GetMore. rewrite Hid, Hs'.
  pose proof (sk_next s' (mk_sessions m' (run_ok _ _ _ Hok Hrun) _ _ Hs')).
  set (e := if len (s_results s') <? _ then _ else _).
  assert (s_next s' <= e <= len (s_results s')) by (subst e; repeat case_match; bool_props; lia).
  rewrite slice_Some by lia. by eexists.
Qed.

(** [Done] can be trusted: when a client that polled a session from the
    start is told that it is done, it has received all of its results, and
    no later step of the search adds another one. *)
Theorem done_means_everything_was_returned max acts0 m acts m' m'' id ref s limit r :
  run exec acts0 (New max) = Some m -> run exec acts m = Some m' ->
  heap m !! ref = Some s -> s_next s = 0 -> sessions m' !! id = Some ref ->
  GetMore id limit m' = (Ok r, m'') -> More_Done r = true ->
  exists s'', heap m'' !! ref = Some s'' /\
    polled id (acts ++ [AGetMore id limit]) m = s_results s'' /\
    forall acts2 m2, run exec acts2 m'' = Some m2 ->
      exists s2, heap m2 !! ref = Some s2 /\ s_results s2 = s_results s''.
Proof.
  intros Hrun0 Hrun Hs H0 Hid Hget Hdone. pose proof (run_ok _ _ _ (New_ok max) Hrun0) as Hok.
  pose proof (run_ok _ _ _ Hok Hrun) as Hok'.
  assert (run exec (acts ++ [AGetMore id limit]) m = Some m'') as Hrun2.
  { rewrite run_app, Hrun. simpl. by rewrite Hget. }
  destruct (run_polled acts m m' id ref s Hok Hrun Hs Hid) as (s' & Hs' & _ & _).
  assert (exists s'', heap m'' !! ref = Some s'' /\ sessions m'' !! id = Some ref /\
    s_next s'' = len (s_results s'') /\ s_done s'' = true) as (s'' & Hs'' & Hid'' & Hn & Hd).
  { unfold GetMore in Hget. rewrite Hid, Hs' in Hget.
    destruct (slice _ _ _) as [out|]; [|done]. injection Hget as <- <-. simpl in Hdone.
    apply andb_true_iff in Hdone as [Hd Hle]. apply Z.leb_le in Hle.
    eexists. simpl. rewrite lookup_insert_eq. split; [done|]. split; [done|]. split; [|done].
    simpl. repeat case_match; bool_props; lia. }
  destruct (run_polled (acts ++ [AGetMore id limit]) m m'' id ref s Hok Hrun2 Hs Hid'')
    as (s3 & Hs3 & _ & Hp).
  assert (s3 = s'') as -> by congruence.
  exists s''. split; [done|]. split.
  - rewrite Hp, H0, Hn. rewrite Nat2Z.id, firstn_all. done.
  - intros acts2 m2 Hr2. pose proof (run_ok _ _ _ Hok Hrun2) as Hok2.
    destruct (run_later acts2 m'' m2 ref s'' Hok2 Hr2 Hs'') as (s2 & Hs2 & [_ _ Hfin]).
    exists s2. split; [done|]. by apply Hfin.
Qed.

(** ** Stopping *)

(** The lines that are left of the file being read. *)
Fixpoint lines_left (todo : list item) : nat :=
  match todo with
  | ILines _ _ lines :: rest => S (length lines + lines_left rest)
  | _ => 0
  end.

Definition steps_left (s : session) : nat :=
  match s_run s with
  | Walking todo => 3 + lines_left todo
  | Returned _ => 2
  | Closing => 1
  | Finished => 0
  end.

Definition search_step (v : Os * Os) (s : session) : option session := run_step v.1 v.2 s.

Lemma record_error_ctx s err : s_ctx (record_error s err) = s_ctx s.
Proof.
  unfold record_error. destruct err as [x|]; [destruct (_ && negb (errors_Is x DeadlineExceeded))|];
    by destruct (_ || _).
Qed.

Lemma stopped_step s e v :
  s_ctx s = Some e -> s_run s <> Finished ->
  exists s', search_step v s = Some s' /\ s_ctx s' = Some e /\ (steps_left s' < steps_left s)%nat.
Proof.
  intros Hctx Hrun. unfold search_step, run_step, steps_left.
  destruct (s_run s) as [[|it todo]|err| |] eqn:E; [| | | |done].
  - eexists. split; [done|]. simpl. split; [done|lia].
  - destruct it as [path kind|path n [|line rest]].
    + unfold visit. rewrite Hctx. eexists. split; [done|]. simpl. split; [done|lia].
    + eexists. split; [done|]. simpl. split; [done|lia].
    + unfold visit_line. destruct (_ <? 0); [|destruct (_ <=? _)];
        eexists; (split; [done|]); simpl; (split; [done|lia]).
  - eexists. split; [done|]. simpl. rewrite record_error_ctx. split; [done|lia].
  - eexists. split; [done|]. simpl. split; [done|lia].
Qed.

(** Stopping works: once a session's context is done, by [Stop], by the
    deadline or by expiry, its goroutine ends after at most the remaining
    lines of the file it is reading and three more steps, whatever files it
    still meets. *)
Theorem stopped_search_ends s e (views : list (Os * Os)) :
  s_ctx s = Some e -> (steps_left s <= length views)%nat ->
  exists n s', (n <= steps_left s)%nat /\
    run search_step (take n views) s = Some s' /\ s_run s' = Finished.
Proof.
  remember (steps_left s) as k eqn:Hk. revert s views Hk.
  induction k as [k IH] using lt_wf_ind. intros s views -> Hctx Hlen.
  destruct (decide (steps_left s = 0%nat)) as [H0|H0].
  - exists 0%nat, s. split; [lia|]. split; [done|].
    revert H0. unfold steps_left. destruct (s_run s); simpl; done || lia.
  - destruct views as [|v views]; [simpl in Hlen; lia|].
    destruct (stopped_step s e v Hctx) as (s1 & Hst & Hc1 & Hlt).
    { intros E. unfold steps_left in H0. by rewrite E in H0. }
    destruct (IH _ Hlt s1 views eq_refl Hc1 ltac:(simpl in Hlen; lia)) as (n & s' & Hn & Hr & Hf).
    exists (S n), s'. split; [lia|]. split; [|done]. simpl. by rewrite Hst.
Qed.
End SearchProps.

(** ** Witnesses: a search for "n" in a directory with one file of three lines *)

Definition no_lower (s : string) : string := s.
Definition no_regexp (s : string) : result (string -> option (nat * nat)) := Err (Foreign "regexp").

Definition demo_fs : fsys :=
  list_to_map [(["srv"], NDir);
    (["srv"; "f"], NFile (z2b <$> [97; 110; 10; 98; 10; 110; 110]) 420)]%string.
Definition demo_os : Os := mkOs (Ok "/"%string) demo_fs.
Definition demo_query : Query := mkQuery "/srv" " n" "" false true false 0 0.
Definition demo_start : list action := [AStart demo_query (Ok "search_1"%string) (Ok NDir)].
Definition demo_steps (n : nat) : list action := replicate n (ARun 0 demo_os demo_os).
Definition demo_poll : list action := [AGetMore "search_1" 1].

Definition demo_manager (acts : list action) : Manager :=
  default (New 2) (run (exec no_lower no_regexp) acts (New 2)).
Definition demo_session (acts : list action) : session :=
  default (mkSession [] 0 false "" None demo_query (fun _ => 0) Finished) (heap (demo_manager acts) !! 0%nat).

Lemma searches_are_bounded_witness :
  size (active (demo_manager demo_start)) = 1%nat /\
  Z.of_nat (size (active (demo_manager demo_start))) <= 2.
Proof.
  split; [vm_compute; reflexivity|].
  apply (searches_are_bounded no_lower no_regexp 2 demo_start (demo_manager demo_start)).
  vm_compute. reflexivity.
Defined.

Definition demo_whole : list action := demo_start ++ demo_steps 9.


Definition demo_polls : list action := demo_steps 3 ++ demo_poll ++ demo_steps 6 ++ demo_poll.

Lemma polling_returns_each_result_once_witness :
  let m := demo_manager demo_start in
  let m' := demo_manager (demo_start ++ demo_polls) in
  exists s', heap m' !! 0%nat = Some s' /\ s_results (demo_session demo_start) `prefix_of` s_results s' /\
    polled no_lower no_regexp "search_1" demo_polls m =
      drop (Z.to_nat (s_next (demo_session demo_start))) (take (Z.to_nat (s_next s')) (s_results s')) /\
    forall limit, exists r, (GetMore "search_1" limit m').1 = Ok r.
Proof.
  apply (polling_returns_each_result_once no_lower no_regexp 2 demo_start (demo_manager demo_start)
    demo_polls (demo_manager (demo_start ++ demo_polls)) "search_1" 0 (demo_session demo_start));
    vm_compute; reflexivity.
Defined.

Definition demo_last : MoreResult * Manager :=
  match GetMore "search_1" 5 (demo_manager (demo_start ++ demo_polls)) with
  | (Ok r, m) => (r, m)
  | (Err _, m) => (mkMore [] false "" 0, m)
  end.

Lemma done_means_everything_was_returned_witness :
  exists s'', heap demo_last.2 !! 0%nat = Some s'' /\
    polled no_lower no_regexp "search_1" (demo_polls ++ [AGetMore "search_1" 5]) (demo_manager demo_start) =
      s_results s'' /\
    forall acts2 m2, run (exec no_lower no_regexp) acts2 demo_last.2 = Some m2 ->
      exists s2, heap m2 !! 0%nat = Some s2 /\ s_results s2 = s_results s''.
Proof.
  apply (done_means_everything_was_returned no_lower no_regexp 2 demo_start (demo_manager demo_start)
    demo_polls (demo_manager (demo_start ++ demo_polls)) demo_last.2 "search_1" 0
    (demo_session demo_start) 5 demo_last.1);
    vm_compute; reflexivity.
Defined.

Lemma stopped_search_ends_witness :
  exists n s', (n <= steps_left (with_ctx (demo_session (demo_start ++ demo_steps 3)) Canceled))%nat /\
    run search_step (take n (replicate 6 (demo_os, demo_os)))
      (with_ctx (demo_session (demo_start ++ demo_steps 3)) Canceled) = Some s' /\ s_run s' = Finished.
Proof.
  apply (stopped_search_ends (with_ctx (demo_session (demo_start ++ demo_steps 3)) Canceled) Canceled
    (replicate 6 (demo_os, demo_os))); [vm_compute; reflexivity|vm_compute; lia].
Defined.
