(* ===== verification/FileOps.v ===== *)
(** * System calls that change files

    The calls of package os that the file tools use, on the file systems of
    FileSystem.v.  A [World] is the operating system together with what the
    program cannot predict: [w_faults] says for each call in turn whether it
    fails, with which error ([None]: it does what it should; a missing entry
    counts as [None]), and [w_names] holds the random parts of the names that
    [os.CreateTemp] draws.  A failing write may have written a part of its
    data.  Ownership, link counts and the modes of directories are not
    modelled, and no other process changes the files during one tool call. *)
From S2P Require Import Prelude Crypto GoStrings Filepath FileSystem.
Local Open Scope Z_scope.

Record World := mkWorld {
  w_os : Os;
  w_faults : list (option (error * nat));
  w_names : list string }.

Definition F (A : Type) : Type := World -> result A * World.

#[global] Instance F_ret : MRet F := fun A a w => (Ok a, w).
#[global] Instance F_bind : MBind F := fun A B f m w =>
  match m w with
  | (Ok a, w') => f a w'
  | (Err e, w') => (Err e, w')
  end.

Definition fail {A} (e : error) : F A := fun w => (Err e, w).
Definition lift {A} (r : result A) : F A := fun w => (r, w).
(** [x, err := m] with the error looked at by the program. *)
Definition try {A} (m : F A) : F (result A) := fun w => let '(r, w') := m w in (Ok r, w').

Definition with_os (w : World) (os : Os) : World := mkWorld os (w_faults w) (w_names w).
Definition with_fs (os : Os) (fs : fsys) : Os := mkOs (os_getwd os) fs.

(** One system call. [broken n] is its effect when it fails. *)
Definition sys {A} (broken : nat -> Os -> Os) (f : Os -> result A * Os) : F A := fun w =>
  match w_faults w with
  | Some (e, n) :: fl => (Err e, mkWorld (broken n (w_os w)) fl (w_names w))
  | fl => let '(r, os) := f (w_os w) in (r, mkWorld os (tail fl) (w_names w))
  end.

(** A call that only looks. *)
Definition query {A} (f : Os -> result A) : F A := sys (fun _ os => os) (fun os => (f os, os)).
(** A call that changes files, or fails with no effect. *)
Definition change {A} (f : Os -> result A * Os) : F A := sys (fun _ os => os) f.

Definition EEXIST : error := Foreign "EEXIST".
Definition EISDIR : error := Foreign "EISDIR".
Definition EINVAL : error := Foreign "EINVAL".

(** The directory and the last name that a path denotes. *)
Definition locate (fs : fsys) (path : string) : result (list string * string) :=
  match reverse (rel_elements path) with
  | [] => Err EISDIR
  | c :: dirs =>
      dir ← namei fs (reverse dirs);
      if decide (node_at fs dir = Some NDir) then Ok (dir, c) else Err ENOTDIR
  end.

Definition at_path (l : list string * string) : list string := l.1 ++ [l.2].

(** [os.ReadFile], and [os.Open] with [io.ReadAll] *)
Definition read_all (os : Os) (path : string) : result (list byte) :=
  p ← namei (os_fs os) (parts path);
  match node_at (os_fs os) p with
  | Some (NFile content _) => Ok content
  | _ => Err EISDIR
  end.

(** [os.CreateTemp]: names are tried until one is free. *)
Fixpoint create_temp (prefix : string) (names : list string) (dir : list string) (fs : fsys) :
    result (string * list string) :=
  match names with
  | [] => Err EEXIST
  | n :: names' =>
      let c := (prefix ++ n)%string in
      if decide (node_at fs (dir ++ [c]) = None) then Ok (c, names')
      else create_temp prefix names' dir fs
  end.

Definition CreateTemp (parent prefix : string) : F string := fun w =>
  match w_faults w with
  | Some (e, _) :: fl => (Err e, mkWorld (w_os w) fl (w_names w))
  | fl =>
      let fs := os_fs (w_os w) in
      match (dir ← namei fs (parts parent);
             if decide (node_at fs dir = Some NDir) then
               '(c, names) ← create_temp prefix (w_names w) dir fs; Ok (dir, c, names)
             else Err ENOTDIR) with
      | Ok (dir, c, names) =>
          (Ok (JoinPath [parent; c]),
           mkWorld (with_fs (w_os w) (<[dir ++ [c] := NFile [] 384]> fs)) (tail fl) names)
      | Err e => (Err e, mkWorld (w_os w) (tail fl) (w_names w))
      end
  end.

(** Changing the file that a descriptor of [path] refers to. *)
Definition update_file (path : string) (f : list byte -> Z -> node) (os : Os) : result unit * Os :=
  match locate (os_fs os) path with
  | Err e => (Err e, os)
  | Ok l =>
      match node_at (os_fs os) (at_path l) with
      | Some (NFile content perm) =>
          (Ok tt, with_fs os (<[at_path l := f content perm]> (os_fs os)))
      | _ => (Err ENOENT, os)
      end
  end.

(** [tmp.Chmod], [tmp.Write], [tmp.Sync] and [tmp.Close] *)
Definition Chmod (path : string) (mode : Z) : F unit :=
  change (update_file path (fun content _ => NFile content mode)).
Definition Write (path : string) (data : list byte) : F unit :=
  sys (fun n os => (update_file path (fun content perm => NFile (content ++ take n data) perm) os).2)
      (update_file path (fun content perm => NFile (content ++ data) perm)).
Definition Sync : F unit := query (fun _ => Ok tt).
Definition CloseFile : F unit := query (fun _ => Ok tt).

(** [os.Remove] of a file *)
Definition Remove (path : string) : F unit :=
  change (fun os =>
    match locate (os_fs os) path with
    | Err e => (Err e, os)
    | Ok l =>
        match node_at (os_fs os) (at_path l) with
        | None => (Err ENOENT, os)
        | Some _ => (Ok tt, with_fs os (delete (at_path l) (os_fs os)))
        end
    end).

(** The entries at and below [p1], moved to [p2]. *)
Definition moved (p1 p2 : list string) (fs : fsys) : fsys :=
  list_to_map (omap (fun kv : list string * node =>
    if decide (p1 `prefix_of` kv.1) then Some (p2 ++ drop (length p1) kv.1, kv.2) else None)
    (map_to_list fs)).

Definition move_tree (p1 p2 : list string) (fs : fsys) : fsys :=
  moved p1 p2 fs ∪ filter (fun kv : list string * node => ~ p1 `prefix_of` kv.1) (delete p2 fs).

(** [os.Rename]: Go refuses a destination that is a directory. *)
Definition rename (oldpath newpath : string) (os : Os) : result unit * Os :=
  let fs := os_fs os in
  match (l1 ← locate fs oldpath;
         l2 ← locate fs newpath;
         match node_at fs (at_path l1) with
         | None => Err ENOENT
         | Some n1 =>
             match node_at fs (at_path l2), n1 with
             | Some NDir, _ => Err EEXIST
             | Some _, NDir => Err ENOTDIR
             | _, _ =>
                 if decide (n1 = NDir /\ at_path l1 `prefix_of` at_path l2) then Err EINVAL
                 else Ok (at_path l1, at_path l2)
             end
         end) with
  | Err e => (Err e, os)
  | Ok (p1, p2) =>
      (Ok tt, if decide (p1 = p2) then os else with_fs os (move_tree p1 p2 fs))
  end.
Definition Rename (oldpath newpath : string) : F unit := change (rename oldpath newpath).

(** [os.Mkdir] *)
Definition mkdir (path : string) (os : Os) : result unit * Os :=
  match locate (os_fs os) path with
  | Err e => (Err e, os)
  | Ok l =>
      match node_at (os_fs os) (at_path l) with
      | Some _ => (Err EEXIST, os)
      | None => (Ok tt, with_fs os (<[at_path l := NDir]> (os_fs os)))
      end
  end.

(** [os.MkdirAll] on a clean absolute path, given by its names in reverse. *)
Fixpoint MkdirAll (rev_names : list string) : F unit :=
  let path := render true (reverse rev_names) in
  st ← try (query (fun os => Stat os path));
  match st with
  | Ok NDir => mret tt
  | Ok _ => fail ENOTDIR
  | Err _ =>
      match rev_names with
      | _ :: parent => MkdirAll parent
      | [] => mret tt
      end;;
      r ← try (change (mkdir path));
      match r with
      | Ok _ => mret tt
      | Err e =>
          st ← try (query (fun os => Lstat os path));
          match st with
          | Ok NDir => mret tt
          | _ => fail e
          end
      end
  end.
