(* ===== verification/Executor.v ===== *)
(** * The agent's tools: internal/executor/executor.go

    The file tools, one definition per handler, in the monad of FileOps.v.
    What [encoding/json] makes of the raw arguments is the argument [raw] of a
    handler; a result that Go returns as a map is a record.  Permission bits
    are integers; the calls of package os are those of FileOps.v.  The sizes of
    directories are not modelled: they are 0. *)
From S2P Require Import Prelude Crypto GoStrings Base64 Filepath FileSystem PathPolicy FileOps.
Local Open Scope Z_scope.

Definition maxReadBytes : Z := Z.shiftl 4 20.
Definition maxWriteBytes : Z := Z.shiftl 4 20.
Definition maxListItems : Z := 2000.
Definition maxCombinedReadBytes : Z := Z.shiftl 8 20.

Notation NewErr := Prelude.New (only parsing).

(** [func decodeArgs(raw json.RawMessage, dst any) error] *)
Definition decodeArgs {A} (raw : result A) : F A :=
  match raw with
  | Ok a => mret a
  | Err e => fail (Wrapf "invalid arguments: %w" [] e)
  end.

Section Executor.
Context (paths : Policy).

Definition resolveExisting (path : string) : F string :=
  query (fun os => ResolveExisting os paths path).
Definition resolveForCreate (path : string) : F string :=
  query (fun os => ResolveForCreate os paths path).
Definition stat (path : string) : F node := query (fun os => Stat os path).
Definition lstat (path : string) : F node := query (fun os => Lstat os path).
Definition readAll (path : string) : F (list byte) := query (fun os => read_all os path).

Definition is_dir (n : node) : bool := bool_decide (n = NDir).
Definition is_link (n : node) : bool := match n with NLink _ => true | _ => false end.
Definition size_of (n : node) : Z := 
  match n with NFile c _ => len c | NLink t => slen t | NDir => 0 end.
Definition perm_of (n : node) : Z := match n with NFile _ p => p | _ => 0 end.

(** ** read_file *)

Record readFileArgs := mkReadFileArgs { rf_Path : string; rf_Offset : Z; rf_MaxBytes : Z }.

Record fileReply := mkFileReply {
  fr_path : string;
  fr_encoding : string;
  fr_content : string;
  fr_offset : Z;
  fr_next_offset : Z;
  fr_truncated : bool }.

(** UTF-8 text as it is, anything else in base64. *)
Definition encode_content (b : list byte) : string * string :=
  if utf8_Valid b then ("utf-8", string_of_bytes b)%string
  else ("base64", EncodeToString b)%string.

(** [io.ReadAll(io.LimitReader(f, limit+1))] from an offset, then the cut. *)
Definition read_window (data : list byte) (offset limit : Z) : list byte * bool :=
  let b := take (Z.to_nat (limit + 1)) (drop (Z.to_nat offset) data) in
  if limit <? len b then (take (Z.to_nat limit) b, true) else (b, false).

Definition read_limit (max : Z) : Z :=
  if (max <=? 0) || (maxReadBytes <? max) then maxReadBytes else max.

Definition readFile (raw : result readFileArgs) : F fileReply :=
  a ← decodeArgs raw;
  path ← resolveExisting (rf_Path a);
  st ← stat path;
  if is_dir st then fail (NewErr "path is a directory")
  else
    let limit := read_limit (rf_MaxBytes a) in
    if rf_Offset a <? 0 then fail (NewErr "offset cannot be negative")
    else
      data ← readAll path;
      let '(b, truncated) := read_window data (rf_Offset a) limit in
      let '(encoding, content) := encode_content b in
      mret (mkFileReply path encoding content (rf_Offset a) (rf_Offset a + len b) truncated).

(** ** read_multiple_files *)

Record readMultipleArgs := mkReadMultipleArgs { rm_Paths : list string; rm_MaxBytesPerFile : Z }.

(** One entry of the reply: an error, or a file. *)
Inductive fileEntry :=
| EntryError (path : string) (e : error)
| EntryFile (path encoding content : string) (truncated : bool).

(** The body of the loop up to the size test: a window of the file. *)
Definition read_one (limit : Z) (requested : string) : F (string * list byte * bool) :=
  path ← resolveExisting requested;
  st ← stat path;
  if is_dir st then fail (NewErr "path is a directory")
  else
    data ← readAll path;
    let '(b, truncated) := read_window data 0 limit in
    mret (path, b, truncated).

Fixpoint read_files (limit total : Z) (requested : list string) : F (list fileEntry) :=
  match requested with
  | [] => mret []
  | p :: rest =>
      r ← try (read_one limit p);
      match r with
      | Err e =>
          files ← read_files limit total rest;
          mret (EntryError p e :: files)
      | Ok (path, b, truncated) =>
          let total := total + len b in
          if maxCombinedReadBytes <? total then fail (NewErr "combined read exceeds 8MiB")
          else
            let '(encoding, content) := encode_content b in
            files ← read_files limit total rest;
            mret (EntryFile path encoding content truncated :: files)
      end
  end.

Definition readMultipleFiles (raw : result readMultipleArgs) : F (list fileEntry) :=
  a ← decodeArgs raw;
  if bool_decide (rm_Paths a = []) || (32 <? len (rm_Paths a)) then
    fail (NewErr "paths must contain 1 to 32 files")
  else read_files (read_limit (rm_MaxBytesPerFile a)) 0 (rm_Paths a).

(** ** Writing: a temporary file, then a rename *)

(** The body of [atomicWrite] and the end of [writeFile]; the deferred
    function removes the temporary file unless the rename worked. *)
Definition replace_file (prefix path : string) (data : list byte) (mode : Z) : F unit :=
  let parent := Dir path in
  name ← CreateTemp parent prefix;
  r ← try (Chmod name mode;; Write name data;; Sync;; CloseFile;; Rename name path);
  match r with
  | Ok _ => mret tt
  | Err e => _ ← try (Remove name); fail e
  end.

(** [func atomicWrite(path string, data []byte, mode os.FileMode) error] *)
Definition atomicWrite (path : string) (data : list byte) (mode : Z) : F unit :=
  replace_file ".orc-edit-" path data mode.

Record writeFileArgs := mkWriteFileArgs {
  wf_Path : string; wf_Content : string; wf_Encoding : string; wf_Mode : Z }.

Definition decode_content (encoding content : string) : result (list byte) :=
  if bool_decide (encoding = EmptyString) || bool_decide (encoding = "utf-8"%string) then
    Ok (bytes_of_string content)
  else if decide (encoding = "base64"%string) then
    match DecodeString content with
    | Ok b => Ok b
    | Err _ => Err (NewErr "invalid base64 content")
    end
  else Err (NewErr "encoding must be utf-8 or base64").

Definition file_mode (requested default : Z) : Z :=
  if decide (requested = 0) then default else Z.land requested 511.

Definition writeFile (raw : result writeFileArgs) : F (string * Z) :=
  a ← decodeArgs raw;
  path ← resolveForCreate (wf_Path a);
  data ← lift (decode_content (wf_Encoding a) (wf_Content a));
  if maxWriteBytes <? len data then fail (NewErr "write exceeds 4MiB")
  else
    _ ← resolveExisting (Dir path);
    st ← try (lstat path);
    match st with
    | Ok n => if is_link n then fail (NewErr "refusing to overwrite a symlink") else mret tt
    | Err e => if IsNotExist e then mret tt else fail e
    end;;
    replace_file ".orc-write-" path data (file_mode (wf_Mode a) 384);;
    mret (path, len data).

(** ** edit_block *)

Record editArgs := mkEditArgs {
  ed_FilePath : string; ed_OldString : string; ed_NewString : string;
  ed_ExpectedReplacements : Z }.

(** [bytes.Count] and [bytes.ReplaceAll] for a separator that is not empty:
    occurrences from the left that do not overlap.  [skip] bytes of the last
    occurrence are still to be passed over. *)
Fixpoint Count (old : list byte) (skip : nat) (l : list byte) : Z :=
  match l with
  | [] => 0
  | _ :: l' =>
      match skip with
      | S k => Count old k l'
      | O => if decide (take (length old) l = old) then 1 + Count old (pred (length old)) l'
             else Count old 0 l'
      end
  end.

Fixpoint ReplaceAll (old new : list byte) (skip : nat) (l : list byte) : list byte :=
  match l with
  | [] => []
  | b :: l' =>
      match skip with
      | S k => ReplaceAll old new k l'
      | O => if decide (take (length old) l = old) then new ++ ReplaceAll old new (pred (length old)) l'
             else b :: ReplaceAll old new 0 l'
      end
  end.

Definition editBlock (raw : result editArgs) : F (string * Z * Z) :=
  a ← decodeArgs raw;
  if decide (ed_OldString a = EmptyString) then fail (NewErr "old_string cannot be empty")
  else
    let expected := if decide (ed_ExpectedReplacements a = 0) then 1 else ed_ExpectedReplacements a in
    if (expected <? 1) || (1000 <? expected) then
      fail (NewErr "expected_replacements must be between 1 and 1000")
    else
      path ← resolveExisting (ed_FilePath a);
      st ← lstat path;
      if is_link st then fail (NewErr "refusing to edit a symlink")
      else if is_dir st then fail (NewErr "path is a directory")
      else if maxWriteBytes <? size_of st then fail (NewErr "file exceeds 4MiB edit limit")
      else
        data ← readAll path;
        if negb (utf8_Valid data) then fail (NewErr "edit_block supports UTF-8 text files only")
        else
          let old := bytes_of_string (ed_OldString a) in
          let count := Count old 0 data in
          if negb (count =? expected) then
            fail (Errorf "replacement count mismatch: found %d, expected %d" [])
          else
            let newData := ReplaceAll old (bytes_of_string (ed_NewString a)) 0 data in
            if maxWriteBytes <? len newData then fail (NewErr "edited file would exceed 4MiB")
            else
              atomicWrite path newData (perm_of st);;
              mret (path, count, len newData).

(** ** list_directory, create_directory, move_file, get_file_info *)

(** [func entryType(d os.DirEntry) string] *)
Definition entryType (n : node) : string :=
  match n with NDir => "directory" | NLink _ => "symlink" | NFile _ _ => "file" end%string.

Record listReply := mkListReply {
  lr_path : string;
  lr_entries : list (string * string * Z);
  lr_truncated : bool }.

(** The entries of a directory in the order of their names. *)
Definition name_le (a b : string) : Prop := String.leb a b = true.
#[local] Instance name_le_dec : RelDecision name_le.
Proof. intros a b. unfold name_le. apply _. Defined.

Definition dir_names (fs : fsys) (dir : list string) : list string :=
  isort name_le (omap (fun kv : list string * node =>
    match reverse kv.1 with
    | c :: q => if decide (reverse q = dir) then Some c else None
    | [] => None
    end) (map_to_list fs)).

Definition readDir (path : string) : F (list (string * node)) :=
  query (fun os =>
    dir ← namei (os_fs os) (parts path);
    match node_at (os_fs os) dir with
    | Some NDir =>
        Ok (omap (fun c => n ← node_at (os_fs os) (dir ++ [c]); Some (c, n)) (dir_names (os_fs os) dir))
    | _ => Err ENOTDIR
    end).

(** The loop over the entries: [de.Info()] may fail, and then skips one. *)
Fixpoint list_entries (entries : list (string * node)) : F (list (string * string * Z)) :=
  match entries with
  | [] => mret []
  | (c, n) :: rest =>
      info ← try (query (fun _ => Ok n));
      out ← list_entries rest;
      mret match info with
           | Ok n => (c, entryType n, size_of n) :: out
           | Err _ => out
           end
  end.

Definition listDirectory (raw : result string) : F listReply :=
  a ← decodeArgs raw;
  path ← resolveExisting a;
  entries ← readDir path;
  let truncated := maxListItems <? len entries in
  out ← list_entries (if truncated then take (Z.to_nat maxListItems) entries else entries);
  mret (mkListReply path out truncated).

(** The mode goes to [os.MkdirAll], whose modes are not modelled. *)
Record createDirArgs := mkCreateDirArgs { cd_Path : string; cd_Mode : Z }.

Definition createDirectory (raw : result createDirArgs) : F string :=
  a ← decodeArgs raw;
  path ← resolveForCreate (cd_Path a);
  MkdirAll (reverse (rel_elements path));;
  mret path.

Record moveArgs := mkMoveArgs { mv_Source : string; mv_Destination : string; mv_Overwrite : bool }.

Definition moveFile (raw : result moveArgs) : F (string * string) :=
  a ← decodeArgs raw;
  src ← resolveExisting (mv_Source a);
  dst ← resolveForCreate (mv_Destination a);
  st ← try (lstat dst);
  match st with
  | Ok n =>
      if is_link n then fail (NewErr "refusing to replace symlink")
      else if negb (mv_Overwrite a) then
        fail (NewErr "destination exists; set overwrite=true to replace it")
      else mret tt
  | Err e => if IsNotExist e then mret tt else fail e
  end;;
  Rename src dst;;
  mret (src, dst).

Record infoReply := mkInfoReply {
  ir_path : string; ir_name : string; ir_size : Z; ir_is_dir : bool }.

Definition getFileInfo (raw : result string) : F infoReply :=
  a ← decodeArgs raw;
  path ← resolveExisting a;
  st ← stat path;
  mret (mkInfoReply path (Base path) (size_of st) (is_dir st)).
End Executor.
