(* ===== verification/FileProps.v ===== *)
(** * Lemmas on the system calls of FileOps.v

    What each call does to a file system when it works and when it fails, for
    paths that no symbolic link is part of; the last lemmas are about the whole
    of [replace_file], the temporary file and the rename. *)
From S2P Require Import Prelude Crypto GoStrings Filepath FileSystem PathPolicy FileOps Executor.
Local Open Scope Z_scope.

(** How many of the coming system calls fail for no reason of the model. *)
Definition pending (w : World) : nat :=
  length (omap id (w_faults w)).

(** [os.CreateTemp] draws decimal numbers. *)
Definition names_ok (w : World) : Prop := Forall (fun n => slash ∉ String.list_ascii_of_string n) (w_names w).

(** ** Running programs *)

Lemma run_bind {A B} (m : F A) (f : A -> F B) w r w' :
  (m ≫= f) w = (r, w') ->
  (exists a w1, m w = (Ok a, w1) /\ f a w1 = (r, w')) \/
  (exists e, m w = (Err e, w') /\ r = Err e).
Proof. unfold mbind, F_bind. destruct (m w) as [[a|e] w1]; naive_solver. Qed.

Lemma run_bind_Ok {A B} (m : F A) (f : A -> F B) w a w1 :
  m w = (Ok a, w1) -> (m ≫= f) w = f a w1.
Proof. unfold mbind, F_bind. by intros ->. Qed.

Lemma run_try {A} (m : F A) w r w' : try m w = (r, w') -> exists r0, r = Ok r0 /\ m w = (r0, w').
Proof. unfold try. destruct (m w). naive_solver. Qed.

Lemma run_sys {A} br (f : Os -> result A * Os) w r w' :
  sys br f w = (r, w') ->
  (w_names w' = w_names w /\ w_faults w' = tail (w_faults w)) /\
  ((r, w_os w') = f (w_os w) /\ pending w' = pending w \/
   exists e n, (r = Err e /\ Some (e, n) ∈ w_faults w) /\ w_os w' = br n (w_os w) /\
     (pending w' < pending w)%nat).
Proof.
  unfold sys, pending. destruct w as [os fl ns]; cbn. destruct fl as [|[[e n]|] fl].
  - destruct (f os) as [r0 os0]. intros [= <- <-]. naive_solver.
  - intros [= <- <-]. split; [done|]. right. exists e, n.
    split_and!; [done|apply list_elem_of_here|done|]. cbn. lia.
  - destruct (f os) as [r0 os0]. intros [= <- <-]. naive_solver.
Qed.

(** Programs that only look at the world. *)
Class Looks {A} (m : F A) : Prop :=
  looks w r w' : m w = (r, w') ->
    w_os w' = w_os w /\ (w_names w' = w_names w /\ w_faults w' `suffix_of` w_faults w) /\
    (pending w' <= pending w)%nat.

#[export] Instance looks_ret {A} (a : A) : Looks (mret a).
Proof. intros w r w' [= <- <-]. by auto. Qed.
#[export] Instance looks_fail {A} e : Looks (A:=A) (fail e).
Proof. intros w r w' [= <- <-]. by auto. Qed.
#[export] Instance looks_lift {A} (r0 : result A) : Looks (lift r0).
Proof. intros w r w' [= <- <-]. by auto. Qed.
#[export] Instance looks_decodeArgs {A} (raw : result A) : Looks (decodeArgs raw).
Proof. destruct raw; apply _. Qed.
#[export] Instance looks_query {A} (f : Os -> result A) : Looks (query f).
Proof.
  intros w r w' H. apply run_sys in H as ([Hn Hf] & H).
  assert (w_faults w' `suffix_of` w_faults w).
  { rewrite Hf. destruct (w_faults w); [done|]. by apply suffix_cons_r. }
  destruct H as [[[= _ Ho] Hp]|(e & n & _ & Ho & Hp)]; split_and!; try done; lia.
Qed.
#[export] Instance looks_try {A} (m : F A) : Looks m -> Looks (try m).
Proof. intros Hm w r w' (r0 & -> & H)%run_try. by eapply Hm. Qed.
#[export] Instance looks_bind {A B} (m : F A) (f : A -> F B) :
  Looks m -> (forall a, Looks (f a)) -> Looks (m ≫= f).
Proof.
  intros Hm Hf w r w' [(a & w1 & H1 & H2)|(e & H1 & _)]%run_bind; [|by eapply Hm].
  apply Hm in H1 as (? & ? & ?). apply Hf in H2 as (? & [? ?] & ?). destruct_and!.
  split_and!; [congruence|congruence|by etrans|lia].
Qed.
#[export] Instance looks_if {A} (b : bool) (m1 m2 : F A) : Looks m1 -> Looks m2 -> Looks (if b then m1 else m2).
Proof. by destruct b. Qed.
#[export] Instance looks_if_dec {A} (P : Prop) (d : Decision P) (m1 m2 : F A) :
  Looks m1 -> Looks m2 -> Looks (if d then m1 else m2).
Proof. by destruct d. Qed.

(** What a query answers, if it answers at all. *)
Lemma run_query_Ok {A} (f : Os -> result A) w a w' :
  query f w = (Ok a, w') -> f (w_os w) = Ok a.
Proof.
  intros H. apply run_sys in H as (_ & [[[= E _] _]|(e & n & [E _] & _)]); [done|discriminate E].
Qed.

Lemma run_query_Err {A} (f : Os -> result A) w e w' :
  query f w = (Err e, w') -> f (w_os w) = Err e \/ exists n, Some (e, n) ∈ w_faults w.
Proof.
  intros H. apply run_sys in H as (_ & [[[= E _] _]|(e' & n & [[= ->] He] & _)]); [by left|right].
  by exists n.
Qed.

Lemma run_query {A} (f : Os -> result A) w :
  w_faults w = [] -> query f w = (f (w_os w), w).
Proof. destruct w as [os fl ns]. cbn. by intros ->. Qed.

(** A program that only looks, in the first place of a sequence. *)
Lemma run_look {A B} (m : F A) `{!Looks m} (f : A -> F B) w r w' :
  (m ≫= f) w = (r, w') ->
  (exists a w1, m w = (Ok a, w1) /\ f a w1 = (r, w') /\
    w_os w1 = w_os w /\ (w_names w1 = w_names w /\ w_faults w1 `suffix_of` w_faults w) /\
    (pending w1 <= pending w)%nat) \/
  (exists e, r = Err e /\ w_os w' = w_os w /\
    (w_names w' = w_names w /\ w_faults w' `suffix_of` w_faults w) /\ (pending w' <= pending w)%nat).
Proof.
  intros [(a & w1 & H1 & H2)|(e & H1 & ->)]%run_bind; [left|right].
  - exists a, w1. apply looks in H1 as H3. tauto.
  - exists e. by apply looks in H1.
Qed.

(** ** File systems *)

Lemma node_at_insert fs t n p :
  t <> [] -> node_at (<[t := n]> fs) p = if decide (p = t) then Some n else node_at fs p.
Proof.
  intros Ht. unfold node_at. case_decide as E1; [subst; by rewrite decide_False by congruence|].
  case_decide as E2; [subst; by rewrite lookup_insert_eq|]. by rewrite lookup_insert_ne by congruence.
Qed.

Lemma snoc_nonempty {A} (l : list A) x : l ++ [x] <> [].
Proof. by destruct l. Qed.

#[export] Hint Resolve snoc_nonempty : core.

Lemma lookup_node_at fs p : p <> [] -> fs !! p = node_at fs p.
Proof. intros H. unfold node_at. by rewrite decide_False. Qed.

Lemma real_dir_insert fs ds t n :
  real_dir fs ds -> (length ds < length t)%nat -> real_dir (<[t := n]> fs) ds.
Proof.
  intros [Hp Hd] Hl. assert (t <> []) as Ht by (destruct t; simpl in *; [lia|done]). split.
  - intros q c k ->. rewrite node_at_insert by done. rewrite decide_False; [by eapply Hp|].
    intros ->. rewrite length_app in Hl. lia.
  - rewrite node_at_insert by done. rewrite decide_False; [done|]. intros ->. lia.
Qed.

Lemma fs_ok_insert fs ds c n :
  fs_ok fs -> node_at fs ds = Some NDir -> name c ->
  (n = NDir \/ node_at fs (ds ++ [c]) <> Some NDir) -> fs_ok (<[ds ++ [c] := n]> fs).
Proof.
  intros [H0 Hok] Hd Hc Hn. split; [by rewrite lookup_insert_ne|].
  intros p d m. rewrite lookup_insert. rewrite node_at_insert by done.
  case_decide as E.
  - apply app_inj_tail in E as [<- <-]. intros _. split; [done|].
    rewrite decide_False; [done|]. intros E. apply (f_equal length) in E. rewrite length_app in E. simpl in E. lia.
  - intros H. destruct (Hok p d m H) as [Hd1 Hd2]. split; [done|]. case_decide as E2; [|done].
    subst p. destruct Hn as [->|Hn]; [done|]. by rewrite Hd2 in Hn.
Qed.

Lemma fs_child fs p c k : fs_ok fs -> node_at fs p <> Some NDir -> fs !! (p ++ c :: k) = None.
Proof.
  intros Hok Hp. rewrite (cons_middle c p k), app_assoc. destruct (node_at fs (p ++ [c])) eqn:E.
  - exfalso. rewrite <- lookup_node_at in E by done. by apply Hok in E as [_ E].
  - rewrite lookup_node_at by (by destruct p). by apply node_at_missing.
Qed.

Lemma link_free_prefix fs p k : link_free fs (p ++ k) -> link_free fs p.
Proof. intros H q l t ->. eapply (H q (l ++ k)). by rewrite <- app_assoc. Qed.

Lemma real_dir_link_free fs p : real_dir fs p -> link_free fs p.
Proof. intros H. by apply canonical_link_free, real_dir_canonical. Qed.

(** The kernel follows no link on such a path. *)
Lemma walk_link_free fs e links dest todo p :
  Forall name todo -> link_free fs (dest ++ todo) ->
  walk fs e links dest todo = Ok p -> p = dest ++ todo.
Proof.
  revert dest. induction todo as [|c rest IH]; intros dest Hn Hl.
  - rewrite walk_nil, app_nil_r. congruence.
  - apply Forall_cons in Hn as [Hc Hn]. rewrite walk_name by done.
    destruct (node_at fs (dest ++ [c])) as [[| |t]|] eqn:E; [|case_decide; [|done]| |done].
    + intros H%IH; rewrite <- ?app_assoc in *; done.
    + subst. congruence.
    + exfalso. eapply (Hl (dest ++ [c])); [|exact E]. by rewrite <- app_assoc.
Qed.

Lemma namei_link_free fs p q :
  Forall name p -> link_free fs p -> namei fs p = Ok q -> q = p /\ canonical fs p.
Proof.
  unfold namei. intros Hn Hl H.
  pose proof (walk_canonical _ _ _ _ _ _ (real_dir_root fs) H) as Hc.
  apply walk_link_free in H; [|done|done]. cbn in H. by subst.
Qed.

Lemma namei_canonical fs p : Forall name p -> canonical fs p -> namei fs p = Ok p.
Proof. intros Hn Hc. unfold namei. by rewrite (walk_of_canonical _ _ _ [] p). Qed.

Lemma namei_render fs p : Forall name p -> namei fs (parts (render true p)) = namei fs p.
Proof.
  intros Hn. unfold namei. rewrite parts_render, walk_empty by done.
  case_decide; [subst; by rewrite walk_empty|done].
Qed.

Lemma rel_elements_render p : Forall name p -> rel_elements (render true p) = p.
Proof. intros Hn. unfold rel_elements. by rewrite nonempty_parts_render. Qed.

Lemma locate_Ok fs p l :
  Forall name p -> link_free fs p -> locate fs (render true p) = Ok l ->
  p = at_path l /\ real_dir fs l.1.
Proof.
  intros Hn Hl. unfold locate. rewrite rel_elements_render by done.
  destruct p as [|c ds _] using rev_ind; [done|].
  rewrite reverse_app, reverse_singleton. cbn [app]. rewrite reverse_involutive.
  intros (dir & Hw & H)%result_bind_ok. case_decide as Hd; [|done]. injection H as <-.
  apply Forall_app in Hn as [Hn _]. apply link_free_prefix in Hl.
  apply namei_link_free in Hw as [-> Hc]; [|done|done]. split; [done|]. by split; [apply Hc|].
Qed.

Lemma locate_real fs ds c :
  Forall name (ds ++ [c]) -> real_dir fs ds -> locate fs (render true (ds ++ [c])) = Ok (ds, c).
Proof.
  intros Hn Hd. unfold locate. rewrite rel_elements_render by done.
  rewrite reverse_app, reverse_singleton. cbn [app]. rewrite reverse_involutive.
  apply Forall_app in Hn as [Hn _].
  rewrite (result_bind_eq _ _ _ (namei_canonical _ _ Hn (real_dir_canonical _ _ Hd))).
  by rewrite decide_True by apply Hd.
Qed.

(** ** The calls *)

Definition temp_prefix (prefix : string) : Prop :=
  (2 < String.length prefix)%nat /\ slash ∉ String.list_ascii_of_string prefix.

Lemma list_ascii_of_string_app a b :
  String.list_ascii_of_string (a ++ b) = String.list_ascii_of_string a ++ String.list_ascii_of_string b.
Proof. induction a as [|x a IH]; [done|]. exact (f_equal (cons x) IH). Qed.

Lemma temp_name prefix n :
  temp_prefix prefix -> slash ∉ String.list_ascii_of_string n -> name (prefix ++ n)%string.
Proof.
  intros [Hl Hs] Hn. destruct prefix as [|a [|b [|c prefix]]]; cbn in Hl; [lia..|].
  split_and!; [done..|]. rewrite list_ascii_of_string_app, elem_of_app. tauto.
Qed.

Lemma create_temp_Ok prefix ns dir fs c ns' :
  create_temp prefix ns dir fs = Ok (c, ns') ->
  exists n, c = (prefix ++ n)%string /\ n ∈ ns /\ node_at fs (dir ++ [c]) = None.
Proof.
  induction ns as [|n ns IH]; cbn; [done|]. case_decide as E.
  - intros [= <- <-]. exists n. split_and!; [done|set_solver|done].
  - intros (n' & -> & Hin & Hat)%IH. exists n'. split_and!; [done|set_solver|done].
Qed.

Lemma CreateTemp_spec prefix ds w r w' :
  temp_prefix prefix -> names_ok w -> Forall name ds -> link_free (os_fs (w_os w)) ds ->
  CreateTemp (render true ds) prefix w = (r, w') ->
  (pending w' <= pending w)%nat /\
  match r with
  | Ok nm => exists n, let t := ds ++ [(prefix ++ n)%string] in
      nm = render true t /\ name (prefix ++ n)%string /\
      real_dir (os_fs (w_os w)) ds /\ node_at (os_fs (w_os w)) t = None /\
      w_os w' = with_fs (w_os w) (<[t := NFile [] 384]> (os_fs (w_os w)))
  | Err _ => w_os w' = w_os w
  end.
Proof.
  intros Hpre Hns Hds Hl. unfold CreateTemp. rewrite namei_render by done.
  destruct w as [os fl ns]; cbn [w_os w_faults w_names] in *.
  match goal with |- _ -> ?G => assert (forall fl', (length (omap id fl') <= length (omap id fl))%nat ->
    match (dir ← namei (os_fs os) ds;
           if decide (node_at (os_fs os) dir = Some NDir) then
             '(c, names) ← create_temp prefix ns dir (os_fs os); Ok (dir, c, names)
           else Err ENOTDIR) with
    | Ok (dir, c, names) =>
        (Ok (JoinPath [render true ds; c]),
         mkWorld (with_fs os (<[dir ++ [c] := NFile [] 384]> (os_fs os))) fl' names)
    | Err e => (Err e, mkWorld os fl' ns)
    end = (r, w') -> G) as H end.
  2: { destruct fl as [|[[e n]|] fl]; [apply (H [])|intros [= <- <-]; unfold pending; cbn; split; [lia|done]|apply (H fl)];
       unfold pending; cbn; lia. }
  intros fl' Hfl H. destruct (dir ← _; _) as [[[dir c] ns']|e] eqn:E.
  - injection H as <- <-. unfold pending. cbn [w_faults w_os]. split; [done|].
    apply result_bind_ok in E as (d & Hd & E). case_decide as Hdir; [|done].
    apply result_bind_ok in E as ([c0 ns0] & Hc & [= <- <- <-]).
    apply namei_link_free in Hd as [-> Hcan]; [|done|done].
    apply create_temp_Ok in Hc as (n & -> & Hin & Hat). exists n.
    assert (name (prefix ++ n)%string) as Hname.
    { apply temp_name; [done|]. unfold names_ok in Hns. cbn in Hns. by rewrite Forall_forall in Hns; apply Hns. }
    split_and!; try done; [by apply JoinPath_render|by split; [apply Hcan|]].
  - injection H as <- <-. unfold pending. cbn. by split.
Qed.

(** Changing a file that is there. *)
Lemma update_file_real ds c f os content perm :
  Forall name (ds ++ [c]) -> real_dir (os_fs os) ds ->
  os_fs os !! (ds ++ [c]) = Some (NFile content perm) ->
  update_file (render true (ds ++ [c])) f os =
    (Ok tt, with_fs os (<[ds ++ [c] := f content perm]> (os_fs os))).
Proof.
  intros Hn Hd Hf. unfold update_file. rewrite locate_real by done.
  unfold at_path; cbn [fst snd]. by rewrite <- lookup_node_at, Hf by done.
Qed.

Lemma Remove_spec ds c w r w' :
  Forall name (ds ++ [c]) -> real_dir (os_fs (w_os w)) ds ->
  is_Some (os_fs (w_os w) !! (ds ++ [c])) ->
  Remove (render true (ds ++ [c])) w = (r, w') ->
  w_os w' = with_fs (w_os w) (delete (ds ++ [c]) (os_fs (w_os w))) /\ (pending w' <= pending w)%nat \/
  w_os w' = w_os w /\ (pending w' < pending w)%nat.
Proof.
  intros Hn Hd [n Hf] H. apply run_sys in H as (_ & [[H Hp]|(e & k & [-> _] & Ho & Hp)]); [left|by right].
  rewrite locate_real in H by done. unfold at_path in H; cbn [fst snd] in H.
  rewrite <- lookup_node_at, Hf in H by done. injection H as -> ->. by split; [|lia].
Qed.

(** ** Moving *)

Lemma lookup_moved p1 p2 fs q :
  moved p1 p2 fs !! q = if decide (p2 `prefix_of` q) then fs !! (p1 ++ drop (length p2) q) else None.
Proof.
  unfold moved. set (g := fun kv : list string * node => _).
  assert (NoDup (omap g (map_to_list fs)).*1) as Hnd.
  { pose proof (NoDup_fst_map_to_list fs) as H. revert H. generalize (map_to_list fs). intros l.
    induction l as [|[k n] l IH]; [by constructor|]. cbn [fmap list_fmap fst]. intros [Hk Hl]%NoDup_cons.
    cbn [omap list_omap]. destruct (g (k, n)) as [[k' n']|] eqn:E; [|by apply IH].
    cbn [fmap list_fmap fst]. constructor; [|by apply IH]. unfold g in E. cbn in E. case_decide as Hp; [|done].
    injection E as <- <-. intros Hin. apply Hk.
    apply list_elem_of_fmap in Hin as ([k2 n2] & E & Hin). cbn in E. subst k2.
    apply list_elem_of_omap in Hin as ([k3 n3] & Hin & E). unfold g in E. cbn in E.
    case_decide as Hp3; [|done]. injection E as E <-. apply app_inv_head in E.
    destruct Hp as [x ->], Hp3 as [y ->]. rewrite !drop_app_length in E. subst y.
    apply list_elem_of_fmap. by exists (p1 ++ x, n3). }
  apply option_eq. intros n. rewrite <- elem_of_list_to_map by done. rewrite list_elem_of_omap. split.
  - intros ([k m] & Hin & E). unfold g in E. cbn in E. case_decide as Hp; [|done]. injection E as <- <-.
    destruct Hp as [x ->]. rewrite drop_app_length, decide_True by by exists x.
    rewrite drop_app_length. by apply elem_of_map_to_list.
  - case_decide as Hp; [|done]. destruct Hp as [x ->]. rewrite drop_app_length. intros Hx.
    exists (p1 ++ x, n). split; [by apply elem_of_map_to_list|]. unfold g. cbn.
    rewrite decide_True by by exists x. by rewrite drop_app_length.
Qed.

Lemma lookup_move_tree p1 p2 fs q :
  move_tree p1 p2 fs !! q =
    match (if decide (p2 `prefix_of` q) then fs !! (p1 ++ drop (length p2) q) else None) with
    | Some n => Some n
    | None => if decide (p1 `prefix_of` q \/ q = p2) then None else fs !! q
    end.
Proof.
  unfold move_tree. rewrite lookup_union, lookup_moved.
  set (x := if decide (p2 `prefix_of` q) then _ else _).
  assert (filter (fun kv : list string * node => ~ p1 `prefix_of` kv.1) (delete p2 fs) !! q =
    (if decide (p1 `prefix_of` q \/ q = p2) then None else fs !! q)) as ->.
  { rewrite map_lookup_filter, lookup_delete. destruct (decide (p2 = q)) as [->|Hq].
    - by rewrite decide_True by auto.
    - destruct (decide (p1 `prefix_of` q)) as [Hp|Hp].
      + rewrite (decide_True (P := _ \/ _)) by auto. destruct (fs !! q); cbn; [|done].
        by rewrite option_guard_False by (cbn; tauto).
      + rewrite (decide_False (P := _ \/ _)) by naive_solver. destruct (fs !! q); cbn; [|done].
        by rewrite option_guard_True by (cbn; tauto). }
  destruct x; [by destruct (if decide _ then _ else _)|]. by destruct (if decide _ then _ else _).
Qed.

(** A fresh file that takes the place of a file, or of nothing. *)
Lemma move_fresh_file fs t p n :
  fs_ok fs -> t <> [] -> p <> [] -> p <> t ->
  node_at fs t = None -> node_at fs p <> Some NDir ->
  move_tree t p (<[t := n]> fs) = <[p := n]> fs.
Proof.
  intros Hok Ht Hp Hpt Hft Hfp. apply map_eq. intros q. rewrite lookup_move_tree.
  assert (forall k, k <> [] -> <[t := n]> fs !! (t ++ k) = None) as Hchild.
  { intros [|c k] Hk; [done|]. rewrite lookup_insert_ne; [apply fs_child; [done|congruence]|].
    intros E. apply (f_equal length) in E. rewrite length_app in E. simpl in E. lia. }
  destruct (decide (p `prefix_of` q)) as [[k ->]|Hpq].
  - rewrite drop_app_length. destruct k as [|c k].
    + by rewrite !app_nil_r, !lookup_insert_eq.
    + rewrite Hchild by done.
      assert (<[p := n]> fs !! (p ++ c :: k) = None) as ->.
      { rewrite lookup_insert_ne; [by apply fs_child|].
        intros E. apply (f_equal length) in E. rewrite length_app in E. simpl in E. lia. }
      case_decide as Hq; [done|]. rewrite lookup_insert_ne; [by apply fs_child|].
      intros ->. apply Hq. by left.
  - assert (p <> q) by (intros ->; by apply Hpq).
    rewrite (lookup_insert_ne _ p) by done. case_decide as Hq.
    + destruct Hq as [[[|c k] ->]| ->]; [|by rewrite fs_child by congruence|done].
      by rewrite app_nil_r, lookup_node_at by done.
    + rewrite lookup_insert_ne; [done|]. intros ->. apply Hq. by left.
Qed.

(** [os.Rename] between canonical directories. *)
Lemma Rename_spec d1 c1 d2 c2 w r w' :
  Forall name (d1 ++ [c1]) -> Forall name (d2 ++ [c2]) ->
  real_dir (os_fs (w_os w)) d1 -> real_dir (os_fs (w_os w)) d2 ->
  Rename (render true (d1 ++ [c1])) (render true (d2 ++ [c2])) w = (r, w') ->
  (pending w' <= pending w)%nat /\
  match r with
  | Ok _ =>
      let fs := os_fs (w_os w) in let p1 := d1 ++ [c1] in let p2 := d2 ++ [c2] in
      (exists n, node_at fs p1 = Some n /\
        (n = NDir -> node_at fs p2 = None /\ ~ p1 `prefix_of` p2)) /\
      node_at fs p2 <> Some NDir /\
      w_os w' = if decide (p1 = p2) then w_os w else with_fs (w_os w) (move_tree p1 p2 fs)
  | Err _ => w_os w' = w_os w
  end.
Proof.
  intros Hn1 Hn2 Hd1 Hd2 H. apply run_sys in H as (_ & [[H Hp]|(e & k & [-> _] & Ho & Hp)]); [|by split; [lia|]].
  split; [lia|]. unfold rename in H. rewrite !locate_real in H by done.
  cbn [mbind result_bind] in H. unfold at_path in H; cbn [fst snd] in H.
  destruct (node_at (os_fs (w_os w)) (d1 ++ [c1])) as [n1|] eqn:E1; [|by injection H as -> ->].
  destruct (node_at (os_fs (w_os w)) (d2 ++ [c2])) as [n2|] eqn:E2.
  - destruct n2; [by injection H as -> ->| |]; destruct n1; try (by injection H as -> ->);
      (case_decide as Hc; [by destruct Hc|]); injection H as -> ->; (split_and!; [|congruence|done]);
      eexists; (split; [exact E1|done]).
  - case_decide as Hc; [by injection H as -> ->|]. injection H as -> ->. split_and!; [|congruence|done].
    exists n1. split; [done|]. intros ->. split; [done|]. tauto.
Qed.

(** ** Replacing a file *)

Section replace_file.
Context (os : Os) (ds cs : list string) (tc : string) (data : list byte) (mode : Z).
Context (Hok : fs_ok (os_fs os)) (Hds : Forall name ds) (Htc : name tc)
  (Hdir : real_dir (os_fs os) ds).
Context (Hcs : Forall name cs) (Hcd : cs = [] \/ exists c, cs = ds ++ [c]).
Let t := ds ++ [tc].
Context (Hfresh : node_at (os_fs os) t = None).

(** The temporary file is there, with some content. *)
Definition has_temp (w : World) (n : node) : Prop :=
  w_os w = with_fs os (<[t := n]> (os_fs os)).

Lemma names_snoc x : name x -> Forall name (ds ++ [x]).
Proof. intros Hx. apply Forall_app. by repeat constructor; [|apply Hx..]. Qed.

Lemma has_temp_dir w n : has_temp w n -> real_dir (os_fs (w_os w)) ds.
Proof. intros ->. apply real_dir_insert; [done|]. unfold t. rewrite length_app. simpl. lia. Qed.

Lemma update_temp w content perm f r os' :
  has_temp w (NFile content perm) -> update_file (render true t) f (w_os w) = (r, os') ->
  r = Ok tt /\ os' = with_fs os (<[t := f content perm]> (os_fs os)).
Proof.
  intros Hw. unfold t. rewrite (update_file_real ds tc f _ content perm).
  - intros [= <- <-]. split; [done|]. rewrite Hw. unfold with_fs; cbn. by rewrite insert_insert_eq.
  - by apply names_snoc.
  - by eapply has_temp_dir.
  - rewrite Hw. cbn. unfold t. by rewrite lookup_insert_eq.
Qed.

Lemma Chmod_temp w content perm r w' :
  has_temp w (NFile content perm) -> Chmod (render true t) mode w = (r, w') ->
  (pending w' <= pending w)%nat /\
  has_temp w' (match r with Ok _ => NFile content mode | Err _ => NFile content perm end).
Proof.
  intros Hw H. apply run_sys in H as (_ & [[H Hp]|(e & n & [-> _] & Ho & Hp)]).
  - split; [lia|]. symmetry in H. by eapply update_temp in H as [-> H].
  - split; [lia|]. unfold has_temp. by rewrite Ho.
Qed.

Lemma Write_temp w content perm r w' :
  has_temp w (NFile content perm) -> Write (render true t) data w = (r, w') ->
  (pending w' <= pending w)%nat /\
  exists n, (r = Ok tt -> n = length data) /\ has_temp w' (NFile (content ++ take n data) perm).
Proof.
  intros Hw H. apply run_sys in H as (_ & [[H Hp]|(e & n & [-> _] & Ho & Hp)]).
  - split; [lia|]. symmetry in H. eapply update_temp in H as [-> H]; [|done].
    exists (length data). by rewrite firstn_all.
  - split; [lia|]. exists n. split; [done|]. unfold has_temp. rewrite Ho.
    destruct (update_file _ _ _) as [r2 os2] eqn:E. by eapply update_temp in E as [_ ->].
Qed.

Lemma Rename_temp w r w' :
  has_temp w (NFile data mode) -> Rename (render true t) (render true cs) w = (r, w') ->
  (pending w' <= pending w)%nat /\
  match r with
  | Ok _ =>
      cs <> [] /\ node_at (os_fs os) cs <> Some NDir /\
      w_os w' = with_fs os (<[cs := NFile data mode]> (os_fs os))
  | Err _ => w_os w' = w_os w
  end.
Proof.
  intros Hw H. destruct Hcd as [->|[c ->]].
  - apply run_sys in H as (_ & [[H Hp]|(e & n & [-> _] & Ho & Hp)]); [|by split; [lia|]].
    split; [lia|]. unfold rename in H. destruct (locate _ (render true t)); by injection H as -> ->.
  - apply Rename_spec in H as [P5 H]; [|by apply names_snoc|done|by eapply has_temp_dir|by eapply has_temp_dir].
    split; [done|]. destruct r as [[]|e]; [|done].
    destruct H as (_ & Hnd & ->). fold t in Hnd |- *. rewrite Hw in Hnd |- *. cbn [os_fs with_fs] in *.
    split; [done|]. case_decide as E; [split; [rewrite <- E; congruence|by rewrite <- E]|]. unfold with_fs; cbn.
    rewrite node_at_insert, decide_False in Hnd by (unfold t; auto). split; [done|]. f_equal.
    apply move_fresh_file; try done; by apply snoc_nonempty.
Qed.

Lemma write_temp_spec w r w' :
  has_temp w (NFile [] 384) ->
  (Chmod (render true t) mode;; Write (render true t) data;; Sync;; CloseFile;;
   Rename (render true t) (render true cs)) w = (r, w') ->
  (pending w' <= pending w)%nat /\
  match r with
  | Ok _ =>
      cs <> [] /\ node_at (os_fs os) cs <> Some NDir /\
      w_os w' = with_fs os (<[cs := NFile data mode]> (os_fs os))
  | Err _ => exists content perm, has_temp w' (NFile content perm)
  end.
Proof.
  intros Hw [([] & w1 & H1 & H)|(e & H1 & ->)]%run_bind;
    apply (Chmod_temp _ _ _ _ _ Hw) in H1 as [P1 H1]; [|by eauto].
  apply run_bind in H as [([] & w2 & H2 & H)|(e & H2 & ->)];
    apply (Write_temp _ _ _ _ _ H1) in H2 as [P2 (n & Hn & H2)]; [|split; [lia|by eauto]].
  rewrite (Hn eq_refl), firstn_all in H2. cbn [app] in H2.
  unfold has_temp in H2.
  apply (run_look Sync) in H as [([] & w3 & _ & H & O3 & _ & P3)|(e & -> & O3 & _ & P3)].
  2: { split; [lia|]. exists data, mode. unfold has_temp. by rewrite O3. }
  apply (run_look CloseFile) in H as [([] & w4 & _ & H & O4 & _ & P4)|(e & -> & O4 & _ & P4)].
  2: { split; [lia|]. exists data, mode. unfold has_temp. by rewrite O4, O3. }
  rewrite <- O3, <- O4 in H2.
  apply Rename_temp in H as [P5 H]; [|done]. split; [lia|].
  destruct r as [[]|e]; [done|]. exists data, mode. unfold has_temp. congruence.
Qed.
End replace_file.

(** What is left of a write that failed: nothing, or, at the price of a system
    call that failed, a temporary file beside the target. *)
Definition leftover (prefix : string) (ds : list string) (w w' : World) : Prop :=
  (pending w' < pending w)%nat /\
  exists n content perm, let t := ds ++ [(prefix ++ n)%string] in
    name (prefix ++ n)%string /\ real_dir (os_fs (w_os w)) ds /\
    node_at (os_fs (w_os w)) t = None /\
    w_os w' = with_fs (w_os w) (<[t := NFile content perm]> (os_fs (w_os w))).

Lemma with_fs_id os : with_fs os (os_fs os) = os.
Proof. by destruct os. Qed.

Lemma replace_file_spec prefix ds cs data mode w r w' :
  temp_prefix prefix -> names_ok w -> fs_ok (os_fs (w_os w)) ->
  Forall name cs -> Dir (render true cs) = render true ds -> Forall name ds ->
  (cs = [] \/ exists c, cs = ds ++ [c]) -> link_free (os_fs (w_os w)) ds ->
  replace_file prefix (render true cs) data mode w = (r, w') ->
  (pending w' <= pending w)%nat /\
  match r with
  | Ok _ =>
      cs <> [] /\ real_dir (os_fs (w_os w)) ds /\ node_at (os_fs (w_os w)) cs <> Some NDir /\
      w_os w' = with_fs (w_os w) (<[cs := NFile data mode]> (os_fs (w_os w)))
  | Err _ => w_os w' = w_os w \/ leftover prefix ds w w'
  end.
Proof.
  intros Hpre Hns Hok Hn Hdir Hds Hcd Hl. unfold replace_file. rewrite Hdir.
  intros [(nm & w1 & H1 & H)|(e & H1 & ->)]%run_bind;
    apply CreateTemp_spec in H1 as [P1 H1]; try done; [|by auto].
  destruct H1 as (n & -> & Htc & Hd & Hfresh & Hw1). set (tc := (prefix ++ n)%string) in *.
  apply run_bind in H as [(r1 & w2 & H2 & H)|(e & (r0 & ? & _)%run_try & _)]; [|done].
  apply run_try in H2 as (r2 & [= ->] & H2).
  pose proof (write_temp_spec (w_os w) ds cs tc data mode Hok Hds Htc Hd Hn Hcd Hfresh w1 _ _ Hw1 H2) as [P2 H3].
  destruct r2 as [[]|e].
  - injection H as <- <-. split; [lia|]. destruct H3 as (? & ? & ->). by split_and!.
  - destruct H3 as (content & perm & Hw2).
    apply run_bind in H as [(r3 & w3 & H4 & H)|(e' & (r0 & ? & _)%run_try & _)]; [|done].
    injection H as <- <-. apply run_try in H4 as (r4 & _ & H4). unfold has_temp in Hw2.
    apply Remove_spec in H4; [|by apply names_snoc|by eapply has_temp_dir|].
    2: { rewrite Hw2. cbn. rewrite lookup_insert_eq. by eexists. }
    destruct H4 as [[H4 P4]|[H4 P4]]; (split; [lia|]).
    + left. rewrite H4, Hw2. unfold with_fs at 1. cbn [os_fs with_fs].
      rewrite delete_insert_eq, delete_id by (by rewrite lookup_node_at). by destruct (w_os w).
    + right. split; [lia|]. exists n, content, perm. by rewrite H4.
Qed.

(** [os.Rename] between any two paths that no link is part of. *)
Definition entry_of_dir (fs : fsys) (p : list string) : Prop :=
  exists d c, p = d ++ [c] /\ real_dir fs d.

Lemma Rename_run p1 p2 w r w' :
  Forall name p1 -> Forall name p2 -> link_free (os_fs (w_os w)) p1 -> link_free (os_fs (w_os w)) p2 ->
  Rename (render true p1) (render true p2) w = (r, w') ->
  (pending w' <= pending w)%nat /\
  match r with
  | Ok _ =>
      let fs := os_fs (w_os w) in
      entry_of_dir fs p1 /\ entry_of_dir fs p2 /\
      (exists n, node_at fs p1 = Some n /\
        (n = NDir -> node_at fs p2 = None /\ ~ p1 `prefix_of` p2)) /\
      node_at fs p2 <> Some NDir /\
      w_os w' = if decide (p1 = p2) then w_os w else with_fs (w_os w) (move_tree p1 p2 fs)
  | Err _ => w_os w' = w_os w
  end.
Proof.
  intros Hn1 Hn2 Hl1 Hl2 H.
  destruct (locate (os_fs (w_os w)) (render true p1)) as [[d1 c1]|e1] eqn:E1.
  - destruct (locate (os_fs (w_os w)) (render true p2)) as [[d2 c2]|e2] eqn:E2.
    + apply locate_Ok in E1 as [-> Hd1]; [|done|done]. apply locate_Ok in E2 as [-> Hd2]; [|done|done].
      apply Rename_spec in H as [HP H]; [|done..]. split; [done|]. destruct r; [|done].
      split_and!; [by exists d1, c1|by exists d2, c2|apply H..].
    + apply run_sys in H as (_ & [[H Hp]|(e & k & [-> _] & Ho & Hp)]); [|by split; [lia|]].
      split; [lia|]. unfold rename in H. rewrite E1, E2 in H. by injection H as -> ->.
  - apply run_sys in H as (_ & [[H Hp]|(e & k & [-> _] & Ho & Hp)]); [|by split; [lia|]].
    split; [lia|]. unfold rename in H. rewrite E1 in H. by injection H as -> ->.
Qed.

(** ** Creating directories *)

(** [p] lies strictly above [q], or is [q]. *)
Lemma Stat_Ok os p n : Forall name p -> link_free (os_fs os) p -> Stat os (render true p) = Ok n ->
  node_at (os_fs os) p = Some n /\ canonical (os_fs os) p.
Proof.
  intros Hn Hl. unfold Stat. rewrite namei_render by done. intros (q & Hq & H)%result_bind_ok.
  apply namei_link_free in Hq as [-> Hc]; [|done|done]. destruct (node_at _ _); [|done].
  by injection H as ->.
Qed.

(** The file system after some of the missing directories of [p] were made. *)
Definition grown (p : list string) (fs fs' : fsys) : Prop :=
  forall q, fs' !! q = fs !! q \/ (q `prefix_of` p /\ node_at fs q = None /\ fs' !! q = Some NDir).

Lemma grown_refl p fs : grown p fs fs.
Proof. intros q. by left. Qed.

Lemma grown_node_at p fs fs' q : grown p fs fs' ->
  node_at fs' q = node_at fs q \/ (q `prefix_of` p /\ node_at fs q = None /\ node_at fs' q = Some NDir).
Proof. intros H. unfold node_at. case_decide; [by left|]. destruct (H q) as [?|(?&?&?)]; [by left|]. right. by rewrite lookup_node_at. Qed.

Lemma grown_trans p q fs1 fs2 fs3 :
  grown p fs1 fs2 -> grown q fs2 fs3 -> p `prefix_of` q -> grown q fs1 fs3.
Proof.
  intros H1 H2 Hpq x. destruct (H2 x) as [->|(Hx & Hn & ->)].
  - destruct (H1 x) as [?|(? & ? & ?)]; [by left|right]. split_and!; [by etrans|done|done].
  - right. split_and!; [done| |done].
    destruct (grown_node_at _ _ _ x H1) as [<-|(_ & ? & _)]; done.
Qed.

Lemma grown_link_free p fs fs' q : grown p fs fs' -> link_free fs q -> link_free fs' q.
Proof.
  intros Hg Hl x k t E H. destruct (grown_node_at _ _ _ x Hg) as [Ex|(_ & _ & Ex)]; [|congruence].
  rewrite Ex in H. by eapply Hl.
Qed.

Lemma Lstat_real_dir os p : Forall name p -> link_free (os_fs os) p ->
  Lstat os (render true p) = Ok NDir -> real_dir (os_fs os) p.
Proof.
  intros Hn Hl H. destruct p as [|c ds _] using rev_ind; [apply real_dir_root|].
  rewrite Lstat_render in H by done. apply result_bind_ok in H as (d & Hd & H).
  apply Forall_app in Hn as [Hds _]. apply link_free_prefix in Hl.
  apply namei_link_free in Hd as [-> Hc]; [|done|done].
  destruct (node_at (os_fs os) ds) as [[]|] eqn:E; try done.
  destruct (node_at (os_fs os) (ds ++ [c])) as [n|] eqn:En; [|done]. injection H as ->.
  split; [|done]. apply real_parents_snoc. by split; [apply Hc|].
Qed.

Lemma present_real_parents fs p : fs_ok fs -> is_Some (node_at fs p) -> real_parents fs p.
Proof.
  intros Hok [n Hn] q c k ->. destruct (node_at fs (q ++ [c])) eqn:E.
  - rewrite <- lookup_node_at in E by done. by apply Hok in E as [_ ?].
  - rewrite (cons_middle c q k), app_assoc, node_at_missing in Hn; done.
Qed.

Lemma Lstat_present os p : Forall name p -> fs_ok (os_fs os) ->
  is_Some (node_at (os_fs os) p) -> exists n, Lstat os (render true p) = Ok n.
Proof.
  intros Hn Hok Hp. pose proof (present_real_parents _ _ Hok Hp) as Hr. destruct Hp as [n Hat].
  destruct p as [|c ds _] using rev_ind; [by exists NDir|]. exists n.
  rewrite Lstat_render by done. apply Forall_app in Hn as [Hds _].
  assert (real_dir (os_fs os) ds) as Hd by (split; [by eapply real_parents_prefix|by eapply Hr]).
  rewrite (result_bind_eq _ _ _ (namei_canonical _ _ Hds (real_dir_canonical _ _ Hd))).
  destruct Hd as [_ ->]. by rewrite Hat.
Qed.

Lemma mkdir_spec p os r os' :
  Forall name p -> fs_ok (os_fs os) -> link_free (os_fs os) p -> mkdir (render true p) os = (r, os') ->
  exists fs', os' = with_fs os fs' /\ fs_ok fs' /\ grown p (os_fs os) fs' /\
    (r = Ok tt -> real_dir fs' p).
Proof.
  intros Hn Hok Hl H. unfold mkdir in H.
  assert (exists fs', os = with_fs os fs' /\ fs_ok fs' /\ grown p (os_fs os) fs') as (fs0 & ? & ? & ?).
  { exists (os_fs os). split_and!; [by rewrite with_fs_id|done|apply grown_refl]. }
  destruct (locate _ _) as [[ds c]|e] eqn:E; [|injection H as <- <-; by exists fs0].
  apply locate_Ok in E as [-> Hd]; [|done|done]. unfold at_path in *. cbn [fst snd] in *.
  destruct (node_at (os_fs os) (ds ++ [c])) eqn:En; injection H as <- <-; [by exists fs0|].
  pose proof (proj1 (Forall_app _ _ _) Hn) as [_ Hc]. apply Forall_cons in Hc as [Hc _].
  eexists. split_and!; [done| | |].
  - apply fs_ok_insert; [done|apply Hd|done|by left].
  - intros q. rewrite lookup_insert. case_decide; [subst; by right|by left].
  - intros _. split; [|by rewrite node_at_insert, decide_True].
    apply real_parents_snoc, real_dir_insert; [done|]. rewrite length_app. simpl. lia.
Qed.

(** What making the directory [p] may come to. *)
Definition makes_dir (p : list string) (w : World) (r : result unit) (w' : World) : Prop :=
  (pending w' <= pending w)%nat /\
  exists fs', w_os w' = with_fs (w_os w) fs' /\ fs_ok fs' /\ grown p (os_fs (w_os w)) fs' /\
    (r = Ok tt -> real_dir fs' p).

Lemma makes_dir_still p w r w' : fs_ok (os_fs (w_os w)) ->
  w_os w' = w_os w -> (pending w' <= pending w)%nat -> (r = Ok tt -> real_dir (os_fs (w_os w)) p) ->
  makes_dir p w r w'.
Proof.
  intros Hok Ho Hp Hr. split; [done|]. exists (os_fs (w_os w)). rewrite with_fs_id.
  split_and!; [done|done|apply grown_refl|done].
Qed.

Lemma makes_dir_trans p q w r1 w1 r w' : p `prefix_of` q ->
  makes_dir p w r1 w1 -> makes_dir q w1 r w' -> makes_dir q w r w'.
Proof.
  intros Hpq (P1 & fs1 & Ho1 & _ & Hg1 & _) (P2 & fs2 & Ho2 & Hok2 & Hg2 & Hr2). split; [lia|].
  rewrite Ho1 in *. cbn in *. exists fs2. split_and!; [done|done|by eapply grown_trans|done].
Qed.

Lemma makes_dir_from p w w1 r w' :
  w_os w1 = w_os w -> (pending w1 <= pending w)%nat -> makes_dir p w1 r w' -> makes_dir p w r w'.
Proof. intros Ho Hp [P H]. split; [lia|]. by rewrite <- Ho. Qed.

Lemma mkdir_or_dir_spec p w r w' :
  Forall name p -> fs_ok (os_fs (w_os w)) -> link_free (os_fs (w_os w)) p ->
  (r0 ← try (change (mkdir (render true p)));
   match r0 with
   | Ok _ => mret tt
   | Err e =>
       st ← try (query (fun os => Lstat os (render true p)));
       match st with
       | Ok NDir => mret tt
       | _ => fail e
       end
   end) w = (r, w') ->
  makes_dir p w r w'.
Proof.
  intros Hn Hok Hl [(r0 & w1 & H1 & H)|(e & (? & ? & _)%run_try & _)]%run_bind; [|done].
  apply run_try in H1 as (r1 & [= ->] & H1).
  assert (makes_dir p w r1 w1) as M1.
  { apply run_sys in H1 as (_ & [[H1 P1]|(e & n & [-> _] & Ho & P1)]).
    - split; [lia|]. symmetry in H1. by apply mkdir_spec in H1.
    - by apply makes_dir_still; [|done|lia|]. }
  destruct r1 as [[]|e]; [by injection H as <- <-|].
  apply run_look in H as [(st & w2 & Hst & H & Ho2 & _ & P2)|(e' & -> & Ho2 & _ & P2)];
    [| |apply _]; pose proof M1 as (_ & fs1 & E1 & Hok1 & Hg1 & _); (eapply makes_dir_trans; [done|exact M1|]).
  2: by apply makes_dir_still; [rewrite E1| | |].
  apply run_try in Hst as (r2 & [= ->] & Hst).
  destruct r2 as [[]|]; injection H as <- <-; apply makes_dir_still; try done; try (by rewrite E1).
  intros _. apply run_query_Ok in Hst. apply Lstat_real_dir in Hst; [done|done|].
  rewrite E1. by eapply grown_link_free.
Qed.

Lemma MkdirAll_spec rev w r w' :
  Forall name (reverse rev) -> fs_ok (os_fs (w_os w)) -> link_free (os_fs (w_os w)) (reverse rev) ->
  MkdirAll rev w = (r, w') -> makes_dir (reverse rev) w r w'.
Proof.
  revert w r w'. induction rev as [|c rev IH]; intros w r w' Hn Hok Hl H; cbn [MkdirAll] in H;
    (apply run_look in H as [(st & w1 & Hst & H & Ho1 & _ & P1)|(e & -> & Ho1 & _ & P1)];
      [|by apply makes_dir_still|apply _]);
    apply run_try in Hst as (r1 & [= ->] & Hst); rewrite <- Ho1 in Hok, Hl;
    apply (makes_dir_from _ w w1); try done;
    (destruct r1 as [[| |]|e1]; [|by injection H as <- <-; apply makes_dir_still..|]);
    try (injection H as <- <-; apply makes_dir_still; try done; intros _;
         apply run_query_Ok in Hst; rewrite <- Ho1 in Hst; apply Stat_Ok in Hst as [? [? _]]; [by split|done|done]).
  - by apply mkdir_or_dir_spec in H.
  - rewrite reverse_cons in *.
    assert (reverse rev `prefix_of` reverse rev ++ [c]) as Hpre by by exists [c].
    apply run_bind in H as [([] & w2 & H2 & H)|(e & H2 & ->)];
      (apply IH in H2; [|by apply Forall_app in Hn as [? _]|done|by eapply link_free_prefix]);
      pose proof H2 as (P2 & fs2 & E2 & Hok2 & Hg2 & _).
    + eapply makes_dir_trans; [done|exact H2|].
      apply mkdir_or_dir_spec in H; [done|done|by rewrite E2|]. rewrite E2. by eapply grown_link_free.
    + split; [done|]. exists fs2. split_and!; try done. 
      by eapply grown_trans; [exact Hg2|apply grown_refl|].
Qed.

(** The two ends of a move are the same, or neither is below the other. *)
Lemma move_unrelated fs p1 p2 n1 k :
  entry_of_dir fs p1 -> entry_of_dir fs p2 -> node_at fs p1 = Some n1 ->
  (n1 = NDir -> ~ p1 `prefix_of` p2) -> node_at fs p2 <> Some NDir -> p1 <> p2 ->
  ~ p2 `prefix_of` p1 ++ k /\ ~ p1 `prefix_of` p2.
Proof.
  intros (d1 & c1 & -> & Hd1) (d2 & c2 & -> & Hd2) H1 Hdir H2 Hne.
  pose proof (real_parents_snoc _ _ c1 Hd1) as R1. pose proof (real_parents_snoc _ _ c2 Hd2) as R2.
  assert (~ d1 ++ [c1] `prefix_of` d2 ++ [c2]) as H12.
  { intros Hp. assert (n1 = NDir) as ->; [|by apply Hdir]. destruct Hp as [[|x l] E].
    - by rewrite app_nil_r in E.
    - rewrite (R2 _ _ _ E) in H1. congruence. }
  split; [|done]. intros Hp.
  destruct (prefix_weak_total (d1 ++ [c1]) (d2 ++ [c2]) _ (prefix_app_r _ _ _ (reflexivity _)) Hp) as [?|[[|x l] E]];
    [done|by rewrite app_nil_r in E|]. by rewrite (R1 _ _ _ E) in H2.
Qed.

(** A move keeps the file system well formed. *)
Lemma fs_ok_move_tree fs p1 p2 n1 :
  fs_ok fs -> Forall name p2 -> entry_of_dir fs p2 -> p1 <> [] ->
  node_at fs p1 = Some n1 -> (n1 = NDir -> ~ p1 `prefix_of` p2) -> node_at fs p2 <> Some NDir ->
  fs_ok (move_tree p1 p2 fs).
Proof.
  intros Hok Hn (d2 & c2 & -> & Hd2) Hp1 H1 Hdir H2.
  assert (~ p1 `prefix_of` d2) as Hnd.
  { intros [k ->]. destruct k as [|c k].
    - rewrite app_nil_r in *. destruct Hd2 as [_ Hd2]. apply Hdir; [congruence|]. by eexists.
    - destruct Hd2 as [Hp _]. apply Hdir; [|by eexists (_ :: _); rewrite <- app_assoc].
      rewrite (Hp p1 c k eq_refl) in H1. congruence. }
  assert (forall q, ~ p1 `prefix_of` q -> ~ (d2 ++ [c2]) `prefix_of` q ->
    node_at (move_tree p1 (d2 ++ [c2]) fs) q = node_at fs q) as Hkeep.
  { intros q Hq1 Hq2. unfold node_at. case_decide; [done|]. rewrite lookup_move_tree.
    rewrite !decide_False; [done| |done]. intros [?| ->]; [done|]. by apply Hq2. }
  split.
  - rewrite lookup_move_tree, !decide_False; [apply Hok| |].
    + intros [[k E]|E]; [by destruct p1|by destruct d2].
    + intros [k E]. by destruct d2.
  - intros q c n. rewrite lookup_move_tree. destruct (decide (_ `prefix_of` q ++ [c])) as [[k E]|Hq].
    + rewrite E, drop_app_length. destruct k as [|c' k' _] using rev_ind.
      * rewrite app_nil_r in E. apply app_inj_tail in E as [-> ->]. intros _.
        apply Forall_app in Hn as [_ Hn]. apply Forall_cons in Hn as [Hc _]. split; [done|].
        rewrite Hkeep; [apply Hd2|done|]. intros [k E].
        apply (f_equal length) in E. rewrite !length_app in E. simpl in E. lia.
      * rewrite app_assoc in E. apply app_inj_tail in E as [-> ->].
        assert (fs !! ((d2 ++ [c2]) ++ k' ++ [c']) = None) as ->.
        { destruct (k' ++ [c']) eqn:E; [by destruct k'|]. by apply fs_child. }
        destruct (fs !! (p1 ++ k' ++ [c'])) eqn:E; [intros _|by case_decide].
        rewrite app_assoc in E. apply Hok in E as [Hc Hk]. split; [done|].
        rewrite <- lookup_node_at by (by destruct d2). rewrite lookup_move_tree, decide_True by by exists k'.
        by rewrite drop_app_length, lookup_node_at, Hk by (by destruct p1).
    + case_decide as Hm; [done|]. intros H. apply Hok in H as [Hc Hk]. split; [done|].
      rewrite Hkeep; [done| |].
      * intros [k ->]. apply Hm. left. rewrite <- app_assoc. by eexists.
      * intros [k ->]. apply Hq. rewrite <- app_assoc. by eexists.
Qed.

(** ** Runs without faults *)

Lemma sys_works {A} br (f : Os -> result A * Os) w :
  w_faults w = [] -> sys br f w = ((f (w_os w)).1, mkWorld (f (w_os w)).2 [] (w_names w)).
Proof. destruct w as [os fl ns]. unfold sys. cbn. intros ->. cbn. by destruct (f os). Qed.

Lemma create_temp_works prefix ns dir fs :
  (exists n, n ∈ ns /\ node_at fs (dir ++ [(prefix ++ n)%string]) = None) ->
  exists c ns', create_temp prefix ns dir fs = Ok (c, ns').
Proof.
  intros (n & Hin & Hf). induction ns as [|m ns IH]; [by apply elem_of_nil in Hin|]. cbn [create_temp].
  case_decide as E; [by eexists _, _|]. apply elem_of_cons in Hin as [->|Hin]; [done|by apply IH].
Qed.

Lemma CreateTemp_works prefix ds w :
  w_faults w = [] -> Forall name ds -> real_dir (os_fs (w_os w)) ds ->
  (exists n, n ∈ w_names w /\ node_at (os_fs (w_os w)) (ds ++ [(prefix ++ n)%string]) = None) ->
  exists nm w', CreateTemp (render true ds) prefix w = (Ok nm, w') /\ w_faults w' = [].
Proof.
  intros Hf Hn Hd Hfree. unfold CreateTemp. rewrite Hf, namei_render by done.
  rewrite (result_bind_eq _ _ _ (namei_canonical _ _ Hn (real_dir_canonical _ _ Hd))).
  rewrite decide_True by apply Hd. destruct (create_temp_works _ _ _ _ Hfree) as (c & ns' & E).
  rewrite (result_bind_eq _ _ _ E). by eexists _, _.
Qed.

Lemma rename_file_works d1 c1 d2 c2 os content perm :
  Forall name (d1 ++ [c1]) -> Forall name (d2 ++ [c2]) -> real_dir (os_fs os) d1 -> real_dir (os_fs os) d2 ->
  node_at (os_fs os) (d1 ++ [c1]) = Some (NFile content perm) ->
  node_at (os_fs os) (d2 ++ [c2]) <> Some NDir ->
  (rename (render true (d1 ++ [c1])) (render true (d2 ++ [c2])) os).1 = Ok tt.
Proof.
  intros Hn1 Hn2 Hd1 Hd2 H1 H2. unfold rename. rewrite !locate_real by done.
  cbn [mbind result_bind]. unfold at_path; cbn [fst snd]. rewrite H1.
  destruct (node_at (os_fs os) (d2 ++ [c2])) as [[]|]; try done;
    by rewrite decide_False by (by intros [? _]).
Qed.

Lemma replace_file_works prefix ds c data mode w :
  w_faults w = [] -> temp_prefix prefix -> names_ok w -> fs_ok (os_fs (w_os w)) ->
  Forall name (ds ++ [c]) -> real_dir (os_fs (w_os w)) ds -> node_at (os_fs (w_os w)) (ds ++ [c]) <> Some NDir ->
  (exists n, n ∈ w_names w /\ node_at (os_fs (w_os w)) (ds ++ [(prefix ++ n)%string]) = None) ->
  exists w', replace_file prefix (render true (ds ++ [c])) data mode w = (Ok tt, w') /\ w_faults w' = [].
Proof.
  intros Hf Hpre Hns Hok Hn Hd Hnd Hfree. pose proof (proj1 (Forall_app _ _ _) Hn) as [Hds _].
  unfold replace_file. rewrite Dir_render by done.
  destruct (CreateTemp_works prefix ds w Hf Hds Hd Hfree) as (nm & w1 & H1 & Hf1).
  rewrite (run_bind_Ok _ _ _ _ _ H1).
  apply CreateTemp_spec in H1 as [_ (n & -> & Htc & _ & Hfresh & Ho1)]; try done;
    [|by apply real_dir_link_free]. set (tc := (prefix ++ n)%string) in *. set (t := ds ++ [tc]) in *.
  assert (Forall name t) as Hnt by (by apply (names_snoc ds Hds)).
  assert (forall x, real_dir (<[t := x]> (os_fs (w_os w))) ds) as Hdt.
  { intros x. apply real_dir_insert; [done|]. unfold t. rewrite length_app. simpl. lia. }
  assert (forall f co pe, update_file (render true t) f (with_fs (w_os w) (<[t := NFile co pe]> (os_fs (w_os w)))) =
    (Ok tt, with_fs (w_os w) (<[t := f co pe]> (os_fs (w_os w))))) as Hupd.
  { intros f co pe. unfold t at 1. rewrite (update_file_real ds tc f _ co pe);
      [|exact Hnt|apply Hdt|cbn; fold t; by rewrite lookup_insert_eq].
    fold t. unfold with_fs. cbn. by rewrite insert_insert_eq. }
  match goal with |- context [(try ?m ≫= _) w1] => assert (exists w2, m w1 = (Ok tt, w2) /\ w_faults w2 = []) as (w2 & H2 & Hf2) end.
  2: { exists w2. split; [|done]. erewrite run_bind_Ok; [|unfold try; by rewrite H2]. done. }
  pose proof (sys_works (fun _ os => os) (update_file (render true t) (fun content _ => NFile content mode)) w1 Hf1) as S1.
  rewrite Ho1, Hupd in S1. rewrite (run_bind_Ok _ _ _ _ _ S1).
  unfold Write. erewrite run_bind_Ok; [|rewrite sys_works by done; cbn [w_os fst snd]; by rewrite Hupd].
  unfold Sync, CloseFile, query. erewrite run_bind_Ok; [|by rewrite sys_works].
  erewrite run_bind_Ok; [|by rewrite sys_works].
  unfold Rename, change. rewrite sys_works by done. cbn [w_os fst snd]. eexists (mkWorld _ [] _). split; [|done].
  apply (f_equal2 pair); [|reflexivity]. unfold t. eapply rename_file_works; try done; [apply Hdt|apply Hdt| |];
    cbn [os_fs with_fs]; rewrite node_at_insert by (unfold t; auto).
  - by rewrite decide_True.
  - by case_decide.
Qed.
