(* ===== verification/ExecutorProps.v ===== *)
(** * The file tools: runs

    What a run of each tool of Executor.v comes to, in every outcome; the
    claims about the tools are in ToolClaims.v.  [ready] collects what they
    assume of the policy and of the world; [roots_are_dirs] says that the
    configured roots are still directories, as they were when [pathpolicy.New]
    accepted them. *)
From S2P Require Import Prelude Crypto GoStrings Base64 Filepath FileSystem PathPolicy FileOps Executor FileProps.
Local Open Scope Z_scope.

Definition fs_of (w : World) : fsys := os_fs (w_os w).

Record ready (paths : Policy) (w : World) : Prop := {
  ready_roots : roots_clean paths;
  ready_os : os_ok (w_os w);
  ready_names : names_ok w }.

Definition roots_are_dirs (paths : Policy) (fs : fsys) : Prop :=
  forall rc, Forall name rc -> render true rc ∈ roots paths -> real_dir fs rc.

#[export] Hint Extern 5 (Looks (match ?x with _ => _ end)) => destruct x : typeclass_instances.

(** The world [w1] that a run from [w0] has reached by looking only. *)
Definition still (w0 w1 : World) : Prop :=
  w_os w1 = w_os w0 /\ (w_names w1 = w_names w0 /\ w_faults w1 `suffix_of` w_faults w0) /\
  (pending w1 <= pending w0)%nat.

Lemma still_refl w : still w w.
Proof. by split_and!. Qed.

Lemma run_look_still {A B} (m : F A) `{!Looks m} (f : A -> F B) w0 w r w' :
  still w0 w -> (m ≫= f) w = (r, w') ->
  (exists a w1, m w = (Ok a, w1) /\ f a w1 = (r, w') /\ still w0 w1) \/
  (exists e, r = Err e /\ still w0 w').
Proof.
  unfold still. intros (Ho & [Hn Hf] & Hp) [(a & w1 & ? & ? & ? & [? ?] & ?)|(e & ? & ? & [? ?] & ?)]%run_look;
    [left; exists a, w1|right; exists e|done]; (split_and!; try done; [congruence|congruence|by etrans|lia]).
Qed.

Lemma run_looks_still {A} (m : F A) `{!Looks m} w0 w r w' : still w0 w -> m w = (r, w') -> still w0 w'.
Proof.
  unfold still. intros (? & [? ?] & ?) (? & [? ?] & ?)%looks. split_and!; [congruence..|by etrans|lia].
Qed.

(** One step of a program that only looks: in the first goal it has worked, in
    the second it has failed and the program with it. *)
Ltac look H x w Hr :=
  match type of H with
  | _ ?w1 = _ => match goal with S : still _ w1 |- _ => apply (run_look_still _ _ _ _ _ _ S) in H end
  end;
  destruct H as [(x & w & Hr & H & ?S)|(?e & -> & ?S)].

(** The same for a program that is known to have worked. *)
Ltac look_ok H x w Hr :=
  match type of H with
  | _ ?w1 = _ => match goal with S : still _ w1 |- _ => apply (run_look_still _ _ _ _ _ _ S) in H end
  end;
  let E := fresh in
  destruct H as [(x & w & Hr & H & ?S)|(? & E & _)]; [|discriminate E].

(** A run that failed and changed nothing. *)
Definition idle {A} (w : World) (r : result A) (w' : World) : Prop :=
  (exists e, r = Err e) /\ w_os w' = w_os w /\ (pending w' <= pending w)%nat.

Lemma idle_fail {A} e w w' : still w w' -> idle (A:=A) w (Err e) w'.
Proof. intros (? & _ & ?). split_and!; [by eexists|done|done]. Qed.
#[export] Hint Resolve idle_fail still_refl : core.

Lemma Dir_parent cs :
  Forall name cs -> exists ds, Dir (render true cs) = render true ds /\ Forall name ds /\
    (cs = [] /\ ds = [] \/ exists c, cs = ds ++ [c]).
Proof.
  intros Hn. destruct cs as [|c ds _] using rev_ind.
  - exists []. split_and!; [exact Dir_root|constructor|by left].
  - exists ds. split_and!; [by apply Dir_render|by apply Forall_app in Hn as [? _]|right; by exists c].
Qed.

Lemma run_decodeArgs {A} (raw : result A) w a w' : decodeArgs raw w = (Ok a, w') -> raw = Ok a.
Proof. destruct raw; [by intros [= -> _]|done]. Qed.

Lemma run_lift {A} (r0 : result A) w a w' : lift r0 w = (Ok a, w') -> r0 = Ok a.
Proof. by intros [= -> _]. Qed.

Lemma temp_prefix_write : temp_prefix ".orc-write-".
Proof. split; [cbn; lia|]. apply (bool_decide_unpack _). by vm_compute. Qed.
Lemma temp_prefix_edit : temp_prefix ".orc-edit-".
Proof. split; [cbn; lia|]. apply (bool_decide_unpack _). by vm_compute. Qed.

Section tools.
Context (paths : Policy).

Lemma ready_still w0 w : ready paths w0 -> still w0 w -> ready paths w.
Proof. intros [H1 H2 H3] (Ho & [Hn _] & _). split; [done|by rewrite Ho|]. unfold names_ok. by rewrite Hn. Qed.

Lemma resolveExisting_run path w0 w p w' :
  roots_clean paths -> os_ok (w_os w0) -> still w0 w -> resolveExisting paths path w = (Ok p, w') ->
  exists cs, p = render true cs /\ under_root paths cs /\ Forall name cs /\ canonical (fs_of w0) cs.
Proof.
  intros Hroots Hos Hs H. apply run_query_Ok in H. destruct Hs as (Ho & _). rewrite Ho in H.
  apply ResolveExisting_Ok in H as (_ & a & cs & _ & _ & ?); [|done..]. by exists cs.
Qed.

Lemma resolveForCreate_run path w0 w p w' :
  ready paths w0 -> still w0 w -> resolveForCreate paths path w = (Ok p, w') ->
  exists cs, p = render true cs /\ under_root paths cs /\ Forall name cs /\ link_free (fs_of w0) cs.
Proof.
  intros Hw Hs H. apply run_query_Ok in H. pose proof (ready_still _ _ Hw Hs) as Hw1.
  apply ResolveForCreate_Ok in H as (base & k & -> & ? & ? & _ & _ & ?); [|apply Hw1..].
  unfold fs_of. rewrite <- (proj1 Hs). by eexists.
Qed.

Lemma still_query {A} (f : Os -> result A) w0 w a w' :
  still w0 w -> query f w = (Ok a, w') -> f (w_os w0) = Ok a.
Proof. intros (Ho & _) H%run_query_Ok. by rewrite <- Ho. Qed.

(** Taking the place of a file beside an existing directory. *)
Lemma replace_file_run prefix ds cs data mode w0 w r w' :
  temp_prefix prefix -> ready paths w0 -> still w0 w -> Forall name cs -> link_free (fs_of w0) cs ->
  Dir (render true cs) = render true ds -> Forall name ds ->
  (cs = [] /\ ds = [] \/ exists c, cs = ds ++ [c]) ->
  replace_file prefix (render true cs) data mode w = (r, w') ->
  (pending w' <= pending w0)%nat /\
  match r with
  | Ok _ =>
      cs <> [] /\ real_dir (fs_of w0) ds /\ node_at (fs_of w0) cs <> Some NDir /\
      w_os w' = with_fs (w_os w0) (<[cs := NFile data mode]> (fs_of w0))
  | Err _ => w_os w' = w_os w0 \/ leftover prefix ds w0 w'
  end.
Proof.
  intros Hpre Hw Hs Hcs Hl HD Hds Hcd H. pose proof (ready_still _ _ Hw Hs) as Hw1.
  destruct Hs as (Ho & _ & Hp). unfold fs_of in *.
  apply replace_file_spec with (ds := ds) in H as [P H]; try done; [| | | |].
  - split; [lia|]. rewrite Ho in H. destruct r; [done|]. destruct H as [H|[HP H]]; [by left|right].
    split; [lia|]. by rewrite Ho in H.
  - apply Hw1.
  - apply Hw1.
  - destruct Hcd as [[? _]|?]; auto.
  - rewrite Ho. destruct Hcd as [[-> ->]|[c ->]]; [done|]. by eapply link_free_prefix.
Qed.

(** When the parent of a path without links resolves, it is itself allowed. *)
Lemma resolveExisting_parent w0 w ds p w' :
  ready paths w0 -> still w0 w -> Forall name ds -> link_free (fs_of w0) ds ->
  resolveExisting paths (render true ds) w = (Ok p, w') -> p = render true ds /\ under_root paths ds.
Proof.
  intros Hw Hs Hds Hl H. pose proof (ready_still _ _ Hw Hs) as Hw1.
  pose proof (run_query_Ok _ _ _ _ H) as HR.
  apply ResolveExisting_Ok in HR as (_ & a & cs & Ha & He & -> & Hu & Hn & _); [|apply Hw1..].
  unfold Abs in Ha. rewrite IsAbs_render, Clean_render in Ha by done.
  assert (a = render true ds) as -> by congruence.
  apply result_bind_ok in He as (q & Hq & Hr). assert (render true q = render true cs) as Hr' by congruence.
  clear Hr. rewrite parts_render, walk_empty in Hq by done.
  destruct Hs as (Ho & _). unfold fs_of in Hl. rewrite <- Ho in Hl.
  assert (q = ds) as ->.
  { case_decide; [subst; by rewrite walk_empty, walk_nil in Hq; injection Hq as <-|]. by apply (walk_link_free _ _ _ [] ds) in Hq. }
  by apply render_inj in Hr' as ->.
Qed.

(** ** write_file *)

(** What a run of [writeFile] comes to, before the parts are told apart. *)
Lemma writeFile_run raw w r w' :
  ready paths w -> writeFile paths raw w = (r, w') ->
  idle w r w' \/
  (pending w' <= pending w)%nat /\
  (exists a data cs ds, raw = Ok a /\ decode_content (wf_Encoding a) (wf_Content a) = Ok data /\
     len data <= maxWriteBytes /\ Forall name cs /\ under_root paths cs /\ link_free (fs_of w) cs /\
     Forall name ds /\ under_root paths ds /\ (cs = [] /\ ds = [] \/ exists c, cs = ds ++ [c]) /\
     match r with
     | Ok (path, n) =>
         path = render true cs /\ n = len data /\ cs <> [] /\ real_dir (fs_of w) ds /\
         node_at (fs_of w) cs <> Some NDir /\
         w_os w' = with_fs (w_os w) (<[cs := NFile data (file_mode (wf_Mode a) 384)]> (fs_of w))
     | Err _ => leftover ".orc-write-" ds w w'
     end).
Proof.
  intros Hw H. unfold writeFile in H. pose proof (still_refl w) as S.
  look H a w1 Hr; [|by auto]. apply run_decodeArgs in Hr as ->.
  look H path w2 Hr; [|by auto].
  eapply resolveForCreate_run in Hr as (cs & -> & Hu & Hcs & Hl); [|done|done].
  look H data w3 Hr; [|by auto]. apply run_lift in Hr.
  destruct (maxWriteBytes <? len data) eqn:Hlen; [injection H as <- <-; by auto|].
  look H p w4 Hp; [|by auto].
  pose proof (Dir_parent cs Hcs) as (ds & HD & Hds & Hcd).
  assert (link_free (fs_of w) ds) as Hlds.
  { destruct Hcd as [[-> ->]|[c ->]]; [done|by eapply link_free_prefix]. }
  rewrite HD in Hp. apply (resolveExisting_parent w w3 ds p w4) in Hp as [_ Hud]; try done.
  look H st w5 Hst; [|by auto].
  look H u w6 Hu6; [|by auto].
  apply run_bind in H as [([] & w7 & H7 & H)|(e & H7 & ->)];
    apply (replace_file_run _ _ _ _ _ _ _ _ _ temp_prefix_write Hw S5 Hcs Hl HD Hds Hcd) in H7 as [P7 H7].
  - injection H as <- <-. right. split; [done|]. exists a, data, cs, ds.
    apply Z.ltb_ge in Hlen. by destruct H7 as (? & ? & ? & ?); split_and!.
  - destruct H7 as [H7|H7]; [left; by split; [eexists|]|]. right. split; [done|]. exists a, data, cs, ds.
    apply Z.ltb_ge in Hlen. by split_and!.
Qed.

(** ** edit_block *)

Lemma stat_canonical os cs n : Forall name cs -> canonical (os_fs os) cs ->
  Lstat os (render true cs) = Ok n -> node_at (os_fs os) cs = Some n.
Proof.
  intros Hn Hc. destruct cs as [|c ds _] using rev_ind.
  - unfold Lstat. rewrite rel_elements_render by done. by intros [= <-].
  - rewrite Lstat_render by done. pose proof (proj1 (Forall_app _ _ _) Hn) as [Hds _].
    destruct Hc as [Hp _].
    assert (canonical (os_fs os) ds) as Hcd.
    { apply real_dir_canonical. split; [by eapply real_parents_prefix|by eapply Hp]. }
    rewrite (result_bind_eq _ _ _ (namei_canonical _ _ Hds Hcd)), (Hp ds c []) by done.
    destruct (node_at _ _); [by intros [= <-]|done].
Qed.

Lemma read_all_canonical os cs data : Forall name cs -> canonical (os_fs os) cs ->
  read_all os (render true cs) = Ok data -> exists perm, node_at (os_fs os) cs = Some (NFile data perm).
Proof.
  intros Hn Hc. unfold read_all. rewrite namei_render by done.
  rewrite (result_bind_eq _ _ _ (namei_canonical _ _ Hn Hc)).
  destruct (node_at _ _) as [[|content perm|]|]; try done. intros [= <-]. by exists perm.
Qed.

(** The number of replacements that a request asks for. *)
Definition expected (a : editArgs) : Z :=
  if decide (ed_ExpectedReplacements a = 0) then 1 else ed_ExpectedReplacements a.

Definition old_bytes (a : editArgs) : list byte := bytes_of_string (ed_OldString a).
Definition new_bytes (a : editArgs) : list byte := bytes_of_string (ed_NewString a).

Lemma editBlock_run raw w r w' :
  ready paths w -> editBlock paths raw w = (r, w') ->
  idle w r w' \/
  (pending w' <= pending w)%nat /\
  exists a ds c content perm, let cs := ds ++ [c] in
    raw = Ok a /\ ed_OldString a <> EmptyString /\ 1 <= expected a <= 1000 /\
    Forall name cs /\ under_root paths cs /\ canonical (fs_of w) cs /\
    node_at (fs_of w) cs = Some (NFile content perm) /\
    utf8_Valid content = true /\ len content <= maxWriteBytes /\
    Count (old_bytes a) 0 content = expected a /\
    let new := ReplaceAll (old_bytes a) (new_bytes a) 0 content in
    len new <= maxWriteBytes /\
    match r with
    | Ok (path, k, n) =>
        path = render true cs /\ k = expected a /\ n = len new /\
        w_os w' = with_fs (w_os w) (<[cs := NFile new perm]> (fs_of w))
    | Err _ => leftover ".orc-edit-" ds w w'
    end.
Proof.
  intros Hw H. unfold editBlock in H. pose proof (still_refl w) as S.
  look H a w1 Hr; [|by auto]. apply run_decodeArgs in Hr as ->. fold (expected a) in H.
  case_decide as Hold; [injection H as <- <-; by auto|].
  destruct ((expected a <? 1) || (1000 <? expected a)) eqn:Hexp; [injection H as <- <-; by auto|].
  look H path w2 Hr; [|by auto].
  eapply resolveExisting_run in Hr as (cs & -> & Hu & Hcs & Hc); [|apply Hw|apply Hw|done].
  look H st w3 Hst; [|by auto]. eapply still_query in Hst; [|done].
  apply stat_canonical in Hst; [|done|done].
  destruct (is_link st); [injection H as <- <-; by auto|].
  destruct (is_dir st) eqn:Hdir; [injection H as <- <-; by auto|].
  destruct (maxWriteBytes <? size_of st) eqn:Hsz; [injection H as <- <-; by auto|].
  look H content w4 Hr; [|by auto]. eapply still_query in Hr; [|done].
  apply read_all_canonical in Hr as (perm & Hat); [|done|done].
  rewrite Hst in Hat. injection Hat as ->. cbn [size_of perm_of] in *.
  destruct (negb (utf8_Valid content)) eqn:Hutf; [injection H as <- <-; by auto|].
  fold (old_bytes a) (new_bytes a) in H.
  destruct (negb (Count (old_bytes a) 0 content =? expected a)) eqn:Hcnt; [injection H as <- <-; by auto|].
  destruct (maxWriteBytes <? len (ReplaceAll (old_bytes a) (new_bytes a) 0 content)) eqn:Hlen;
    [injection H as <- <-; by auto|].
  destruct cs as [|c ds _] using rev_ind; [done|].
  pose proof (Dir_render ds c Hcs) as HD. pose proof (proj1 (Forall_app _ _ _) Hcs) as [Hds _].
  unfold atomicWrite in H.
  apply run_bind in H as [([] & w5 & H5 & H)|(e & H5 & ->)];
    apply (replace_file_run _ ds _ _ _ _ _ _ _ temp_prefix_edit Hw S3 Hcs (canonical_link_free _ _ Hc) HD Hds
             (or_intror (ex_intro _ c eq_refl))) in H5 as [P5 H5].
  2: destruct H5 as [H5|H5]; [left; by split; [eexists|]|].
  all: right; bool_props.
  - injection H as <- <-. destruct H5 as (_ & _ & _ & H5).
    split; [done|]. exists a, ds, c, content, perm. cbn zeta. split_and!; try done; lia.
  - split; [done|]. exists a, ds, c, content, perm. cbn zeta. split_and!; try done; lia.
Qed.

(** ** move_file, create_directory *)

Lemma moveFile_run raw w r w' :
  ready paths w -> moveFile paths raw w = (r, w') ->
  idle w r w' \/
  (pending w' <= pending w)%nat /\
  exists a p1 p2 n, raw = Ok a /\ r = Ok (render true p1, render true p2) /\
    Forall name p1 /\ Forall name p2 /\ under_root paths p1 /\ under_root paths p2 /\
    canonical (fs_of w) p1 /\ link_free (fs_of w) p2 /\
    entry_of_dir (fs_of w) p1 /\ entry_of_dir (fs_of w) p2 /\
    node_at (fs_of w) p1 = Some n /\
    (n = NDir -> node_at (fs_of w) p2 = None /\ ~ p1 `prefix_of` p2) /\
    node_at (fs_of w) p2 <> Some NDir /\
    (is_Some (node_at (fs_of w) p2) -> mv_Overwrite a = true \/
       exists e k, Some (e, k) ∈ w_faults w /\ IsNotExist e = true) /\
    w_os w' = if decide (p1 = p2) then w_os w else with_fs (w_os w) (move_tree p1 p2 (fs_of w)).
Proof.
  intros Hw H. unfold moveFile in H. pose proof (still_refl w) as S.
  look H a w1 Hr; [|by auto]. apply run_decodeArgs in Hr as ->.
  look H src w2 Hr; [|by auto].
  eapply resolveExisting_run in Hr as (p1 & -> & Hu1 & Hp1 & Hc1); [|apply Hw|apply Hw|done].
  look H dst w3 Hr; [|by auto].
  eapply resolveForCreate_run in Hr as (p2 & -> & Hu2 & Hp2 & Hl2); [|done|done].
  look H st w4 Hst; [|by auto]. apply run_try in Hst as (st0 & [= ->] & Hst).
  look H u w5 Hg; [|by auto].
  assert (is_Some (node_at (fs_of w) p2) -> mv_Overwrite a = true \/
       exists e k, Some (e, k) ∈ w_faults w /\ IsNotExist e = true) as Hclobber.
  { destruct st0 as [n|e].
    - destruct (is_link n); [discriminate Hg|]. destruct (mv_Overwrite a); [by left|discriminate Hg].
    - intros Hex. right. destruct (IsNotExist e) eqn:He; [|discriminate Hg]. exists e.
      apply run_query_Err in Hst as [Hst|[k Hk]].
      + exfalso. destruct S2 as (Ho & _). rewrite Ho in Hst.
        apply Lstat_present in Hex as [n Hn]; [congruence|done|apply Hw].
      + exists k. destruct S2 as (_ & [_ Hf] & _). split; [|done]. destruct Hf as [l ->]. set_solver. }
  apply run_bind in H as [([] & w6 & H6 & H)|(e & H6 & ->)];
    destruct S4 as (Ho & _ & P5);
    (apply Rename_run in H6 as [P6 H6]; try done;
      [|rewrite Ho; by apply canonical_link_free|by rewrite Ho]); rewrite Ho in H6.
  - right. injection H as <- <-. split; [lia|].
    destruct H6 as (He1 & He2 & (n & Hn & Hd) & Hnd & E). by exists a, p1, p2, n.
  - left. split_and!; [by eexists|done|lia].
Qed.

Lemma createDirectory_run raw w r w' :
  ready paths w -> createDirectory paths raw w = (r, w') ->
  idle w r w' \/
  exists a cs, raw = Ok a /\ ResolveForCreate (w_os w) paths (cd_Path a) = Ok (render true cs) /\
    Forall name cs /\ under_root paths cs /\ link_free (fs_of w) cs /\
    makes_dir cs w (match r with Ok _ => Ok tt | Err e => Err e end) w' /\
    forall p, r = Ok p -> p = render true cs.
Proof.
  intros Hw H. unfold createDirectory in H. pose proof (still_refl w) as S.
  look H a w1 Hr; [|by auto]. apply run_decodeArgs in Hr as ->.
  look H path w2 Hr; [|by auto]. pose proof (still_query _ _ _ _ _ S0 Hr) as HR.
  eapply resolveForCreate_run in Hr as (cs & -> & Hu & Hcs & Hl); [|done|done].
  right. exists a, cs. rewrite rel_elements_render in H by done.
  destruct S1 as (Ho & _ & P).
  apply run_bind in H as [([] & w3 & H3 & H)|(e & H3 & ->)];
    (apply MkdirAll_spec in H3; rewrite ?reverse_involutive in *;
      [|done|rewrite Ho; apply Hw|by rewrite Ho]);
    apply (makes_dir_from _ w) in H3; try done.
  injection H as <- <-. split_and!; try done. intros p E. by injection E as <-.
Qed.

(** ** Where the tools may write *)

Lemma under_root_app p k : under_root paths p -> under_root paths (p ++ k).
Proof. intros (rc & ? & ? & ?). exists rc. split_and!; [done|done|]. by apply prefix_app_r. Qed.

(** What a tool may do: keep the file system well formed, and change nothing
    outside the roots. *)
Definition confined {A} (m : F A) : Prop :=
  forall w r w', ready paths w -> roots_are_dirs paths (fs_of w) -> m w = (r, w') ->
    os_ok (w_os w') /\ forall p, ~ under_root paths p -> fs_of w' !! p = fs_of w !! p.

Lemma confined_same w w' : ready paths w -> w_os w' = w_os w ->
  os_ok (w_os w') /\ forall p, ~ under_root paths p -> fs_of w' !! p = fs_of w !! p.
Proof. intros Hw Ho. unfold fs_of. rewrite Ho. by split; [apply Hw|]. Qed.

Lemma confined_looks {A} (m : F A) : Looks m -> confined m.
Proof. intros Hm w r w' Hw _ (Ho & _)%Hm. by apply confined_same. Qed.

Lemma confined_with w w' fs' : ready paths w -> w_os w' = with_fs (w_os w) fs' -> fs_ok fs' ->
  (forall p, fs' !! p <> fs_of w !! p -> under_root paths p) ->
  os_ok (w_os w') /\ forall p, ~ under_root paths p -> fs_of w' !! p = fs_of w !! p.
Proof.
  intros Hw Ho Hok Hch. unfold fs_of in *. rewrite Ho. split; [by split; [|apply Hw]|].
  intros p Hp. cbn. destruct (decide (fs' !! p = os_fs (w_os w) !! p)) as [|Hne]; [done|].
  by destruct Hp; apply Hch.
Qed.

Lemma confined_insert w w' ds c n : ready paths w -> real_dir (fs_of w) ds -> name c ->
  node_at (fs_of w) (ds ++ [c]) <> Some NDir -> under_root paths (ds ++ [c]) ->
  w_os w' = with_fs (w_os w) (<[ds ++ [c] := n]> (fs_of w)) ->
  os_ok (w_os w') /\ forall p, ~ under_root paths p -> fs_of w' !! p = fs_of w !! p.
Proof.
  intros Hw Hd Hc Hnd Hu Ho. apply (confined_with _ _ _ Hw Ho).
  - apply fs_ok_insert; [apply Hw|apply Hd|done|by right].
  - intros p. rewrite lookup_insert. by case_decide; [subst|].
Qed.

Lemma confined_leftover prefix w w' ds : ready paths w -> under_root paths ds -> leftover prefix ds w w' ->
  os_ok (w_os w') /\ forall p, ~ under_root paths p -> fs_of w' !! p = fs_of w !! p.
Proof.
  intros Hw Hu (_ & n & content & perm & Hn & Hd & Hf & Ho).
  eapply confined_insert; [done|done|exact Hn| |by apply under_root_app|done].
  unfold fs_of. by rewrite Hf.
Qed.

Lemma under_root_parent w ds c n : roots_are_dirs paths (fs_of w) -> under_root paths (ds ++ [c]) ->
  node_at (fs_of w) (ds ++ [c]) = Some n -> n <> NDir -> under_root paths ds.
Proof.
  intros Hroots (rc & Hrc & Hin & Hpre) Hat Hn. pose proof (Hroots rc Hrc Hin) as [_ Hd].
  exists rc. split_and!; [done|done|]. destruct Hpre as [k Hk]. destruct k as [|x k _] using rev_ind.
  - rewrite app_nil_r in Hk. subst rc. congruence.
  - rewrite app_assoc in Hk. apply app_inj_tail in Hk as [-> _]. by eexists.
Qed.

Lemma writeFile_confined raw : confined (writeFile paths raw).
Proof.
  intros w r w' Hw Hroots [(_ & Ho & _)|(_ & H)]%writeFile_run; [by apply confined_same| |done].
  destruct H as (a & data & cs & ds & _ & _ & _ & Hcs & Hu & _ & _ & Hud & Hcd & H).
  destruct r as [[path n]|e]; [|by eapply confined_leftover].
  destruct H as (_ & _ & Hne & Hd & Hnd & Ho). destruct Hcd as [[? _]|[c ->]]; [done|].
  apply Forall_app in Hcs as [_ Hc]. apply Forall_cons in Hc as [Hc _].
  by eapply confined_insert.
Qed.

Lemma editBlock_confined raw : confined (editBlock paths raw).
Proof.
  intros w r w' Hw Hroots [(_ & Ho & _)|(_ & H)]%editBlock_run; [by apply confined_same| |done].
  destruct H as (a & ds & c & content & perm & _ & _ & _ & Hcs & Hu & Hcan & Hat & _ & _ & _ & _ & H).
  destruct r as [[[path k] n]|e].
  - destruct H as (_ & _ & _ & Ho). apply Forall_app in Hcs as [_ Hc]. apply Forall_cons in Hc as [Hc _].
    eapply confined_insert; [done| |done| |done|done]; [|congruence].
    destruct Hcan as [Hp _]. split; [by eapply real_parents_prefix|by eapply Hp].
  - eapply confined_leftover; [done| |done]. by eapply under_root_parent.
Qed.

Lemma createDirectory_confined raw : confined (createDirectory paths raw).
Proof.
  intros w r w' Hw Hroots [(_ & Ho & _)|(a & cs & _ & _ & Hcs & Hu & Hl & H & _)]%createDirectory_run;
    [by apply confined_same| |done].
  destruct H as (_ & fs' & Ho & Hok & Hg & _). apply (confined_with _ _ _ Hw Ho Hok).
  intros q Hq. destruct (Hg q) as [?|(Hqc & Hnone & _)]; [done|].
  destruct Hu as (rc & Hrc & Hin & Hpre). exists rc. split_and!; [done|done|].
  destruct (prefix_weak_total rc q cs Hpre Hqc) as [?|[k Hk]]; [done|].
  destruct (Hroots rc Hrc Hin) as [Hp Hd]. unfold fs_of in *. destruct k as [|x k].
  - rewrite app_nil_r in Hk. subst. congruence.
  - rewrite (Hp q x k Hk) in Hnone. done.
Qed.

Lemma moveFile_confined raw : confined (moveFile paths raw).
Proof.
  intros w r w' Hw Hroots [(_ & Ho & _)|(_ & H)]%moveFile_run; [by apply confined_same| |done].
  destruct H as (a & p1 & p2 & n & _ & _ & Hp1 & Hp2 & Hu1 & Hu2 & _ & _ & (d1 & c1 & E1 & _) & He2 & Hn & Hd & Hnd & _ & Ho).
  case_decide as E; [by apply confined_same|]. apply (confined_with _ _ _ Hw Ho).
  - eapply fs_ok_move_tree; [apply Hw|done|done|by rewrite E1|done|by intros Hn0; apply (proj2 (Hd Hn0))|done].
  - intros q. rewrite lookup_move_tree. case_decide as H2.
    + intros _. destruct H2 as [k ->]. by apply under_root_app.
    + case_decide as H1; [|done]. intros _. destruct H1 as [[k ->]| ->]; [by apply under_root_app|done].
Qed.

(** ** The tools that only look *)

#[export] Instance looks_readFile raw : Looks (readFile paths raw).
Proof. unfold readFile. apply _. Qed.

#[export] Instance looks_read_one limit p : Looks (read_one paths limit p).
Proof. unfold read_one. apply _. Qed.

#[export] Instance looks_read_files limit total ps : Looks (read_files paths limit total ps).
Proof. revert total. induction ps as [|p ps IH]; intros total; cbn [read_files]; apply _. Qed.

#[export] Instance looks_readMultipleFiles raw : Looks (readMultipleFiles paths raw).
Proof. unfold readMultipleFiles. apply _. Qed.

#[export] Instance looks_list_entries l : Looks (list_entries l).
Proof. induction l as [|[c n] l IH]; cbn [list_entries]; apply _. Qed.

#[export] Instance looks_listDirectory raw : Looks (listDirectory paths raw).
Proof. unfold listDirectory, readDir. apply _. Qed.

#[export] Instance looks_getFileInfo raw : Looks (getFileInfo paths raw).
Proof. unfold getFileInfo. apply _. Qed.

(** The window of a file that a successful [readFile] answers with. *)
Lemma encode_decode b : decode_content (encode_content b).1 (encode_content b).2 = Ok b.
Proof.
  unfold encode_content. destruct (utf8_Valid b); cbn [fst snd]; unfold decode_content.
  - cbn. by rewrite String.list_byte_of_string_of_list_byte.
  - by rewrite DecodeString_EncodeToString.
Qed.

Lemma readFile_run a w reply w' :
  roots_clean paths -> os_ok (w_os w) -> readFile paths (Ok a) w = (Ok reply, w') ->
  exists cs content perm, let b := read_window content (rf_Offset a) (read_limit (rf_MaxBytes a)) in
    ResolveExisting (w_os w) paths (rf_Path a) = Ok (render true cs) /\
    fr_path reply = render true cs /\ under_root paths cs /\ Forall name cs /\ canonical (fs_of w) cs /\
    node_at (fs_of w) cs = Some (NFile content perm) /\ 0 <= rf_Offset a /\
    decode_content (fr_encoding reply) (fr_content reply) = Ok b.1 /\
    fr_offset reply = rf_Offset a /\ fr_next_offset reply = rf_Offset a + len b.1 /\
    fr_truncated reply = b.2.
Proof.
  intros Hroots Hos H. unfold readFile in H. pose proof (still_refl w) as S.
  look_ok H a' w1 Hr. injection Hr as <- <-.
  look_ok H path w2 Hr. pose proof (still_query _ _ _ _ _ S0 Hr) as HR.
  eapply resolveExisting_run in Hr as (cs & -> & Hu & Hcs & Hc); [|done..].
  look_ok H st w3 Hst.
  destruct (is_dir st); [done|]. destruct (rf_Offset a <? 0) eqn:Ho; [done|].
  look_ok H data w4 Hr. eapply still_query in Hr; [|done].
  apply read_all_canonical in Hr as (perm & Hat); [|done|done].
  destruct (read_window _ _ _) as [b tr] eqn:E. destruct (encode_content b) as [enc txt] eqn:E2.
  injection H as <- <-. exists cs, data, perm. rewrite E. cbn. apply Z.ltb_ge in Ho.
  split_and!; try done. pose proof (encode_decode b) as H. by rewrite E2 in H.
Qed.

(** Without faults the calls answer what they find. *)
Lemma query_bind {A B} (f : Os -> result A) (g : A -> F B) w a :
  w_faults w = [] -> f (w_os w) = Ok a -> (query f ≫= g) w = g a w.
Proof. intros Hf Ha. apply run_bind_Ok. by rewrite run_query, Ha. Qed.

Lemma try_query_bind {A B} (f : Os -> result A) (g : result A -> F B) w :
  w_faults w = [] -> (try (query f) ≫= g) w = g (f (w_os w)) w.
Proof. intros Hf. apply run_bind_Ok. unfold try. by rewrite run_query. Qed.

Lemma Stat_of_canonical os cs n : Forall name cs -> canonical (os_fs os) cs ->
  node_at (os_fs os) cs = Some n -> Stat os (render true cs) = Ok n.
Proof.
  intros Hn Hc Hat. unfold Stat. rewrite namei_render by done.
  rewrite (result_bind_eq _ _ _ (namei_canonical _ _ Hn Hc)). by rewrite Hat.
Qed.

Lemma read_all_of_canonical os cs data perm : Forall name cs -> canonical (os_fs os) cs ->
  node_at (os_fs os) cs = Some (NFile data perm) -> read_all os (render true cs) = Ok data.
Proof.
  intros Hn Hc Hat. unfold read_all. rewrite namei_render by done.
  rewrite (result_bind_eq _ _ _ (namei_canonical _ _ Hn Hc)). by rewrite Hat.
Qed.

Lemma readFile_works a w cs content perm :
  w_faults w = [] -> ResolveExisting (w_os w) paths (rf_Path a) = Ok (render true cs) ->
  Forall name cs -> canonical (fs_of w) cs -> node_at (fs_of w) cs = Some (NFile content perm) ->
  0 <= rf_Offset a -> exists reply, readFile paths (Ok a) w = (Ok reply, w).
Proof.
  intros Hf Hr Hcs Hc Hat Ho. unfold readFile, resolveExisting, stat, readAll.
  assert (decodeArgs (Ok a) w = (Ok a, w)) as Hd by done. rewrite (run_bind_Ok _ _ _ _ _ Hd).
  rewrite (query_bind _ _ _ _ Hf Hr).
  rewrite (query_bind _ _ _ _ Hf (Stat_of_canonical _ _ _ Hcs Hc Hat)).
  change (is_dir (NFile content perm)) with false. cbv zeta iota. rewrite (proj2 (Z.ltb_ge _ _) Ho).
  rewrite (query_bind _ _ _ _ Hf (read_all_of_canonical _ _ _ _ Hcs Hc Hat)).
  destruct (read_window _ _ _) as [b tr], (encode_content b) as [enc txt]. by eexists.
Qed.

Lemma read_limit_range max : 1 <= read_limit max <= maxReadBytes.
Proof.
  unfold read_limit. assert (maxReadBytes = 4194304) as -> by reflexivity.
  destruct (max <=? 0) eqn:E1; cbn; [lia|]. destruct (4194304 <? max) eqn:E2; bool_props; lia.
Qed.

Lemma read_window_spec content off limit : 0 <= off -> 1 <= limit ->
  let '(b, tr) := read_window content off limit in
  b = take (Z.to_nat limit) (drop (Z.to_nat off) content) /\ tr = (off + limit <? len content).
Proof.
  intros Ho Hl. unfold read_window. set (d := drop (Z.to_nat off) content).
  assert (len d = Z.max 0 (len content - off)) as Hd by (unfold d; rewrite length_drop; lia).
  rewrite length_take. destruct (limit <? _) eqn:E; bool_props.
  - rewrite take_take. split; [f_equal; lia|]. symmetry. apply Z.ltb_lt. lia.
  - split; [rewrite !take_ge by lia; done|]. symmetry. apply Z.ltb_ge. lia.
Qed.
End tools.


(** ** The text of an edit *)

(** [pieces] is what is left of [l] when the occurrences of [old] are cut out
    from the left, each search starting behind the occurrence before. *)
Inductive leftmost (old : list byte) : list byte -> list (list byte) -> Prop :=
| leftmost_end l :
    (forall i, take (length old) (drop i l) <> old) -> leftmost old l [l]
| leftmost_cut p rest pieces :
    (forall i, (i < length p)%nat -> take (length old) (drop i (p ++ old ++ rest)) <> old) ->
    leftmost old rest pieces -> leftmost old (p ++ old ++ rest) (p :: pieces).

Fixpoint join (sep : list byte) (pieces : list (list byte)) : list byte :=
  match pieces with
  | [] => []
  | [p] => p
  | p :: pieces' => p ++ sep ++ join sep pieces'
  end.

Lemma Count_skip old k l : Count old k l = Count old 0 (drop k l).
Proof. revert k. induction l as [|b l IH]; intros [|k]; try done. cbn [Count drop]. apply IH. Qed.

Lemma ReplaceAll_skip old new k l : ReplaceAll old new k l = ReplaceAll old new 0 (drop k l).
Proof. revert k. induction l as [|b l IH]; intros [|k]; try done. cbn [ReplaceAll drop]. apply IH. Qed.

Lemma leftmost_nonempty old l ps : leftmost old l ps -> ps <> [].
Proof. by destruct 1. Qed.

Lemma join_cons sep p ps : ps <> [] -> join sep (p :: ps) = p ++ sep ++ join sep ps.
Proof. by destruct ps. Qed.

Lemma leftmost_later old b l ps :
  take (length old) (b :: l) <> old -> leftmost old l ps ->
  exists p ps', ps = p :: ps' /\ leftmost old (b :: l) ((b :: p) :: ps').
Proof.
  intros Hb H. destruct H as [l H|p rest ps H Hr].
  - exists l, []. split; [done|]. constructor. intros [|i]; [exact Hb|exact (H i)].
  - exists p, ps. split; [done|]. apply (leftmost_cut old (b :: p)); [|done].
    intros [|i] Hi; [exact Hb|]. apply (H i). simpl in Hi. lia.
Qed.

Lemma replace_leftmost old new l : old <> [] ->
  exists pieces, leftmost old l pieces /\ l = join old pieces /\
    Count old 0 l = len pieces - 1 /\ ReplaceAll old new 0 l = join new pieces.
Proof.
  intros Hold. remember (length l) as n eqn:Hn. revert l Hn.
  induction n as [n IH] using lt_wf_ind. intros [|b l] ->.
  - exists [[]]. split_and!; [|done|done|done]. constructor. intros i E. destruct old; [done|].
    by rewrite drop_nil in E.
  - cbn [Count ReplaceAll]. case_decide as E.
    + rewrite Count_skip, ReplaceAll_skip.
      assert (drop (pred (length old)) l = drop (length old) (b :: l)) as Ed by (by destruct old).
      rewrite Ed. set (rest := drop (length old) (b :: l)).
      assert (b :: l = old ++ rest) as El by (rewrite <- (take_drop (length old) (b :: l)), E; done).
      destruct (IH (length rest)) with (l := rest) as (ps & Hps & Hj & HC & HR); [|done|].
      { rewrite El, length_app. destruct old; [done|]. simpl. lia. }
      pose proof (leftmost_nonempty _ _ _ Hps) as Hne.
      exists ([] :: ps). rewrite El, HC, HR, !join_cons, <- Hj by done. cbn [app length].
      split_and!; [|done|lia|done]. apply (leftmost_cut old []); [simpl; lia|done].
    + destruct (IH (length l)) with (l := l) as (ps & Hps & Hj & HC & HR); [simpl; lia|done|].
      destruct (leftmost_later old b l ps E Hps) as (p & ps' & -> & H).
      exists ((b :: p) :: ps'). rewrite HC, HR. split_and!; [done| |done|].
      * rewrite Hj at 1. by destruct ps'.
      * by destruct ps'.
Qed.

(** The cutting is determined by the text. *)
Lemma leftmost_unique old l ps1 ps2 : old <> [] ->
  leftmost old l ps1 -> leftmost old l ps2 -> ps1 = ps2.
Proof.
  intros Hold H1. revert ps2. induction H1 as [l H|p rest ps H Hr IH]; intros ps2 H2.
  - inversion H2 as [|p rest ps Hq Hr E]; subst; [done|]. exfalso. apply (H (length p)).
    by rewrite drop_app_length, take_app_length.
  - remember (p ++ old ++ rest) as l eqn:El. destruct H2 as [l H2|p2 rest2 ps2 H2 Hr2].
    + exfalso. apply (H2 (length p)). by rewrite El, drop_app_length, take_app_length.
    + assert (forall p q (r s : list byte), (length p < length q)%nat -> p ++ old ++ r = q ++ old ++ s ->
        (forall i, (i < length q)%nat -> take (length old) (drop i (q ++ old ++ s)) <> old) -> False) as Habs.
      { intros p' q r s Hl E Hq. apply (Hq (length p') Hl). by rewrite <- E, drop_app_length, take_app_length. }
      destruct (Nat.lt_trichotomy (length p) (length p2)) as [Hl|[Hl|Hl]].
      * exfalso. eapply (Habs p p2); eauto.
      * apply app_inj_1 in El as [-> El]; [|done]. apply app_inv_head in El as ->. f_equal. by apply IH.
      * exfalso. eapply (Habs p2 p); eauto. by rewrite El in H.
Qed.
