(* ===== verification/ToolClaims.v ===== *)
(** * The file tools: claims

    What the agent's file tools promise to a remote caller, in every outcome,
    whatever system calls fail on the way. *)
From S2P Require Import Prelude Crypto GoStrings Base64 Filepath FileSystem PathPolicy FileOps Executor FileProps ExecutorProps.
Local Open Scope Z_scope.

(** A client that reads a file piece by piece, going on at [next_offset]. *)
Fixpoint poll_file (paths : Policy) (fuel : nat) (a : readFileArgs) : F (list byte) :=
  match fuel with
  | O => fail (Foreign "out of fuel")
  | S fuel' =>
      reply ← readFile paths (Ok a);
      chunk ← lift (decode_content (fr_encoding reply) (fr_content reply));
      if fr_truncated reply then
        rest ← poll_file paths fuel' (mkReadFileArgs (rf_Path a) (fr_next_offset reply) (rf_MaxBytes a));
        mret (chunk ++ rest)
      else mret chunk
  end.

(** C34 Reading a file piece by piece, from any offset and with any size limit,
    ends and yields the rest of the file, text or binary, without a gap or a
    repeated byte; nothing is changed. *)
Theorem chunked_reads_return_the_file paths a w cs content perm fuel :
  ready paths w -> w_faults w = [] ->
  ResolveExisting (w_os w) paths (rf_Path a) = Ok (render true cs) -> Forall name cs ->
  node_at (fs_of w) cs = Some (NFile content perm) -> 0 <= rf_Offset a ->
  (length content < fuel)%nat ->
  poll_file paths fuel a w = (Ok (drop (Z.to_nat (rf_Offset a)) content), w).
Proof.
  intros Hw Hf Hr Hcs Hat. revert a Hr.
  assert (forall n a, ResolveExisting (w_os w) paths (rf_Path a) = Ok (render true cs) ->
    0 <= rf_Offset a -> (length content - Z.to_nat (rf_Offset a) < n)%nat ->
    poll_file paths n a w = (Ok (drop (Z.to_nat (rf_Offset a)) content), w)) as H.
  { induction n as [|n IH]; intros a Hr Ho Hn; [lia|]. cbn [poll_file].
    pose proof Hr as HR. apply ResolveExisting_Ok in HR as (_ & _ & cs' & _ & _ & Ecs & _ & Hcs' & Hc);
      [|apply Hw..]. apply (render_inj _ _ Hcs Hcs') in Ecs as <-.
    destruct (readFile_works paths a w cs content perm Hf Hr Hcs Hc Hat Ho) as [reply Hrun].
    rewrite (run_bind_Ok _ _ _ _ _ Hrun).
    apply readFile_run in Hrun as (cs2 & content2 & perm2 & HR & _ & _ & Hcs2 & _ & Hat2 & _ & Hdec & _ & Hnext & Htr); [|apply Hw..].
    assert (cs2 = cs) as -> by (apply (render_inj _ _ Hcs2 Hcs); congruence).
    rewrite Hat in Hat2. injection Hat2 as <- <-.
    set (limit := read_limit (rf_MaxBytes a)) in *. assert (1 <= limit) by apply read_limit_range.
    pose proof (read_window_spec content (rf_Offset a) limit Ho ltac:(done)) as HW.
    destruct (read_window content (rf_Offset a) limit) as [b tr]. cbn [fst snd] in *.
    destruct HW as [Hb Htr']. rewrite Hdec. unfold lift at 1, mbind at 1, F_bind at 1. cbv beta iota.
    rewrite Htr, Htr'. destruct (rf_Offset a + limit <? len content) eqn:E; bool_props.
    - assert (len b = limit) as Hlb by (rewrite Hb, length_take, length_drop; lia).
      rewrite (run_bind_Ok _ _ _ _ _ (IH (mkReadFileArgs (rf_Path a) (fr_next_offset reply) (rf_MaxBytes a))
        Hr ltac:(cbn; lia) ltac:(cbn; lia))).
      cbn [rf_Offset]. rewrite Hnext, Hlb, Hb. cbv [mret F_ret]. do 2 f_equal.
      rewrite Z2Nat.inj_add, <- drop_drop by lia. by rewrite take_drop.
    - cbv [mret F_ret]. rewrite Hb, take_ge; [done|]. rewrite length_drop. lia. }
  intros a Hr Ho Hfuel. apply H; [done|done|lia].
Qed.


(** C14 [write_file] is all or nothing: when it succeeds, the file system is
    the old one with exactly one file set to the decoded content, a path below
    a root reached through no symbolic link; when it fails, nothing has
    changed, except that a failing system call may leave a temporary file,
    with a fresh name, in a directory below a root. *)
Theorem write_file_is_atomic paths raw w r w' :
  ready paths w -> writeFile paths raw w = (r, w') ->
  match r with
  | Ok (path, n) =>
      exists a data cs, raw = Ok a /\ decode_content (wf_Encoding a) (wf_Content a) = Ok data /\
        n = len data /\ n <= maxWriteBytes /\
        path = render true cs /\ under_root paths cs /\ link_free (fs_of w) cs /\
        node_at (fs_of w) cs <> Some NDir /\
        fs_of w' = <[cs := NFile data (file_mode (wf_Mode a) 384)]> (fs_of w)
  | Err _ =>
      fs_of w' = fs_of w \/
      exists ds n content perm, let t := ds ++ [(".orc-write-" ++ n)%string] in
        (pending w' < pending w)%nat /\ under_root paths ds /\ node_at (fs_of w) t = None /\
        fs_of w' = <[t := NFile content perm]> (fs_of w)
  end.
Proof.
  intros Hw [([e ->] & Ho & _)|(_ & H)]%writeFile_run; [left; unfold fs_of; congruence| |done].
  destruct H as (a & data & cs & ds & -> & Hd & Hl & Hcs & Hu & Hlf & Hds & Hud & _ & H).
  destruct r as [[path n]|e].
  - destruct H as (-> & -> & _ & _ & Hnd & Ho). exists a, data, cs. unfold fs_of in *. rewrite Ho.
    by split_and!.
  - right. destruct H as (Hp & n & content & perm & _ & _ & Hfresh & Ho).
    exists ds, n, content, perm. unfold fs_of in *. rewrite Ho. by split_and!.
Qed.

(** C15 [edit_block] replaces exactly the occurrences it announces: the old
    text is the pieces between the occurrences of [old_string], found from the
    left without overlaps, the new text is the same pieces with [new_string]
    between them, and the number of occurrences is the expected one.  Nothing
    else changes, and a failing edit changes no existing file. *)
Theorem edit_block_replaces_exactly paths raw w r w' :
  ready paths w -> editBlock paths raw w = (r, w') ->
  match r with
  | Ok (path, k, n) =>
      exists a cs pieces perm, raw = Ok a /\ path = render true cs /\ under_root paths cs /\
        let old := join (old_bytes a) pieces in
        let new := join (new_bytes a) pieces in
        node_at (fs_of w) cs = Some (NFile old perm) /\ leftmost (old_bytes a) old pieces /\
        len pieces = k + 1 /\ k = expected a /\ 1 <= k <= 1000 /\
        n = len new /\ n <= maxWriteBytes /\
        fs_of w' = <[cs := NFile new perm]> (fs_of w)
  | Err _ => forall p, is_Some (fs_of w !! p) -> fs_of w' !! p = fs_of w !! p
  end.
Proof.
  intros Hw [([e ->] & Ho & _)|(_ & H)]%editBlock_run; [intros p _; unfold fs_of; congruence| |done].
  destruct H as (a & ds & c & content & perm & -> & Hold & Hexp & Hcs & Hu & Hc & Hat & _ & _ & Hcnt & Hlen & H).
  destruct r as [[[path k] n]|e].
  - destruct H as (-> & -> & -> & Ho).
    assert (old_bytes a <> []) as Hne.
    { unfold old_bytes. intros E. apply Hold. by apply bytes_of_string_inj. }
    destruct (replace_leftmost (old_bytes a) (new_bytes a) content Hne) as (ps & Hps & Hj & HC & HR).
    exists a, (ds ++ [c]), ps, perm. cbv zeta. rewrite <- Hj, <- HR. unfold fs_of in *. rewrite Ho.
    split_and!; try done; lia.
  - intros p [n Hn]. destruct H as (_ & x & co & pe & _ & _ & Hf & Ho). unfold fs_of in *. rewrite Ho.
    cbn. rewrite lookup_insert_ne; [done|]. intros <-. by rewrite lookup_node_at, Hf in Hn.
Qed.

(** C35 [move_file] moves the whole tree below the source and nothing else, or
    changes nothing.  What the destination held before is lost only if the
    caller asked for that ([IsNotExist] of an error that [os.Lstat] did not
    mean is the one other reason), and never a directory or a symbolic link. *)
Theorem move_file_moves_the_tree paths raw w r w' :
  ready paths w -> moveFile paths raw w = (r, w') ->
  match r with
  | Ok (src, dst) =>
      exists a p1 p2, raw = Ok a /\ src = render true p1 /\ dst = render true p2 /\
        under_root paths p1 /\ under_root paths p2 /\ is_Some (node_at (fs_of w) p1) /\
        (forall n, node_at (fs_of w) p2 = Some n ->
           (mv_Overwrite a = true \/ exists e k, Some (e, k) ∈ w_faults w /\ IsNotExist e = true) /\
           exists content perm, n = NFile content perm) /\
        (forall k, fs_of w' !! (p2 ++ k) = fs_of w !! (p1 ++ k)) /\
        (forall k, p1 <> p2 -> fs_of w' !! (p1 ++ k) = None) /\
        (forall q, ~ p1 `prefix_of` q -> ~ p2 `prefix_of` q -> fs_of w' !! q = fs_of w !! q)
  | Err _ => fs_of w' = fs_of w
  end.
Proof.
  intros Hw [([e ->] & Ho & _)|(_ & H)]%moveFile_run; [unfold fs_of; congruence| |done].
  destruct H as (a & p1 & p2 & n & -> & -> & Hp1 & Hp2 & Hu1 & Hu2 & Hc1 & Hl2 & He1 & He2 & Hat & Hd & Hnd & Hov & Ho).
  assert (forall q, fs_of w' !! q = (if decide (p1 = p2) then fs_of w else move_tree p1 p2 (fs_of w)) !! q) as Hq.
  { intros q. unfold fs_of at 1. rewrite Ho. by case_decide. }
  assert (p1 <> []) as Hp1e by (destruct He1 as (d & c & -> & _); done).
  exists a, p1, p2. split; [done|]. do 2 (split; [done|]). do 2 (split; [done|]). split; [by exists n|].
  split; [|split_and!].
  - intros m Hm. split; [apply Hov; by eexists|]. destruct m as [|c pe|t]; [done|by exists c, pe|].
    exfalso. apply (Hl2 p2 [] t); [by rewrite app_nil_r|done].
  - intros k. rewrite Hq. case_decide as E; [by rewrite E|].
    rewrite lookup_move_tree, decide_True by by exists k. rewrite drop_app_length.
    destruct (fs_of w !! (p1 ++ k)) eqn:Ek; [done|]. case_decide as Ep; [done|].
    destruct k as [|x k]; [by destruct Ep; right; rewrite app_nil_r|]. apply fs_child; [apply Hw|done].
  - intros k Hne. rewrite Hq, decide_False by done.
    destruct (move_unrelated _ p1 p2 n k He1 He2 Hat (fun Hn => proj2 (Hd Hn)) Hnd Hne) as [Hp2n _].
    rewrite lookup_move_tree, (decide_False (P := p2 `prefix_of` _)) by done.
    by rewrite decide_True by (left; by exists k).
  - intros q Hq1 Hq2. rewrite Hq. case_decide; [done|].
    rewrite lookup_move_tree, !decide_False; [done| |done]. intros [?| ->]; [done|by apply Hq2].
Qed.

(** [create_directory] makes its path a directory, reached through no
    symbolic link; in every outcome all that was there before is still there,
    and everything new is an empty directory on the way to that path. *)
Theorem create_directory_makes_the_path paths raw w r w' :
  ready paths w -> createDirectory paths raw w = (r, w') ->
  match r with
  | Ok path => exists cs, path = render true cs /\ under_root paths cs /\ real_dir (fs_of w') cs /\
      Stat (w_os w') path = Ok NDir
  | Err _ => True
  end /\
  forall q, fs_of w' !! q = fs_of w !! q \/
    fs_of w !! q = None /\ fs_of w' !! q = Some NDir /\
    exists a cs, raw = Ok a /\ q `prefix_of` cs /\
      (ResolveForCreate (w_os w) paths (cd_Path a) = Ok (render true cs)).
Proof.
  intros Hw [([e ->] & Ho & _)|(a & cs & -> & HR & Hcs & Hu & Hl & H & Hr)]%createDirectory_run; [| |done].
  { split; [done|]. intros q. left. unfold fs_of. congruence. }
  destruct H as (_ & fs' & Ho & Hok & Hg & Hdir). split.
  - destruct r as [path|e]; [|done]. rewrite (Hr path eq_refl).
    assert (real_dir (fs_of w') cs) as Hd by (unfold fs_of; rewrite Ho; by apply Hdir).
    exists cs. split_and!; [done|done|done|].
    apply Stat_of_canonical; [done|by apply real_dir_canonical|apply Hd].
  - intros q. unfold fs_of. rewrite Ho. cbn [with_fs os_fs]. destruct (Hg q) as [?|(Hq & Hn & ?)]; [by left|right].
    assert (q <> []) as Hne by (intros ->; done). rewrite <- lookup_node_at in Hn by done.
    split_and!; [done|done|]. by exists a, cs.
Qed.

(** ** Reading several files *)

(** The bytes that an entry of the reply carries. *)
Definition entry_bytes (f : fileEntry) : list byte :=
  match f with
  | EntryFile _ enc txt _ => match decode_content enc txt with Ok b => b | Err _ => [] end
  | EntryError _ _ => []
  end.

(** An entry of the reply for the path [p]: an error for that path, or the
    first [limit] bytes of the file it resolves to. *)
Definition entry_for (paths : Policy) (limit : Z) (w : World) (p : string) (f : fileEntry) : Prop :=
  match f with
  | EntryError p' _ => p' = p
  | EntryFile path enc txt tr =>
      exists cs content perm,
        ResolveExisting (w_os w) paths p = Ok path /\ path = render true cs /\ under_root paths cs /\
        node_at (fs_of w) cs = Some (NFile content perm) /\
        decode_content enc txt = Ok (take (Z.to_nat limit) content) /\ tr = (limit <? len content)
  end.

Lemma read_one_run paths limit p w0 w path b tr w' :
  ready paths w0 -> still w0 w -> 1 <= limit -> read_one paths limit p w = (Ok (path, b, tr), w') ->
  exists cs content perm, ResolveExisting (w_os w0) paths p = Ok path /\
    path = render true cs /\ under_root paths cs /\
    node_at (fs_of w0) cs = Some (NFile content perm) /\
    b = take (Z.to_nat limit) content /\ tr = (limit <? len content).
Proof.
  intros Hw S Hlim H. unfold read_one in H.
  look_ok H path' w1 Hr. pose proof (still_query _ _ _ _ _ S Hr) as HR.
  eapply resolveExisting_run in Hr as (cs & -> & Hu & Hcs & Hc); [|apply Hw|apply Hw|done].
  look_ok H st w2 Hst. destruct (is_dir st); [done|].
  look_ok H data w3 Hr. eapply still_query in Hr; [|done].
  apply read_all_canonical in Hr as (perm & Hat); [|done|done].
  pose proof (read_window_spec data 0 limit ltac:(done) Hlim) as HW.
  destruct (read_window data 0 limit) as [b' tr']. destruct HW as [Hb Ht].
  injection H as <- <- <- _. exists cs, data, perm. by rewrite Hb, Ht.
Qed.

Lemma read_files_run paths limit ps w0 w total files w' :
  ready paths w0 -> 1 <= limit -> still w0 w -> total <= maxCombinedReadBytes ->
  read_files paths limit total ps w = (Ok files, w') ->
  Forall2 (entry_for paths limit w0) ps files /\
  total + len (concat (entry_bytes <$> files)) <= maxCombinedReadBytes.
Proof.
  intros Hw Hlim. revert w total files w'. induction ps as [|p ps IH]; intros w total files w' S Ht H;
    cbn [read_files] in H.
  - injection H as <- <-. split; [constructor|]. cbn. lia.
  - look_ok H st w1 Hr. apply run_try in Hr as (r1 & [= ->] & Hr).
    destruct r1 as [[[path b] tr]|e].
    + destruct (maxCombinedReadBytes <? total + len b) eqn:E; [done|]. apply Z.ltb_ge in E.
      pose proof (encode_decode b) as Hdec. destruct (encode_content b) as [enc txt]. cbn [fst snd] in Hdec.
      look_ok H rest w2 Hrest. injection H as <- <-.
      eapply IH in Hrest as [HF Hsum]; [|done|lia].
      eapply read_one_run in Hr as (cs & content & perm & ? & ? & ? & ? & Hb & ?); [|done|done|done].
      split.
      * constructor; [|done]. exists cs, content, perm. by rewrite <- Hb.
      * cbn [fmap list_fmap concat entry_bytes]. rewrite Hdec, length_app. lia.
    + look_ok H rest w2 Hrest. injection H as <- <-. eapply IH in Hrest as [HF Hsum]; [|done|done].
      split; [by constructor|]. cbn [fmap list_fmap concat entry_bytes app]. lia.
Qed.

Lemma read_files_fails paths limit total ps w e w' :
  read_files paths limit total ps w = (Err e, w') -> e = NewErr "combined read exceeds 8MiB".
Proof.
  revert w total. induction ps as [|p ps IH]; intros w total H; cbn [read_files] in H; [done|].
  apply run_bind in H as [(st & w1 & Hr & H)|(e1 & (r1 & ? & _)%run_try & _)]; [|done].
  apply run_try in Hr as (r1 & [= ->] & Hr). destruct r1 as [[[path b] tr]|e1].
  - destruct (_ <? _); [by injection H as <- <-|]. destruct (encode_content b) as [enc txt].
    apply run_bind in H as [(rest & w2 & _ & H)|(e2 & Hrest & [= <-])]; [done|by eapply IH].
  - apply run_bind in H as [(rest & w2 & _ & H)|(e2 & Hrest & [= <-])]; [done|by eapply IH].
Qed.

(** [read_multiple_files] answers every one of at most 32 paths, in order:
    with the first bytes of the file it resolves to, below a root, or with an
    error of its own that does not affect the others.  All the content
    together is at most 8 MiB; the whole call fails only for its arguments or
    because that bound would be passed.  Nothing is changed. *)
Theorem read_multiple_files_answers_each paths raw w r w' :
  ready paths w -> readMultipleFiles paths raw w = (r, w') ->
  w_os w' = w_os w /\
  match r with
  | Ok files =>
      exists a, raw = Ok a /\ 1 <= len (rm_Paths a) <= 32 /\
        Forall2 (entry_for paths (read_limit (rm_MaxBytesPerFile a)) w) (rm_Paths a) files /\
        len (concat (entry_bytes <$> files)) <= maxCombinedReadBytes
  | Err e =>
      (exists e0, raw = Err e0) \/
      (exists a, raw = Ok a /\ (rm_Paths a = [] \/ 32 < len (rm_Paths a))) \/
      e = NewErr "combined read exceeds 8MiB"
  end.
Proof.
  intros Hw H. split; [by apply looks in H as (? & _)|]. unfold readMultipleFiles in H.
  destruct raw as [a|e0]; [|injection H as <- <-; left; by eexists].
  cbn [decodeArgs] in H. apply run_bind in H as [(a' & w1 & [= <- <-] & H)|(e & ? & _)]; [|done].
  destruct (bool_decide _ || _) eqn:E.
  - injection H as <- <-. right. left. exists a. split; [done|]. bool_props; auto.
  - assert (1 <= len (rm_Paths a) <= 32) as Hlen.
    { bool_props. destruct (rm_Paths a); [done|]. simpl in *. lia. }
    destruct r as [files|e].
    + exists a. eapply read_files_run with (w0 := w) in H as [? Hsum];
        [split_and!; try done; lia|done|apply read_limit_range|apply still_refl|by vm_compute].
    + right. right. by apply read_files_fails in H.
Qed.

(** ** Writing, then reading *)

Lemma writeFile_works paths a w ds c data :
  ready paths w -> w_faults w = [] ->
  ResolveForCreate (w_os w) paths (wf_Path a) = Ok (render true (ds ++ [c])) ->
  Forall name (ds ++ [c]) -> real_dir (fs_of w) ds -> under_root paths ds ->
  (forall n, node_at (fs_of w) (ds ++ [c]) = Some n -> exists content perm, n = NFile content perm) ->
  decode_content (wf_Encoding a) (wf_Content a) = Ok data -> len data <= maxWriteBytes ->
  (exists n, n ∈ w_names w /\ node_at (fs_of w) (ds ++ [(".orc-write-" ++ n)%string]) = None) ->
  exists w', writeFile paths (Ok a) w = (Ok (render true (ds ++ [c]), len data), w').
Proof.
  intros Hw Hf Hr Hn Hd Hu Hfile Hdec Hlen Hfree. pose proof (proj1 (Forall_app _ _ _) Hn) as [Hds _].
  unfold writeFile, resolveForCreate, resolveExisting, lstat.
  assert (decodeArgs (Ok a) w = (Ok a, w)) as H0 by done. rewrite (run_bind_Ok _ _ _ _ _ H0).
  rewrite (query_bind _ _ _ _ Hf Hr), Hdec.
  assert (lift (Ok data) w = (Ok data, w)) as H1 by done. rewrite (run_bind_Ok _ _ _ _ _ H1).
  rewrite (proj2 (Z.ltb_ge _ _) Hlen), Dir_render by done.
  rewrite (query_bind _ _ _ _ Hf (ResolveExisting_canonical _ _ _ (ready_roots _ _ Hw) Hds
             (real_dir_canonical _ _ Hd) Hu)).
  rewrite (try_query_bind _ _ _ Hf), Lstat_render by done.
  rewrite (result_bind_eq _ _ _ (namei_canonical _ _ Hds (real_dir_canonical _ _ Hd))).
  destruct (replace_file_works ".orc-write-" ds c data (file_mode (wf_Mode a) 384) w Hf temp_prefix_write)
    as (w' & H2 & _); try done; [apply Hw|apply Hw| |].
  { intros E. apply Hfile in E as (? & ? & ?). done. }
  destruct Hd as [_ Hd]. unfold fs_of in Hfile, Hd. rewrite Hd. exists w'.
  destruct (node_at (os_fs (w_os w)) (ds ++ [c])) as [n|] eqn:E.
  - destruct (Hfile n eq_refl) as (content & perm & ->). change (is_link (NFile content perm)) with false.
    cbv iota. erewrite run_bind_Ok; [|done]. by rewrite (run_bind_Ok _ _ _ _ _ H2).
  - change (IsNotExist ENOENT) with true. cbv iota.
    erewrite run_bind_Ok; [|done]. by rewrite (run_bind_Ok _ _ _ _ _ H2).
Qed.

(** What [write_file] accepts, text or base64, [read_file] returns: without
    faults a write to a name in an allowed directory succeeds when no
    directory or link has that name, and a later read of that path, with the
    default limit, yields exactly the written bytes in one piece. *)
Theorem written_file_reads_back paths a w ds c data :
  ready paths w -> w_faults w = [] ->
  ResolveForCreate (w_os w) paths (wf_Path a) = Ok (render true (ds ++ [c])) ->
  Forall name (ds ++ [c]) -> real_dir (fs_of w) ds -> under_root paths ds ->
  (forall n, node_at (fs_of w) (ds ++ [c]) = Some n -> exists content perm, n = NFile content perm) ->
  decode_content (wf_Encoding a) (wf_Content a) = Ok data -> len data <= maxWriteBytes ->
  (exists n, n ∈ w_names w /\ node_at (fs_of w) (ds ++ [(".orc-write-" ++ n)%string]) = None) ->
  exists w', writeFile paths (Ok a) w = (Ok (render true (ds ++ [c]), len data), w') /\
    forall later, w_os later = w_os w' -> w_faults later = [] ->
    exists reply, readFile paths (Ok (mkReadFileArgs (render true (ds ++ [c])) 0 0)) later = (Ok reply, later) /\
      decode_content (fr_encoding reply) (fr_content reply) = Ok data /\ fr_truncated reply = false.
Proof.
  intros Hw Hf Hr Hn Hd Hu Hfile Hdec Hlen Hfree.
  destruct (writeFile_works paths a w ds c data) as [w' H]; try done. exists w'. split; [done|].
  intros later Ho Hfl.
  pose proof H as HS. apply writeFile_run in HS as [([e HS] & _)|(_ & HS)]; [done| |done].
  destruct HS as (a' & data' & cs & ds' & [= <-] & Hdec' & _ & Hcs & _ & _ & _ & _ & _ & E & _ & _ & _ & _ & Ho').
  apply (render_inj _ _ Hn Hcs) in E as <-. rewrite Hdec in Hdec'. injection Hdec' as <-.
  pose proof (proj1 (Forall_app _ _ _) Hn) as [_ Hc]. apply Forall_cons in Hc as [Hc _].
  set (fs' := <[ds ++ [c] := NFile data (file_mode (wf_Mode a) 384)]> (fs_of w)) in *.
  assert (fs_of later = fs') as Hfs by (unfold fs_of; by rewrite Ho, Ho').
  assert (os_ok (w_os later)) as Hos.
  { rewrite Ho, Ho'. split; [|apply Hw]. cbn. apply fs_ok_insert; [apply Hw|apply Hd|done|].
    right. intros E. apply Hfile in E as (? & ? & ?). done. }
  assert (canonical fs' (ds ++ [c])) as Hcan.
  { split; [|exists (NFile data (file_mode (wf_Mode a) 384)); split; [|done]].
    - apply real_parents_snoc, real_dir_insert; [done|]. rewrite length_app. simpl. lia.
    - unfold fs'. by rewrite node_at_insert, decide_True. }
  assert (node_at fs' (ds ++ [c]) = Some (NFile data (file_mode (wf_Mode a) 384))) as Hat
    by (unfold fs'; by rewrite node_at_insert, decide_True).
  set (b := mkReadFileArgs (render true (ds ++ [c])) 0 0).
  rewrite <- Hfs in Hcan, Hat. pose proof (ready_roots _ _ Hw) as Hroots.
  assert (under_root paths (ds ++ [c])) as Huc by by apply under_root_app.
  pose proof (ResolveExisting_canonical _ _ _ Hroots Hn Hcan Huc) as HR.
  destruct (readFile_works paths b later _ _ _ Hfl HR Hn Hcan Hat ltac:(done)) as [reply Hread].
  exists reply. split; [done|].
  apply readFile_run in Hread as (cs & content & perm & HR' & _ & _ & Hcs' & _ & Hat' & _ & Hd2 & _ & _ & Htr); [|done..].
  assert (cs = ds ++ [c]) as -> by (apply (render_inj _ _ Hcs' Hn); cbn [rf_Path b] in HR'; congruence).
  rewrite Hat in Hat'. injection Hat' as <- _. rewrite Hd2, Htr.
  pose proof (read_window_spec data 0 (read_limit 0) ltac:(done) (proj1 (read_limit_range 0))) as HW.
  assert (read_limit 0 = maxWriteBytes) as EL by by vm_compute. rewrite EL in HW. cbn [rf_Offset rf_MaxBytes b].
  rewrite EL. destruct (read_window data 0 maxWriteBytes) as [x tr]. destruct HW as [-> ->]. cbn [fst snd].
  split; [by rewrite drop_0, take_ge by lia|]. apply Z.ltb_ge. lia.
Qed.

(** ** Witnesses *)

Definition text (s : string) : list byte := bytes_of_string s.

(** The file system of the policy's examples with a text file. *)
Definition tool_os : Os :=
  mkOs (Ok "/srv/data"%string) (<[["srv"; "data"; "f"]%string := NFile (text "aXbXXc") 420]> demo_fs).
Definition tool_world : World := mkWorld tool_os [] ["1"; "2"]%string.
(** The third call, writing to the temporary file, fails after two bytes, and
    so does the removal of that file. *)
Definition faulty_world : World :=
  mkWorld tool_os [None; None; None; None; None; Some (Foreign "ENOSPC", 2%nat); Some (Foreign "EIO", O)] ["1"]%string.

Lemma tool_ready fl ns : Forall (fun n => slash ∉ String.list_ascii_of_string n) ns ->
  ready demo_policy (mkWorld tool_os fl ns).
Proof.
  intros Hns. split; [|split|exact Hns].
  - apply (New_roots_clean _ _ _ (proj1 demo_os_ok) demo_New).
  - apply fs_okb_ok. vm_compute. reflexivity.
  - intros wd [= <-]. vm_compute. reflexivity.
Qed.

Lemma tool_world_ready : ready demo_policy tool_world.
Proof. apply tool_ready. repeat constructor; apply (bool_decide_unpack _); by vm_compute. Qed.

Lemma faulty_world_ready : ready demo_policy faulty_world.
Proof. apply tool_ready. repeat constructor; apply (bool_decide_unpack _); by vm_compute. Qed.

Definition f_path : list string := ["srv"; "data"; "f"]%string.

Lemma names_of (l : list string) : forallb (fun c => bool_decide (name c)) l = true -> Forall name l.
Proof. rewrite forallb_forall, Forall_forall. intros H c Hc%list_elem_of_In. by apply H, bool_decide_eq_true_1 in Hc. Qed.

Lemma chunked_reads_return_the_file_witness :
  poll_file demo_policy 7 (mkReadFileArgs "f" 1 2) tool_world = (Ok (text "XbXXc"), tool_world).
Proof.
  apply (chunked_reads_return_the_file demo_policy (mkReadFileArgs "f" 1 2) tool_world f_path (text "aXbXXc") 420 7
    tool_world_ready eq_refl); [vm_compute; reflexivity|apply names_of; vm_compute; reflexivity
    |vm_compute; reflexivity|cbn; lia|vm_compute; lia].
Defined.

Lemma tool_roots_are_dirs : roots_are_dirs demo_policy (fs_of tool_world).
Proof.
  intros rc Hrc [E| []%elem_of_nil]%elem_of_cons.
  apply (render_inj rc ["srv"; "data"]%string Hrc) in E as ->; [|apply names_of; vm_compute; reflexivity].
  split; [|vm_compute; reflexivity]. apply present_real_parents; [apply (tool_world_ready)|]. by eexists.
Qed.

Definition moved_world : World := (moveFile demo_policy (Ok (mkMoveArgs "f" "in/h" false)) tool_world).2.

Lemma moved_run :
  moveFile demo_policy (Ok (mkMoveArgs "f" "in/h" false)) tool_world =
    (Ok ("/srv/data/f", "/srv/data/d/h")%string, moved_world).
Proof. vm_compute. reflexivity. Qed.


Lemma write_file_is_atomic_witness :
  (exists a data cs, Ok (mkWriteFileArgs "in/g" "hi" "" 0) = Ok a /\
     decode_content (wf_Encoding a) (wf_Content a) = Ok data /\ 2 = len data /\ 2 <= maxWriteBytes /\
     "/srv/data/d/g"%string = render true cs /\ under_root demo_policy cs /\ link_free (fs_of tool_world) cs /\
     node_at (fs_of tool_world) cs <> Some NDir /\
     fs_of (writeFile demo_policy (Ok (mkWriteFileArgs "in/g" "hi" "" 0)) tool_world).2 =
       <[cs := NFile data (file_mode (wf_Mode a) 384)]> (fs_of tool_world)) /\
  exists e, (writeFile demo_policy (Ok (mkWriteFileArgs "f" "hi" "" 0)) faulty_world).1 = Err e /\
    fs_of (writeFile demo_policy (Ok (mkWriteFileArgs "f" "hi" "" 0)) faulty_world).2 !!
      ["srv"; "data"; ".orc-write-1"]%string = Some (NFile (text "hi") 384).
Proof.
  split.
  - apply (write_file_is_atomic demo_policy (Ok (mkWriteFileArgs "in/g" "hi" "" 0)) tool_world
      (Ok ("/srv/data/d/g"%string, 2)) _ tool_world_ready).
    vm_compute. reflexivity.
  - eexists. split; vm_compute; reflexivity.
Defined.

Lemma edit_block_replaces_exactly_witness :
  exists a cs pieces perm, Ok (mkEditArgs "f" "X" "YY" 3) = Ok a /\ "/srv/data/f"%string = render true cs /\
    under_root demo_policy cs /\
    let old := join (old_bytes a) pieces in
    let new := join (new_bytes a) pieces in
    node_at (fs_of tool_world) cs = Some (NFile old perm) /\ leftmost (old_bytes a) old pieces /\
    len pieces = 3 + 1 /\ 3 = expected a /\ 1 <= 3 <= 1000 /\ 9 = len new /\ 9 <= maxWriteBytes /\
    fs_of (editBlock demo_policy (Ok (mkEditArgs "f" "X" "YY" 3)) tool_world).2 =
      <[cs := NFile new perm]> (fs_of tool_world).
Proof.
  apply (edit_block_replaces_exactly demo_policy (Ok (mkEditArgs "f" "X" "YY" 3)) tool_world
    (Ok ("/srv/data/f"%string, 3, 9)) _ tool_world_ready).
  vm_compute. reflexivity.
Defined.

Lemma move_file_moves_the_tree_witness :
  fs_of (moveFile demo_policy (Ok (mkMoveArgs "d" "e" false)) tool_world).2 !! ["srv"; "data"; "e"]%string = Some NDir /\
  fs_of (moveFile demo_policy (Ok (mkMoveArgs "d" "f" false)) tool_world).2 = fs_of tool_world.
Proof.
  split; [vm_compute; reflexivity|].
  apply (move_file_moves_the_tree demo_policy (Ok (mkMoveArgs "d" "f" false)) tool_world
    (Err (NewErr "destination exists; set overwrite=true to replace it")) _ tool_world_ready).
  vm_compute. reflexivity.
Defined.

Lemma create_directory_makes_the_path_witness :
  exists cs, "/srv/data/d/a/b"%string = render true cs /\ under_root demo_policy cs /\
    real_dir (fs_of (createDirectory demo_policy (Ok (mkCreateDirArgs "in/a/b" 0)) tool_world).2) cs /\
    Stat (w_os (createDirectory demo_policy (Ok (mkCreateDirArgs "in/a/b" 0)) tool_world).2) "/srv/data/d/a/b" = Ok NDir.
Proof.
  apply (create_directory_makes_the_path demo_policy (Ok (mkCreateDirArgs "in/a/b" 0)) tool_world
    (Ok "/srv/data/d/a/b"%string) _ tool_world_ready).
  vm_compute. reflexivity.
Defined.

Lemma read_multiple_files_answers_each_witness :
  let files := [EntryFile "/srv/data/f" "utf-8" "aXb" true; EntryError "out" ErrOutsideRoots]%string in
  exists a, Ok (mkReadMultipleArgs ["f"; "out"]%string 3) = Ok a /\ 1 <= len (rm_Paths a) <= 32 /\
    Forall2 (entry_for demo_policy (read_limit (rm_MaxBytesPerFile a)) tool_world) (rm_Paths a) files /\
    len (concat (entry_bytes <$> files)) <= maxCombinedReadBytes.
Proof.
  apply (read_multiple_files_answers_each demo_policy (Ok (mkReadMultipleArgs ["f"; "out"]%string 3)) tool_world
    (Ok _) tool_world tool_world_ready).
  vm_compute. reflexivity.
Defined.

Lemma written_file_reads_back_witness :
  exists w', writeFile demo_policy (Ok (mkWriteFileArgs "in/g" "/wA=" "base64" 0)) tool_world =
      (Ok (render true ["srv"; "data"; "d"; "g"]%string, len [z2b 255; z2b 0]), w') /\
    forall later, w_os later = w_os w' -> w_faults later = [] ->
    exists reply, readFile demo_policy (Ok (mkReadFileArgs (render true ["srv"; "data"; "d"; "g"]%string) 0 0)) later =
        (Ok reply, later) /\
      decode_content (fr_encoding reply) (fr_content reply) = Ok [z2b 255; z2b 0] /\ fr_truncated reply = false.
Proof.
  apply (written_file_reads_back demo_policy (mkWriteFileArgs "in/g" "/wA=" "base64" 0) tool_world
    ["srv"; "data"; "d"]%string "g" [z2b 255; z2b 0] tool_world_ready eq_refl).
  - vm_compute. reflexivity.
  - apply names_of. vm_compute. reflexivity.
  - split; [|vm_compute; reflexivity]. apply present_real_parents; [apply tool_world_ready|]. by eexists.
  - exists ["srv"; "data"]%string. split_and!; [apply names_of; vm_compute; reflexivity|set_solver|by exists ["d"]%string].
  - intros n H. vm_compute in H. discriminate H.
  - vm_compute. reflexivity.
  - vm_compute. discriminate.
  - exists "1"%string. split; [set_solver|]. vm_compute. reflexivity.
Defined.

(** [roots_are_dirs] is needed: [move_file] can move a root away and put a file
    in its place, and [edit_block] of that file then writes its temporary file
    beside the root, outside of every root; [write_file], which resolves the
    parent first, refuses. *)
Definition two_roots : Policy := mkPolicy ["/a"; "/b"]%string.
Definition two_roots_os : Os :=
  mkOs (Ok "/"%string) (list_to_map [(["a"], NDir); (["b"], NDir); (["b"; "f"], NFile (text "x") 420)]%string).

Definition swap_root : F unit :=
  _ ← moveFile two_roots (Ok (mkMoveArgs "/a" "/b/a" false));
  _ ← moveFile two_roots (Ok (mkMoveArgs "/b/f" "/a" false));
  mret tt.

Example edit_of_a_replaced_root :
  New two_roots_os ["/a"; "/b"]%string = Ok two_roots /\
  let w := (swap_root (mkWorld two_roots_os [] ["1"]%string)).2 in
  let faulty := mkWorld (w_os w) (replicate 8 None ++ [Some (Foreign "EIO", O); Some (Foreign "EIO", O)]) ["1"]%string in
  os_fs (w_os (editBlock two_roots (Ok (mkEditArgs "/a" "x" "y" 1)) faulty).2) !! [".orc-edit-1"]%string =
    Some (NFile (text "y") 420) /\
  (writeFile two_roots (Ok (mkWriteFileArgs "/a" "y" "" 0)) w).1 = Err ErrOutsideRoots.
Proof. vm_compute. repeat split. Qed.
