(* ===== verification/RelayHub.v ===== *)
(** * The relay hub: internal/relay/hub.go

    Every goroutine that touches the hub is a little state machine: the body
    of [Call] ([call_pc]), the reading loop of a connection ([reader]), the
    goroutines that run [Register] and [Disconnect] ([thread]), and the
    function that [close] passes to [once.Do] ([once_state]): the first caller
    of [close] runs it, later callers wait until it has finished.  One action
    of [exec] is one critical section, one channel operation or one call of
    the connection; a [select] with several ready cases takes any of them.

    The identifier that [randomID] draws, the outcome of marshalling and of
    the connection's reads and writes, and the expiry of a caller's context
    are arguments of the actions.  [chan pendingResult] has capacity one and
    is created by one call, so its content is a field of that call. *)
From S2P Require Import Prelude Protocol Store.
Local Open Scope Z_scope.

Definition ErrOffline : error := Sentinel "relay.ErrOffline" "device offline".
Definition ErrClosed : error := Sentinel "relay.ErrClosed" "device connection closed".
(** [ctx.Err()] once the caller's context is done. *)
Definition ctx_Err : error := Foreign "context".

Record Result := mkResult {
  Result_Value : list byte;
  Result_Error : option RemoteError }.

Record pendingResult := mkPending {
  pr_result : Result;
  pr_err : option error }.

Definition zero_Result : Result := mkResult [] None.

(** What [Call] returns for a received value: [p.result, p.err]. *)
Definition returned (p : pendingResult) : result Result :=
  match pr_err p with
  | None => Ok (pr_result p)
  | Some e => Err e
  end.

(** The four effects of the function in [close], in order. *)
Inductive phase := K_conn | K_done | K_hub | K_pending.
Inductive once_state :=
| NotStarted
| Closing (err : error) (ph : phase)
| Closed.

(** The reading goroutine: not started, at [ReadMessage], at the non-blocking
    send of a result to the channel of call [c], in the deferred [close], gone. *)
Inductive reader :=
| R_off
| R_read
| R_deliver (c : nat) (v : pendingResult)
| R_close
| R_gone.

Record deviceConn := mkConn {
  dc_device : Device;
  dc_conn_closed : bool;
  dc_out : list Frame;
  dc_in : list Frame;
  dc_sem : Z;
  dc_pending : gmap string nat;
  dc_done : bool;
  dc_once : once_state;
  dc_reader : reader }.

Inductive call_pc :=
| C_start
| C_sem
| C_id
| C_register (f : Frame)
| C_write (f : Frame)
| C_closing
| C_wait
| C_unpend (r : result Result)
| C_release (r : result Result)
| C_done (r : result Result).

(** The arguments and local variables of one [Call]; [call_args] is what
    [json.Marshal(args)] yields. *)
Record call := mkCall {
  call_owner : string;
  call_device : string;
  call_tool : string;
  call_args : result (list byte);
  call_ref : option nat;
  call_id : string;
  call_ch : option pendingResult;
  call_at : call_pc }.

(** The rest of [Register] and [Disconnect]. *)
Inductive thread :=
| T_register (old : option nat) (new : nat)
| T_closing (ref : nat) (reader : option nat)
| T_end.

Record Hub := mkHub {
  devices : gmap string nat;
  conns : gmap nat deviceConn;
  calls : gmap nat call;
  threads : gmap nat thread;
  maxInFlight : Z }.

(** [func NewHub(maxInFlight int) *Hub] *)
Definition NewHub (max : Z) : Hub := mkHub ∅ ∅ ∅ ∅ (if max <? 1 then 16 else max).

(** ** Updates *)

Definition set_devices (h : Hub) m := mkHub m (conns h) (calls h) (threads h) (maxInFlight h).
Definition set_conns (h : Hub) m := mkHub (devices h) m (calls h) (threads h) (maxInFlight h).
Definition set_calls (h : Hub) m := mkHub (devices h) (conns h) m (threads h) (maxInFlight h).
Definition set_threads (h : Hub) m := mkHub (devices h) (conns h) (calls h) m (maxInFlight h).

Definition put_conn (ref : nat) (d : deviceConn) (h : Hub) : Hub := set_conns h (<[ref := d]> (conns h)).
Definition put_call (c : nat) (k : call) (h : Hub) : Hub := set_calls h (<[c := k]> (calls h)).

Definition with_out (d : deviceConn) (l : list Frame) : deviceConn :=
  mkConn (dc_device d) (dc_conn_closed d) l (dc_in d) (dc_sem d) (dc_pending d) (dc_done d) (dc_once d) (dc_reader d).
Definition with_in (d : deviceConn) (l : list Frame) : deviceConn :=
  mkConn (dc_device d) (dc_conn_closed d) (dc_out d) l (dc_sem d) (dc_pending d) (dc_done d) (dc_once d) (dc_reader d).
Definition with_sem (d : deviceConn) (n : Z) : deviceConn :=
  mkConn (dc_device d) (dc_conn_closed d) (dc_out d) (dc_in d) n (dc_pending d) (dc_done d) (dc_once d) (dc_reader d).
Definition with_pending (d : deviceConn) (p : gmap string nat) : deviceConn :=
  mkConn (dc_device d) (dc_conn_closed d) (dc_out d) (dc_in d) (dc_sem d) p (dc_done d) (dc_once d) (dc_reader d).
Definition with_once (d : deviceConn) (o : once_state) : deviceConn :=
  mkConn (dc_device d) (dc_conn_closed d) (dc_out d) (dc_in d) (dc_sem d) (dc_pending d) (dc_done d) o (dc_reader d).
Definition with_reader (d : deviceConn) (r : reader) : deviceConn :=
  mkConn (dc_device d) (dc_conn_closed d) (dc_out d) (dc_in d) (dc_sem d) (dc_pending d) (dc_done d) (dc_once d) r.

Definition at_pc (k : call) (pc : call_pc) : call :=
  mkCall (call_owner k) (call_device k) (call_tool k) (call_args k) (call_ref k) (call_id k) (call_ch k) pc.

(** ** Register, IsOnline, Disconnect *)

Definition new_deviceConn (device : Device) : deviceConn :=
  mkConn device false [] [] 0 ∅ false NotStarted R_off.

(** [Register], up to its critical section; the rest is [T_register]. *)
Definition Register (t : nat) (device : Device) (h : Hub) : option Hub :=
  if decide (threads h !! t = None) then
    let new := fresh (dom (conns h)) in
    let old := devices h !! Device_ID device in
    Some (mkHub (<[Device_ID device := new]> (devices h))
                (<[new := new_deviceConn device]> (conns h))
                (calls h) (<[t := T_register old new]> (threads h)) (maxInFlight h))
  else None.

(** [func (h *Hub) IsOnline(owner, deviceID string) bool] *)
Definition IsOnline (owner deviceID : string) (h : Hub) : bool :=
  match devices h !! deviceID ≫= fun ref => conns h !! ref with
  | Some d => bool_decide (Device_OwnerSubject (dc_device d) = owner)
  | None => false
  end.

(** [close(err)]: the first caller starts the function of [once.Do]. *)
Definition begin_close (err : error) (d : deviceConn) : deviceConn :=
  match dc_once d with
  | NotStarted => with_once d (Closing err K_conn)
  | _ => d
  end.

(** [Disconnect]: the lookup; if there is a connection it is closed. *)
Definition Disconnect (t : nat) (deviceID : string) (h : Hub) : option Hub :=
  if decide (threads h !! t = None) then
    match devices h !! deviceID with
    | None => Some (set_threads h (<[t := T_end]> (threads h)))
    | Some ref =>
        d ← conns h !! ref;
        Some (put_conn ref (begin_close ErrClosed d)
               (set_threads h (<[t := T_closing ref None]> (threads h))))
    end
  else None.

Definition start_reader (ref : nat) (h : Hub) : option Hub :=
  d ← conns h !! ref; Some (put_conn ref (with_reader d R_read) h).

(** The next step of a goroutine in [Register] or [Disconnect]. *)
Definition step_thread (t : nat) (h : Hub) : option Hub :=
  th ← threads h !! t;
  match th with
  | T_register None new =>
      start_reader new (set_threads h (<[t := T_end]> (threads h)))
  | T_register (Some old) new =>
      d ← conns h !! old;
      Some (put_conn old (begin_close ErrClosed d)
             (set_threads h (<[t := T_closing old (Some new)]> (threads h))))
  | T_closing ref r =>
      d ← conns h !! ref;
      match dc_once d with
      | Closed =>
          let h := set_threads h (<[t := T_end]> (threads h)) in
          match r with
          | Some new => start_reader new h
          | None => Some h
          end
      | _ => None
      end
  | T_end => None
  end.

(** ** close *)

(** [ch <- v] in a [select] with a [default]. *)
Definition offer (c : nat) (v : pendingResult) (cs : gmap nat call) : gmap nat call :=
  match cs !! c with
  | None => cs
  | Some k =>
      match call_ch k with
      | Some _ => cs
      | None =>
          <[c := mkCall (call_owner k) (call_device k) (call_tool k) (call_args k)
                   (call_ref k) (call_id k) (Some v) (call_at k)]> cs
      end
  end.

(** The next effect of the function that [close] runs once. *)
Definition close_step (ref : nat) (h : Hub) : option Hub :=
  d ← conns h !! ref;
  match dc_once d with
  | Closing err K_conn =>
      Some (put_conn ref (mkConn (dc_device d) true (dc_out d) (dc_in d) (dc_sem d) (dc_pending d)
                            (dc_done d) (Closing err K_done) (dc_reader d)) h)
  | Closing err K_done =>
      Some (put_conn ref (mkConn (dc_device d) (dc_conn_closed d) (dc_out d) (dc_in d) (dc_sem d)
                            (dc_pending d) true (Closing err K_hub) (dc_reader d)) h)
  | Closing err K_hub =>
      let id := Device_ID (dc_device d) in
      let devs := if decide (devices h !! id = Some ref) then delete id (devices h) else devices h in
      Some (put_conn ref (with_once d (Closing err K_pending)) (set_devices h devs))
  | Closing err K_pending =>
      let waiting := (map_to_list (dc_pending d)).*2 in
      let v := mkPending zero_Result (Some err) in
      Some (put_conn ref (with_once (with_pending d ∅) Closed)
             (set_calls h (foldr (fun c => offer c v) (calls h) waiting)))
  | _ => None
  end.

(** ** Call *)

(** A new goroutine enters [Call]. *)
Definition enter_call (c : nat) (owner deviceID tool : string) (args : result (list byte))
    (h : Hub) : option Hub :=
  if decide (calls h !! c = None) then
    Some (put_call c (mkCall owner deviceID tool args None "" None C_start) h)
  else None.

(** The lookup and the ownership test. *)
Definition call_lookup (c : nat) (h : Hub) : option Hub :=
  k ← calls h !! c;
  match call_at k with
  | C_start =>
      match devices h !! call_device k with
      | None => Some (put_call c (at_pc k (C_done (Err ErrOffline))) h)
      | Some ref =>
          d ← conns h !! ref;
          if decide (Device_OwnerSubject (dc_device d) <> call_owner k) then
            Some (put_call c (at_pc k (C_done (Err ErrOffline))) h)
          else
            Some (put_call c (mkCall (call_owner k) (call_device k) (call_tool k) (call_args k)
                                (Some ref) "" None C_sem) h)
      end
  | _ => None
  end.

(** The cases of the first [select]. *)
Inductive sem_case := SemAcquire | SemCtx | SemDone.

Definition call_select_sem (c : nat) (s : sem_case) (h : Hub) : option Hub :=
  k ← calls h !! c;
  ref ← call_ref k;
  d ← conns h !! ref;
  match call_at k, s with
  | C_sem, SemAcquire =>
      if dc_sem d <? maxInFlight h then
        Some (put_conn ref (with_sem d (dc_sem d + 1)) (put_call c (at_pc k C_id) h))
      else None
  | C_sem, SemCtx => Some (put_call c (at_pc k (C_done (Err ctx_Err))) h)
  | C_sem, SemDone =>
      if dc_done d then Some (put_call c (at_pc k (C_done (Err ErrOffline))) h) else None
  | _, _ => None
  end.

(** [randomID], then marshalling the arguments and the frame. *)
Definition call_make_frame (c : nat) (rid : result string) (h : Hub) : option Hub :=
  k ← calls h !! c;
  match call_at k with
  | C_id =>
      Some match rid with
      | Err e => put_call c (at_pc k (C_release (Err e))) h
      | Ok id =>
          match call_args k with
          | Err e => put_call c (at_pc k (C_release (Err e))) h
          | Ok raw =>
              let f := mkFrame TypeCall id (call_tool k) raw false [] None in
              put_call c (mkCall (call_owner k) (call_device k) (call_tool k) (call_args k)
                            (call_ref k) id None (C_register f)) h
          end
      end
  | _ => None
  end.

(** The critical section that registers the pending call. *)
Definition call_register (c : nat) (h : Hub) : option Hub :=
  k ← calls h !! c;
  ref ← call_ref k;
  d ← conns h !! ref;
  match call_at k with
  | C_register f =>
      Some (if dc_done d then put_call c (at_pc k (C_release (Err ErrOffline))) h
            else put_conn ref (with_pending d (<[call_id k := c]> (dc_pending d)))
                   (put_call c (at_pc k (C_write f)) h))
  | _ => None
  end.

(** [d.conn.WriteMessage(payload)]; after an error the connection is closed. *)
Definition call_write (c : nat) (w : option error) (h : Hub) : option Hub :=
  k ← calls h !! c;
  ref ← call_ref k;
  d ← conns h !! ref;
  match call_at k, w with
  | C_write f, None =>
      Some (put_conn ref (with_out d (dc_out d ++ [f])) (put_call c (at_pc k C_wait) h))
  | C_write f, Some e =>
      Some (put_conn ref (begin_close e d) (put_call c (at_pc k C_closing) h))
  | _, _ => None
  end.

(** [d.close(err)] has returned. *)
Definition call_closed (c : nat) (h : Hub) : option Hub :=
  k ← calls h !! c;
  ref ← call_ref k;
  d ← conns h !! ref;
  match call_at k, dc_once d with
  | C_closing, Closed => Some (put_call c (at_pc k (C_unpend (Err ErrOffline))) h)
  | _, _ => None
  end.

(** The cases of the last [select]. *)
Inductive wait_case := WaitResult | WaitCtx | WaitDone.

Definition call_select_wait (c : nat) (s : wait_case) (h : Hub) : option Hub :=
  k ← calls h !! c;
  ref ← call_ref k;
  d ← conns h !! ref;
  match call_at k, s with
  | C_wait, WaitResult =>
      v ← call_ch k;
      Some (put_call c (mkCall (call_owner k) (call_device k) (call_tool k) (call_args k)
                          (call_ref k) (call_id k) None (C_unpend (returned v))) h)
  | C_wait, WaitCtx => Some (put_call c (at_pc k (C_unpend (Err ctx_Err))) h)
  | C_wait, WaitDone =>
      if dc_done d then Some (put_call c (at_pc k (C_unpend (Err ErrOffline))) h) else None
  | _, _ => None
  end.

(** The deferred functions: forget the pending call, release the semaphore. *)
Definition call_unwind (c : nat) (h : Hub) : option Hub :=
  k ← calls h !! c;
  ref ← call_ref k;
  d ← conns h !! ref;
  match call_at k with
  | C_unpend r =>
      Some (put_conn ref (with_pending d (delete (call_id k) (dc_pending d)))
             (put_call c (at_pc k (C_release r)) h))
  | C_release r =>
      Some (put_conn ref (with_sem d (dc_sem d - 1)) (put_call c (at_pc k (C_done r)) h))
  | _ => None
  end.

(** ** readLoop *)

(** One message: [None] is an error of [ReadMessage] or [json.Unmarshal];
    [pong_ok] tells whether writing a pong, whose error is ignored, worked. *)
Definition read_message (ref : nat) (m : option Frame) (pong_ok : bool) (h : Hub) : option Hub :=
  d ← conns h !! ref;
  let stop d := put_conn ref (with_reader (begin_close ErrClosed d) R_close) h in
  match dc_reader d with
  | R_read =>
      Some match m with
      | None => stop d
      | Some f =>
          match Validate f with
          | Err _ => stop d
          | Ok _ =>
              let d := with_in d (dc_in d ++ [f]) in
              if decide (Frame_Type f = TypeResult) then
                match dc_pending d !! Frame_ID f with
                | Some c =>
                    let v := mkPending (mkResult (Frame_Result f) (Frame_Error f)) None in
                    put_conn ref (with_reader d (R_deliver c v)) h
                | None => put_conn ref d h
                end
              else if decide (Frame_Type f = TypePing) then
                let pong := mkFrame TypePong (Frame_ID f) "" [] false [] None in
                put_conn ref (if pong_ok then with_out d (dc_out d ++ [pong]) else d) h
              else if decide (Frame_Type f = TypePong) then put_conn ref d h
              else stop d
          end
      end
  | _ => None
  end.

Definition reader_step (ref : nat) (h : Hub) : option Hub :=
  d ← conns h !! ref;
  match dc_reader d, dc_once d with
  | R_deliver c v, _ =>
      Some (put_conn ref (with_reader d R_read) (set_calls h (offer c v (calls h))))
  | R_close, Closed => Some (put_conn ref (with_reader d R_gone) h)
  | _, _ => None
  end.

(** ** Actions *)

Inductive action :=
| ARegister (t : nat) (device : Device)
| ADisconnect (t : nat) (deviceID : string)
| AThread (t : nat)
| AClose (ref : nat)
| AEnter (c : nat) (owner deviceID tool : string) (args : result (list byte))
| ALookup (c : nat)
| ASem (c : nat) (s : sem_case)
| AFrame (c : nat) (rid : result string)
| APending (c : nat)
| AWrite (c : nat) (w : option error)
| AClosed (c : nat)
| AWait (c : nat) (s : wait_case)
| AUnwind (c : nat)
| ARead (ref : nat) (m : option Frame) (pong_ok : bool)
| AReader (ref : nat).

Definition exec (a : action) (h : Hub) : option Hub :=
  match a with
  | ARegister t device => Register t device h
  | ADisconnect t deviceID => Disconnect t deviceID h
  | AThread t => step_thread t h
  | AClose ref => close_step ref h
  | AEnter c owner deviceID tool args => enter_call c owner deviceID tool args h
  | ALookup c => call_lookup c h
  | ASem c s => call_select_sem c s h
  | AFrame c rid => call_make_frame c rid h
  | APending c => call_register c h
  | AWrite c w => call_write c w h
  | AClosed c => call_closed c h
  | AWait c s => call_select_wait c s h
  | AUnwind c => call_unwind c h
  | ARead ref m pong_ok => read_message ref m pong_ok h
  | AReader ref => reader_step ref h
  end.
