(* ===== verification/RelayProps.v ===== *)
(** * What the relay hub guarantees

    Invariants of every schedule of [RelayHub.exec], and the claims. *)
From S2P Require Import Prelude Protocol Store RelayHub.
Local Open Scope Z_scope.

(** ** Connections: the order in which [close] has its effects *)

Definition past_hub (o : once_state) : bool :=
  match o with Closing _ K_pending | Closed => true | _ => false end.
Definition past_done (o : once_state) : bool :=
  match o with Closing _ (K_hub | K_pending) | Closed => true | _ => false end.

Record conn_ok (d : deviceConn) : Prop := mkConnOk {
  co_done : dc_done d = past_done (dc_once d);
  co_pending : dc_once d = Closed -> dc_pending d = ∅ }.

Record hub_ok (h : Hub) : Prop := mkHubOk {
  ho_conns : forall ref d, conns h !! ref = Some d -> conn_ok d;
  ho_devices : forall id ref, devices h !! id = Some ref ->
    exists d, conns h !! ref = Some d /\ Device_ID (dc_device d) = id /\ past_hub (dc_once d) = false }.

Lemma hub_ok_calls h cs : hub_ok h -> hub_ok (set_calls h cs).
Proof. by intros []. Qed.

Lemma hub_ok_threads h ts : hub_ok h -> hub_ok (set_threads h ts).
Proof. by intros []. Qed.

(** Replacing one connection by one of the same device. *)
Lemma hub_ok_put ref d d' h :
  hub_ok h -> conns h !! ref = Some d -> dc_device d' = dc_device d ->
  (past_hub (dc_once d) = false -> past_hub (dc_once d') = false) -> conn_ok d' ->
  hub_ok (put_conn ref d' h).
Proof.
  intros [Hc Hd] Hlk Hdev Hp Hok. split; simpl.
  - intros ref' e. rewrite lookup_insert. case_decide; naive_solver.
  - intros id ref' (e & He & Hid & Hph)%Hd. rewrite lookup_insert.
    case_decide; [simplify_eq; exists d'; rewrite Hdev; naive_solver|by exists e].
Qed.

Lemma begin_close_cases e d :
  begin_close e d = d \/ (dc_once d = NotStarted /\ begin_close e d = with_once d (Closing e K_conn)).
Proof. unfold begin_close. destruct (dc_once d); auto. Qed.

Lemma begin_close_ok e d : conn_ok d -> conn_ok (begin_close e d).
Proof.
  intros [Hd Hp]. destruct (begin_close_cases e d) as [->|[E ->]]; [done|].
  split; simpl; [by rewrite Hd, E|done].
Qed.

Lemma begin_close_facts e d :
  dc_device (begin_close e d) = dc_device d /\ dc_in (begin_close e d) = dc_in d /\
  dc_out (begin_close e d) = dc_out d /\ dc_sem (begin_close e d) = dc_sem d /\
  dc_pending (begin_close e d) = dc_pending d /\ dc_reader (begin_close e d) = dc_reader d /\
  dc_done (begin_close e d) = dc_done d /\
  (past_hub (dc_once d) = false -> past_hub (dc_once (begin_close e d)) = false).
Proof. destruct (begin_close_cases e d) as [->|[E ->]]; [done|]. by rewrite E. Qed.

(** Updates of a connection that do not advance a running [close]. *)
Record same_life (d d' : deviceConn) : Prop := mkSameLife {
  sl_device : dc_device d' = dc_device d;
  sl_done : dc_done d' = dc_done d;
  sl_once : dc_once d' = dc_once d \/
    (dc_once d = NotStarted /\ exists e, dc_once d' = Closing e K_conn);
  sl_pending : dc_once d = Closed -> dc_pending d = ∅ -> dc_pending d' = ∅ }.

Lemma hub_ok_life ref d d' h :
  hub_ok h -> conns h !! ref = Some d -> same_life d d' -> hub_ok (put_conn ref d' h).
Proof.
  intros Hok Hlk [Hdev Hdone Ho Hp]. destruct (ho_conns h Hok ref d Hlk) as [Hd Hpe].
  eapply hub_ok_put; [done|done|done| |].
  - destruct Ho as [->|[_ [e ->]]]; done.
  - split; rewrite ?Hdone, ?Hd; destruct Ho as [->|[E [e ->]]]; try done; [by rewrite E|].
    intros E. by apply Hp, Hpe.
Qed.

Ltac hub_update :=
  match goal with
  | |- hub_ok (put_conn _ _ _) => eapply hub_ok_life; [ | eassumption | ]
  | |- hub_ok (put_call _ _ _) => apply hub_ok_calls
  | |- hub_ok (set_calls _ _) => apply hub_ok_calls
  | |- hub_ok (set_threads _ _) => apply hub_ok_threads
  end.

(** An update that is not part of [close], solved by looking at it. *)
Ltac same_life_auto :=
  unfold begin_close; simpl;
  repeat match goal with |- context [match ?x with _ => _ end] => destruct x eqn:? end;
  split; simpl; first [done | by eauto | by left | by right; eauto | by intros; congruence].

(** Split an action into its cases. *)
Ltac exec_cases H :=
  unfold exec, Register, Disconnect, step_thread, start_reader, close_step, enter_call,
    call_lookup, call_select_sem, call_make_frame, call_register, call_write, call_closed,
    call_select_wait, call_unwind, read_message, reader_step in H;
  repeat match type of H with
  | (_ ≫= _) = Some _ => let x := fresh "x" in let E := fresh "E" in
      apply bind_Some in H as (x & E & H)
  | Some _ = Some _ => injection H as H
  | None = Some _ => discriminate H
  | (match ?x with _ => _ end) = _ => let E := fresh "E" in destruct x eqn:E
  | Some (match ?x with _ => _ end) = _ => let E := fresh "E" in destruct x eqn:E
  | (match ?x with _ => _ end) = _ => let E := fresh "E" in destruct x eqn:E
  end; try subst.

Lemma close_step_hub_ok ref h h' : hub_ok h -> close_step ref h = Some h' -> hub_ok h'.
Proof.
  intros Hok H. pose proof (ho_conns h Hok) as Hc. unfold close_step in H.
  apply bind_Some in H as (d & Hlk & H). destruct (Hc _ _ Hlk) as [Hdn Hpe].
  destruct (dc_once d) as [|err [| | |]|] eqn:Eo; try done; injection H as <-.
  - eapply hub_ok_put; [done|done|done|done|by split].
  - eapply hub_ok_put; [done|done|done|done|by split].
  - destruct Hok as [_ Hd]. split; simpl.
    + intros ref' e. rewrite lookup_insert. case_decide; [|naive_solver].
      intros [= <-]. by split.
    + intros id ref' Hid.
      assert (devices h !! id = Some ref' /\ ref' <> ref) as [Hdev Hne].
      { revert Hid. case_decide as Ed.
        - rewrite lookup_delete. case_decide as Ei; [done|]. intros Hid. split; [done|].
          intros ->. destruct (Hd _ _ Hid) as (e & He & Hi & _). congruence.
        - intros Hid. split; [done|]. intros ->. destruct (Hd _ _ Hid) as (e & He & Hi & _). congruence. }
      destruct (Hd _ _ Hdev) as (e & He & Hi). exists e. by rewrite lookup_insert_ne.
  - eapply hub_ok_put; [by apply hub_ok_calls|done|done| |by split].
    by rewrite Eo.
Qed.

Lemma exec_hub_ok a h h' : hub_ok h -> exec a h = Some h' -> hub_ok h'.
Proof.
  intros Hok H. pose proof (ho_conns h Hok) as Hc.
  destruct a; try (eapply close_step_hub_ok; [exact Hok|exact H]); exec_cases H.
  all: try (repeat hub_update; try done; same_life_auto).
  - (* Register *)
    clear E. destruct Hok as [_ Hd]. pose proof (is_fresh (dom (conns h))) as Hf%not_elem_of_dom.
    split; simpl.
    + intros ref d. rewrite lookup_insert. case_decide; [|by apply Hc]. by intros [= <-].
    + intros id ref. rewrite lookup_insert. case_decide as Ei.
      * intros [= <-]. rewrite lookup_insert_eq. eauto.
      * intros (d & Hlk & Hid)%Hd. exists d. rewrite lookup_insert_ne; [done|]. congruence.
  - repeat hub_update; try done. destruct (Hc _ _ E1) as [Hdn _]. split; simpl; try done; [by left|].
    intros Ho. rewrite Ho in Hdn. simpl in Hdn. congruence.
  - repeat hub_update; try done. split; simpl; try done; [by left|]. intros _ ->. apply delete_empty.
Qed.

(** ** The semaphore *)

(** The call is between acquiring and releasing the semaphore of [ref]. *)
Definition holding (pc : call_pc) : bool :=
  match pc with C_start | C_sem | C_done _ => false | _ => true end.
Definition holds (ref : nat) (k : call) : bool :=
  bool_decide (call_ref k = Some ref) && holding (call_at k).

Definition holders (ref : nat) (cs : gmap nat call) : gmap nat call :=
  filter (fun ck : nat * call => holds ref ck.2 = true) cs.

(** Counting the holders after one call has moved. *)
Lemma holders_insert ref cs c k k' :
  cs !! c = Some k ->
  (size (holders ref (<[c := k']> cs)) + (if holds ref k then 1 else 0))%nat =
  (size (holders ref cs) + (if holds ref k' then 1 else 0))%nat.
Proof.
  intros Hc. unfold holders.
  assert (size (filter (fun ck : nat * call => holds ref ck.2 = true) cs) =
    (size (filter (fun ck : nat * call => holds ref ck.2 = true) (delete c cs)) +
     (if holds ref k then 1 else 0))%nat) as ->.
  { rewrite <- (insert_delete_id cs c k Hc) at 1. destruct (holds ref k) eqn:E.
    - rewrite map_filter_insert_True by done. rewrite map_size_insert_None; [lia|].
      apply map_lookup_filter_None. left. apply lookup_delete_eq.
    - rewrite map_filter_insert_False by (simpl; congruence). rewrite delete_delete_eq. lia. }
  rewrite <- (insert_delete_eq cs c k').
  destruct (holds ref k) eqn:E1, (holds ref k') eqn:E2.
  all: first
    [ rewrite map_filter_insert_True by done; rewrite map_size_insert_None;
        [lia|apply map_lookup_filter_None; left; apply lookup_delete_eq]
    | rewrite map_filter_insert_False by (simpl; congruence); rewrite delete_delete_eq; lia ].
Qed.

Record sem_ok (h : Hub) : Prop := mkSemOk {
  so_max : 1 <= maxInFlight h;
  so_count : forall ref d, conns h !! ref = Some d ->
    dc_sem d = Z.of_nat (size (holders ref (calls h))) /\ dc_sem d <= maxInFlight h;
  so_ref : forall c k ref, calls h !! c = Some k -> call_ref k = Some ref -> is_Some (conns h !! ref) }.

Lemma sem_put_conn ref d d' h :
  sem_ok h -> conns h !! ref = Some d -> dc_sem d' = dc_sem d -> sem_ok (put_conn ref d' h).
Proof.
  intros [Hm Hc Hr] Hlk Hs. split; simpl; [done| |].
  - intros ref' e. rewrite lookup_insert. case_decide; [|naive_solver].
    intros [= <-]. subst. rewrite Hs. by apply Hc.
  - intros c k ref' H1 H2. rewrite lookup_insert. case_decide; eauto.
Qed.

Lemma sem_put_call c k k' h :
  sem_ok h -> calls h !! c = Some k -> (forall ref, holds ref k' = holds ref k) ->
  (call_ref k' = call_ref k \/ exists ref, call_ref k' = Some ref /\ is_Some (conns h !! ref)) ->
  sem_ok (put_call c k' h).
Proof.
  intros [Hm Hc Hr] Hlk Hh Hk. split; simpl; [done| |].
  - intros ref d Hd. destruct (Hc ref d Hd) as [-> Hle].
    pose proof (holders_insert ref (calls h) c k k' Hlk) as Hs. rewrite Hh in Hs. split; lia.
  - intros c' k0 ref. rewrite lookup_insert. case_decide; [|by eauto].
    intros [= <-] Href. destruct Hk as [E|(ref' & E & ?)]; [|by simplify_eq].
    rewrite E in Href. eauto.
Qed.

(** Acquiring and releasing: the counter and the set of holders move together. *)
Lemma sem_move c k k' ref d n h :
  sem_ok h -> calls h !! c = Some k -> conns h !! ref = Some d ->
  call_ref k = Some ref -> call_ref k' = Some ref ->
  n = dc_sem d + (if holding (call_at k') then 1 else 0) - (if holding (call_at k) then 1 else 0) ->
  n <= maxInFlight h ->
  sem_ok (put_conn ref (with_sem d n) (put_call c k' h)).
Proof.
  intros [Hm Hc Hr] Hlk Hd Hk Hk' -> Hn. split; simpl; [done| |].
  - intros ref' e He. pose proof (holders_insert ref' (calls h) c k k' Hlk) as Hs. revert He.
    rewrite lookup_insert. destruct (decide (ref = ref')) as [<-|Eref].
    + intros [= <-]. destruct (Hc _ _ Hd) as [Hcount _]. split; [|done]. simpl.
      unfold holds in Hs. rewrite Hk, Hk', bool_decide_eq_true_2 in Hs by done. simpl in Hs.
      destruct (holding (call_at k)), (holding (call_at k')); lia.
    + intros He. destruct (Hc _ _ He) as [-> Hle]. unfold holds in Hs. rewrite Hk, Hk' in Hs.
      rewrite bool_decide_eq_false_2 in Hs by congruence. simpl in Hs. split; lia.
  - intros c' k0 ref'. rewrite !lookup_insert. destruct (decide (ref = ref')); [by eauto|].
    destruct (decide (c = c')); [|by eauto]. intros [= <-] E. rewrite Hk' in E. congruence.
Qed.

(** Offering a value changes nothing but the channels. *)
Lemma offer_spec c v cs c' k' :
  offer c v cs !! c' = Some k' ->
  exists k, cs !! c' = Some k /\ call_owner k' = call_owner k /\ call_device k' = call_device k /\
    call_tool k' = call_tool k /\ call_args k' = call_args k /\
    call_ref k' = call_ref k /\ call_id k' = call_id k /\ call_at k' = call_at k /\
    (call_ch k' = call_ch k \/ (c' = c /\ call_ch k = None /\ call_ch k' = Some v)).
Proof.
  unfold offer. destruct (cs !! c) as [k|] eqn:E; [|naive_solver].
  destruct (call_ch k) eqn:Ech; [naive_solver|].
  rewrite lookup_insert. case_decide; [|naive_solver]. intros [= <-]. subst. exists k. naive_solver.
Qed.

Lemma offers_spec l v cs c' k' :
  foldr (fun c => offer c v) cs l !! c' = Some k' ->
  exists k, cs !! c' = Some k /\ call_owner k' = call_owner k /\ call_device k' = call_device k /\
    call_tool k' = call_tool k /\ call_args k' = call_args k /\
    call_ref k' = call_ref k /\ call_id k' = call_id k /\ call_at k' = call_at k /\
    (call_ch k' = call_ch k \/ call_ch k' = Some v).
Proof.
  revert k'. induction l as [|c l IH]; intros k'; simpl; [intros H; exists k'; naive_solver|].
  intros (k1 & H1 & Ho & Hd & Ht & Ha & Hr & Hi & Hat & Hch)%offer_spec.
  apply IH in H1 as (k & ? & ? & ? & ? & ? & ? & ? & ? & ?). exists k. split; [done|].
  split_and!; try congruence. destruct Hch as [->|(_ & _ & ->)]; auto.
Qed.

Lemma offer_holders ref c v cs : size (holders ref (offer c v cs)) = size (holders ref cs).
Proof.
  unfold offer. destruct (cs !! c) as [k|] eqn:E; [|done]. destruct (call_ch k); [done|].
  match goal with |- context [<[c := ?x]> cs] =>
    pose proof (holders_insert ref cs c k x E) as Hs end.
  unfold holds in Hs. simpl in Hs. lia.
Qed.

Lemma sem_set_calls h cs :
  sem_ok h -> (forall ref, size (holders ref cs) = size (holders ref (calls h))) ->
  (forall c k', cs !! c = Some k' -> exists k, calls h !! c = Some k /\ call_ref k' = call_ref k) ->
  sem_ok (set_calls h cs).
Proof.
  intros [Hm Hc Hr] Hs Hk. split; simpl; [done| |].
  - intros ref d Hd. rewrite Hs. by apply Hc.
  - intros c k' ref (k & Hlk & ->)%Hk Href. eauto.
Qed.

Lemma sem_offer c v h : sem_ok h -> sem_ok (set_calls h (offer c v (calls h))).
Proof.
  intros Hok. apply sem_set_calls; [done|by intros; apply offer_holders|].
  intros c' k' (k & ? & H)%offer_spec. exists k. naive_solver.
Qed.

Lemma sem_offers l v h : sem_ok h -> sem_ok (set_calls h (foldr (fun c => offer c v) (calls h) l)).
Proof.
  intros Hok. apply sem_set_calls; [done| |].
  - intros ref. induction l as [|c l IH]; simpl; [done|]. by rewrite offer_holders.
  - intros c' k' (k & ? & H)%offers_spec. exists k. naive_solver.
Qed.

Lemma sem_threads h ts : sem_ok h -> sem_ok (set_threads h ts).
Proof. by intros []. Qed.

Lemma sem_devices h ds : sem_ok h -> sem_ok (set_devices h ds).
Proof. by intros []. Qed.

Lemma holders_insert_new ref cs c k :
  cs !! c = None -> holds ref k = false -> size (holders ref (<[c := k]> cs)) = size (holders ref cs).
Proof.
  intros Hc Hk. unfold holders. rewrite map_filter_insert_False by (simpl; congruence).
  by rewrite delete_id.
Qed.

Lemma exec_sem_ok a h h' : sem_ok h -> exec a h = Some h' -> sem_ok h'.
Proof.
  intros Hok H. destruct a; exec_cases H.
  all: try (repeat first
    [ done
    | apply sem_threads | apply sem_devices | apply sem_offer | apply sem_offers
    | eapply sem_put_conn; [ | eassumption | first [done | apply begin_close_facts
        | unfold begin_close; repeat case_match; done ] ]
    | eapply sem_put_call; [ | eassumption | intros; unfold holds; simpl; repeat match goal with E : call_at _ = _ |- _ => rewrite E end; done | by left ] ]).
  - (* Register: nobody holds the semaphore of the new connection *)
    clear E. destruct Hok as [Hm Hc Hr]. pose proof (is_fresh (dom (conns h))) as Hf%not_elem_of_dom.
    split; simpl; [done| |].
    + intros ref d. rewrite lookup_insert. case_decide; [|by apply Hc]. intros [= <-]. subst. simpl.
      assert (holders (fresh (dom (conns h))) (calls h) = ∅) as ->; [|rewrite map_size_empty; lia].
      apply map_empty. intros c. apply map_lookup_filter_None. right. intros k Hk. simpl.
      unfold holds. case_bool_decide as Eref; [|done]. destruct (Hr _ _ _ Hk Eref). congruence.
    + intros c k ref Hk Href. rewrite lookup_insert. case_decide; eauto.
  - (* a new call *)
    clear E. destruct Hok as [Hm Hc Hr]. split; simpl; [done| |].
    + intros ref d Hd. by rewrite holders_insert_new by (done || unfold holds; by rewrite andb_false_r); apply Hc.
    + intros c' k ref. rewrite lookup_insert. case_decide; [by intros [= <-]|]. eauto.
  - eapply sem_put_call; [done|done| |right; eauto].
    intros ref. unfold holds. simpl. by rewrite E0, !andb_false_r.
  - bool_props. eapply sem_move; try done; simpl; rewrite ?E2; simpl; lia.
  - pose proof (so_count h Hok _ _ E1).
    eapply sem_move; try done; simpl; rewrite ?E2; simpl; lia.
Qed.

(** ** Requests and replies *)

(** The frame that call [k] sends. *)
Definition call_frame (k : call) (raw : list byte) : Frame :=
  mkFrame TypeCall (call_id k) (call_tool k) raw false [] None.

(** [f] is a result frame for [k] that carries [v]. *)
Definition answers (k : call) (f : Frame) (v : Result) : Prop :=
  Frame_Type f = TypeResult /\ Frame_ID f = call_id k /\
  v = mkResult (Frame_Result f) (Frame_Error f).

(** [k] holds a connection of the device and the owner it was called with. *)
Definition on_conn (m : gmap nat deviceConn) (k : call) (P : deviceConn -> Prop) : Prop :=
  exists ref d, call_ref k = Some ref /\ m !! ref = Some d /\
    Device_ID (dc_device d) = call_device k /\ Device_OwnerSubject (dc_device d) = call_owner k /\ P d.

Definition sent (m : gmap nat deviceConn) (k : call) : Prop :=
  exists raw, call_args k = Ok raw /\ on_conn m k (fun d => call_frame k raw ∈ dc_out d).
Definition replied (m : gmap nat deviceConn) (k : call) (v : Result) : Prop :=
  on_conn m k (fun d => exists f, f ∈ dc_in d /\ answers k f v).

(** The identifier has been drawn and the call has been registered, or has failed. *)
Definition late (pc : call_pc) : bool :=
  match pc with C_start | C_sem | C_id | C_register _ => false | _ => true end.

Record call_ok (m : gmap nat deviceConn) (k : call) : Prop := mkCallOk {
  ck_conn : match call_at k with
    | C_start => call_ref k = None
    | C_done (Err _) => call_ref k = None \/ on_conn m k (fun _ => True)
    | _ => on_conn m k (fun _ => True)
    end;
  ck_pc : match call_at k with
    | C_register f | C_write f => exists raw, call_args k = Ok raw /\ f = call_frame k raw
    | C_wait => sent m k
    | C_unpend (Ok v) | C_release (Ok v) | C_done (Ok v) => sent m k /\ replied m k v
    | _ => True
    end;
  ck_ch : forall v, call_ch k = Some v -> pr_err v = None -> replied m k (pr_result v) }.

(** What a connection says about the calls registered on it. *)
Definition registered (h : Hub) (ref : nat) (id : string) (c : nat) : Prop :=
  exists k, calls h !! c = Some k /\ call_ref k = Some ref /\ call_id k = id /\ late (call_at k) = true.

Definition delivers (h : Hub) (ref : nat) (d : deviceConn) (c : nat) (v : pendingResult) : Prop :=
  exists f, f ∈ dc_in d /\ Frame_Type f = TypeResult /\
    v = mkPending (mkResult (Frame_Result f) (Frame_Error f)) None /\ registered h ref (Frame_ID f) c.

Record relay_ok (h : Hub) : Prop := mkRelayOk {
  ro_calls : forall c k, calls h !! c = Some k -> call_ok (conns h) k;
  ro_pending : forall ref d id c, conns h !! ref = Some d -> dc_pending d !! id = Some c ->
    registered h ref id c;
  ro_reader : forall ref d c v, conns h !! ref = Some d -> dc_reader d = R_deliver c v ->
    delivers h ref d c v }.

(** Connections only learn. *)
Record conn_le (d d' : deviceConn) : Prop := mkConnLe {
  cl_device : dc_device d' = dc_device d;
  cl_in : dc_in d `prefix_of` dc_in d';
  cl_out : dc_out d `prefix_of` dc_out d' }.

Lemma on_conn_put m ref d d' k P Q :
  m !! ref = Some d -> conn_le d d' ->
  (forall e e', conn_le e e' -> P e -> Q e') ->
  on_conn m k P -> on_conn (<[ref := d']> m) k Q.
Proof.
  intros Hlk Hle HPQ (ref' & e & Hr & He & Hid & How & HP).
  exists ref'. simpl. rewrite lookup_insert. case_decide as E; subst.
  - simplify_eq. exists d'. destruct Hle as [Hdev Hi Ho] eqn:Ele.
    rewrite Hdev. split_and!; try done. eapply HPQ; [|done]. done.
  - exists e. split_and!; try done. by apply (HPQ e e).
Qed.

Lemma call_ok_put m ref d d' k :
  m !! ref = Some d -> conn_le d d' -> call_ok m k -> call_ok (<[ref := d']> m) k.
Proof.
  intros Hlk Hle [Hc Hp Hch].
  assert (sent m k -> sent (<[ref := d']> m) k) as Hsent.
  { intros (raw & Ha & H). exists raw. split; [done|]. eapply on_conn_put; try done.
    intros e e' [_ _ Ho] Hin. eapply elem_of_prefix; eauto. }
  assert (forall v, replied m k v -> replied (<[ref := d']> m) k v) as Hrep.
  { intros v H. eapply on_conn_put; try done. intros e e' [_ Hi _] (f & Hin & Hf). exists f.
    split; [|done]. eapply elem_of_prefix; eauto. }
  assert (on_conn m k (fun _ => True) -> on_conn (<[ref := d']> m) k (fun _ => True)) as Hon.
  { intros H. by eapply on_conn_put. }
  split.
  - destruct (call_at k) as [| | | | | | |[]|[]|[]]; naive_solver.
  - destruct (call_at k) as [| | | | | | |[]|[]|[]]; naive_solver.
  - auto.
Qed.

(** A call keeps its connection and its identifier once it is late. *)
Definition call_evolves (k k' : call) : Prop :=
  late (call_at k) = true ->
  late (call_at k') = true /\ call_ref k' = call_ref k /\ call_id k' = call_id k.

Lemma registered_put_call h c k k' ref id c0 :
  calls h !! c = Some k -> call_evolves k k' ->
  registered h ref id c0 -> registered (put_call c k' h) ref id c0.
Proof.
  intros Hlk Hev (k0 & H0 & Hr & Hi & Hl). unfold registered. simpl. rewrite lookup_insert.
  case_decide; [|by exists k0]. simplify_eq. destruct (Hev Hl) as (? & ? & ?). exists k'. split_and!; congruence.
Qed.

Lemma relay_put_call c k k' h :
  relay_ok h -> calls h !! c = Some k -> call_evolves k k' -> call_ok (conns h) k' ->
  relay_ok (put_call c k' h).
Proof.
  intros [Hc Hp Hr] Hlk Hev Hok. split; simpl.
  - intros c' k0. rewrite lookup_insert. case_decide; [by intros [= <-]|]. by apply Hc.
  - intros ref d id c0 Hd Hpe. eapply registered_put_call; eauto.
  - intros ref d c0 v Hd Hre. destruct (Hr _ _ _ _ Hd Hre) as (f & ? & ? & ? & ?).
    exists f. split_and!; try done. by eapply registered_put_call.
Qed.

Lemma relay_put_conn ref d d' h :
  relay_ok h -> conns h !! ref = Some d -> conn_le d d' ->
  (forall id c, dc_pending d' !! id = Some c -> dc_pending d !! id = Some c \/ registered h ref id c) ->
  (forall c v, dc_reader d' = R_deliver c v -> dc_reader d = R_deliver c v \/ delivers h ref d' c v) ->
  relay_ok (put_conn ref d' h).
Proof.
  intros [Hc Hp Hr] Hlk Hle Hpe Hre. split; simpl.
  - intros c k Hk. eapply call_ok_put; eauto.
  - intros ref' e id c. rewrite lookup_insert. case_decide; [|by apply Hp].
    intros [= <-] Hq. subst. destruct (Hpe _ _ Hq); [by eapply Hp|done].
  - intros ref' e c v. rewrite lookup_insert. case_decide; [|by apply Hr].
    intros [= <-] Hq. subst. destruct (Hre _ _ Hq) as [H'|]; [|done].
    destruct (Hr _ _ _ _ Hlk H') as (f & Hin & ? & ? & ?). exists f. split_and!; try done.
    eapply elem_of_prefix; [done|]. apply Hle.
Qed.

(** Updates of a connection that leave its calls alone. *)
Lemma relay_put_conn_same ref d d' h :
  relay_ok h -> conns h !! ref = Some d -> conn_le d d' ->
  (dc_pending d' = dc_pending d \/ dc_pending d' = ∅) ->
  (dc_reader d' = dc_reader d \/ forall c v, dc_reader d' <> R_deliver c v) ->
  relay_ok (put_conn ref d' h).
Proof.
  intros Hok Hlk Hle Hp Hr. eapply relay_put_conn; try done.
  - intros id c H. left. by destruct Hp as [<-|E]; [|rewrite E in H].
  - intros c v H. left. destruct Hr as [<-|E]; [done|]. by apply E in H.
Qed.

Lemma conn_le_refl d : conn_le d d.
Proof. by split. Qed.

Ltac conn_le_auto :=
  unfold begin_close; simpl; repeat case_match; split; simpl;
  first [done | by apply prefix_app_r | by eexists].

(** A step of a call that sends and receives nothing. *)
Lemma call_ok_quiet m k k' :
  call_ok m k ->
  call_owner k' = call_owner k -> call_device k' = call_device k -> call_ref k' = call_ref k ->
  (call_ch k' = None \/ (call_ch k' = call_ch k /\ call_id k' = call_id k)) ->
  call_at k <> C_start -> (forall r, call_at k <> C_done r) ->
  (match call_at k' with
   | C_start => False
   | C_register f | C_write f => exists raw, call_args k' = Ok raw /\ f = call_frame k' raw
   | C_wait => sent m k'
   | C_unpend (Ok v) | C_release (Ok v) | C_done (Ok v) => sent m k' /\ replied m k' v
   | _ => True
   end) -> call_ok m k'.
Proof.
  intros [Hc Hp Hch] Ho Hd Hr Hk Hs Hdn Hpc.
  assert (on_conn m k (fun _ => True)) as (ref & d & H1 & H2 & H3 & H4 & _).
  { destruct (call_at k); try done. by destruct (Hdn r). }
  assert (on_conn m k' (fun _ => True)) as Hon.
  { exists ref, d. rewrite Hr, Hd, Ho. done. }
  split.
  - destruct (call_at k') as [| | | | | | | | |[]]; auto; done.
  - by destruct (call_at k') as [| | | | | | |[]|[]|[]].
  - intros v Hv Hn. destruct Hk as [E|[E Ei]]; [congruence|]. rewrite E in Hv.
    destruct (Hch v Hv Hn) as (ref' & d' & ? & ? & ? & ? & f & Hin & Ht & Hfi & Hva).
    exists ref', d'. rewrite Hr, Hd, Ho. split_and!; try done. exists f. split; [done|].
    split_and!; congruence.
Qed.

Lemma relay_threads h ts : relay_ok h -> relay_ok (set_threads h ts).
Proof. by intros []. Qed.

Lemma relay_devices h ds : relay_ok h -> relay_ok (set_devices h ds).
Proof. by intros []. Qed.

(** Values arriving in channels. *)
Lemma relay_set_channels h cs :
  relay_ok h ->
  (forall c k', cs !! c = Some k' -> exists k, calls h !! c = Some k /\
     call_owner k' = call_owner k /\ call_device k' = call_device k /\ call_tool k' = call_tool k /\
     call_args k' = call_args k /\ call_ref k' = call_ref k /\ call_id k' = call_id k /\
     call_at k' = call_at k /\
     (call_ch k' = call_ch k \/
      exists v, call_ch k' = Some v /\ (pr_err v = None -> replied (conns h) k (pr_result v)))) ->
  (forall c, is_Some (calls h !! c) -> is_Some (cs !! c)) ->
  relay_ok (set_calls h cs).
Proof.
  intros [Hc Hp Hr] Hcs Hdom.
  assert (forall ref id c, registered h ref id c -> registered (set_calls h cs) ref id c) as Hreg.
  { intros ref id c (k & Hk & H1 & H2 & H3). destruct (Hdom c) as [k' Hk']; [by eauto|].
    destruct (Hcs _ _ Hk') as (k0 & Hk0 & ? & ? & ? & ? & ? & ? & Hat & _). simplify_eq.
    exists k'. rewrite Hat. split_and!; try done; congruence. }
  split; simpl.
  - intros c k' Hk'. destruct (Hcs _ _ Hk') as (k & Hk & E1 & E2 & E3 & E4 & E5 & E6 & E7 & Hch).
    destruct (Hc _ _ Hk) as [H1 H2 H3].
    assert (forall P, on_conn (conns h) k P -> on_conn (conns h) k' P) as Hon.
    { intros P. unfold on_conn. by rewrite E1, E2, E5. }
    assert (sent (conns h) k -> sent (conns h) k') as Hs.
    { unfold sent, call_frame. rewrite E4, E3, E6. intros (raw & ? & ?). eauto. }
    assert (forall v, replied (conns h) k v -> replied (conns h) k' v) as Hre.
    { intros v. unfold replied, answers. rewrite E6. auto. }
    split.
    + rewrite E7, E5. destruct (call_at k) as [| | | | | | | | |[]]; naive_solver.
    + rewrite E7. unfold call_frame. rewrite E3, E4, E6.
      destruct (call_at k) as [| | | | | | |[]|[]|[]]; naive_solver.
    + intros v Hv Hn. destruct Hch as [E|(v' & E & Hv')]; rewrite E in Hv.
      * eauto.
      * simplify_eq. eauto.
  - intros ref d id c Hd Hpe. apply Hreg. eauto.
  - intros ref d c v Hd Hre. destruct (Hr _ _ _ _ Hd Hre) as (f & ? & ? & ? & ?).
    exists f. split_and!; try done. auto.
Qed.

Lemma offer_dom c v cs c' : is_Some (cs !! c') -> is_Some (offer c v cs !! c').
Proof.
  unfold offer. repeat case_match; try done. intros Hs. rewrite lookup_insert. case_decide; eauto.
Qed.

Lemma relay_offers l e h :
  relay_ok h ->
  relay_ok (set_calls h (foldr (fun c => offer c (mkPending zero_Result (Some e))) (calls h) l)).
Proof.
  intros Hok. apply relay_set_channels; [done| |].
  - intros c k' (k & ? & ? & ? & ? & ? & ? & ? & ? & Hch)%offers_spec. exists k.
    split_and!; try done. destruct Hch as [|Hch]; [by left|right]. eexists. split; [done|]. done.
  - intros c Hs. induction l; simpl; [done|]. by apply offer_dom.
Qed.

(** The reader hands a reply to the call that waits for it. *)
Lemma relay_deliver ref d c v h :
  relay_ok h -> conns h !! ref = Some d -> dc_reader d = R_deliver c v ->
  relay_ok (set_calls h (offer c v (calls h))).
Proof.
  intros Hok Hd Hre. apply relay_set_channels; [done| |by intros; apply offer_dom].
  intros c' k' (k & Hk & ? & ? & ? & ? & ? & ? & ? & Hch)%offer_spec. exists k.
  split_and!; try done. destruct Hch as [|(-> & _ & Hch)]; [by left|right]. exists v. split; [done|].
  intros _. destruct (ro_reader h Hok _ _ _ _ Hd Hre) as (f & Hin & Ht & -> & k0 & Hk0 & Hr & Hi & Hl).
  simplify_eq. assert (on_conn (conns h) k (fun _ => True)) as (ref' & d' & Q1 & Q2 & Q3 & Q4 & _).
  { pose proof (ck_conn _ _ (ro_calls h Hok _ _ Hk)) as Hc. rewrite Hr in Hc.
    destruct (call_at k) as [| | | | | | | | |[]]; try done. by destruct Hc. }
  rewrite Hr in Q1. injection Q1 as <-. rewrite Hd in Q2. injection Q2 as <-.
  exists ref, d. split_and!; try done. by exists f.
Qed.

Lemma call_ok_weaken m m' k :
  (forall P, on_conn m k P -> on_conn m' k P) -> call_ok m k -> call_ok m' k.
Proof.
  intros Hm [Hc Hp Hch].
  assert (sent m k -> sent m' k) as Hs by (intros (raw & ? & ?); exists raw; auto).
  assert (forall v, replied m k v -> replied m' k v) as Hr by (intros v; apply Hm).
  split.
  - destruct (call_at k) as [| | | | | | |[]|[]|[]]; naive_solver.
  - destruct (call_at k) as [| | | | | | |[]|[]|[]]; naive_solver.
  - auto.
Qed.

Lemma relay_register t device h h' : relay_ok h -> Register t device h = Some h' -> relay_ok h'.
Proof.
  unfold Register. intros [Hc Hp Hr] H. case_decide as Et; [|done]. injection H as <-.
  pose proof (is_fresh (dom (conns h))) as Hf%not_elem_of_dom. split; simpl.
  - intros c k Hk. eapply call_ok_weaken; [|by eapply Hc].
    intros P (ref & d & H1 & H2 & H3). exists ref, d. rewrite lookup_insert_ne by congruence. done.
  - intros ref d id c. rewrite lookup_insert. case_decide; [|by apply Hp]. by intros [= <-].
  - intros ref d c v. rewrite lookup_insert. case_decide; [|by apply Hr]. by intros [= <-].
Qed.

Lemma relay_enter c k h :
  relay_ok h -> calls h !! c = None -> call_ok (conns h) k -> relay_ok (put_call c k h).
Proof.
  intros [Hc Hp Hr] Hn Hk.
  assert (forall ref id c0, registered h ref id c0 -> registered (put_call c k h) ref id c0) as Hreg.
  { intros ref id c0 (k0 & ? & ?). exists k0. simpl. rewrite lookup_insert_ne by congruence. done. }
  split; simpl.
  - intros c' k0. rewrite lookup_insert. case_decide; [by intros [= <-]|]. apply Hc.
  - eauto.
  - intros ref d c0 v Hd Hre. destruct (Hr _ _ _ _ Hd Hre) as (f & ? & ? & ? & ?). exists f. eauto.
Qed.

(** Moving on with the same identifier and connection. *)
Lemma call_ok_pc m k pc :
  call_ok m k -> call_at k <> C_start -> (forall r, call_at k <> C_done r) ->
  (match pc with
   | C_start => False
   | C_register f | C_write f => exists raw, call_args k = Ok raw /\ f = call_frame k raw
   | C_wait => sent m k
   | C_unpend (Ok v) | C_release (Ok v) | C_done (Ok v) => sent m k /\ replied m k v
   | _ => True
   end) -> call_ok m (at_pc k pc).
Proof. intros Hk H1 H2 Hpc. eapply call_ok_quiet; eauto; done. Qed.

Lemma exec_relay_ok a h h' : hub_ok h -> relay_ok h -> exec a h = Some h' -> relay_ok h'.
Proof.
  intros Hhub Hok H. destruct a; try (eapply relay_register; eassumption); exec_cases H.
  all: try done.
  all: try match goal with Hc : calls ?h !! ?c = Some ?k |- _ => pose proof (ro_calls h Hok c k Hc) as Hk end.
  all: try match goal with |- relay_ok (put_conn ?ref (with_out ?d ?l) (put_call ?c ?k ?h)) =>
    change (relay_ok (put_call c k (put_conn ref (with_out d l) h))) end.
  all: repeat first [ apply relay_threads | apply relay_devices | apply relay_offers
    | eapply relay_put_conn_same; [ | eassumption | solve [conn_le_auto] | solve [unfold begin_close; simpl; repeat case_match; auto]
      | solve [unfold begin_close; simpl; repeat case_match; auto; right; done] ]
    | eapply relay_put_call; [ | eassumption | solve [intros Hl; simpl in *; repeat match goal with E : call_at _ = _ |- _ => rewrite E in Hl end; done]
       | solve [eapply call_ok_quiet; try done; simpl; auto; congruence ] ] ].
  all: try done.
  all: try (eapply relay_deliver; eassumption).
  all: try match goal with E : call_at _ = _ |- _ => pose proof (ck_pc _ _ Hk) as Hpc; rewrite E in Hpc end.
  - (* AEnter *) by apply relay_enter.
  - (* ALookup: nobody *) eapply relay_put_call; [done|done|by intros Hl; rewrite E0 in Hl|].
    destruct Hk as [Hc _ Hch]. rewrite E0 in Hc. split; simpl; auto.
  - destruct (ho_devices h Hhub _ _ E1) as (d & Hd & Hid & _). simplify_eq.
    eapply relay_put_call; [done|done|by intros Hl; rewrite E0 in Hl|].
    split; simpl; try done. exists n, x0. split_and!; try done. by apply dec_stable.
  - eapply relay_put_call; [done|done|by intros Hl; rewrite E0 in Hl|].
    destruct Hk as [Hc _ Hch]. rewrite E0 in Hc. split; simpl; auto.
  - eapply relay_put_call; [done|done|by intros Hl; rewrite E0 in Hl|].
    eapply call_ok_quiet; try done; simpl; auto; try congruence. by exists a0.
  - (* APending *) eapply relay_put_conn; [|exact E1|by split| |by left].
    + eapply relay_put_call; [done|done|by intros Hl; rewrite E2 in Hl|].
      by apply call_ok_pc; try congruence.
    + intros id c0. simpl. rewrite lookup_insert. case_decide; [|by left].
      intros [= <-]. right. eexists. simpl. rewrite lookup_insert_eq. split; [done|]. by subst.
  - (* AWrite *) eapply relay_put_call; [|done|by intros Hl; rewrite E2 in Hl|].
    + eapply relay_put_conn_same; try done; [conn_le_auto|by left|by left].
    + simpl. apply call_ok_pc; [|congruence|congruence|].
      { eapply call_ok_put; [done|conn_le_auto|done]. }
      destruct Hpc as (raw & Ha & ->). exists raw. split; [done|].
      pose proof (ck_conn _ _ Hk) as Hcn. rewrite E2 in Hcn.
      destruct Hcn as (ref & d & Hr & Hd & Hid & How & _).
      rewrite E0 in Hr. injection Hr as <-. rewrite E1 in Hd. injection Hd as <-.
      exists x0, (with_out x1 (dc_out x1 ++ [call_frame x raw])). rewrite lookup_insert_eq.
      split_and!; try done. apply elem_of_app. right. apply list_elem_of_here.
  - (* WaitResult *) eapply relay_put_call; try done.
    eapply call_ok_quiet; try done; simpl; auto; try congruence.
    unfold returned. destruct (pr_err x2) eqn:Ep; [done|]. split.
    + destruct Hpc as (raw & Ha & Hs). by exists raw.
    + by apply (ck_ch _ _ Hk).
  - (* the deferred delete *) eapply relay_put_conn; [|exact E1|by split| |by left].
    + eapply relay_put_call; try done. by apply call_ok_pc; try congruence.
    + intros id c0. simpl. rewrite lookup_delete. case_decide; [done|by left].
  - eapply relay_put_call; try done. by apply call_ok_pc; try congruence.
  - (* a reply was read *) eapply relay_put_conn; [done|done|conn_le_auto|by left|].
    simpl. intros c v [= <- <-]. right. exists f. split_and!; [|done|done|].
    + simpl. apply elem_of_app. right. apply list_elem_of_here.
    + by eapply (ro_pending h Hok).
Qed.

(** ** Every reachable state *)

Lemma exec_maxInFlight a h h' : exec a h = Some h' -> maxInFlight h' = maxInFlight h.
Proof. intros H. destruct a; exec_cases H; done. Qed.

Record inv (h : Hub) : Prop := mkInv {
  inv_hub : hub_ok h;
  inv_sem : sem_ok h;
  inv_relay : relay_ok h }.

Lemma inv_NewHub n : inv (NewHub n).
Proof.
  split; (split; simpl; try (intros *; rewrite lookup_empty; done)).
  unfold NewHub. simpl. destruct (Z.ltb_spec n 1); lia.
Qed.

Lemma hub_exec_inv a h h' : inv h -> exec a h = Some h' -> inv h'.
Proof.
  intros [] H. split; [by eapply exec_hub_ok|by eapply exec_sem_ok|by eapply exec_relay_ok].
Qed.

Lemma hub_run_inv acts h h' : inv h -> run exec acts h = Some h' -> inv h'.
Proof. apply (run_invariant exec inv). intros. by eapply hub_exec_inv. Qed.

Lemma run_NewHub acts n h : run exec acts (NewHub n) = Some h -> inv h.
Proof. apply hub_run_inv, inv_NewHub. Qed.

Lemma run_max acts n h :
  run exec acts (NewHub n) = Some h -> maxInFlight h = (if n <? 1 then 16 else n).
Proof.
  intros H. apply (run_invariant exec (fun h => maxInFlight h = (if n <? 1 then 16 else n))) in H; [done| |done].
  intros a s s' Hs He. by rewrite (exec_maxInFlight _ _ _ He).
Qed.


(** C20 A reply reaches the caller it is for: a call that returns a value
    returns the content of a result frame with its own identifier, received
    on a connection of the very device and owner the call named, to which the
    call's own frame, with its tool and arguments, had been sent.  No caller
    ever receives what another tenant's device answered. *)
Theorem replies_are_correlated acts n h c k v :
  run exec acts (NewHub n) = Some h -> calls h !! c = Some k -> call_at k = C_done (Ok v) ->
  exists ref d raw f, call_ref k = Some ref /\ conns h !! ref = Some d /\
    Device_ID (dc_device d) = call_device k /\ Device_OwnerSubject (dc_device d) = call_owner k /\
    call_args k = Ok raw /\ call_frame k raw ∈ dc_out d /\
    f ∈ dc_in d /\ Frame_Type f = TypeResult /\ Frame_ID f = call_id k /\
    v = mkResult (Frame_Result f) (Frame_Error f).
Proof.
  intros Hrun Hk Hat. pose proof (inv_relay _ (run_NewHub _ _ _ Hrun)) as Hr.
  pose proof (ck_pc _ _ (ro_calls h Hr c k Hk)) as Hp. rewrite Hat in Hp.
  destruct Hp as [(raw & Ha & ref & d & H1 & H2 & H3 & H4 & Hs) (ref' & d' & H5 & H6 & _ & _ & f & Hf)].
  simplify_eq. exists ref, d, raw, f. destruct Hf as (? & ? & ? & ?). split_and!; done.
Qed.

(** After [close] has finished the connection is gone for good: it is in no
    device's slot, its [done] channel is closed, and no call is pending on it. *)
Theorem closed_connection_is_gone acts n h ref d :
  run exec acts (NewHub n) = Some h -> conns h !! ref = Some d -> dc_once d = Closed ->
  dc_done d = true /\ dc_pending d = ∅ /\ forall id, devices h !! id <> Some ref.
Proof.
  intros Hrun Hd Ho. pose proof (inv_hub _ (run_NewHub _ _ _ Hrun)) as [Hc Hdev].
  destruct (Hc ref d Hd) as [Hdn Hp]. rewrite Ho in Hdn. split_and!; [done|by apply Hp|].
  intros id Hid. destruct (Hdev _ _ Hid) as (e & He & _ & Hph). simplify_eq. by rewrite Ho in Hph.
Qed.

(** What a subject can address: the devices that are online and its own. *)
Definition addressable (owner deviceID : string) (h : Hub) : option nat :=
  ref ← devices h !! deviceID;
  d ← conns h !! ref;
  if decide (Device_OwnerSubject (dc_device d) = owner) then Some ref else None.

(** Online state is no oracle: whether a device that the subject does not
    own is online cannot be observed.  [IsOnline] and the lookup of [Call]
    depend only on what is [addressable]; for everything else, missing or
    foreign, the call ends in [ErrOffline] with nothing else changed. *)
Theorem foreign_devices_look_offline acts n h c k :
  run exec acts (NewHub n) = Some h -> calls h !! c = Some k -> call_at k = C_start ->
  IsOnline (call_owner k) (call_device k) h =
    bool_decide (is_Some (addressable (call_owner k) (call_device k) h)) /\
  call_lookup c h =
    match addressable (call_owner k) (call_device k) h with
    | None => Some (put_call c (at_pc k (C_done (Err ErrOffline))) h)
    | Some ref =>
        Some (put_call c (mkCall (call_owner k) (call_device k) (call_tool k) (call_args k)
                            (Some ref) "" None C_sem) h)
    end.
Proof.
  intros Hrun Hk Hat. pose proof (inv_hub _ (run_NewHub _ _ _ Hrun)) as [_ Hdev].
  unfold IsOnline, addressable, call_lookup. rewrite Hk. simpl. rewrite Hat.
  destruct (devices h !! call_device k) as [ref|] eqn:E; simpl; [|done].
  destruct (Hdev _ _ E) as (d & Hd & _). rewrite Hd. simpl.
  case_decide as Ho.
  - rewrite bool_decide_eq_true_2 by done. by rewrite decide_False by (intros HH; by apply HH).
  - rewrite bool_decide_eq_false_2 by done. by rewrite decide_True.
Qed.
