(* ===== verification/RelayLive.v ===== *)
(** * Closing a connection wakes every caller

    Once somebody has called [close], the goroutines in [close] and in [Call]
    can run to the end without any help from the device or from the callers'
    contexts: no caller waits forever on a dead connection. *)
From S2P Require Import Prelude Protocol Store RelayHub RelayProps.
Local Open Scope Z_scope.

(** The actions of [close] and of calls on their way out: no message of the
    device, no expired context, no new call. *)
Definition drains (a : action) : bool :=
  match a with
  | AClose _ | AFrame _ _ | APending _ | AWrite _ _ | AClosed _ | AUnwind _ => true
  | ASem _ SemDone | AWait _ WaitDone => true
  | _ => false
  end.

(** How many steps a call is from its return, once [done] is closed. *)
Definition pc_rank (pc : call_pc) : nat :=
  match pc with
  | C_start => 0
  | C_sem => 1
  | C_id => 7
  | C_register _ => 6
  | C_write _ => 5
  | C_wait => 4
  | C_closing => 4
  | C_unpend _ => 3
  | C_release _ => 2
  | C_done _ => 0
  end.

Definition rank (ref : nat) (k : call) : nat :=
  if decide (call_ref k = Some ref) then pc_rank (call_at k) else 0.

Definition work (ref : nat) (h : Hub) : nat := map_sum (rank ref) (calls h).

Definition is_closed (ref : nat) (h : Hub) : Prop :=
  exists d, conns h !! ref = Some d /\ dc_once d = Closed.

Definition phase_rank (o : once_state) : nat :=
  match o with
  | NotStarted => 5
  | Closing _ K_conn => 4
  | Closing _ K_done => 3
  | Closing _ K_hub => 2
  | Closing _ K_pending => 1
  | Closed => 0
  end.

(** The function of [once.Do] always has a next step until it has finished. *)
Lemma close_runs h ref d :
  conns h !! ref = Some d -> dc_once d <> NotStarted ->
  exists acts h', Forall (fun a => drains a = true) acts /\ run exec acts h = Some h' /\ is_closed ref h'.
Proof.
  remember (phase_rank (dc_once d)) as n eqn:Hn. revert h d Hn.
  induction n as [n IH] using lt_wf_ind. intros h d Hn Hd Ho.
  destruct (dc_once d) as [|err ph|] eqn:Eo; [done| |].
  2: { exists [], h. split; [constructor|]. split; [done|]. by exists d. }
  assert (exists h1 d1, close_step ref h = Some h1 /\ conns h1 !! ref = Some d1 /\
    dc_once d1 <> NotStarted /\ (phase_rank (dc_once d1) < n)%nat) as (h1 & d1 & Hs & Hd1 & Ho1 & Hlt).
  { unfold close_step. rewrite Hd. simpl. rewrite Eo. subst n.
    destruct ph; eexists _, _; (split; [reflexivity|]); simpl; rewrite lookup_insert_eq;
      (split; [reflexivity|]); simpl; (split; [done|lia]). }
  destruct (IH _ Hlt h1 d1 eq_refl Hd1 Ho1) as (acts & h' & Hf & Hr & Hc).
  exists (AClose ref :: acts), h'. split; [by constructor|]. split; [|done].
  simpl. by rewrite Hs.
Qed.

(** On a closed connection every call that is not back can take a step. *)
Lemma call_runs h ref d c k :
  inv h -> conns h !! ref = Some d -> dc_once d = Closed ->
  calls h !! c = Some k -> rank ref k <> 0%nat ->
  exists a h' k', drains a = true /\ exec a h = Some h' /\ is_closed ref h' /\
    calls h' = <[c := k']> (calls h) /\ (rank ref k' < rank ref k)%nat.
Proof.
  intros Hinv Hd Ho Hk Hrank. unfold rank in Hrank. case_decide as Href; [|done].
  assert (dc_done d = true) as Hdone.
  { destruct (ho_conns h (inv_hub h Hinv) _ _ Hd) as [-> _]. by rewrite Ho. }
  assert (forall d' k', dc_once d' = Closed -> is_closed ref (put_conn ref d' (put_call c k' h))) as Hcl.
  { intros d' k' E. exists d'. simpl. by rewrite lookup_insert_eq. }
  assert (forall k', is_closed ref (put_call c k' h)) as Hcl' by (intros; by exists d).
  assert (forall k', call_ref k' = Some ref -> (pc_rank (call_at k') < pc_rank (call_at k))%nat ->
    (rank ref k' < rank ref k)%nat) as Hlt.
  { intros k' H1 H2. unfold rank. by rewrite !decide_True. }
  destruct (call_at k) as [| | |f|f| | |r|r|r] eqn:Epc; try done; simpl in Hlt.
  - exists (ASem c SemDone). unfold exec, call_select_sem. rewrite Hk. simpl. rewrite Href. simpl.
    rewrite Hd. simpl. rewrite Epc, Hdone. eexists _, _. repeat split; [done|apply Hlt; [done|simpl; lia]].
  - exists (AFrame c (Err ErrOffline)). unfold exec, call_make_frame. rewrite Hk. simpl. rewrite Epc.
    eexists _, _. repeat split; [done|apply Hlt; [done|simpl; lia]].
  - exists (APending c). unfold exec, call_register. rewrite Hk. simpl. rewrite Href. simpl.
    rewrite Hd. simpl. rewrite Epc, Hdone. eexists _, _. repeat split; [done|apply Hlt; [done|simpl; lia]].
  - exists (AWrite c (Some ErrClosed)). unfold exec, call_write. rewrite Hk. simpl. rewrite Href. simpl.
    rewrite Hd. simpl. rewrite Epc. eexists _, _. split; [done|]. split; [done|]. split.
    { apply Hcl. unfold begin_close. by rewrite Ho. }
    split; [done|apply Hlt; [done|simpl; lia]].
  - exists (AClosed c). unfold exec, call_closed. rewrite Hk. simpl. rewrite Href. simpl.
    rewrite Hd. simpl. rewrite Epc, Ho. eexists _, _. repeat split; [done|apply Hlt; [done|simpl; lia]].
  - exists (AWait c WaitDone). unfold exec, call_select_wait. rewrite Hk. simpl. rewrite Href. simpl.
    rewrite Hd. simpl. rewrite Epc, Hdone. eexists _, _. repeat split; [done|apply Hlt; [done|simpl; lia]].
  - exists (AUnwind c). unfold exec, call_unwind. rewrite Hk. simpl. rewrite Href. simpl.
    rewrite Hd. simpl. rewrite Epc. eexists _, _. split; [done|]. split; [done|].
    split; [by apply Hcl|]. split; [done|apply Hlt; [done|simpl; lia]].
  - exists (AUnwind c). unfold exec, call_unwind. rewrite Hk. simpl. rewrite Href. simpl.
    rewrite Hd. simpl. rewrite Epc. eexists _, _. split; [done|]. split; [done|].
    split; [by apply Hcl|]. split; [done|apply Hlt; [done|simpl; lia]].
Qed.

Lemma calls_run h ref :
  inv h -> is_closed ref h ->
  exists acts h', Forall (fun a => drains a = true) acts /\ run exec acts h = Some h' /\
    is_closed ref h' /\ work ref h' = 0%nat.
Proof.
  remember (work ref h) as n eqn:Hn. revert h Hn. induction n as [n IH] using lt_wf_ind.
  intros h Hn Hinv Hcl. destruct (decide (n = 0%nat)) as [->|Hne]; [exists [], h; by repeat split|].
  rewrite Hn in Hne. apply map_sum_positive in Hne as (c & k & Hk & Hr).
  destruct Hcl as (d & Hd & Ho).
  destruct (call_runs h ref d c k Hinv Hd Ho Hk Hr) as (a & h1 & k1 & Ha & Hex & Hcl & Hc1 & Hlt).
  assert (work ref h1 < n)%nat as Hw.
  { pose proof (map_sum_insert (rank ref) (calls h) c k k1 Hk). unfold work in *. rewrite Hc1. lia. }
  destruct (IH _ Hw h1 eq_refl (hub_exec_inv _ _ _ Hinv Hex) Hcl) as (acts & h' & Hf & Hrun & ?).
  exists (a :: acts), h'. split; [by constructor|]. split; [|done]. simpl. by rewrite Hex.
Qed.

(** C22 No caller is left behind: from every reachable state in which [close]
    of a connection has been called, the steps of [close] and of the calls
    alone, without any message from the device and with no context expiring,
    lead to a state where every call on that connection has returned, nothing
    is pending on it and its semaphore is free. *)
Theorem close_wakes_every_caller acts n h ref d :
  run exec acts (NewHub n) = Some h -> conns h !! ref = Some d -> dc_once d <> NotStarted ->
  exists acts' h' d', Forall (fun a => drains a = true) acts' /\ run exec acts' h = Some h' /\
    conns h' !! ref = Some d' /\ dc_once d' = Closed /\ dc_pending d' = ∅ /\ dc_sem d' = 0 /\
    forall c k, calls h' !! c = Some k -> call_ref k = Some ref -> exists r, call_at k = C_done r.
Proof.
  intros Hrun Hd Ho. pose proof (run_NewHub _ _ _ Hrun) as Hinv.
  destruct (close_runs h ref d Hd Ho) as (acts1 & h1 & Hf1 & Hr1 & Hc1).
  pose proof (hub_run_inv _ _ _ Hinv Hr1) as Hinv1.
  destruct (calls_run h1 ref Hinv1 Hc1) as (acts2 & h2 & Hf2 & Hr2 & (d2 & Hd2 & Ho2) & Hw).
  pose proof (hub_run_inv _ _ _ Hinv1 Hr2) as Hinv2.
  assert (forall c k, calls h2 !! c = Some k -> call_ref k = Some ref -> exists r, call_at k = C_done r) as Hdone.
  { intros c k Hk Href. pose proof (map_sum_zero _ _ _ _ Hw Hk) as Hz. unfold rank in Hz.
    rewrite decide_True in Hz by done.
    pose proof (ck_conn _ _ (ro_calls h2 (inv_relay _ Hinv2) _ _ Hk)) as Hc.
    destruct (call_at k); try done; [congruence|by eexists]. }
  exists (acts1 ++ acts2), h2, d2. split; [by apply Forall_app|].
  split; [rewrite run_app, Hr1; exact Hr2|]. split; [done|]. split; [done|].
  split; [by apply (ho_conns h2 (inv_hub h2 Hinv2) _ _ Hd2)|]. split; [|done].
  destruct (so_count h2 (inv_sem h2 Hinv2) ref d2 Hd2) as [-> _].
  assert (holders ref (calls h2) = ∅) as ->; [|by rewrite map_size_empty].
  apply map_empty. intros c. apply map_lookup_filter_None. right. intros k Hk. simpl. unfold holds.
  case_bool_decide as Href; [|done]. by destruct (Hdone c k Hk Href) as [r ->].
Qed.

(** ** Witnesses *)

Definition demo_device : Device := mkDevice "dev" "alice" "laptop" 0 None None true.
Definition demo_reply : Frame := mkFrame TypeResult "id1" "" [] true [z2b 49] None.

(** A device connects, one call is answered. *)
Definition demo_answered : list action :=
  [ARegister 0 demo_device; AThread 0;
   AEnter 1 "alice" "dev" "ping" (Ok [z2b 123; z2b 125]); ALookup 1; ASem 1 SemAcquire;
   AFrame 1 (Ok "id1"); APending 1; AWrite 1 None;
   ARead 0 (Some demo_reply) true; AReader 0; AWait 1 WaitResult; AUnwind 1; AUnwind 1]%string.

(** The device connects again while a second call waits on the old connection. *)
Definition demo_closing : list action :=
  demo_answered ++
  [AEnter 2 "alice" "dev" "ping" (Ok [z2b 123; z2b 125]); ALookup 2; ASem 2 SemAcquire;
   AFrame 2 (Ok "id2"); APending 2; AWrite 2 None;
   ARegister 3 demo_device; AThread 3]%string.

Definition demo_state (acts : list action) : Hub := default (NewHub 2) (run exec acts (NewHub 2)).
Definition demo_conn (acts : list action) : deviceConn :=
  default (new_deviceConn demo_device) (conns (demo_state acts) !! 0%nat).

Definition demo_call (acts : list action) (c : nat) : call :=
  default (mkCall "" "" "" (Ok []) None "" None C_start) (calls (demo_state acts) !! c).


Lemma replies_are_correlated_witness :
  exists ref d raw f, call_ref (demo_call demo_answered 1) = Some ref /\
    conns (demo_state demo_answered) !! ref = Some d /\
    Device_ID (dc_device d) = "dev"%string /\ Device_OwnerSubject (dc_device d) = "alice"%string /\
    call_args (demo_call demo_answered 1) = Ok raw /\
    call_frame (demo_call demo_answered 1) raw ∈ dc_out d /\
    f ∈ dc_in d /\ Frame_Type f = TypeResult /\ Frame_ID f = "id1"%string /\
    mkResult [z2b 49] None = mkResult (Frame_Result f) (Frame_Error f).
Proof.
  apply (replies_are_correlated demo_answered 2 (demo_state demo_answered) 1
    (demo_call demo_answered 1) (mkResult [z2b 49] None)); vm_compute; reflexivity.
Defined.

Lemma closed_connection_is_gone_witness :
  let acts := demo_closing ++ [AClose 0; AClose 0; AClose 0; AClose 0] in
  dc_done (demo_conn acts) = true /\ dc_pending (demo_conn acts) = ∅ /\
  forall id, devices (demo_state acts) !! id <> Some 0%nat.
Proof.
  apply (closed_connection_is_gone (demo_closing ++ [AClose 0; AClose 0; AClose 0; AClose 0]) 2
    (demo_state (demo_closing ++ [AClose 0; AClose 0; AClose 0; AClose 0])) 0); vm_compute; reflexivity.
Defined.

Lemma foreign_devices_look_offline_witness :
  let acts := demo_answered ++ [AEnter 5 "mallory" "dev" "ping" (Ok [])]%string in
  let h := demo_state acts in
  IsOnline "mallory" "dev" h = bool_decide (is_Some (addressable "mallory" "dev" h)) /\
  call_lookup 5 h = Some (put_call 5 (at_pc (demo_call acts 5) (C_done (Err ErrOffline))) h).
Proof.
  apply (foreign_devices_look_offline
    (demo_answered ++ [AEnter 5 "mallory" "dev" "ping" (Ok [])]%string) 2
    (demo_state (demo_answered ++ [AEnter 5 "mallory" "dev" "ping" (Ok [])]%string)) 5
    (demo_call (demo_answered ++ [AEnter 5 "mallory" "dev" "ping" (Ok [])]%string) 5));
    vm_compute; reflexivity.
Defined.

Lemma close_wakes_every_caller_witness :
  exists acts' h' d', Forall (fun a => drains a = true) acts' /\
    run exec acts' (demo_state demo_closing) = Some h' /\
    conns h' !! 0%nat = Some d' /\ dc_once d' = Closed /\ dc_pending d' = ∅ /\ dc_sem d' = 0 /\
    forall c k, calls h' !! c = Some k -> call_ref k = Some 0%nat -> exists r, call_at k = C_done r.
Proof.
  apply (close_wakes_every_caller demo_closing 2 (demo_state demo_closing) 0 (demo_conn demo_closing));
    vm_compute; [reflexivity|reflexivity|discriminate].
Defined.
