(* ===== verification/OsProc.v ===== *)
(** * Host processes: internal/osproc/processes.go

    What the program makes of the output of ps and tasklist, and when it
    signals a process.  The outcomes of the system calls are arguments;
    [csv.Reader] is given as the records it reads. *)
From S2P Require Import Prelude Crypto GoStrings Text.
Local Open Scope Z_scope.

Definition maxProcessOutput : Z := Z.shiftl 2 20.

Record Process := mkProcess_ { PID : Z; PPID : Z; Command : string; Args : string }.

(** ** bufio.Scanner with ScanLines and a buffer of 1 MiB *)

Definition ErrTooLong : error := Sentinel "bufio.ErrTooLong" "bufio.Scanner: token too long".

(** A line without the carriage return at its end. *)
Definition drop_cr (l : list byte) : list byte :=
  match reverse l with
  | b :: r => if decide (b2z b = 13) then reverse r else l
  | [] => l
  end.

(** The lines of a text; [cur] is the one being read. *)
Fixpoint scan_lines (cur l : list byte) : list (list byte) :=
  match l with
  | [] => if decide (cur = []) then [] else [cur]
  | b :: l' => if decide (b2z b = 10) then cur :: scan_lines [] l' else scan_lines (cur ++ [b]) l'
  end.

(** ** List *)

Definition normalize_limit (limit : Z) : Z :=
  let limit := if limit <=? 0 then 1000 else limit in
  if 5000 <? limit then 5000 else limit.

(** The body of the loop of [List]: a line of ps. *)
Definition parse_line (line : list byte) : option Process :=
  match Fields (string_of_bytes (drop_cr line)) with
  | f0 :: f1 :: f2 :: rest =>
      match Atoi f0, Atoi f1 with
      | Ok pid, Ok ppid => Some (mkProcess_ pid ppid f2 (Join rest " "))
      | _, _ => None
      end
  | _ => None
  end.

(** The loop: [s.Scan()] is called, and may fail, also when the limit is
    reached. *)
Fixpoint list_lines (limit : Z) (lines : list (list byte)) (out : list Process)
    : list Process * option error :=
  match lines with
  | [] => (out, None)
  | line :: lines' =>
      if 2 ^ 20 <=? len line then (out, Some ErrTooLong)
      else if len out <? limit then
        list_lines limit lines' (match parse_line line with Some p => out ++ [p] | None => out end)
      else (out, None)
  end.

(** [func listWindows(ctx, limit)]: the records of tasklist, each one read or
    an error. *)
Fixpoint list_records (limit : Z) (records : list (result (list string))) (out : list Process)
    : result (list Process) :=
  if len out <? limit then
    match records with
    | [] => Ok out
    | Err e :: _ => Err e
    | Ok (image :: pid :: _) :: records' =>
        match Atoi (TrimSpace pid) with
        | Ok n => list_records limit records' (out ++ [mkProcess_ n 0 image EmptyString])
        | Err _ => list_records limit records' out
        end
    | Ok _ :: records' => list_records limit records' out
    end
  else Ok out.

(** [func limitedOutput(cmd *exec.Cmd) ([]byte, error)]; [stderr] is what the
    command wrote there. *)
Definition limitedOutput (pipe start : result unit) (read : result (list byte)) (wait : result unit)
    (stderr : string) : result (list byte) :=
  _ ← pipe;
  _ ← start;
  b ← read;
  if maxProcessOutput <? len b then Err (New "process list output exceeds limit")
  else
    match wait with
    | Err e => Err (Wrapf "process listing failed: %w: %s" [TrimSpace stderr] e)
    | Ok _ => Ok b
    end.

(** [func List(ctx context.Context, limit int) ([]Process, error)] where the
    output of the command is known; results come with an error when a line is
    too long, and the caller then drops them. *)
Definition List (windows : bool) (output : result (list byte))
    (csv : list byte -> list (result (list string))) (limit : Z) : result (list Process) :=
  let limit := normalize_limit limit in
  out ← output;
  if windows then list_records limit (csv out) []
  else
    match list_lines limit (scan_lines [] out) [] with
    | (_, Some e) => Err e
    | (ps, None) => Ok ps
    end.

(** ** Kill *)

(** What the operating system answers to [os.FindProcess] and to the signal. *)
Record KillEnv := mkKillEnv {
  ke_windows : bool;
  ke_getpid : Z;
  ke_find : result unit;
  ke_signal : result unit }.

(** [func Kill(pid int) error]: the answer, and the process that was signalled. *)
Definition Kill (e : KillEnv) (pid : Z) : result unit * option Z :=
  if pid <=? 0 then (Err (New "pid must be positive"), None)
  else if decide (pid = ke_getpid e) then (Err (New "refusing to kill the agent process"), None)
  else
    match ke_find e with
    | Err err => (Err err, None)
    | Ok _ =>
        if ke_windows e then (ke_signal e, Some pid)
        else
          (match ke_signal e with
           | Err err => Err (Wrapf "signal process %d: %w" [] err)
           | Ok _ => Ok tt
           end, Some pid)
    end.

(** ** Facts *)

Lemma normalize_limit_bounds limit : 1 <= normalize_limit limit <= 5000.
Proof.
  unfold normalize_limit. destruct (Z.leb_spec limit 0); [simpl; lia|].
  destruct (Z.ltb_spec 5000 limit); lia.
Qed.

Lemma list_lines_bound limit lines out : len out <= limit -> len (list_lines limit lines out).1 <= limit.
Proof.
  revert out. induction lines as [|line lines IH]; intros out Hl; simpl; [done|].
  destruct (2 ^ 20 <=? len line); [done|]. destruct (Z.ltb_spec (len out) limit); [|done]. apply IH.
  destruct (parse_line line); [rewrite length_app; simpl; lia|done].
Qed.

Lemma list_records_bound limit records out ps :
  len out <= limit -> list_records limit records out = Ok ps -> len ps <= limit.
Proof.
  revert out. induction records as [|r records IH]; intros out Hl; simpl; destruct (Z.ltb_spec (len out) limit); try congruence.
  destruct r as [[|image [|pid rest]]|e]; try done; try by apply IH.
  destruct (Atoi _); [|by apply IH]. apply IH. rewrite length_app. simpl. lia.
Qed.

(** At most 5000 processes are listed. *)
Lemma List_bound windows output csv limit ps :
  List windows output csv limit = Ok ps -> len ps <= 5000.
Proof.
  unfold List. intros H. apply result_bind_ok in H as (out & _ & H).
  pose proof (normalize_limit_bounds limit). destruct windows.
  - apply list_records_bound in H; simpl; lia.
  - pose proof (list_lines_bound (normalize_limit limit) (scan_lines [] out) []) as Hb.
    destruct (list_lines _ _ _) as [ps' [e|]]; [done|]. injection H as <-. simpl in Hb. lia.
Qed.

Example list_two :
  List false (Ok (bytes_of_string "  1     0 init /sbin/init -x
 77 x bad
 42     1 sh -c true")) (fun _ => []) 0 =
  Ok [mkProcess_ 1 0 "init" "/sbin/init -x"; mkProcess_ 42 1 "sh" "-c true"].
Proof. vm_compute. reflexivity. Qed.
