(* ===== verification/Tools.v ===== *)
(** * The agent: the dispatch table of executor.go, and cmd/orc-agent

    [Execute] over the file tools of Executor.v, the process sessions of
    ProcessMgr.v, the searches of SearchMgr.v and the host processes of
    OsProc.v; then what the agent answers to a call frame.  One [Execute] is
    one step of the agent here: each handler makes one call of one manager.
    encoding/json is given by [Decoders], what [decodeArgs] makes of the raw
    arguments for each type, and [json_Marshal]. *)
From S2P Require Import Prelude Crypto GoStrings Text Base64 Protocol.
From S2P Require Import Filepath FileSystem PathPolicy FileOps Executor OsProc ProcessMgr SearchMgr.
Local Open Scope Z_scope.

(** The agent's state; [ag_signalled] are the processes that got a signal. *)
Record Agent := mkAgent {
  ag_world : World;
  ag_procs : ProcessMgr.Manager;
  ag_search : SearchMgr.Manager;
  ag_signalled : list Z }.

Definition set_world (a : Agent) w := mkAgent w (ag_procs a) (ag_search a) (ag_signalled a).
Definition set_procs (a : Agent) p := mkAgent (ag_world a) p (ag_search a) (ag_signalled a).
Definition set_search (a : Agent) s := mkAgent (ag_world a) (ag_procs a) s (ag_signalled a).
Definition set_signalled (a : Agent) l := mkAgent (ag_world a) (ag_procs a) (ag_search a) l.

(** What the operating system answers during one [Execute]. *)
Record ToolEnv := mkToolEnv {
  te_start : StartEnv;
  te_write : result unit;
  te_terminate : result unit;
  te_searchID : result string;
  te_processes : Z -> result (list OsProc.Process);
  te_kill : KillEnv;
  te_os : string * string }.

(** Arguments. *)
Record readProcessArgs := mkReadProcessArgs { rp_ProcessID : string; rp_Cursor : Z; rp_MaxBytes : Z }.
Record writeProcessArgs := mkWriteProcessArgs { wp_ProcessID : string; wp_Data : string; wp_Encoding : string }.
Record getMoreArgs := mkGetMoreArgs { gm_SessionID : string; gm_MaxResults : Z }.

Definition raw : Type := list byte.
Record Decoders := mkDecoders {
  dec_readFile : raw -> result readFileArgs;
  dec_writeFile : raw -> result writeFileArgs;
  dec_readMultiple : raw -> result readMultipleArgs;
  dec_edit : raw -> result editArgs;
  dec_createDir : raw -> result createDirArgs;
  dec_move : raw -> result moveArgs;
  dec_start : raw -> result StartRequest;
  dec_readProcess : raw -> result readProcessArgs;
  dec_writeProcess : raw -> result writeProcessArgs;
  dec_query : raw -> result Query;
  dec_getMore : raw -> result getMoreArgs;
  dec_path : raw -> result string;
  dec_processID : raw -> result string;
  dec_sessionID : raw -> result string;
  dec_maxResults : raw -> result Z;
  dec_pid : raw -> result Z }.

(** Results, one constructor per shape. *)
Inductive value :=
| VPing
| VFile (r : fileReply)
| VWritten (path : string) (bytes_written : Z)
| VFiles (files : list fileEntry)
| VEdited (path : string) (replacements bytes_written : Z)
| VListing (r : listReply)
| VDirectory (path : string)
| VMoved (source destination : string)
| VInfo (r : infoReply)
| VStarted (r : StartResult)
| VOutput (r : ReadResult)
| VStdin (written : Z)
| VTerminated
| VSessions (l : list SessionSummary)
| VSearch (session_id : string)
| VMatches (r : MoreResult)
| VStopped
| VSearches (l : list Summary)
| VProcesses (l : list OsProc.Process)
| VKilled (pid : Z)
| VConfig (allowed_directories : list string) (os_arch : string * string)
    (process : Z * Z * Z * bool) (kill_process_enabled : bool).

Section Executor.
Context (paths : Policy) (allowKillProcess : bool).
Context (ToLower : string -> string).
Context (compile : string -> result (string -> option (nat * nat))).
Context (dec : Decoders).

Definition handler : Type := raw -> ToolEnv -> Agent -> result value * Agent.

(** A handler that works on files. *)
Definition on_files {A} (m : raw -> F A) (f : A -> value) : handler := fun r _ a =>
  let '(x, w) := m r (ag_world a) in (f <$> x, set_world a w).

(** The arguments, or the failure of [decodeArgs]. *)
Definition with_args {A} (x : result A) (k : A -> Agent -> result value * Agent) (a : Agent) : result value * Agent :=
  match x with
  | Ok args => k args a
  | Err e => (Err (Wrapf "invalid arguments: %w" [] e), a)
  end.

(** The policy's answer on a path, or its failure. *)
Definition with_path {A} (q : F A) (k : A -> Agent -> result value * Agent) (a : Agent) : result value * Agent :=
  match q (ag_world a) with
  | (Ok x, w) => k x (set_world a w)
  | (Err e, w) => (Err e, set_world a w)
  end.

Definition ping : handler := fun _ _ a => (Ok VPing, a).

(** [func (e *Executor) startProcess(raw json.RawMessage) (any, error)] *)
Definition set_Cwd (r : StartRequest) (cwd : string) : StartRequest :=
  mkStartRequest (Argv r) (Command r) cwd (Env r).
Definition start (e : ToolEnv) (req : StartRequest) (a : Agent) : result value * Agent :=
  let '(r, m) := ProcessMgr.Start req (te_start e) (ag_procs a) in (VStarted <$> r, set_procs a m).
Definition startProcess : handler := fun r e a =>
  with_args (dec_start dec r) (fun req a =>
    if decide (Cwd req = EmptyString) then start e req a
    else with_path (resolveExisting paths (Cwd req)) (fun cwd a => start e (set_Cwd req cwd) a) a) a.

(** [func (e *Executor) readProcess(raw json.RawMessage) (any, error)] *)
Definition readProcess : handler := fun r _ a =>
  with_args (dec_readProcess dec r) (fun x a =>
    match ProcessMgr.Read (rp_ProcessID x) (rp_Cursor x) (rp_MaxBytes x) (ag_procs a) with
    | Some res => (VOutput <$> res, a)
    | None => (Err (Foreign "panic: slice bounds out of range"), a)
    end) a.

(** [func (e *Executor) writeProcess(raw json.RawMessage) (any, error)] *)
Definition stdin_data (x : writeProcessArgs) : result (list byte) :=
  if decide (wp_Encoding x = "base64"%string) then
    match DecodeString (wp_Data x) with
    | Ok b => Ok b
    | Err _ => Err (NewErr "invalid base64 data")
    end
  else if bool_decide (wp_Encoding x <> EmptyString) && bool_decide (wp_Encoding x <> "utf-8"%string) then
    Err (NewErr "encoding must be utf-8 or base64")
  else Ok (bytes_of_string (wp_Data x)).
Definition writeProcess : handler := fun r e a =>
  with_args (dec_writeProcess dec r) (fun x a =>
    match stdin_data x with
    | Err err => (Err err, a)
    | Ok data =>
        let '(res, m) := ProcessMgr.Write (wp_ProcessID x) data (te_write e) (ag_procs a) in
        ((fun _ => VStdin (len data)) <$> res, set_procs a m)
    end) a.

(** [func (e *Executor) terminateProcess(raw json.RawMessage) (any, error)] *)
Definition terminateProcess : handler := fun r e a =>
  with_args (dec_processID dec r) (fun id a =>
    let '(res, m) := ProcessMgr.Terminate id (te_terminate e) (ag_procs a) in
    ((fun _ => VTerminated) <$> res, set_procs a m)) a.

Definition list_sessions : handler := fun _ _ a => (Ok (VSessions (ProcessMgr.List (ag_procs a))), a).

(** [func (e *Executor) startSearch(raw json.RawMessage) (any, error)]; the
    goroutine's first look at the root is taken at once. *)
Definition set_Path (q : Query) (path : string) : Query :=
  mkQuery path (Query_Pattern q) (Query_SearchType q) (Query_Regex q) (Query_CaseSensitive q)
    (Query_IncludeHidden q) (Query_MaxResults q) (Query_MaxFileBytes q).
Definition startSearch : handler := fun r e a =>
  with_args (dec_query dec r) (fun q a =>
    with_path (resolveExisting paths (Query_Path q)) (fun root a =>
      with_path (stat root) (fun st a =>
        if negb (is_dir st) then (Err (NewErr "search path must be a directory"), a)
        else
          let '(res, m) := SearchMgr.Start ToLower compile (set_Path q root) (te_searchID e)
                             (Lstat (w_os (ag_world a)) (Clean root)) (ag_search a) in
          (VSearch <$> res, set_search a m)) a) a) a.

(** [func (e *Executor) getMoreSearch(raw json.RawMessage) (any, error)] *)
Definition getMoreSearch : handler := fun r _ a =>
  with_args (dec_getMore dec r) (fun x a =>
    let '(res, m) := SearchMgr.GetMore (gm_SessionID x) (gm_MaxResults x) (ag_search a) in
    (VMatches <$> res, set_search a m)) a.

(** [func (e *Executor) stopSearch(raw json.RawMessage) (any, error)] *)
Definition stopSearch : handler := fun r _ a =>
  with_args (dec_sessionID dec r) (fun id a =>
    let '(res, m) := SearchMgr.Stop id (ag_search a) in
    ((fun _ => VStopped) <$> res, set_search a m)) a.

Definition list_searches : handler := fun _ _ a => (Ok (VSearches (SearchMgr.List (ag_search a))), a).

(** [func (e *Executor) listProcesses(ctx, raw json.RawMessage) (any, error)] *)
Definition listProcesses : handler := fun r e a =>
  with_args (dec_maxResults dec r) (fun max a => (VProcesses <$> te_processes e max, a)) a.

(** [func (e *Executor) killProcess(raw json.RawMessage) (any, error)] *)
Definition killProcess : handler := fun r e a =>
  if negb allowKillProcess then (Err (NewErr "kill_process is disabled by agent policy"), a)
  else
    with_args (dec_pid dec r) (fun pid a =>
      let '(res, signalled) := OsProc.Kill (te_kill e) pid in
      ((fun _ => VKilled pid) <$> res,
       match signalled with Some p => set_signalled a (ag_signalled a ++ [p]) | None => a end)) a.

(** [func (e *Executor) getConfig() map[string]any] *)
Definition process_config (m : ProcessMgr.Manager) : Z * Z * Z * bool :=
  (maxProcs m, maxBuffer m, maxRuntime m, allowShell m).
Definition getConfig : handler := fun _ e a =>
  (Ok (VConfig (roots paths) (te_os e) (process_config (ag_procs a)) allowKillProcess), a).

(** [var toolHandlers] *)
Definition toolHandlers : list (string * handler) :=
  [("ping", ping);
   ("read_file", on_files (fun r => readFile paths (dec_readFile dec r)) VFile);
   ("write_file", on_files (fun r => writeFile paths (dec_writeFile dec r)) (fun x => VWritten x.1 x.2));
   ("read_multiple_files", on_files (fun r => readMultipleFiles paths (dec_readMultiple dec r)) VFiles);
   ("edit_block", on_files (fun r => editBlock paths (dec_edit dec r)) (fun x => VEdited x.1.1 x.1.2 x.2));
   ("list_directory", on_files (fun r => listDirectory paths (dec_path dec r)) VListing);
   ("create_directory", on_files (fun r => createDirectory paths (dec_createDir dec r)) VDirectory);
   ("move_file", on_files (fun r => moveFile paths (dec_move dec r)) (fun x => VMoved x.1 x.2));
   ("get_file_info", on_files (fun r => getFileInfo paths (dec_path dec r)) VInfo);
   ("start_process", startProcess);
   ("read_process_output", readProcess);
   ("interact_with_process", writeProcess);
   ("force_terminate", terminateProcess);
   ("list_sessions", list_sessions);
   ("start_search", startSearch);
   ("get_more_search_results", getMoreSearch);
   ("stop_search", stopSearch);
   ("list_searches", list_searches);
   ("list_processes", listProcesses);
   ("kill_process", killProcess);
   ("get_config", getConfig)]%string.

(** The entry of a table for a name. *)
Fixpoint assoc {A} (name : string) (l : list (string * A)) : option A :=
  match l with
  | [] => None
  | (k, x) :: l' => if decide (k = name) then Some x else assoc name l'
  end.

(** [func (e *Executor) Execute(ctx, tool string, raw json.RawMessage) (any, error)] *)
Definition Execute (tool : string) (r : raw) (e : ToolEnv) (a : Agent) : result value * Agent :=
  match assoc tool toolHandlers with
  | None => (Err (Errorf "unsupported tool %q" [tool]), a)
  | Some h => h r e a
  end.

(** [func SupportedTools() []string] *)
Definition tool_names : list string := toolHandlers.*1.
Definition SupportedTools : list string := isort string_le tool_names.

(** ** cmd/orc-agent: one call frame *)

Context (json_Marshal : value -> result (list byte)).
Context (error_text : error -> string).

(** [func classify(err error) string] *)
Definition classify (e : error) : string :=
  if errors_Is e ErrOutsideRoots then "forbidden"
  else if errors_Is e ENOENT || errors_Is e ProcessMgr.ErrNotFound then "not_found"
  else "execution_error".

(** [func handleCall(ctx, conn, exec, f, logger)]: the frame that is written. *)
Definition handleCall (f : Frame) (e : ToolEnv) (a : Agent) : Frame * Agent :=
  let '(x, a) := Execute (Frame_Tool f) (Frame_Args f) e a in
  let reply ok res err := mkFrame TypeResult (Frame_ID f) EmptyString [] ok res err in
  match x with
  | Err err => (reply false [] (Some (mkRemoteError (classify err) (error_text err))), a)
  | Ok v =>
      match json_Marshal v with
      | Err _ => (reply false [] (Some (mkRemoteError "internal_error" "could not encode result")), a)
      | Ok raw => (reply true raw None, a)
      end
  end.

(** One turn of the loop of [connectAndServe] for a decoded frame: the frame
    to be written, if any, or the error that ends the connection. *)
Definition agent_turn (f : Frame) (e : ToolEnv) (a : Agent) : result (option Frame) * Agent :=
  match Validate f with
  | Err err => (Err err, a)
  | Ok _ =>
      if decide (Frame_Type f = TypeCall) then
        let '(out, a) := handleCall f e a in (Ok (Some out), a)
      else if decide (Frame_Type f = TypePing) then
        (Ok (Some (mkFrame TypePong (Frame_ID f) EmptyString [] false [] None)), a)
      else if decide (Frame_Type f = TypePong) then (Ok None, a)
      else (Err (NewErr "unexpected relay frame"), a)
  end.
End Executor.
