(* ===== verification/Effects.v ===== *)
(** * Handlers and their effects

    The HTTP handlers of the server run concurrently and reach the store, the
    relay hub, the audit writer, the verifier, the clock and the random source
    through calls.  A handler is a tree of such calls ([prog]): each [Do] waits
    for an answer and continues with it.  Between two calls other goroutines
    may do anything, so nothing relates the answers; a theorem that quantifies
    over the traces of a handler ([follows]) holds in every interleaving and
    for every implementation of the interfaces. *)
From S2P Require Import Prelude Json Authn Store RelayHub.

Definition DeadlineExceeded : error := Sentinel "context.DeadlineExceeded" "context deadline exceeded".
Definition Canceled : error := Sentinel "context.Canceled" "context canceled".

(** The calls.  [OAllow] is [ipLimiter.allow] of the limiter for the namespace;
    [OUpgrade] is [ws.Upgrade]; [ORandom n] is [rand.Read] of [n] bytes. *)
Inductive op :=
| OVerify (token : string)
| OListDevices (owner : string)
| OGetDevice (owner id : string)
| OAuthenticateDevice (id token : string)
| OTouchDevice (id : string)
| ORevokeDevice (owner id : string)
| OCreatePairing (p : Pairing)
| OApprovePairing (userCodeHash owner : string)
| OConsumePairing (deviceCodeHash : string) (d : Device) (token : string)
| OIsOnline (owner id : string)
| OCall (owner id tool : string) (args : gmap string json)
| ODisconnect (id : string)
| ORegister (d : Device)
| OUpgrade
| ORecord (e : AuditEvent)
| OAllow (namespace : string)
| ORandom (n : nat)
| ONow.

Definition answer (o : op) : Type :=
  match o with
  | OVerify _ => result Identity
  | OListDevices _ => result (list Device)
  | OGetDevice _ _ | OAuthenticateDevice _ _ | OConsumePairing _ _ _ => result Device
  | OTouchDevice _ | ORevokeDevice _ _ | OCreatePairing _ | OApprovePairing _ _ | OUpgrade => result unit
  | OIsOnline _ _ | OAllow _ => bool
  | OCall _ _ _ _ => result Result
  | ODisconnect _ | ORegister _ | ORecord _ => unit
  | ORandom _ => result (list byte)
  | ONow => Z
  end.

Inductive prog (A : Type) : Type :=
| Ret (a : A)
| Do (o : op) (k : answer o -> prog A).
Arguments Ret {A} a.
Arguments Do {A} o k.

Fixpoint prog_bind {A B} (f : A -> prog B) (p : prog A) : prog B :=
  match p with
  | Ret a => f a
  | Do o k => Do o (fun x => prog_bind f (k x))
  end.
#[global] Instance prog_ret : MRet prog := @Ret.
#[global] Instance prog_mbind : MBind prog := @prog_bind.

(** One call, as a program. *)
Definition call (o : op) : prog (answer o) := Do o Ret.

(** ** Traces *)

Definition event : Type := {o : op & answer o}.
Definition ev (o : op) (x : answer o) : event := existT o x.

(** [follows p tr a]: with the answers in [tr] the program makes exactly the
    calls in [tr] and returns [a]. *)
Fixpoint follows {A} (p : prog A) (tr : list event) (a : A) : Prop :=
  match p with
  | Ret b => tr = [] /\ a = b
  | Do o k => exists x tr', tr = ev o x :: tr' /\ follows (k x) tr' a
  end.

Section follows.
Context {A B : Type}.

Lemma follows_bind (p : prog A) (f : A -> prog B) tr b :
  follows (p ≫= f) tr b <-> exists tr1 tr2 a, tr = tr1 ++ tr2 /\ follows p tr1 a /\ follows (f a) tr2 b.
Proof.
  revert tr. induction p as [a|o k IH]; intros tr; simpl.
  - split; [intros H; by exists [], tr, a|]. by intros (tr1 & tr2 & a' & -> & [-> ->] & H).
  - split.
    + intros (x & tr' & -> & H). apply IH in H as (tr1 & tr2 & a & -> & H1 & H2).
      exists (ev o x :: tr1), tr2, a. split; [done|]. split; [by exists x, tr1|done].
    + intros (tr1 & tr2 & a & -> & (x & tr' & -> & H1) & H2). exists x, (tr' ++ tr2).
      split; [done|]. apply IH. by exists tr', tr2, a.
Qed.
End follows.

Lemma cons_eq_inv {A} (x y : A) l k : x :: l = y :: k -> x = y /\ l = k.
Proof. by intros [= -> ->]. Qed.

(** ** Guarded calls

    [justified pre o] says when a call may follow the trace [pre]; a program
    is [guarded] when each of its calls is, whatever the answers. *)
Section guarded.
Context (justified : list event -> op -> Prop).

Fixpoint guarded {A} (pre : list event) (p : prog A) : Prop :=
  match p with
  | Ret _ => True
  | Do o k => justified pre o /\ forall x, guarded (pre ++ [ev o x]) (k x)
  end.

Lemma guarded_bind {A B} pre (p : prog A) (f : A -> prog B) :
  guarded pre p -> (forall tr a, follows p tr a -> guarded (pre ++ tr) (f a)) -> guarded pre (p ≫= f).
Proof.
  revert pre. induction p as [a|o k IH]; intros pre Hp Hf; simpl in *.
  - rewrite <- (app_nil_r pre). by apply Hf.
  - destruct Hp as [Ho Hk]. split; [done|]. intros x. apply IH; [apply Hk|].
    intros tr a H. rewrite <- app_assoc. apply Hf. by exists x, tr.
Qed.

Lemma guarded_trace {A} pre (p : prog A) tr a :
  guarded pre p -> follows p tr a ->
  forall pre' o x post, tr = pre' ++ ev o x :: post -> justified (pre ++ pre') o.
Proof.
  revert pre tr. induction p as [b|o k IH]; intros pre tr Hg Hf; simpl in *.
  - destruct Hf as [-> _]. by intros [].
  - destruct Hg as [Ho Hk], Hf as (x & tr' & -> & Hf). intros [|e pre'] o' x' post E; simpl in E.
    + apply (f_equal (fun l => option_map (@projT1 _ _) (head l))) in E. simpl in E. injection E as <-.
      by rewrite app_nil_r.
    + assert (e = ev o x /\ tr' = pre' ++ ev o' x' :: post) as [-> E'].
      { apply cons_eq_inv in E as [-> ->]. done. }
      specialize (IH x (pre ++ [ev o x]) tr' (Hk x) Hf pre' o' x' post E'). by rewrite <- app_assoc in IH.
Qed.
End guarded.

(** ** Running a program against implementations *)

Section run_prog.
Context {W : Type} (handle : forall o, W -> answer o * W).

Fixpoint run_prog {A} (p : prog A) (w : W) : list event * A * W :=
  match p with
  | Ret a => ([], a, w)
  | Do o k =>
      let '(x, w) := handle o w in
      let '(tr, a, w) := run_prog (k x) w in (ev o x :: tr, a, w)
  end.

Lemma run_prog_follows {A} (p : prog A) w tr a w' : run_prog p w = (tr, a, w') -> follows p tr a.
Proof.
  revert w tr. induction p as [b|o k IH]; intros w tr; simpl; [by intros [= <- -> _]|].
  destruct (handle o w) as [x w1]. destruct (run_prog (k x) w1) as [[tr1 a1] w2] eqn:E.
  intros [= <- <- <-]. exists x, tr1. split; [done|]. by eapply IH.
Qed.

(** Every answer in the trace was given by the implementation. *)
Lemma run_prog_answers {A} (p : prog A) w tr a w' e :
  run_prog p w = (tr, a, w') -> e ∈ tr -> exists w0, projT2 e = (handle (projT1 e) w0).1.
Proof.
  revert w tr. induction p as [b|o k IH]; intros w tr; simpl; [by intros [= <- _ _] ?%elem_of_nil|].
  destruct (handle o w) as [x w1] eqn:Eh. destruct (run_prog (k x) w1) as [[tr1 a1] w2] eqn:E.
  intros [= <- <- <-] [->|Hin]%elem_of_cons; [exists w; simpl; by rewrite Eh|]. by eapply IH.
Qed.
End run_prog.

(** ** What a trace contains *)

(** The relayed calls with their answers, and the audit records. *)
Definition relayed (e : event) : option (string * string * string * gmap string json * result Result) :=
  match projT1 e as o
    return answer o -> option (string * string * string * gmap string json * result Result) with
  | OCall s d t a => fun x => Some (s, d, t, a, x)
  | _ => fun _ => None
  end (projT2 e).
Definition audited (e : event) : option AuditEvent :=
  match projT1 e with ORecord a => Some a | _ => None end.

(** Take a trace of a handler apart: the guards that the handler is stuck on
    are split, and every call gives the head of the trace. *)
Ltac trace_step :=
  match goal with
  | H : follows (if ?b then _ else _) _ _ |- _ => let E := fresh "E" in destruct b eqn:E
  | H : follows (match ?x with _ => _ end) _ _ |- _ => let E := fresh "E" in destruct x eqn:E
  | H : follows (Ret _) _ _ |- _ => destruct H as [-> ->]
  | H : follows (Do _ _) _ _ |- _ =>
      let x := fresh "x" in let tr := fresh "tr" in destruct H as (x & tr & -> & H); cbn beta in H
  end.

(** Two events with different calls differ. *)
Ltac other_event :=
  match goal with H : _ = _ :> event |- _ => apply (f_equal (@projT1 _ _)) in H; discriminate end.
