(* ===== verification/Limiter.v ===== *)
(** * The rate limiter: internal/controlplane/limiter.go

    A token bucket per namespace and client address, in float64: [SpecFloat]
    is the binary64 arithmetic of Go.  [allow] runs under the limiter's mutex. *)
From S2P Require Import Prelude Crypto GoStrings Text Json Http.
From Stdlib Require Import SpecFloat.
Local Open Scope Z_scope.

(** ** float64 *)

Abbreviation float64 := spec_float.
(** [float64(z)], and the arithmetic. *)
Definition of_int (z : Z) : float64 := binary_normalize 53 1024 z 0 false.
Definition fadd : float64 -> float64 -> float64 := SFadd 53 1024.
Definition fsub : float64 -> float64 -> float64 := SFsub 53 1024.
Definition fmul : float64 -> float64 -> float64 := SFmul 53 1024.
Definition fdiv : float64 -> float64 -> float64 := SFdiv 53 1024.

#[global] Instance float64_eq_dec : EqDecision float64.
Proof. solve_decision. Defined.

(** [t.Sub(u)] saturates; [d.Seconds()] *)
Definition time_Sub (t u : Z) : Z := Z.max (- 2 ^ 63) (Z.min (2 ^ 63 - 1) (t - u)).
Definition Seconds (d : Z) : float64 :=
  fadd (of_int (Z.quot d Second)) (fdiv (of_int (Z.rem d Second)) (of_int 1000000000)).

(** ** The limiter *)

Record bucket := mkBucket { b_tokens : float64; b_last : Z }.
Record ipLimiter := mkLimiter {
  l_rate : float64;
  l_burst : float64;
  l_buckets : gmap string bucket }.

Definition set_buckets (l : ipLimiter) m : ipLimiter := mkLimiter (l_rate l) (l_burst l) m.

(** [func newIPLimiter(ratePerSecond float64, burst int) *ipLimiter] *)
Definition newIPLimiter (rate : float64) (burst : Z) : ipLimiter := mkLimiter rate (of_int burst) ∅.

(** The limiters of [controlplane.New]; 0.2 is the double nearest to 1/5. *)
Definition pairLimiter : ipLimiter := newIPLimiter (fdiv (of_int 1) (of_int 5)) 5.
Definition tokenLimiter : ipLimiter := newIPLimiter (of_int 1) 10.

Definition zero_bucket : bucket := mkBucket (S754_zero false) 0.
Definition nul : string := string_of_bytes [z2b 0].

(** The key of a request. *)
Definition limiter_key (remoteAddr namespace : string) : string :=
  namespace +:+ nul +:+ match SplitHostPort remoteAddr with Ok (host, _) => host | Err _ => remoteAddr end.

(** The tokens of a bucket at [now]. *)
Definition refill (now : Z) (l : ipLimiter) (b : bucket) : float64 :=
  if decide (b_last b = 0) then l_burst l
  else
    let t := fadd (b_tokens b) (fmul (Seconds (time_Sub now (b_last b))) (l_rate l)) in
    if SFltb (l_burst l) t then l_burst l else t.

(** The buckets that stay when there are too many. *)
Definition sweep (now : Z) (m : gmap string bucket) : gmap string bucket :=
  if 4096 <? Z.of_nat (size m) then
    filter (fun kb => Before (b_last kb.2) (now - 30 * Minute) = false) m
  else m.

(** [func (l *ipLimiter) allow(r *http.Request, namespace string) bool]; the
    time zero is [time.Time{}]. *)
Definition allow (now : Z) (remoteAddr namespace : string) (l : ipLimiter) : bool * ipLimiter :=
  let key := limiter_key remoteAddr namespace in
  let t := refill now l (default zero_bucket (l_buckets l !! key)) in
  if SFltb t (of_int 1) then (false, set_buckets l (<[key := mkBucket t now]> (l_buckets l)))
  else (true, set_buckets l (sweep now (<[key := mkBucket (fsub t (of_int 1)) now]> (l_buckets l)))).

(** ** Many requests at one instant *)

(** The answers to requests that arrive one after the other at [now]: the
    key of each and whether it was let through. *)
Fixpoint allow_all (now : Z) (reqs : list (string * string)) (l : ipLimiter) : list (string * bool) * ipLimiter :=
  match reqs with
  | [] => ([], l)
  | (addr, ns) :: reqs' =>
      let '(ok, l) := allow now addr ns l in
      let '(out, l) := allow_all now reqs' l in
      ((limiter_key addr ns, ok) :: out, l)
  end.

(** The number of requests with a key, and of those that were let through. *)
Definition asked (k : string) (out : list (string * bool)) : nat :=
  length (filter (fun x => x.1 = k) out).
Definition admitted (k : string) (out : list (string * bool)) : nat :=
  length (filter (fun x => x.1 = k /\ x.2 = true) out).

(** Whole numbers of tokens up to [burst] behave like numbers. *)
Definition exact (rate : float64) (burst : nat) : bool :=
  forallb (fun j =>
    let t := of_int (Z.of_nat j) in
    bool_decide (fadd t (fmul (Seconds 0) rate) = t) && negb (SFltb (of_int (Z.of_nat burst)) t) &&
    (if decide (j = O) then SFltb t (of_int 1)
     else negb (SFltb t (of_int 1)) && bool_decide (fsub t (of_int 1) = of_int (Z.of_nat (pred j)))))
    (seq 0 (S burst)).

(** Of a key [n] requests have been let through at [now]. *)
Definition used (now : Z) (burst : nat) (l : ipLimiter) (k : string) (n : nat) : Prop :=
  (n <= burst)%nat /\
  match l_buckets l !! k with
  | None => n = O
  | Some b => b = mkBucket (of_int (Z.of_nat (burst - n))) now
  end.

Section burst.
Context (now : Z) (burst : nat) (rate : float64).
Context (Hnow : now <> 0) (Hexact : exact rate burst = true).

Definition limiter_ok (l : ipLimiter) : Prop :=
  l_rate l = rate /\ l_burst l = of_int (Z.of_nat burst) /\ forall k, exists n, used now burst l k n.

Lemma exact_at j :
  (j <= burst)%nat ->
  let t := of_int (Z.of_nat j) in
  fadd t (fmul (Seconds 0) rate) = t /\ SFltb (of_int (Z.of_nat burst)) t = false /\
  SFltb t (of_int 1) = bool_decide (j = O) /\ (j <> O -> fsub t (of_int 1) = of_int (Z.of_nat (pred j))).
Proof.
  intros Hj t. pose proof Hexact as H. unfold exact in H. rewrite forallb_forall in H.
  specialize (H j). rewrite in_seq in H. specialize (H ltac:(lia)). cbv zeta in H. fold t in H.
  apply andb_true_iff in H as [H Hz]. apply andb_true_iff in H as [Ha Hb].
  apply bool_decide_eq_true in Ha. apply negb_true_iff in Hb. split; [exact Ha|]. split; [exact Hb|].
  destruct (decide (j = O)) as [E|E].
  - split; [by rewrite bool_decide_eq_true_2|done].
  - apply andb_true_iff in Hz as [Hz1 Hz2]. apply negb_true_iff in Hz1. apply bool_decide_eq_true in Hz2.
    split; [by rewrite bool_decide_eq_false_2|done].
Qed.

Lemma of_int_inj i j :
  (i <= burst)%nat -> (j <= burst)%nat -> of_int (Z.of_nat i) = of_int (Z.of_nat j) -> i = j.
Proof.
  revert j. induction i as [|i IH]; intros j Hi Hj E;
    destruct (exact_at _ Hi) as (_ & _ & H0 & Hs), (exact_at j Hj) as (_ & _ & Hjz & Hjs); rewrite E, Hjz in H0.
  - rewrite (bool_decide_eq_true_2 (0%nat = 0%nat)) in H0 by done. by apply bool_decide_eq_true in H0.
  - rewrite (bool_decide_eq_false_2 (S i = 0%nat)) in H0 by done. apply bool_decide_eq_false in H0.
    destruct j as [|j]; [done|]. f_equal. apply IH; [lia|lia|].
    specialize (Hs ltac:(done)). rewrite E, Hjs in Hs by done. by symmetry.
Qed.

Lemma refill_used l k n :
  limiter_ok l -> used now burst l k n ->
  refill now l (default zero_bucket (l_buckets l !! k)) = of_int (Z.of_nat (burst - n)).
Proof.
  intros (Hr & Hb & _) [Hn Hk]. unfold refill. rewrite Hr, Hb. destruct (l_buckets l !! k) as [b|].
  - rewrite Hk. simpl. rewrite decide_False by done.
    assert (time_Sub now now = 0) as -> by (unfold time_Sub; lia).
    destruct (exact_at (burst - n)) as (-> & -> & _); [lia|done].
  - rewrite Hk. simpl. by rewrite Nat.sub_0_r.
Qed.

Lemma sweep_fresh m : (forall k b, m !! k = Some b -> b_last b = now) -> sweep now m = m.
Proof.
  intros H. unfold sweep. destruct (_ <? _); [|done]. apply map_filter_id. intros k b Hk. simpl.
  rewrite (H k b Hk). unfold Before. apply Z.ltb_ge. unfold Minute, Second, Millisecond. lia.
Qed.

(** One request: it is let through while tokens are left, and the buckets
    of other keys stay. *)
Lemma allow_used addr ns l n :
  limiter_ok l -> used now burst l (limiter_key addr ns) n ->
  let ok := bool_decide (n < burst)%nat in
  (allow now addr ns l).1 = ok /\ limiter_ok (allow now addr ns l).2 /\
  used now burst (allow now addr ns l).2 (limiter_key addr ns) (if ok then S n else n) /\
  forall k m, k <> limiter_key addr ns -> used now burst l k m -> used now burst (allow now addr ns l).2 k m.
Proof.
  intros Hl Hu ok. unfold allow. rewrite (refill_used l _ n Hl Hu). set (k0 := limiter_key addr ns) in *.
  pose proof Hl as (Hr & Hb & Hall). destruct Hu as [Hn Hk].
  destruct (exact_at (burst - n)) as (_ & _ & Hlt & Hsub); [lia|].
  assert (exists ok' b m', (if SFltb (of_int (Z.of_nat (burst - n))) (of_int 1)
      then (false, set_buckets l (<[k0 := mkBucket (of_int (Z.of_nat (burst - n))) now]> (l_buckets l)))
      else (true, set_buckets l (sweep now (<[k0 := mkBucket (fsub (of_int (Z.of_nat (burst - n))) (of_int 1)) now]> (l_buckets l)))))
      = (ok', set_buckets l (<[k0 := b]> m')) /\ ok' = ok /\ m' = l_buckets l /\
      b = mkBucket (of_int (Z.of_nat (burst - if ok then S n else n))) now) as (ok' & b & m' & -> & -> & -> & Hbk).
  { rewrite Hlt. subst ok. case_bool_decide as E.
    - rewrite bool_decide_eq_false_2 by lia. by eexists false, (mkBucket (of_int (Z.of_nat (burst - n))) now), (l_buckets l).
    - rewrite bool_decide_eq_true_2 by lia. exists true, (mkBucket (of_int (Z.of_nat (burst - S n))) now), (l_buckets l).
      split; [|done]. rewrite Hsub by done. replace (pred (burst - n)) with (burst - S n)%nat by lia.
      rewrite sweep_fresh; [reflexivity|].
      intros k b. destruct (decide (k = k0)) as [->|Hne]; [rewrite lookup_insert_eq; by intros [= <-]|].
      rewrite lookup_insert_ne by done. intros Hkb. destruct (Hall k) as (m & _ & Hm). rewrite Hkb in Hm. by rewrite Hm. }
  cbn [fst snd].
  assert (used now burst (set_buckets l (<[k0 := b]> (l_buckets l))) k0 (if ok then S n else n)) as Hu0.
  { split; [subst ok; case_bool_decide; lia|]. simpl. by rewrite lookup_insert_eq. }
  assert (forall k m, k <> k0 -> used now burst l k m -> used now burst (set_buckets l (<[k0 := b]> (l_buckets l))) k m) as Hne.
  { intros k m Hne [Hm Hkm]. split; [done|]. simpl. by rewrite lookup_insert_ne. }
  split; [done|]. split; [|by split]. split; [done|]. split; [done|].
  intros k. destruct (decide (k = k0)) as [->|Hk0]; [by eexists|]. destruct (Hall k) as [m Hm]. exists m. by apply Hne.
Qed.

Lemma asked_cons k x out : asked k (x :: out) = ((if decide (x.1 = k) then 1 else 0) + asked k out)%nat.
Proof. unfold asked. rewrite filter_cons. by case_decide. Qed.
Lemma admitted_cons k x out :
  admitted k (x :: out) = ((if decide (x.1 = k /\ x.2 = true) then 1 else 0) + admitted k out)%nat.
Proof. unfold admitted. rewrite filter_cons. by case_decide. Qed.

Lemma allow_all_used reqs l k n :
  limiter_ok l -> used now burst l k n ->
  used now burst (allow_all now reqs l).2 k (n + admitted k (allow_all now reqs l).1) /\
  (n + admitted k (allow_all now reqs l).1)%nat = Nat.min (n + asked k (allow_all now reqs l).1) burst.
Proof.
  revert l n. induction reqs as [|[addr ns] reqs IH]; intros l n Hl Hu; simpl.
  - unfold admitted, asked. simpl. rewrite Nat.add_0_r. destruct Hu as [Hn Hk]. split; [by split|lia].
  - pose proof Hl as (_ & _ & Hall). destruct (Hall (limiter_key addr ns)) as [m Hm].
    destruct (allow_used addr ns l m Hl Hm) as (Hok & Hl' & Hsame & Hother).
    destruct (allow now addr ns l) as [ok l'] eqn:Ea. cbn [fst snd] in *.
    destruct (allow_all now reqs l') as [out l''] eqn:Eo. cbn [fst snd] in *.
    rewrite asked_cons, admitted_cons. cbn [fst snd].
    destruct (decide (limiter_key addr ns = k)) as [<-|Hne].
    + assert (m = n) as ->.
      { destruct Hm as [Hm1 Hm2], Hu as [Hn1 Hn2]. destruct (l_buckets l !! limiter_key addr ns) as [b|]; [|congruence].
        rewrite Hm2 in Hn2. injection Hn2 as E. apply of_int_inj in E; lia. }
      specialize (IH l' _ Hl' Hsame). rewrite Eo in IH. cbn [fst snd] in IH.
      destruct IH as [IH1 IH2]. subst ok. destruct (bool_decide (n < burst)%nat) eqn:Eb.
      * rewrite decide_True by done. rewrite Nat.add_assoc, Nat.add_1_r. split; [exact IH1|lia].
      * rewrite decide_False by (by intros [_ ?]). apply bool_decide_eq_false in Eb. split; [exact IH1|lia].
    + rewrite decide_False by (by intros [? _]).
      specialize (IH l' n Hl' (Hother k n (not_eq_sym Hne) Hu)). by rewrite Eo in IH.
Qed.
End burst.

(** Namespaces hold no NUL, so requests share a bucket only if they share
    namespace and host. *)
Lemma append_nul_inj ns ns' h h' :
  z2b 0 ∉ bytes_of_string ns -> z2b 0 ∉ bytes_of_string ns' ->
  ns +:+ nul +:+ h = ns' +:+ nul +:+ h' -> ns = ns' /\ h = h'.
Proof.
  intros H H' E. apply (f_equal bytes_of_string) in E. unfold nul in E.
  rewrite !bytes_of_string_app, !bytes_of_string_of_bytes in E.
  assert (forall l l' k k' : list byte, z2b 0 ∉ l -> z2b 0 ∉ l' -> l ++ [z2b 0] ++ k = l' ++ [z2b 0] ++ k' -> l = l' /\ k = k') as Hs.
  { induction l as [|a l IH]; intros [|b l'] k k' Hl Hl'; simpl.
    - intros E'. by injection E'.
    - intros E'. exfalso. apply Hl'. injection E' as <- _. apply list_elem_of_here.
    - intros E'. exfalso. apply Hl. injection E' as -> _. apply list_elem_of_here.
    - intros E'. injection E' as -> E'. apply IH in E' as [-> ->]; [done| |]; intros F; [apply Hl|apply Hl']; by right. }
  apply Hs in E as [E1 E2]; [|done..]. split; by apply bytes_of_string_inj.
Qed.

Lemma new_limiter_ok now rate burst :
  limiter_ok now burst rate (newIPLimiter rate (Z.of_nat burst)).
Proof. split; [done|]. split; [done|]. intros k. exists O. split; [lia|done]. Qed.

(** The limiters let bursts through and no more: of the requests that reach
    a new limiter at one instant, in any order and from any addresses, those
    of one namespace and host are let through until there have been five, or
    ten at the token endpoint, and refused from then on, whatever the others
    do. *)
Theorem limiters_admit_a_burst now reqs k :
  now <> 0 ->
  admitted k (allow_all now reqs pairLimiter).1 = Nat.min (asked k (allow_all now reqs pairLimiter).1) 5 /\
  admitted k (allow_all now reqs tokenLimiter).1 = Nat.min (asked k (allow_all now reqs tokenLimiter).1) 10.
Proof.
  intros Hnow. assert (forall rate burst, exact rate burst = true ->
    admitted k (allow_all now reqs (newIPLimiter rate (Z.of_nat burst))).1 =
      Nat.min (asked k (allow_all now reqs (newIPLimiter rate (Z.of_nat burst))).1) burst) as H.
  { intros rate burst He.
    exact (proj2 (allow_all_used now burst rate Hnow He reqs _ k O (new_limiter_ok now rate burst) (conj (Nat.le_0_l _) eq_refl))). }
  split; [apply (H _ 5%nat)|apply (H _ 10%nat)]; vm_compute; reflexivity.
Qed.

Lemma limiters_admit_a_burst_witness :
  let reqs := repeat ("10.0.0.1:9", "pair-start")%string 7 in
  let k := limiter_key "10.0.0.1:10" "pair-start" in
  admitted k (allow_all 7 reqs pairLimiter).1 = 5%nat.
Proof.
  intros reqs k. rewrite (proj1 (limiters_admit_a_burst 7 reqs k ltac:(discriminate))). vm_compute. reflexivity.
Defined.
