(* ===== verification/ControlPlane.v ===== *)
(** * Pairing and device management: internal/controlplane/http.go

    The handlers as programs over the calls of Effects.v.  [first_json] is the
    JSON value that a decoder finds at the start of a body of which it reads
    at most 64 KiB; [unicode_ToUpper] is the case mapping outside ASCII;
    [QueryEscape] is that of net/url.  The HTML of the pairing page is not
    modelled, nor the matching of patterns by [http.ServeMux]. *)
From S2P Require Import Prelude Crypto GoStrings Text Json Http Base64 Authn Store RelayHub Effects.
Local Open Scope Z_scope.

Definition maxJSONBody : Z := Z.shiftl 64 10.

(** ** Replies *)

Record PairingStartResponse := mkPairingStartResponse {
  ps_DeviceCode : string;
  ps_UserCode : string;
  ps_VerificationURI : string;
  ps_VerificationURIComplete : string;
  ps_ExpiresIn : Z;
  ps_Interval : Z }.
Record PairingTokenResponse := mkPairingTokenResponse {
  pt_DeviceID : string;
  pt_AccessToken : string;
  pt_TokenType : string }.
Record apiDevice := mkApiDevice {
  ad_ID : string;
  ad_Name : string;
  ad_Online : bool;
  ad_LastSeenAt : option Z;
  ad_CreatedAt : Z;
  ad_Filesystem : bool;
  ad_Processes : bool }.

Inductive body :=
| BError (code message : string)
| BStart (r : PairingStartResponse)
| BApproved
| BToken (r : PairingTokenResponse)
| BDevices (l : list apiDevice).

(** A response: JSON, plain text, only a status, the pairing page with the
    code that is filled in, or a connection that was upgraded or given up. *)
Inductive reply :=
| JSONReply (status : Z) (b : body)
| TextReply (status : Z)
| StatusReply (status : Z)
| PageReply (code : string)
| NoReply.

(** [func writeJSON(w, status, v)] and [writeError(w, status, code, message)] *)
Definition writeJSON (status : Z) (b : body) : prog reply := Ret (JSONReply status b).
Definition writeError (status : Z) (code message : string) : prog reply := writeJSON status (BError code message).

(** ** Codes and secrets *)

Definition alphabet : string := "ABCDEFGHJKLMNPQRSTUVWXYZ23456789".
Definition dash : byte := z2b 45.
Definition space : byte := z2b 32.

(** [func randomSecret(n int) (string, error)], [func randomID() (string, error)] *)
Definition randomSecret (n : nat) : prog (result string) :=
  b ← call (ORandom n); Ret (RawURL_Encode <$> (b : result (list byte))).
Definition randomID : prog (result string) :=
  b ← call (ORandom 16); Ret ((fun b => "dev_" +:+ hex_EncodeToString b) <$> (b : result (list byte))).

(** The letter of the alphabet for a random byte. *)
Definition letter (b : byte) : byte :=
  nth (Z.to_nat (b2z b `mod` 32)) (bytes_of_string alphabet) (z2b 0).
(** [func humanCode() (string, error)] *)
Definition human_code (r : list byte) : string :=
  let b := letter <$> r in
  string_of_bytes (take 4 b) +:+ "-" +:+ string_of_bytes (drop 4 b).
Definition humanCode : prog (result string) := r ← call (ORandom 8); Ret (human_code <$> (r : result (list byte))).

Section ControlPlane.
Context (first_json : list byte -> option json).
Context (unicode_ToUpper : string -> string).
Context (QueryEscape : string -> string).

(** [func normalizeUserCode(s string) string] *)
Definition normalizeUserCode (s : string) : string :=
  RemoveAll (RemoveAll (ToUpper unicode_ToUpper (TrimSpace s)) dash) space.

(** The fields of [HTTP] that the handlers read. *)
Record HTTP := mkHTTP {
  h_baseURL : string;
  h_allowedOrigins : gset string;
  h_pairingSecret : list byte }.

Definition slash_byte : byte := z2b 47.

(** [func New(st, hub, verifier, baseURL, origins, logger, pairingSecret)] *)
Definition New (baseURL : string) (origins : list string) (pairingSecret : list byte) : HTTP :=
  mkHTTP (TrimRight baseURL slash_byte)
    (list_to_set ((fun o => TrimRight o slash_byte) <$> origins)) pairingSecret.

(** [func (h) hashUserCode(code string) string] *)
Definition hashUserCode (h : HTTP) (code : string) : string :=
  hex_EncodeToString (hmac_sha256 (h_pairingSecret h) (bytes_of_string (normalizeUserCode code))).

(** [func decodeJSON(w, r, dst)] into a struct with one string field, unknown
    fields refused. *)
Definition set_field (name key : string) (x : json) (s : string) : string * bool :=
  if EqualFold key name then decode_string x s else (s, false).
Definition decodeJSON (name : string) (r : Request) : option string :=
  x ← first_json (Request_Body r);
  let '(s, ok) := decode_struct (set_field name) x EmptyString in
  if ok then Some s else None.
Definition invalid_json : prog reply := writeError 400 "invalid_json" "invalid request body".

(** [func (h) requireUser(scope string, next userHandler)] *)
Definition requireUser (scope : string) (next : Request -> Identity -> prog reply) (r : Request) : prog reply :=
  match BearerToken r with
  | None => writeError 401 "unauthorized" "missing bearer token"
  | Some token =>
      id ← call (OVerify token);
      match Require_ (fun _ => id) token scope with
      | Err e => writeError (if errors_Is e ErrScope then 403 else 401) "unauthorized" "access denied"
      | Ok id => next r id
      end
  end.

(** ** Pairing *)

(** [func (h) startPairing(w, r)] *)
Definition startPairing (h : HTTP) (r : Request) : prog reply :=
  allowed ← call (OAllow "pair-start");
  if negb allowed then writeError 429 "rate_limited" "too many pairing attempts"
  else
    match decodeJSON "device_name" r with
    | None => invalid_json
    | Some name =>
        let name := TrimSpace name in
        if bool_decide (name = EmptyString) || (160 <? slen name) then
          writeError 400 "invalid_arguments" "device_name is required and must be <= 160 bytes"
        else
          deviceCode ← randomSecret 32;
          match deviceCode with
          | Err _ => writeError 500 "internal_error" "could not create pairing"
          | Ok deviceCode =>
              userCode ← humanCode;
              match userCode with
              | Err _ => writeError 500 "internal_error" "could not create pairing"
              | Ok userCode =>
                  now ← call ONow;
                  let p := mkPairing (HashSecret deviceCode) (hashUserCode h userCode) name
                             (now + 10 * Minute) EmptyString None None in
                  created ← call (OCreatePairing p);
                  match created with
                  | Err _ => writeError 500 "internal_error" "could not create pairing"
                  | Ok _ =>
                      let verify := h_baseURL h +:+ "/pair" in
                      writeJSON 201 (BStart (mkPairingStartResponse deviceCode userCode verify
                        (verify +:+ "?user_code=" +:+ QueryEscape userCode) 600 3))
                  end
              end
          end
    end.

(** [func (h) approvePairing(w, r, id)] *)
Definition approvePairing (h : HTTP) (r : Request) (id : Identity) : prog reply :=
  allowed ← call (OAllow "pair-approve");
  if negb allowed then writeError 429 "rate_limited" "too many pairing attempts"
  else
    match decodeJSON "user_code" r with
    | None => invalid_json
    | Some user_code =>
        let code := normalizeUserCode user_code in
        if negb (slen code =? 8) then writeError 400 "invalid_arguments" "invalid user_code"
        else
          approved ← call (OApprovePairing (hashUserCode h code) (Identity_Subject id));
          match approved with
          | Ok _ => writeJSON 200 BApproved
          | Err e =>
              if errors_Is e ErrPairingExpired then writeError 410 "expired_token" "pairing expired"
              else if errors_Is e ErrPairingUsed then writeError 410 "invalid_grant" "pairing already used"
              else writeError 404 "not_found" "pairing not found"
          end
    end.

(** [func (h) consumePairing(w, r)] *)
Definition consumePairing (r : Request) : prog reply :=
  allowed ← call (OAllow "pair-token");
  if negb allowed then writeError 429 "slow_down" "polling too quickly"
  else
    match decodeJSON "device_code" r with
    | None => invalid_json
    | Some code =>
        if (slen code <? 32) || (256 <? slen code) then
          writeError 400 "invalid_arguments" "invalid device_code"
        else
          deviceID ← randomID;
          match deviceID with
          | Err _ => writeError 500 "internal_error" "could not issue credentials"
          | Ok deviceID =>
              token ← randomSecret 32;
              match token with
              | Err _ => writeError 500 "internal_error" "could not issue credentials"
              | Ok token =>
                  d ← call (OConsumePairing (HashSecret code)
                              (mkDevice deviceID EmptyString EmptyString 0 None None false) token);
                  match d with
                  | Ok d => writeJSON 200 (BToken (mkPairingTokenResponse (Device_ID d) token "Bearer"))
                  | Err e =>
                      if errors_Is e ErrPairingPending then
                        writeError 428 "authorization_pending" "pairing has not been approved yet"
                      else if errors_Is e ErrPairingExpired then writeError 410 "expired_token" "pairing expired"
                      else if errors_Is e ErrPairingUsed then writeError 410 "invalid_grant" "pairing already used"
                      else writeError 400 "invalid_grant" "invalid device_code"
                  end
              end
          end
    end.

(** [func (h) pairPage(w, r)] *)
Definition pairPage (r : Request) : prog reply :=
  Ret (PageReply (default EmptyString (Request_Query r !! "user_code"%string))).

(** [func (h) pairApproveForm(w, r)] *)
Definition pairApproveForm (h : HTTP) (r : Request) : prog reply :=
  allowed ← call (OAllow "pair-form-approve");
  if negb allowed then Ret (TextReply 429)
  else
    match Request_Form r with
    | Err _ => Ret (TextReply 400)
    | Ok form =>
        let token := default EmptyString (form !! "access_token"%string) in
        id ← call (OVerify token);
        match Require_ (fun _ => id) token "orc:tools" with
        | Err _ => Ret (TextReply 401)
        | Ok id =>
            let code := normalizeUserCode (default EmptyString (form !! "user_code"%string)) in
            if negb (slen code =? 8) then Ret (TextReply 400)
            else
              approved ← call (OApprovePairing (hashUserCode h code) (Identity_Subject id));
              match approved with
              | Err _ => Ret (TextReply 400)
              | Ok _ => Ret (TextReply 200)
              end
        end
    end.

(** ** Devices *)

(** The loop of [listDevices]. *)
Fixpoint api_devices (owner : string) (ds : list Device) : prog (list apiDevice) :=
  match ds with
  | [] => Ret []
  | d :: ds' =>
      online ← call (OIsOnline owner (Device_ID d));
      rest ← api_devices owner ds';
      Ret (mkApiDevice (Device_ID d) (Device_Name d) online (Device_LastSeenAt d) (Device_CreatedAt d)
             true true :: rest)
  end.

(** [func (h) listDevices(w, r, id)] *)
Definition listDevices (r : Request) (id : Identity) : prog reply :=
  devices ← call (OListDevices (Identity_Subject id));
  match devices with
  | Err _ => writeError 500 "internal_error" "could not list devices"
  | Ok ds => out ← api_devices (Identity_Subject id) ds; writeJSON 200 (BDevices out)
  end.

(** [func (h) revokeDevice(w, r, id)] *)
Definition revokeDevice (r : Request) (id : Identity) : prog reply :=
  let deviceID := default EmptyString (Request_PathValue r !! "device_id"%string) in
  if decide (deviceID = EmptyString) then writeError 400 "invalid_arguments" "device_id is required"
  else
    revoked ← call (ORevokeDevice (Identity_Subject id) deviceID);
    match revoked with
    | Err _ => writeError 404 "not_found" "device not found"
    | Ok _ => _ ← call (ODisconnect deviceID); Ret (StatusReply 204)
    end.

(** [func (h) agentConnect(w, r)] *)
Definition agentConnect (r : Request) : prog reply :=
  let deviceID := TrimSpace (default EmptyString (Request_Query r !! "device_id"%string)) in
  match BearerToken r with
  | None => writeError 401 "unauthorized" "invalid device credentials"
  | Some token =>
      if decide (deviceID = EmptyString) then writeError 401 "unauthorized" "invalid device credentials"
      else if decide (TrimSpace (Request_Get r "Origin") <> EmptyString) then
        writeError 403 "forbidden" "browser websocket origins are not accepted"
      else
        device ← call (OAuthenticateDevice deviceID token);
        match device with
        | Err _ => writeError 401 "unauthorized" "invalid device credentials"
        | Ok device =>
            conn ← call OUpgrade;
            match conn with
            | Err _ => Ret NoReply
            | Ok _ =>
                _ ← call (OTouchDevice (Device_ID device));
                _ ← call (ORegister device);
                Ret NoReply
            end
        end
  end.

(** ** Origins *)

Definition origin_of (r : Request) : string := TrimRight (TrimSpace (Request_Get r "Origin")) slash_byte.

(** [func (h) cors(next http.Handler)]: the headers it adds are not part of
    a [reply]. *)
Definition cors (h : HTTP) (next : Request -> prog reply) (r : Request) : prog reply :=
  let origin := origin_of r in
  if bool_decide (origin <> EmptyString) && negb (bool_decide (origin ∈ h_allowedOrigins h)) then
    writeError 403 "forbidden" "origin not allowed"
  else next r.

(** [func (h) options(w, r)] *)
Definition options (h : HTTP) (r : Request) : prog reply :=
  let origin := origin_of r in
  if bool_decide (origin <> EmptyString) && negb (bool_decide (origin ∈ h_allowedOrigins h)) then
    writeError 403 "forbidden" "origin not allowed"
  else Ret (StatusReply 204).

(** The handlers behind the API routes. *)
Definition toolScope : string := "orc:tools".
Definition api_start (h : HTTP) : Request -> prog reply := cors h (startPairing h).
Definition api_approve (h : HTTP) : Request -> prog reply := cors h (requireUser toolScope (approvePairing h)).
Definition api_token (h : HTTP) : Request -> prog reply := cors h consumePairing.
Definition api_devices_list (h : HTTP) : Request -> prog reply := cors h (requireUser toolScope listDevices).
Definition api_revoke (h : HTTP) : Request -> prog reply := cors h (requireUser toolScope revokeDevice).

(** [func (h) Register(mux *http.ServeMux)]: patterns and handlers. *)
Definition Register (h : HTTP) : list (string * (Request -> prog reply)) :=
  [("POST /api/v1/pairings", api_start h);
   ("POST /api/v1/pairings/approve", api_approve h);
   ("POST /api/v1/pairings/token", api_token h);
   ("GET /api/v1/devices", api_devices_list h);
   ("DELETE /api/v1/devices/{device_id}", api_revoke h);
   ("OPTIONS /api/v1/{rest...}", options h);
   ("GET /agent/v1/connect", agentConnect);
   ("GET /pair", pairPage);
   ("POST /pair/approve", pairApproveForm h)]%string.
End ControlPlane.
