(* ===== verification/ControlPlaneProps.v ===== *)
(** * What the control plane guarantees

    Which calls each handler may make, in all traces; and, over the in-memory
    store, that the pairing of a device works from the first request to the
    credentials. *)
From S2P Require Import Prelude Crypto GoStrings Text Json Http Base64 Authn AuthnProps Store RelayHub Effects ControlPlane.
Local Open Scope Z_scope.

#[local] Arguments HashSecret : simpl never.
#[local] Arguments hmac_sha256 : simpl never.
#[local] Arguments Sha256.Sum256 : simpl never.
#[local] Arguments RawURL_Encode : simpl never.
#[local] Arguments ControlPlane.hashUserCode : simpl never.
#[local] Arguments ControlPlane.normalizeUserCode : simpl never.
#[local] Arguments EqualFold : simpl never.
#[local] Arguments TrimSpace : simpl never.
#[local] Arguments decodeJSON : simpl never.
#[local] Arguments errors_Is : simpl never.
#[local] Arguments human_code : simpl never.
#[local] Arguments hex_EncodeToString : simpl never.

Section ControlPlane.
Context (first_json : list byte -> option json).
Context (unicode_ToUpper : string -> string).
Context (QueryEscape : string -> string).
Context (h : HTTP).

Notation api_start := (api_start first_json unicode_ToUpper QueryEscape h).
Notation api_approve := (api_approve first_json unicode_ToUpper h).
Notation api_token := (api_token first_json h).
Notation Register := (Register first_json unicode_ToUpper QueryEscape h).
Notation pairApproveForm := (pairApproveForm unicode_ToUpper h).
Notation normalizeUserCode := (normalizeUserCode unicode_ToUpper).
Notation hashUserCode := (hashUserCode unicode_ToUpper h).

(** ** Authority *)

(** A token with the scope of the tools was verified, for [subject]. *)
Definition signed_in (pre : list event) (subject : string) : Prop :=
  exists token id, ev (OVerify token) (Ok id) ∈ pre /\ HasScope id toolScope = true /\ subject = Identity_Subject id.
Definition limited (pre : list event) : Prop := exists ns, ev (OAllow ns) true ∈ pre.

(** When a handler may make a call for the request [r]. *)
Definition justified (r : Request) (pre : list event) (o : op) : Prop :=
  match o with
  | OVerify _ | OAllow _ | ORandom _ | ONow => True
  | OCreatePairing _ | OConsumePairing _ _ _ => limited pre
  | OApprovePairing _ s => limited pre /\ signed_in pre s
  | OListDevices s | OIsOnline s _ | ORevokeDevice s _ => signed_in pre s
  | ODisconnect d => exists s, ev (ORevokeDevice s d) (Ok tt) ∈ pre /\ signed_in pre s
  | OAuthenticateDevice _ token => BearerToken r = Some token /\ TrimSpace (Request_Get r "Origin") = EmptyString
  | OUpgrade => exists id token d, ev (OAuthenticateDevice id token) (Ok d) ∈ pre
  | OTouchDevice id => exists id' token d, ev (OAuthenticateDevice id' token) (Ok d) ∈ pre /\ id = Device_ID d
  | ORegister d => exists id token, ev (OAuthenticateDevice id token) (Ok d) ∈ pre /\ BearerToken r = Some token /\
      TrimSpace (Request_Get r "Origin") = EmptyString
  | _ => False
  end.

Lemma signed_in_app pre tr s : signed_in pre s -> signed_in (pre ++ tr) s.
Proof. intros (t & id & H & ?). exists t, id. split; [apply elem_of_app; by left|done]. Qed.

Lemma guarded_if {A} j pre (b : bool) (p q : prog A) : guarded j pre p -> guarded j pre q -> guarded j pre (if b then p else q).
Proof. by destruct b. Qed.

Ltac prog := cbn [call prog_bind mbind prog_mbind guarded justified negb writeError writeJSON invalid_json].

Lemma guarded_cors r next : guarded (justified r) [] (next r) -> guarded (justified r) [] (cors h next r).
Proof. intros H. unfold cors. by destruct (_ && _). Qed.

Lemma guarded_requireUser r next :
  (forall pre id, signed_in pre (Identity_Subject id) -> guarded (justified r) pre (next r id)) ->
  guarded (justified r) [] (requireUser toolScope next r).
Proof.
  intros Hn. unfold requireUser. destruct (BearerToken r) as [token|]; [|exact I].
  prog. split; [exact I|]. intros [id|e]; [|exact I]. unfold Require_.
  rewrite bool_decide_eq_true_2 by done. destruct (HasScope id toolScope) eqn:Es; [|exact I].
  apply Hn. exists token, id. split; [apply list_elem_of_here|done].
Qed.

Lemma guarded_api_devices r pre owner ds : signed_in pre owner -> guarded (justified r) pre (api_devices owner ds).
Proof.
  revert pre. induction ds as [|d ds IH]; intros pre Hs; [exact I|]. split; [exact Hs|]. intros x.
  refine (guarded_bind (justified r) _ _ _ _ _); [apply IH; by apply signed_in_app|]. intros. exact I.
Qed.

Lemma limited_here pre ns : limited (pre ++ [ev (OAllow ns) true]).
Proof. exists ns. apply elem_of_app. right. apply list_elem_of_here. Qed.
Lemma limited_app pre tr : limited pre -> limited (pre ++ tr).
Proof. intros [ns H]. exists ns. apply elem_of_app. by left. Qed.

Lemma guarded_start r : guarded (justified r) [] (startPairing first_json unicode_ToUpper QueryEscape h r).
Proof.
  unfold startPairing, randomSecret, humanCode. prog. split; [exact I|]. intros [|]; [|exact I]. prog.
  destruct (decodeJSON _ _ _); [|exact I]. destruct (_ || _); [exact I|]. prog.
  split; [exact I|]. intros [b|]; [|exact I]. prog. split; [exact I|]. intros [c|]; [|exact I]. prog.
  split; [exact I|]. intros now. split; [|by intros []].
  apply (limited_app [_] [_; _; _]), (limited_here []).
Qed.

Lemma guarded_approve r pre id :
  signed_in pre (Identity_Subject id) -> guarded (justified r) pre (approvePairing first_json unicode_ToUpper h r id).
Proof.
  intros Hs. unfold approvePairing. prog. split; [exact I|]. intros [|]; [|exact I]. prog.
  destruct (decodeJSON _ _ _); [|exact I]. destruct (negb _); [exact I|]. prog.
  split; [split; [apply limited_here|by apply signed_in_app]|].
  intros [|]; prog; [exact I|]. by do 2 (destruct (errors_Is _ _); [exact I|]).
Qed.

Lemma guarded_token r : guarded (justified r) [] (consumePairing first_json r).
Proof.
  unfold consumePairing, randomID, randomSecret. prog. split; [exact I|]. intros [|]; [|exact I]. prog.
  destruct (decodeJSON _ _ _); [|exact I]. destruct (_ || _); [exact I|]. prog.
  split; [exact I|]. intros [b|]; [|exact I]. prog. split; [exact I|]. intros [c|]; [|exact I]. prog.
  split; [apply (limited_app [_] [_; _]), (limited_here [])|].
  intros [|]; prog; [exact I|]. by do 3 (destruct (errors_Is _ _); [exact I|]).
Qed.

Lemma guarded_form r : guarded (justified r) [] (pairApproveForm r).
Proof.
  unfold ControlPlane.pairApproveForm. prog. split; [exact I|]. intros [|]; [|exact I]. prog.
  destruct (Request_Form r) as [form|]; [|exact I]. prog. split; [exact I|]. intros [id|]; [|exact I]. unfold Require_.
  rewrite bool_decide_eq_true_2 by done. destruct (HasScope id "orc:tools") eqn:Es; [|exact I]. prog.
  destruct (negb _); [exact I|]. prog. split; [|by intros []].
  split; [apply (limited_app [_] [_]), (limited_here [])|].
  eexists _, id. split; [|done]. apply list_elem_of_further, list_elem_of_here.
Qed.

Lemma guarded_connect r : guarded (justified r) [] (agentConnect r).
Proof.
  unfold agentConnect. destruct (BearerToken r) as [token|] eqn:Eb; [|exact I].
  case_decide; [exact I|]. case_decide as Ho; [exact I|]. prog.
  split; [by split|]. intros [d|]; [|exact I]. prog. split; [eexists _, _, d; apply list_elem_of_here|].
  intros [|]; [|exact I]. prog. split; [eexists _, _, d; split; [apply list_elem_of_here|done]|].
  intros ?. split; [|done]. eexists _, token. split; [apply list_elem_of_here|done].
Qed.

Lemma guarded_Register pattern handler r :
  (pattern, handler) ∈ Register -> guarded (justified r) [] (handler r).
Proof.
  unfold ControlPlane.Register. intros Hin.
  repeat (apply elem_of_cons in Hin as [[= _ ->]|Hin]); [..|by apply elem_of_nil in Hin].
  - apply guarded_cors, guarded_start.
  - apply guarded_cors, guarded_requireUser. intros. by apply guarded_approve.
  - apply guarded_cors, guarded_token.
  - apply guarded_cors, guarded_requireUser. intros pre' id Hs. unfold listDevices. prog. split; [exact Hs|].
    intros [ds|]; [|exact I]. apply guarded_bind; [apply guarded_api_devices; by apply signed_in_app|]. intros. exact I.
  - apply guarded_cors, guarded_requireUser. intros pre' id Hs. unfold revokeDevice. case_decide; [exact I|]. prog.
    split; [exact Hs|]. intros [[]|]; [|exact I]. prog. split; [|done].
    exists (Identity_Subject id). split; [apply elem_of_app; right; apply list_elem_of_here|by apply signed_in_app].
  - unfold options. by destruct (_ && _).
  - apply guarded_connect.
  - exact I.
  - apply guarded_form.
Qed.

(** The control plane acts only with authority: in every trace of every
    handler it registers, pairings are created, approved and consumed only after the rate
    limiter has let the request pass; approving a pairing, listing and
    revoking devices happen only for the subject of a verified token with the
    scope orc:tools; a connection is cut only after its device was revoked;
    and one is registered only for the device that the store authenticated
    with the request's own bearer token, for a request without an Origin. *)
Theorem control_plane_is_guarded pattern handler r tr rep pre o x post :
  (pattern, handler) ∈ Register -> follows (handler r) tr rep -> tr = pre ++ ev o x :: post -> justified r pre o.
Proof. intros Hin Hf E. exact (guarded_trace _ [] _ _ _ (guarded_Register _ _ _ Hin) Hf pre o x post E). Qed.

(** ** Codes *)

Lemma letter_spec b :
  graphic (letter b) = true /\ upper_byte (letter b) = letter b /\ b2z (letter b) <? 128 = true /\
  letter b <> dash /\ letter b <> space.
Proof.
  assert (forall b, graphic (letter b) && (bool_decide (upper_byte (letter b) = letter b) &&
    ((b2z (letter b) <? 128) && (negb (bool_decide (letter b = dash)) && negb (bool_decide (letter b = space))))) = true) as H.
  { apply (forall_byte (fun b => graphic (letter b) && (bool_decide (upper_byte (letter b) = letter b) &&
      ((b2z (letter b) <? 128) && (negb (bool_decide (letter b = dash)) && negb (bool_decide (letter b = space))))))).
    vm_compute. reflexivity. }
  specialize (H b). apply andb_true_iff in H as [H1 H]. apply andb_true_iff in H as [H2 H].
  apply andb_true_iff in H as [H3 H]. apply andb_true_iff in H as [H4 H5].
  apply bool_decide_eq_true in H2. apply negb_true_iff, bool_decide_eq_false in H4, H5. auto.
Qed.

(** Upper-case letters and digits, with dashes among them, lose the dashes. *)
Definition code_byte (b : byte) : Prop := b = dash \/ exists r, b = letter r.

Lemma code_byte_spec b : code_byte b -> graphic b = true /\ upper_byte b = b /\ b2z b <? 128 = true /\ b <> space.
Proof. intros [->|[r ->]]; [by vm_compute|]. destruct (letter_spec r) as (? & ? & ? & ? & ?). auto. Qed.

Lemma normalize_code l :
  Forall code_byte l -> normalizeUserCode (string_of_bytes l) = string_of_bytes (filter (fun b => b <> dash) l).
Proof.
  intros Hl. unfold ControlPlane.normalizeUserCode. rewrite TrimSpace_graphic.
  2:{ rewrite bytes_of_string_of_bytes. eapply Forall_impl; [exact Hl|]. intros b ?%code_byte_spec. tauto. }
  unfold ToUpper. rewrite bytes_of_string_of_bytes.
  assert (is_ascii l = true) as ->.
  { unfold is_ascii. apply forallb_forall. intros b Hb%list_elem_of_In. rewrite Forall_forall in Hl.
    by apply Hl, code_byte_spec in Hb as (_ & _ & ? & _). }
  assert (upper_byte <$> l = l) as ->.
  { rewrite <- (list_fmap_id l) at 2. apply list_fmap_ext. intros i b Hb.
    rewrite Forall_forall in Hl. apply list_elem_of_lookup_2, Hl, code_byte_spec in Hb. simpl. tauto. }
  unfold RemoveAll. rewrite !bytes_of_string_of_bytes. f_equal. apply filter_Forall_id.
  apply Forall_forall. intros b [_ Hb]%list_elem_of_filter. rewrite Forall_forall in Hl.
  by apply Hl, code_byte_spec in Hb as (_ & _ & _ & ?).
Qed.

Lemma letters_no_dash (r : list byte) : Forall (fun b => b <> dash) (letter <$> r).
Proof. apply Forall_fmap, Forall_true. intros b. apply letter_spec. Qed.

Lemma letters_code (r : list byte) : Forall code_byte (letter <$> r).
Proof. apply Forall_fmap, Forall_true. intros b. right. by exists b. Qed.

(** The code shown to the user, and any spelling of it that normalizes to the
    same letters. *)
Lemma normalize_human r : normalizeUserCode (human_code r) = string_of_bytes (letter <$> r).
Proof.
  unfold human_code.
  assert (string_of_bytes (take 4 (letter <$> r)) +:+ "-" +:+ string_of_bytes (drop 4 (letter <$> r)) =
    string_of_bytes (take 4 (letter <$> r) ++ dash :: drop 4 (letter <$> r))) as ->.
  { apply bytes_of_string_inj. rewrite bytes_of_string_app, !bytes_of_string_of_bytes. f_equal.
    change ("-" +:+ string_of_bytes (drop 4 (letter <$> r)))%string with
      (String (Ascii.ascii_of_byte dash) (string_of_bytes (drop 4 (letter <$> r)))).
    change (bytes_of_string (String (Ascii.ascii_of_byte dash) (string_of_bytes (drop 4 (letter <$> r))))) with
      (dash :: bytes_of_string (string_of_bytes (drop 4 (letter <$> r)))).
    by rewrite bytes_of_string_of_bytes. }
  rewrite normalize_code.
  - rewrite filter_app, filter_cons_False by (intros E; by apply E).
    rewrite <- filter_app, take_drop. by rewrite filter_Forall_id by apply letters_no_dash.
  - pose proof (letters_code r) as Hc. rewrite <- (take_drop 4 (letter <$> r)) in Hc.
    apply Forall_app in Hc as [H1 H2]. apply Forall_app. split; [done|]. constructor; [by left|done].
Qed.

Lemma normalize_letters r : normalizeUserCode (string_of_bytes (letter <$> r)) = string_of_bytes (letter <$> r).
Proof. rewrite normalize_code by apply letters_code. by rewrite filter_Forall_id by apply letters_no_dash. Qed.

Lemma slen_of_bytes l : slen (string_of_bytes l) = len l.
Proof. by rewrite <- length_bytes_of_string, bytes_of_string_of_bytes. Qed.

Lemma length_encode l : length (Base64.encode RawURLEncoding l) = ((4 * length l + 2) / 3)%nat.
Proof.
  induction l as [|a|a b|a b c l IH] using list_ind3; [done..|].
  cbn [Base64.encode length]. rewrite IH.
  replace (4 * S (S (S (length l))) + 2)%nat with (4 * 3 + (4 * length l + 2))%nat by lia.
  rewrite Nat.div_add_l by lia. lia.
Qed.

Lemma slen_RawURL_Encode l : slen (RawURL_Encode l) = Z.of_nat ((4 * length l + 2) / 3).
Proof. unfold RawURL_Encode, Encoding_EncodeToString. by rewrite slen_of_bytes, length_encode. Qed.

(** ** Pairing a device over the in-memory store *)

(** The store, the time, the random bytes to come, and the verifier. *)
Record Site := mkSite {
  st_mem : Memory;
  st_now : Z;
  st_random : list (list byte);
  st_verify : string -> result Identity }.
Definition with_mem (w : Site) (m : Memory) : Site := mkSite m (st_now w) (st_random w) (st_verify w).

Definition site_handle (o : op) (w : Site) : answer o * Site :=
  match o return answer o * Site with
  | OVerify t => (st_verify w t, w)
  | OListDevices s => (Ok (ListDevices (map_to_list (m_devices (st_mem w))) s), w)
  | OGetDevice s id => (GetDevice s id (st_mem w), w)
  | OAuthenticateDevice id t => (AuthenticateDevice id t (st_mem w), w)
  | OTouchDevice id => let '(r, m) := TouchDevice (st_now w) id (st_mem w) in (r, with_mem w m)
  | ORevokeDevice s id => let '(r, m) := RevokeDevice (st_now w) s id (st_mem w) in (r, with_mem w m)
  | OCreatePairing p => let '(r, m) := CreatePairing p (st_mem w) in (r, with_mem w m)
  | OApprovePairing c s => let '(r, m) := ApprovePairing (st_now w) c s (st_mem w) in (r, with_mem w m)
  | OConsumePairing c d t => let '(r, m) := ConsumePairing (st_now w) c d t (st_mem w) in (r, with_mem w m)
  | ORecord e => (tt, with_mem w (WriteAudit e (st_mem w)).2)
  | OIsOnline _ _ => (false, w)
  | OAllow _ => (true, w)
  | OCall _ _ _ _ => (Err ErrOffline, w)
  | ODisconnect _ | ORegister _ => (tt, w)
  | OUpgrade => (Ok tt, w)
  | ORandom n =>
      match st_random w with
      | b :: l => (Ok b, mkSite (st_mem w) (st_now w) l (st_verify w))
      | [] => (Err (Foreign "rand"), w)
      end
  | ONow => (st_now w, w)
  end.

Notation serve := (run_prog site_handle).
Ltac step := cbn [call prog_bind mbind prog_mbind run_prog site_handle negb writeError writeJSON invalid_json
  st_mem st_now st_random st_verify with_mem fmap result_fmap].

Definition same_origin (r : Request) : Prop := origin_of r = EmptyString.

Lemma cors_same_origin next r : same_origin r -> cors h next r = next r.
Proof. unfold same_origin, cors. by intros ->. Qed.

(** Starting a pairing stores its hashes and returns its codes. *)
Lemma start_run m now verify rd rc r name :
  same_origin r -> decodeJSON first_json "device_name" r = Some name ->
  TrimSpace name <> EmptyString -> slen (TrimSpace name) <= 160 ->
  m_pairings m !! HashSecret (RawURL_Encode rd) = None -> m_userCode m !! hashUserCode (human_code rc) = None ->
  exists tr resp,
    serve (api_start r) (mkSite m now [rd; rc] verify) =
      (tr, JSONReply 201 (BStart resp),
       let p := mkPairing (HashSecret (RawURL_Encode rd)) (hashUserCode (human_code rc)) (TrimSpace name)
                  (now + 10 * Minute) EmptyString None None in
       mkSite (mkMemory (m_devices m) (<[HashSecret (RawURL_Encode rd) := p]> (m_pairings m))
         (<[hashUserCode (human_code rc) := HashSecret (RawURL_Encode rd)]> (m_userCode m)) (m_audit m)) now [] verify) /\
    ps_DeviceCode resp = RawURL_Encode rd /\ ps_UserCode resp = human_code rc.
Proof.
  intros Ho Hd Hn Hl Hp Hu. unfold ControlPlane.api_start. rewrite cors_same_origin by done.
  unfold startPairing, randomSecret, humanCode. step. rewrite Hd.
  rewrite bool_decide_eq_false_2 by done. rewrite (proj2 (Z.ltb_ge 160 _)) by done. cbn [orb]. step.
  unfold CreatePairing. cbn [Pairing_DeviceCodeHash Pairing_UserCodeHash]. rewrite Hp, Hu. step.
  eexists _, _. split; [reflexivity|]. done.
Qed.

(** Approving with any spelling of the code. *)
Lemma approve_run m now verify rc r token id typed code p :
  same_origin r -> BearerToken r = Some token -> verify token = Ok id -> HasScope id toolScope = true ->
  decodeJSON first_json "user_code" r = Some typed -> length rc = 8%nat ->
  normalizeUserCode typed = normalizeUserCode (human_code rc) ->
  m_userCode m !! hashUserCode (human_code rc) = Some code -> m_pairings m !! code = Some p ->
  now <= Pairing_ExpiresAt p -> Pairing_ConsumedAt p = None ->
  exists tr,
    serve (api_approve r) (mkSite m now [] verify) =
      (tr, JSONReply 200 BApproved,
       mkSite (m_set_pairings m (<[code := Pairing_approve now (Identity_Subject id) p]> (m_pairings m))) now [] verify).
Proof.
  intros Ho Hb Hv Hs Hd Hlen Ht Hc Hp Hx Hcon. unfold ControlPlane.api_approve.
  rewrite cors_same_origin by done. unfold requireUser. rewrite Hb. step. rewrite Hv. unfold Require_.
  rewrite Hs, andb_false_r. unfold approvePairing. step. rewrite Hd.
  assert (hashUserCode (normalizeUserCode typed) = hashUserCode (human_code rc)) as ->.
  { unfold ControlPlane.hashUserCode. by rewrite Ht, !normalize_human, normalize_letters. }
  rewrite Ht, normalize_human, slen_of_bytes, length_fmap, Hlen. step.
  change (negb (Z.of_nat 8 =? 8)) with false. step. unfold ApprovePairing. rewrite Hc, Hp. cbn [default].
  unfold After. simpl. rewrite (proj2 (Z.ltb_ge _ _)) by done. rewrite bool_decide_eq_false_2 by (intros E; exact (E Hcon)).
  step. by eexists.
Qed.

(** Polling for an approved pairing. *)
Lemma consume_run m now verify rd ri rt r p :
  same_origin r -> decodeJSON first_json "device_code" r = Some (RawURL_Encode rd) -> length rd = 32%nat ->
  m_pairings m !! HashSecret (RawURL_Encode rd) = Some p -> now <= Pairing_ExpiresAt p ->
  Pairing_ConsumedAt p = None -> Pairing_ApprovedAt p <> None -> Pairing_OwnerSubject p <> EmptyString ->
  m_devices m !! ("dev_" +:+ hex_EncodeToString ri) = None ->
  exists tr tok d m',
    serve (api_token r) (mkSite m now [ri; rt] verify) =
      (tr, JSONReply 200 (BToken tok), mkSite m' now [] verify) /\
    AuthenticateDevice (pt_DeviceID tok) (pt_AccessToken tok) m' = Ok d /\
    Device_OwnerSubject d = Pairing_OwnerSubject p /\ Device_Name d = Pairing_DeviceName p /\
    m_pairings m' !! HashSecret (RawURL_Encode rd) = Some (Pairing_consume now p).
Proof.
  intros Ho Hd Hlen Hp Hx Hc Ha Hw Hn. unfold ControlPlane.api_token. rewrite cors_same_origin by done.
  unfold consumePairing, randomID, randomSecret. step. rewrite Hd, slen_RawURL_Encode, Hlen.
  change ((Z.of_nat ((4 * 32 + 2) / 3) <? 32) || (256 <? Z.of_nat ((4 * 32 + 2) / 3))) with false. step.
  unfold ConsumePairing. rewrite Hp. unfold After. rewrite (proj2 (Z.ltb_ge _ _)) by done.
  rewrite bool_decide_eq_false_2 by (intros E; exact (E Hc)). rewrite !bool_decide_eq_false_2 by done. cbn [orb].
  cbn [Device_ID]. rewrite Hn. step.
  set (d := default_CreatedAt now _). assert (Device_ID d = "dev_" +:+ hex_EncodeToString ri) as Hid.
  { subst d. unfold default_CreatedAt. by case_match. }
  assert (Device_OwnerSubject d = Pairing_OwnerSubject p /\ Device_Name d = Pairing_DeviceName p /\ Device_RevokedAt d = None) as (E1 & E2 & E3).
  { subst d. unfold default_CreatedAt. by case_match. }
  eexists _, _, d, _. split; [reflexivity|]. split; [|split; [done|split; [done|apply lookup_insert_eq]]].
  unfold AuthenticateDevice. cbn [m_devices pt_DeviceID pt_AccessToken]. rewrite lookup_insert_eq. cbn [md_device md_tokenHash].
  rewrite bool_decide_eq_false_2 by (intros E; exact (E E3)). by rewrite (proj2 (ConstantTimeCompare_1 _ _) eq_refl).
Qed.

(** Polling again: the pairing has been used. *)
Lemma consume_again m now verify rd ri rt r p :
  same_origin r -> decodeJSON first_json "device_code" r = Some (RawURL_Encode rd) -> length rd = 32%nat ->
  m_pairings m !! HashSecret (RawURL_Encode rd) = Some p -> Pairing_ConsumedAt p <> None ->
  exists tr code msg w, serve (api_token r) (mkSite m now [ri; rt] verify) = (tr, JSONReply 410 (BError code msg), w) /\
    st_mem w = m.
Proof.
  intros Ho Hd Hlen Hp Hc. unfold ControlPlane.api_token. rewrite cors_same_origin by done.
  unfold consumePairing, randomID, randomSecret. step. rewrite Hd, slen_RawURL_Encode, Hlen.
  change ((Z.of_nat ((4 * 32 + 2) / 3) <? 32) || (256 <? Z.of_nat ((4 * 32 + 2) / 3))) with false. step.
  unfold ConsumePairing. rewrite Hp. destruct (After now (Pairing_ExpiresAt p)).
  - step. eexists _, _, _, _. split; reflexivity.
  - rewrite bool_decide_eq_true_2 by done. step. eexists _, _, _, _. split; reflexivity.
Qed.

(** Pairing works: a device that starts a pairing at [t1] gets a code; when
    a signed-in user with the scope orc:tools types that code, in any
    spelling that normalizes to it, within ten minutes, it is approved; when
    the device then polls, within the ten minutes, it gets credentials with
    which the store authenticates it as a device of that user under the name
    it gave; and polling with the same code a second time, at any time, is
    refused and changes nothing. *)
Theorem pairing_issues_credentials m verify t1 t2 t3 t4 rd rc ri rt ri' rt' r1 r2 r3 name typed token id :
  length rd = 32%nat -> length rc = 8%nat ->
  same_origin r1 -> same_origin r2 -> same_origin r3 ->
  decodeJSON first_json "device_name" r1 = Some name -> TrimSpace name <> EmptyString -> slen (TrimSpace name) <= 160 ->
  BearerToken r2 = Some token -> verify token = Ok id -> HasScope id toolScope = true -> Identity_Subject id <> EmptyString ->
  decodeJSON first_json "user_code" r2 = Some typed -> normalizeUserCode typed = normalizeUserCode (human_code rc) ->
  decodeJSON first_json "device_code" r3 = Some (RawURL_Encode rd) ->
  m_pairings m !! HashSecret (RawURL_Encode rd) = None -> m_userCode m !! hashUserCode (human_code rc) = None ->
  m_devices m !! ("dev_" +:+ hex_EncodeToString ri) = None ->
  t2 <= t1 + 10 * Minute -> t3 <= t1 + 10 * Minute ->
  exists tr1 tr2 tr3 tr4 w1 w2 w3 w4 resp tok d code msg,
    serve (api_start r1) (mkSite m t1 [rd; rc] verify) = (tr1, JSONReply 201 (BStart resp), w1) /\
    ps_DeviceCode resp = RawURL_Encode rd /\ ps_UserCode resp = human_code rc /\
    serve (api_approve r2) (mkSite (st_mem w1) t2 [] verify) = (tr2, JSONReply 200 BApproved, w2) /\
    serve (api_token r3) (mkSite (st_mem w2) t3 [ri; rt] verify) = (tr3, JSONReply 200 (BToken tok), w3) /\
    AuthenticateDevice (pt_DeviceID tok) (pt_AccessToken tok) (st_mem w3) = Ok d /\
    Device_OwnerSubject d = Identity_Subject id /\ Device_Name d = TrimSpace name /\
    serve (api_token r3) (mkSite (st_mem w3) t4 [ri'; rt'] verify) = (tr4, JSONReply 410 (BError code msg), w4) /\
    st_mem w4 = st_mem w3.
Proof.
  intros Hrd Hrc Ho1 Ho2 Ho3 Hn1 Hn2 Hn3 Hb Hv Hs Hid Hc1 Hc2 Hd Hp Hu Hdev Ht2 Ht3.
  destruct (start_run m t1 verify rd rc r1 name Ho1 Hn1 Hn2 Hn3 Hp Hu) as (tr1 & resp & Hrun1 & Hr1 & Hr2).
  cbv zeta in Hrun1. set (p := mkPairing _ _ _ _ _ _ _) in Hrun1. set (m1 := mkMemory _ _ _ _) in Hrun1.
  destruct (approve_run m1 t2 verify rc r2 token id typed (HashSecret (RawURL_Encode rd)) p) as (tr2 & Hrun2);
    [done..|apply lookup_insert_eq|apply lookup_insert_eq|done|done|].
  set (m2 := m_set_pairings _ _) in Hrun2.
  destruct (consume_run m2 t3 verify rd ri rt r3 (Pairing_approve t2 (Identity_Subject id) p))
    as (tr3 & tok & d & m3 & Hrun3 & Hau & Hown & Hnm & Hcon); [done..|apply lookup_insert_eq|done|done|done|done|done|].
  destruct (consume_again m3 t4 verify rd ri' rt' r3 _ Ho3 Hd Hrd Hcon) as (tr4 & code & msg & w4 & Hrun4 & Hw4); [done|].
  exists tr1, tr2, tr3, tr4, (mkSite m1 t1 [] verify), (mkSite m2 t2 [] verify), (mkSite m3 t3 [] verify), w4,
    resp, tok, d, code, msg. split_and!; done.
Qed.
End ControlPlane.
