(* ===== verification/Mcp.v ===== *)
(** * The MCP endpoint: internal/mcpserver/server.go

    [serveHTTP] and the functions it calls, as a program over the calls of
    Effects.v, and the table of tools.  encoding/json is given as parsing
    ([parse]) and printing ([Marshal]) of texts; decoding into structs is that
    of Json.v.  Other arguments: the case mapping outside ASCII, the numeral
    of a [float64], the text of an error, and the JSON form of a time. *)
From S2P Require Import Prelude Crypto GoStrings Text Json Http Authn Protocol Store RelayHub Effects.
Local Open Scope Z_scope.

Definition modernVersion : string := "2026-07-28".
Definition legacyVersion : string := "2025-11-25".
Definition serverVersion : string := "0.1.0".
Definition toolScope : string := "orc:tools".
Definition maxBody : Z := Z.shiftl 4 20.

(** ** Requests and replies *)

Record rpcRequest := mkRpcRequest {
  req_JSONRPC : string;
  req_ID : option json;
  req_Method : string;
  req_Params : option json }.

Definition zero_rpcRequest : rpcRequest := mkRpcRequest EmptyString None EmptyString None.

Definition set_rpcRequest (key : string) (x : json) (r : rpcRequest) : rpcRequest * bool :=
  let '(mkRpcRequest version id method params) := r in
  if EqualFold key "jsonrpc" then
    let '(s, ok) := decode_string x version in (mkRpcRequest s id method params, ok)
  else if EqualFold key "id" then (mkRpcRequest version (Some x) method params, true)
  else if EqualFold key "method" then
    let '(s, ok) := decode_string x method in (mkRpcRequest version id s params, ok)
  else if EqualFold key "params" then (mkRpcRequest version id method (Some x), true)
  else (r, true).

Record rpcError := mkRpcError { re_Code : Z; re_Message : string }.

(** [Plain] is a response without a JSON-RPC body: its status, the headers
    that are set. *)
Inductive reply :=
| Plain (status : Z) (headers : list (string * string))
| Rpc (status : Z) (id : option json) (result : option json) (error : option rpcError).

(** [func rpcWrite(w, status, id, result, e)] *)
Definition rpcWrite (status : Z) (id : option json) (result : option json) (e : option rpcError) : reply :=
  Rpc status id result e.

(** ** The table of tools *)

Inductive toolSafety := safetyUnspecified | safetyReadOnly | safetyMutating | safetyDestructive.

#[global] Instance toolSafety_eq_dec : EqDecision toolSafety.
Proof. solve_decision. Defined.

Record toolSpec := mkToolSpec {
  ts_name : string;
  ts_description : string;
  ts_inputSchema : json;
  ts_safety : toolSafety;
  ts_remote : bool }.

(** [func schemaString(desc string)] and its siblings *)
Definition schemaString (desc : string) : json :=
  JObject [("type", JString "string"); ("description", JString desc)]%string.
Definition schemaInteger (desc : string) : json :=
  JObject [("type", JString "integer"); ("description", JString desc)]%string.
Definition schemaBoolean (desc : string) : json :=
  JObject [("type", JString "boolean"); ("description", JString desc)]%string.
Definition schemaObject (props : list (string * json)) (required : list string) : json :=
  JObject [("type", JString "object"); ("properties", JObject props);
           ("required", JArray (JString <$> required)); ("additionalProperties", JBool false)]%string.

Definition dev : json := schemaString "paired device identifier".

(** [func buildToolSpecs() []toolSpec] *)
Definition buildToolSpecs : list toolSpec :=
  [
   mkToolSpec "list_devices" "List paired computers and online status."
     (schemaObject []
        [])
     safetyReadOnly false;
   mkToolSpec "ping" "Check that a paired computer is reachable."
     (schemaObject [("device_id", dev)]
        ["device_id"])
     safetyReadOnly true;
   mkToolSpec "read_file" "Read a bounded chunk of a file."
     (schemaObject [("device_id", dev);
         ("path", schemaString "path on the paired device");
         ("offset", schemaInteger "byte offset");
         ("max_bytes", schemaInteger "maximum bytes")]
        ["device_id"; "path"])
     safetyReadOnly true;
   mkToolSpec "write_file" "Atomically write a bounded file."
     (schemaObject [("device_id", dev);
         ("path", schemaString "destination path");
         ("content", schemaString "file content");
         ("encoding", schemaString "utf-8 or base64");
         ("mode", schemaInteger "optional POSIX mode")]
        ["device_id"; "path"; "content"])
     safetyDestructive true;
   mkToolSpec "list_directory" "List a bounded number of directory entries."
     (schemaObject [("device_id", dev);
         ("path", schemaString "directory path")]
        ["device_id"; "path"])
     safetyReadOnly true;
   mkToolSpec "create_directory" "Create a directory inside allowed roots."
     (schemaObject [("device_id", dev);
         ("path", schemaString "directory path");
         ("mode", schemaInteger "optional POSIX mode")]
        ["device_id"; "path"])
     safetyMutating true;
   mkToolSpec "move_file" "Move or rename a file. Existing destinations are preserved unless overwrite=true."
     (schemaObject [("device_id", dev);
         ("source", schemaString "source path");
         ("destination", schemaString "destination path");
         ("overwrite", schemaBoolean "replace an existing non-symlink destination")]
        ["device_id"; "source"; "destination"])
     safetyDestructive true;
   mkToolSpec "get_file_info" "Get file or directory metadata."
     (schemaObject [("device_id", dev);
         ("path", schemaString "path")]
        ["device_id"; "path"])
     safetyReadOnly true;
   mkToolSpec "start_process" "Start a bounded process session; argv is preferred and shell is disabled by default."
     (schemaObject [("device_id", dev);
         ("argv", JObject [("type", JString "array"); ("items", schemaString "argument")]);
         ("command", schemaString "shell command, only if enabled on the agent");
         ("cwd", schemaString "working directory");
         ("env", JObject [("type", JString "object"); ("additionalProperties", JObject [("type", JString "string")])])]
        ["device_id"])
     safetyDestructive true;
   mkToolSpec "read_process_output" "Read process output from an absolute cursor."
     (schemaObject [("device_id", dev);
         ("process_id", schemaString "process session ID");
         ("cursor", schemaInteger "absolute output cursor");
         ("max_bytes", schemaInteger "maximum bytes")]
        ["device_id"; "process_id"])
     safetyReadOnly true;
   mkToolSpec "interact_with_process" "Write data to process stdin."
     (schemaObject [("device_id", dev);
         ("process_id", schemaString "process session ID");
         ("data", schemaString "stdin data");
         ("encoding", schemaString "utf-8 or base64")]
        ["device_id"; "process_id"; "data"])
     safetyDestructive true;
   mkToolSpec "force_terminate" "Terminate a process session."
     (schemaObject [("device_id", dev);
         ("process_id", schemaString "process session ID")]
        ["device_id"; "process_id"])
     safetyDestructive true;
   mkToolSpec "read_multiple_files" "Read up to 32 files with per-file and combined size limits."
     (schemaObject [("device_id", dev);
         ("paths", JObject [("type", JString "array"); ("items", schemaString "path"); ("minItems", JNumber "1"); ("maxItems", JNumber "32")]);
         ("max_bytes_per_file", schemaInteger "maximum bytes per file")]
        ["device_id"; "paths"])
     safetyReadOnly true;
   mkToolSpec "edit_block" "Safely replace an exact UTF-8 text block with replacement-count validation."
     (schemaObject [("device_id", dev);
         ("file_path", schemaString "file path");
         ("old_string", schemaString "exact text to replace");
         ("new_string", schemaString "replacement text");
         ("expected_replacements", schemaInteger "expected number of matches; defaults to 1")]
        ["device_id"; "file_path"; "old_string"; "new_string"])
     safetyDestructive true;
   mkToolSpec "list_sessions" "List process sessions started by this agent."
     (schemaObject [("device_id", dev)]
        ["device_id"])
     safetyReadOnly true;
   mkToolSpec "start_search" "Start a bounded file-name or content search session."
     (schemaObject [("device_id", dev);
         ("path", schemaString "root directory");
         ("pattern", schemaString "literal or regular expression");
         ("search_type", schemaString "files or content");
         ("regex", schemaBoolean "treat pattern as regular expression");
         ("case_sensitive", schemaBoolean "case-sensitive matching");
         ("include_hidden", schemaBoolean "include hidden files");
         ("max_results", schemaInteger "maximum results");
         ("max_file_bytes", schemaInteger "maximum bytes scanned per file")]
        ["device_id"; "path"; "pattern"])
     safetyReadOnly true;
   mkToolSpec "get_more_search_results" "Read the next page from a search session."
     (schemaObject [("device_id", dev);
         ("session_id", schemaString "search session ID");
         ("max_results", schemaInteger "maximum results in this page")]
        ["device_id"; "session_id"])
     safetyReadOnly true;
   mkToolSpec "stop_search" "Stop a running search session."
     (schemaObject [("device_id", dev);
         ("session_id", schemaString "search session ID")]
        ["device_id"; "session_id"])
     safetyReadOnly true;
   mkToolSpec "list_searches" "List active search sessions."
     (schemaObject [("device_id", dev)]
        ["device_id"])
     safetyReadOnly true;
   mkToolSpec "list_processes" "List operating-system processes on the paired device."
     (schemaObject [("device_id", dev);
         ("max_results", schemaInteger "maximum processes")]
        ["device_id"])
     safetyReadOnly true;
   mkToolSpec "kill_process" "Terminate an arbitrary OS process when explicitly enabled by agent policy."
     (schemaObject [("device_id", dev);
         ("pid", schemaInteger "operating-system process ID")]
        ["device_id"; "pid"])
     safetyDestructive true;
   mkToolSpec "get_config" "Return non-secret agent policy and system information."
     (schemaObject [("device_id", dev)]
        ["device_id"])
     safetyReadOnly true]%string.

Definition toolSpecs : list toolSpec := buildToolSpecs.

(** [func buildRemoteToolSet(specs []toolSpec)]; [None] is a panic. *)
Fixpoint build_remote (specs : list toolSpec) (seen out : gset string) : option (gset string) :=
  match specs with
  | [] => Some out
  | spec :: specs' =>
      if decide (ts_name spec = EmptyString) then None
      else if decide (ts_name spec ∈ seen) then None
      else build_remote specs' ({[ts_name spec]} ∪ seen)
             (if ts_remote spec then {[ts_name spec]} ∪ out else out)
  end.
Definition buildRemoteToolSet (specs : list toolSpec) : option (gset string) := build_remote specs ∅ ∅.

Definition remoteToolSet : gset string := default ∅ (buildRemoteToolSet toolSpecs).

(** [func knownRemoteTool(name string) bool] *)
Definition knownRemoteTool (name : string) : bool := bool_decide (name ∈ remoteToolSet).

(** [func annotationsForSafety(safety toolSafety)]; [None] is a panic. *)
Definition annotationsForSafety (safety : toolSafety) : option json :=
  let hints ro destructive :=
    Some (JObject [("readOnlyHint", JBool ro); ("destructiveHint", JBool destructive)]%string) in
  match safety with
  | safetyReadOnly => hints true false
  | safetyMutating => hints false false
  | safetyDestructive => hints false true
  | safetyUnspecified => None
  end.

(** [func buildToolDefinitions(specs []toolSpec)] *)
Definition buildToolDefinitions (specs : list toolSpec) : option (list json) :=
  mapM (fun spec =>
    a ← annotationsForSafety (ts_safety spec);
    Some (JObject [("name", JString (ts_name spec)); ("description", JString (ts_description spec));
                   ("inputSchema", ts_inputSchema spec); ("annotations", a)]%string)) specs.

(** [func toolDefinitions() []map[string]any] *)
Definition toolDefinitions : list json := default [] (buildToolDefinitions toolSpecs).

(** ** Handlers *)

(** [struct { Name string; Arguments map[string]json.RawMessage }] and the
    smaller structs that other functions decode the parameters into. *)
Definition set_name (key : string) (x : json) (name : string) : string * bool :=
  if EqualFold key "name" then decode_string x name else (name, true).
Definition set_call (key : string) (x : json) (p : string * option (gmap string json))
    : string * option (gmap string json) * bool :=
  let '(name, args) := p in
  if EqualFold key "name" then let '(s, ok) := decode_string x name in (s, args, ok)
  else if EqualFold key "arguments" then let '(m, ok) := decode_raw_map x args in (name, m, ok)
  else (name, args, true).
Definition set_protocolVersion (key : string) (x : json) (v : string) : string * bool :=
  if EqualFold key "protocolVersion" then decode_string x v else (v, true).

(** Decoding of absent parameters fails: the text is empty. *)
Definition decode_params {A} (set : string -> json -> A -> A * bool) (params : option json) (a : A) : A * bool :=
  match params with
  | None => (a, false)
  | Some x => decode_struct set x a
  end.

Section Server.
Context (parse : list byte -> option json).
Context (Marshal : json -> string).
Context (unicode_ToLower : string -> string).
Context (float64 : string -> option string).
Context (error_text : error -> string).
Context (time_json : Z -> json).
Context (resourceMetadataURL : string).

(** [struct { Meta map[string]any }]: like [decode_raw_map], with the values
    decoded into [any], which fails for a number out of range. *)
Definition decode_any_map (v : json) (old : option (gmap string json)) : option (gmap string json) * bool :=
  match v with
  | JNull => (None, true)
  | JObject kvs =>
      foldl (fun '(m, ok) kv =>
        match to_any float64 kv.2 with
        | Some x => (Some (<[kv.1 := x]> (default ∅ m)), ok)
        | None => (m, false)
        end) (Some (default ∅ old), true) kvs
  | _ => (old, false)
  end.
Definition set_meta (key : string) (x : json) (m : option (gmap string json)) : option (gmap string json) * bool :=
  if EqualFold key "_meta" then decode_any_map x m else (m, true).

Definition fail (status : Z) (id : option json) (code : Z) (message : string) : prog reply :=
  Ret (rpcWrite status id None (Some (mkRpcError code message))).

(** [func (s *Server) unauthorized(w http.ResponseWriter)] *)
Definition unauthorized : reply :=
  Plain 401 [("WWW-Authenticate", "Bearer resource_metadata=" +:+ string_of_bytes (quoted resourceMetadataURL));
             ("Content-Type", "application/json")]%string.

(** [func (s *Server) identity(w, r) (authn.Identity, bool)] *)
Definition identity (r : Request) : prog (option Identity) :=
  match BearerToken r with
  | None => Ret None
  | Some token =>
      id ← call (OVerify token);
      match Require_ (fun _ => id) token toolScope with
      | Ok id => Ret (Some id)
      | Err _ => Ret None
      end
  end.

Definition versionKey : string := "io.modelcontextprotocol/protocolVersion".

(** The protocol version in the parameters' metadata. *)
Definition meta_version (params : option json) : string :=
  if absent_or_null params then EmptyString
  else
    let '(m, ok) := decode_params set_meta params None in
    if negb ok then EmptyString
    else match default ∅ m !! versionKey with Some (JString s) => s | _ => EmptyString end.

(** [func validateProtocolHeaders(r *http.Request, req rpcRequest) (bool, error)] *)
Definition validateProtocolHeaders (r : Request) (req : rpcRequest) : result bool :=
  let headerVersion := TrimSpace (Request_Get r "MCP-Protocol-Version") in
  let metaVersion := meta_version (req_Params req) in
  let discover := bool_decide (req_Method req = "server/discover"%string) in
  let modern := discover || bool_decide (headerVersion = modernVersion) || bool_decide (metaVersion = modernVersion) in
  if bool_decide (headerVersion <> EmptyString) && bool_decide (headerVersion <> modernVersion)
     && bool_decide (headerVersion <> legacyVersion)
  then Err (Errorf "unsupported protocol version %q" [headerVersion])
  else
    _ ← (if modern && negb discover then
           if decide (headerVersion = EmptyString) then
             Err (New "MCP-Protocol-Version header is required for modern requests")
           else if decide (metaVersion = EmptyString) then
             Err (New "modern requests require _meta io.modelcontextprotocol/protocolVersion")
           else if decide (headerVersion <> metaVersion) then
             Err (New "protocol version header does not match request metadata")
           else Ok tt
         else Ok tt);
    let hm := TrimSpace (Request_Get r "Mcp-Method") in
    if bool_decide (hm <> EmptyString) && bool_decide (hm <> req_Method req) then
      Err (Errorf "Mcp-Method %q does not match request method %q" [hm; req_Method req])
    else if decide (req_Method req = "tools/call"%string) then
      let name := (decode_params set_name (req_Params req) EmptyString).1 in
      let hn := TrimSpace (Request_Get r "Mcp-Name") in
      if bool_decide (hn <> EmptyString) && bool_decide (hn <> name) then
        Err (Errorf "Mcp-Name %q does not match tool %q" [hn; name])
      else Ok modern
    else Ok modern.

(** [func (s *Server) toolResult(w, id, value, toolErr, modern)] *)
Definition text_content (s : string) : json :=
  JArray [JObject [("type", JString "text"); ("text", JString s)]]%string.
Definition complete (modern : bool) : list (string * json) :=
  if modern then [("resultType", JString "complete")]%string else [].
Definition toolResult (id : option json) (value : result json) (modern : bool) : reply :=
  let body :=
    match value with
    | Err e => [("content", text_content (error_text e)); ("isError", JBool true)]%string
    | Ok v => [("content", text_content (Marshal v)); ("structuredContent", v)]%string
    end in
  rpcWrite 200 id (Some (JObject (complete modern ++ body))) None.

Definition optional {A} (key : string) (f : A -> json) (x : option A) : list (string * json) :=
  match x with Some a => [(key, f a)] | None => [] end.
Definition Device_json (d : Device) (online : bool) : json :=
  JObject ([("id", JString (Device_ID d)); ("name", JString (Device_Name d));
            ("created_at", time_json (Device_CreatedAt d))]%string ++
           optional "last_seen_at" time_json (Device_LastSeenAt d) ++
           optional "revoked_at" time_json (Device_RevokedAt d) ++ [("online"%string, JBool online)]).

(** The loop over the devices that fills in [Online]. *)
Fixpoint with_online (owner : string) (ds : list Device) : prog (list json) :=
  match ds with
  | [] => Ret []
  | d :: ds' =>
      online ← call (OIsOnline owner (Device_ID d));
      rest ← with_online owner ds';
      Ret (Device_json d online :: rest)
  end.

(** The arguments without [device_id], decoded into [any]; [None] if one
    cannot be. *)
Definition payload_of (args : gmap string json) : option (gmap string json) :=
  if forallb (fun kv => bool_decide (is_Some (to_any float64 kv.2))) (map_to_list args)
  then Some (omap (to_any float64) args) else None.

(** The audit status and error code of a failed call. *)
Definition call_status (e : error) : string * string :=
  if errors_Is e ErrOffline then ("offline", "device_offline")%string
  else if errors_Is e DeadlineExceeded || errors_Is e Canceled then ("timeout", "timeout")%string
  else ("error", EmptyString)%string.

(** The value that a device returned; [None] if it cannot be decoded. *)
Definition output_of (value : list byte) : option json :=
  if bool_decide (value <> []) && bool_decide (value <> bytes_of_string "null")
  then x ← parse value; to_any float64 x
  else Some (JObject [("ok", JBool true)]%string).

(** The end of [callTool], from the relayed call on. *)
Definition relay_call (id : option json) (subject deviceID name : string) (payload : gmap string json)
    (modern : bool) : prog reply :=
  started ← call ONow;
  r ← call (OCall subject deviceID name payload);
  let record status code :=
    now ← call ONow;
    call (ORecord (mkAuditEvent subject deviceID name status (now - started) code)) in
  match r with
  | Err e =>
      let '(status, code) := call_status e in
      _ ← record status code;
      Ret (toolResult id (Err e) modern)
  | Ok res =>
      match Result_Error res with
      | Some re =>
          _ ← record "error"%string (RemoteError_Code re);
          Ret (toolResult id (Err (Errorf "%s: %s" [RemoteError_Code re; RemoteError_Message re])) modern)
      | None =>
          match output_of (Result_Value res) with
          | None => Ret (toolResult id (Err (New "invalid response from device")) modern)
          | Some out =>
              _ ← record "ok"%string EmptyString;
              Ret (toolResult id (Ok out) modern)
          end
      end
  end.

(** [func (s *Server) callTool(w, r, req, identity, modern)] *)
Definition callTool (req : rpcRequest) (identity : Identity) (modern : bool) : prog reply :=
  let id := req_ID req in
  let subject := Identity_Subject identity in
  let '((name, arguments), ok) := decode_params set_call (req_Params req) (EmptyString, None) in
  if negb ok || bool_decide (name = EmptyString) then
    fail 400 id (-32602) "invalid tool call parameters"
  else
    let arguments := default ∅ arguments in
    if decide (name = "list_devices"%string) then
      devices ← call (OListDevices subject);
      match devices with
      | Err _ => fail 500 id (-32603) "internal error"
      | Ok ds =>
          l ← with_online subject ds;
          Ret (toolResult id (Ok (JObject [("devices"%string, JArray l)])) modern)
      end
    else if negb (knownRemoteTool name) then fail 404 id (-32602) "unknown tool"
    else
      let deviceID :=
        match arguments !! "device_id"%string with
        | Some raw => (decode_string raw EmptyString).1
        | None => EmptyString
        end in
      if decide (TrimSpace deviceID = EmptyString) then fail 400 id (-32602) "device_id is required"
      else
        d ← call (OGetDevice subject deviceID);
        match d with
        | Err _ => Ret (toolResult id (Err (New "device offline or unavailable")) modern)
        | Ok _ =>
            match payload_of (delete "device_id"%string arguments) with
            | None => fail 400 id (-32602) "invalid arguments"
            | Some payload => relay_call id subject deviceID name payload modern
            end
        end.

Definition serverInfo : json :=
  JObject [("name", JString "open-remote-commander"); ("version", JString serverVersion)]%string.
Definition capabilities : json := JObject [("tools", JObject [])]%string.

(** The methods that need no device. *)
Definition discover_result : json :=
  JObject [("supportedVersions", JArray [JString modernVersion; JString legacyVersion]);
           ("capabilities", capabilities);
           ("instructions", JString "Remote filesystem and process operations run only on paired devices.");
           ("ttlMs", JNumber "60000"); ("cacheScope", JString "public"); ("resultType", JString "complete");
           ("_meta", JObject [("io.modelcontextprotocol/serverInfo", serverInfo)])]%string.
Definition initialize_result (params : option json) : json :=
  let v := (decode_params set_protocolVersion params EmptyString).1 in
  JObject [("protocolVersion", JString (if decide (v = modernVersion) then modernVersion else legacyVersion));
           ("capabilities", capabilities); ("serverInfo", serverInfo)]%string.
Definition list_result (modern : bool) : json :=
  JObject (("tools"%string, JArray toolDefinitions) ::
    if modern then [("ttlMs", JNumber "60000"); ("cacheScope", JString "public");
                    ("resultType", JString "complete")]%string else []).

(** The [switch] on the method. *)
Definition dispatch (req : rpcRequest) (identity : Identity) (modern : bool) : prog reply :=
  let ok result := Ret (rpcWrite 200 (req_ID req) (Some result) None) in
  let method := req_Method req in
  if decide (method = "server/discover"%string) then ok discover_result
  else if decide (method = "initialize"%string) then ok (initialize_result (req_Params req))
  else if decide (method = "ping"%string) then ok (JObject (complete modern))
  else if decide (method = "tools/list"%string) then ok (list_result modern)
  else if decide (method = "tools/call"%string) then callTool req identity modern
  else fail 404 (req_ID req) (-32601) "method not found".

(** The rest of [serveHTTP] for an authenticated request. *)
Definition serve_rpc (r : Request) (identity : Identity) : prog reply :=
  if maxBody <? len (Request_Body r) then fail 413 None (-32600) "request too large"
  else
    match (fun x => decode_struct set_rpcRequest x zero_rpcRequest) <$> parse (Request_Body r) with
    | None | Some (_, false) => fail 400 None (-32700) "parse error"
    | Some (req, true) =>
        if bool_decide (req_JSONRPC req <> "2.0"%string) || bool_decide (req_Method req = EmptyString) then
          fail 400 (req_ID req) (-32600) "invalid request"
        else
          match validateProtocolHeaders r req with
          | Err e => fail 400 (req_ID req) (-32020) (error_text e)
          | Ok modern =>
              if absent_or_null (req_ID req) then Ret (Plain 202 [])
              else dispatch req identity modern
          end
    end.

(** [func (s *Server) serveHTTP(w http.ResponseWriter, r *http.Request)] *)
Definition serveHTTP (r : Request) : prog reply :=
  if decide (Request_Method r <> "POST"%string) then Ret (Plain 405 [("Allow", "POST")]%string)
  else if negb (HasPrefix (ToLower unicode_ToLower (Request_Get r "Content-Type")) "application/json") then
    Ret (Plain 415 [])
  else
    id ← identity r;
    match id with
    | None => Ret unauthorized
    | Some id => serve_rpc r id
    end.
End Server.
