(* ===== verification/McpProps.v ===== *)
(** * What the MCP endpoint guarantees

    Every statement is about all traces of [serveHTTP], so it holds whatever
    other requests do in between and for every store, hub and verifier. *)
From S2P Require Import Prelude Crypto GoStrings Text Json Http Authn Protocol Store RelayHub Effects Mcp.
Local Open Scope Z_scope.

(** The subject on whose behalf a call is made, [None] for calls that are
    never made for a client. *)
Definition on_behalf (o : op) : option string :=
  match o with
  | OListDevices s | OGetDevice s _ | OIsOnline s _ | OCall s _ _ _ => Some s
  | ORecord e => Some (AuditEvent_OwnerSubject e)
  | _ => None
  end.

(** A call that [subject] may cause: one on behalf of it, or a look at the clock. *)
Definition caused_by (subject : string) (e : event) : Prop :=
  projT1 e = ONow \/ on_behalf (projT1 e) = Some subject.

Section Server.
Context (parse : list byte -> option json).
Context (Marshal : json -> string).
Context (unicode_ToLower : string -> string).
Context (float64 : string -> option string).
Context (error_text : error -> string).
Context (time_json : Z -> json).
Context (url : string).

Notation relay_call := (relay_call parse Marshal float64 error_text).
Notation callTool := (callTool parse Marshal float64 error_text time_json).
Notation dispatch := (dispatch parse Marshal float64 error_text time_json).
Notation serve_rpc := (serve_rpc parse Marshal float64 error_text time_json).
Notation serveHTTP := (serveHTTP parse Marshal unicode_ToLower float64 error_text time_json url).
Notation payload_of := (payload_of float64).
Notation output_of := (output_of parse float64).

(** ** The traces of the handlers, inside out *)

(** The audit entry that an answered call deserves: status and error code. *)
Definition outcome (x : result Result) : option (string * string) :=
  match x with
  | Err e => Some (call_status e)
  | Ok res =>
      match Result_Error res with
      | Some re => Some ("error"%string, RemoteError_Code re)
      | None => match output_of (Result_Value res) with Some _ => Some ("ok"%string, EmptyString) | None => None end
      end
  end.

(** What the client is told. *)
Definition client_value (x : result Result) : result json :=
  match x with
  | Err e => Err e
  | Ok res =>
      match Result_Error res with
      | Some re => Err (Errorf "%s: %s" [RemoteError_Code re; RemoteError_Message re])
      | None =>
          match output_of (Result_Value res) with
          | Some out => Ok out
          | None => Err (New "invalid response from device")
          end
      end
  end.

Lemma relay_call_trace id subject dev name payload modern tr rep :
  follows (relay_call id subject dev name payload modern) tr rep ->
  exists t0 x, rep = toolResult Marshal error_text id (client_value x) modern /\
    match outcome x with
    | Some (status, code) => exists t1,
        tr = [ev ONow t0; ev (OCall subject dev name payload) x; ev ONow t1;
              ev (ORecord (mkAuditEvent subject dev name status (t1 - t0) code)) tt]
    | None => tr = [ev ONow t0; ev (OCall subject dev name payload) x]
    end.
Proof.
  unfold Mcp.relay_call. simpl. intros (t0 & tr1 & -> & x & tr2 & -> & H). exists t0, x.
  unfold outcome, client_value. destruct x as [res|e].
  - destruct (Result_Error res) as [re|].
    + destruct H as (t1 & tr3 & -> & [] & tr4 & -> & -> & ->). eauto.
    + destruct (output_of (Result_Value res)) as [out|].
      * destruct H as (t1 & tr3 & -> & [] & tr4 & -> & -> & ->). eauto.
      * destruct H as [-> ->]. eauto.
  - destruct (call_status e) as [status code]. simpl in H.
    destruct H as (t1 & tr3 & -> & [] & tr4 & -> & -> & ->). eauto.
Qed.

Lemma with_online_trace subject ds tr l :
  follows (with_online time_json subject ds) tr l ->
  Forall (fun e => exists d b, e = ev (OIsOnline subject d) b) tr.
Proof.
  revert tr l. induction ds as [|d ds IH]; intros tr l; simpl; [by intros [-> _]|].
  intros (b & tr1 & -> & H). constructor; [by exists (Device_ID d), b|].
  apply follows_bind in H as (tr2 & tr3 & rest & -> & H & H'). destruct H' as [-> _].
  rewrite app_nil_r. by eapply IH.
Qed.

(** What a traced [callTool] did. *)
Inductive tool_trace (req : rpcRequest) (subject : string) (modern : bool) (rep : reply) : list event -> Prop :=
| tt_nothing : tool_trace req subject modern rep []
| tt_list x tr : Forall (fun e => exists d b, e = ev (OIsOnline subject d) b) tr ->
    tool_trace req subject modern rep (ev (OListDevices subject) x :: tr)
| tt_checked dev x : tool_trace req subject modern rep [ev (OGetDevice subject dev) x]
| tt_relayed dev d args payload name tr ok :
    decode_params set_call (req_Params req) (EmptyString, None) = ((name, args), ok) ->
    knownRemoteTool name = true -> payload_of (delete "device_id"%string (default ∅ args)) = Some payload ->
    follows (relay_call (req_ID req) subject dev name payload modern) tr rep ->
    tool_trace req subject modern rep (ev (OGetDevice subject dev) (Ok d) :: tr).

Lemma callTool_trace req identity modern tr rep :
  follows (callTool req identity modern) tr rep -> tool_trace req (Identity_Subject identity) modern rep tr.
Proof.
  unfold Mcp.callTool. destruct (decode_params _ _ _) as [[name args] ok] eqn:Ed. intros H.
  destruct (negb ok || _); [destruct H as [-> _]; constructor|].
  case_decide.
  { destruct H as (x & tr1 & -> & H). constructor. simpl in H.
    destruct x as [ds|e]; [|by destruct H as [-> _]].
    apply follows_bind in H as (tr2 & tr3 & l & -> & H & [-> _]). rewrite app_nil_r. by eapply with_online_trace. }
  destruct (negb (knownRemoteTool name)) eqn:Ek; [destruct H as [-> _]; constructor|].
  case_decide; [destruct H as [-> _]; constructor|].
  destruct H as (x & tr1 & -> & H). simpl in H. destruct x as [d|e]; [|destruct H as [-> _]; constructor].
  destruct (payload_of _) as [payload|] eqn:Ep; [|destruct H as [-> _]; constructor].
  bool_props. by eapply tt_relayed.
Qed.

Lemma serve_rpc_trace r identity tr rep :
  follows (serve_rpc r identity) tr rep ->
  tr = [] \/ exists x req modern,
    parse (Request_Body r) = Some x /\ decode_struct set_rpcRequest x zero_rpcRequest = (req, true) /\
    validateProtocolHeaders float64 r req = Ok modern /\ req_Method req = "tools/call"%string /\
    follows (callTool req identity modern) tr rep.
Proof.
  unfold Mcp.serve_rpc. intros H. destruct (maxBody <? _); [destruct H as [-> _]; by left|].
  destruct (parse (Request_Body r)) as [x|]; [|destruct H as [-> _]; by left]. simpl in H.
  destruct (decode_struct set_rpcRequest x zero_rpcRequest) as [req ok] eqn:Ed.
  destruct ok; [|destruct H as [-> _]; by left].
  destruct (_ || _); [destruct H as [-> _]; by left|].
  destruct (validateProtocolHeaders float64 r req) as [modern|] eqn:Ev; [|destruct H as [-> _]; by left].
  destruct (absent_or_null _); [destruct H as [-> _]; by left|].
  unfold Mcp.dispatch in H. repeat case_decide; try (destruct H as [-> _]; by left).
  right. by exists x, req, modern.
Qed.

(** The first call of every trace is the verification of the request's token. *)
Lemma serveHTTP_trace r tr rep :
  follows (serveHTTP r) tr rep ->
  tr = [] \/ exists token x tr', BearerToken r = Some token /\ tr = ev (OVerify token) x :: tr' /\
    (tr' = [] /\ rep = unauthorized url \/
     exists id, x = Ok id /\ HasScope id toolScope = true /\ follows (serve_rpc r id) tr' rep).
Proof.
  unfold Mcp.serveHTTP, identity. intros H. case_decide; [destruct H as [-> _]; by left|].
  destruct (negb _); [destruct H as [-> _]; by left|].
  destruct (BearerToken r) as [token|]; [|destruct H as [-> _]; by left].
  destruct H as (x & tr' & -> & H). right. exists token, x, tr'. split; [done|]. split; [done|].
  simpl in H. destruct x as [id|e]; [|by left]. unfold Require_ in H.
  rewrite bool_decide_eq_true_2 in H by done. simpl in H.
  destruct (HasScope id toolScope) eqn:Es; simpl in H; [|by left]. right. by exists id.
Qed.

(** ** Authority *)

Ltac caused := repeat first [exact (Forall_nil_2 _) | apply Forall_cons_2; [first [right; reflexivity | left; reflexivity]|]].

Lemma tool_trace_caused req subject modern rep tr : tool_trace req subject modern rep tr -> Forall (caused_by subject) tr.
Proof.
  assert (forall e tr, Forall (fun e => exists d b, e = ev (OIsOnline subject d) b) tr ->
    caused_by subject e -> Forall (caused_by subject) (e :: tr)) as Hl.
  { intros e tr' Htr He. constructor; [done|]. eapply Forall_impl; [exact Htr|]. intros ? (d & b & ->). by right. }
  intros [|x tr' Htr|dev x|dev d args payload name tr' ok Hd Hk Hp Hr].
  - constructor.
  - apply Hl; [done|by right].
  - caused.
  - apply relay_call_trace in Hr as (t0 & x & _ & Ho). destruct (outcome x) as [[status code]|].
    + destruct Ho as [t1 ->]. caused.
    + subst tr'. caused.
Qed.

(** [GetDevice] answers as the store does, in whatever state it is. *)
Definition store_answers (e : event) : Prop :=
  forall owner id x, e = ev (OGetDevice owner id) x -> exists m, x = GetDevice owner id m.

Lemma GetDevice_Ok owner id m d :
  GetDevice owner id m = Ok d -> Device_OwnerSubject d = owner /\ Device_RevokedAt d = None.
Proof.
  unfold GetDevice. destruct (m_devices m !! id) as [md|]; [|done].
  destruct (_ || _) eqn:E; [done|]. intros [= <-]. bool_props. done.
Qed.

Lemma payload_of_lookup args payload k : payload_of args = Some payload -> args !! k = None -> payload !! k = None.
Proof.
  unfold Mcp.payload_of. destruct (forallb _ _); [|done]. intros [= <-] Hk. by rewrite lookup_omap, Hk.
Qed.

(** The place of a relayed call in a trace. *)
Lemma relay_trace_split (e0 e1 e2 : event) rest pre o x post :
  relayed e0 = None -> relayed e1 = None -> omap relayed rest = [] -> relayed (ev o x) <> None ->
  e0 :: e1 :: e2 :: rest = pre ++ ev o x :: post -> pre = [e0; e1] /\ e2 = ev o x.
Proof.
  intros H0 H1 Hr Hx E. destruct pre as [|a0 [|a1 [|a2 pre]]]; simpl in E; [congruence|congruence|by simplify_eq|].
  injection E as -> -> -> ->. rewrite omap_app in Hr. simpl in Hr.
  destruct (relayed (ev o x)); [|done]. by destruct (omap relayed pre).
Qed.

Lemma tool_trace_call req subject modern rep tr pre s dev tool args y post :
  tool_trace req subject modern rep tr -> tr = pre ++ ev (OCall s dev tool args) y :: post ->
  s = subject /\ knownRemoteTool tool = true /\ args !! "device_id"%string = None /\
  (exists p, decode_params set_call (req_Params req) (EmptyString, None) = (p.1, p.2) /\ p.1.1 = tool) /\
  rep = toolResult Marshal error_text (req_ID req) (client_value y) modern /\
  exists d, ev (OGetDevice s dev) (Ok d) ∈ pre.
Proof.
  intros Ht E. destruct Ht as [|x tr' Htr|dev' x|dev' d args' payload name tr' ok Hd Hk Hp Hr].
  - by destruct pre.
  - destruct pre as [|e0 pre]; apply cons_eq_inv in E as [E1 E2]; [other_event|]. subst tr'.
    rewrite Forall_app, Forall_cons in Htr. destruct Htr as (_ & (d' & b & E2) & _). other_event.
  - destruct pre as [|e0 pre]; apply cons_eq_inv in E as [E1 E2]; [other_event|by destruct pre].
  - apply relay_call_trace in Hr as (t0 & x & Hrep & Ho).
    assert (exists rest, tr' = ev ONow t0 :: ev (OCall subject dev' name payload) x :: rest /\ omap relayed rest = [])
      as (rest & -> & Hrest) by (destruct (outcome x) as [[]|]; [destruct Ho as [t1 ->]|subst tr']; eauto).
    apply relay_trace_split in E as [-> E]; [|done..]. apply (f_equal relayed) in E. simpl in E. injection E as -> -> -> -> ->.
    clear Ho. split; [reflexivity|]. split; [exact Hk|].
    split; [eapply payload_of_lookup; [done|]; apply lookup_delete_eq|].
    split; [exists ((tool, args'), ok); split; [exact Hd|reflexivity]|].
    split; [exact Hrep|]. exists d. apply list_elem_of_here.
Qed.

(** No device is reached without authority: the first thing a request
    causes is the verification of its bearer token; nothing else happens
    unless the verifier accepts the token with the scope orc:tools; all
    that follows is on behalf of the token's subject; and a call is relayed
    only for a tool of the table, without the device_id argument, after the
    store has found the device among the subject's own, so that, if the
    store is the one of Store.v, the device belongs to the subject and was
    not revoked. *)
Theorem mcp_calls_are_authorised r tr rep :
  follows (serveHTTP r) tr rep ->
  tr = [] \/ exists token x tr', BearerToken r = Some token /\ tr = ev (OVerify token) x :: tr' /\
    (tr' <> [] -> exists id, x = Ok id /\ HasScope id toolScope = true /\
      Forall (caused_by (Identity_Subject id)) tr' /\
      forall pre s dev tool args y post, tr' = pre ++ ev (OCall s dev tool args) y :: post ->
        s = Identity_Subject id /\ knownRemoteTool tool = true /\ args !! "device_id"%string = None /\
        exists d, ev (OGetDevice s dev) (Ok d) ∈ pre /\
          (Forall store_answers tr' -> Device_OwnerSubject d = s /\ Device_RevokedAt d = None)).
Proof.
  intros H. apply serveHTTP_trace in H as [->|(token & x & tr' & Hb & -> & H)]; [by left|]. right.
  exists token, x, tr'. split; [done|]. split; [done|]. intros Hne.
  destruct H as [[-> _]|(id & -> & Hs & H)]; [done|]. exists id. split; [done|]. split; [done|].
  apply serve_rpc_trace in H as [->|(b & req & modern & _ & _ & _ & _ & H)]; [done|].
  apply callTool_trace in H. split; [by eapply tool_trace_caused|].
  intros pre s dev tool args y post E.
  destruct (tool_trace_call _ _ _ _ _ _ _ _ _ _ _ _ H E) as (-> & Hk & Hd & _ & _ & d & Hin).
  split; [done|]. split; [done|]. split; [done|]. exists d. split; [done|]. intros Hst. subst tr'.
  rewrite Forall_app in Hst. destruct Hst as [Hst _]. rewrite Forall_forall in Hst.
  destruct (Hst _ Hin _ _ _ eq_refl) as [m Hm]. by eapply GetDevice_Ok.
Qed.

(** ** Audit *)

Definition without_duration (e : AuditEvent) : AuditEvent :=
  mkAuditEvent (AuditEvent_OwnerSubject e) (AuditEvent_DeviceID e) (AuditEvent_ToolName e)
    (AuditEvent_Status e) 0 (AuditEvent_ErrorCode e).

(** The audit event, up to its duration, for a relayed call and its answer. *)
Definition expected (c : string * string * string * gmap string json * result Result) : option AuditEvent :=
  let '(subject, dev, tool, _, x) := c in
  '(status, code) ← outcome x; Some (mkAuditEvent subject dev tool status 0 code).

Lemma omap_cons_eq {A B} (f : A -> option B) x l :
  omap f (x :: l) = match f x with Some y => y :: omap f l | None => omap f l end.
Proof. done. Qed.

Ltac log := rewrite ?omap_cons_eq; cbn [relayed audited ev projT1 projT2].

(** C27 Every relayed call is audited: a request relays at most one call, and
    the audit events it records are exactly the ones for that call, with its
    subject, device and tool and the status of its answer.  The one
    exception: nothing is recorded for an answer without an error whose
    value cannot be decoded ([outcome] is [None]). *)
Theorem mcp_calls_are_audited r tr rep :
  follows (serveHTTP r) tr rep ->
  (length (omap relayed tr) <= 1)%nat /\
  without_duration <$> omap audited tr = omap expected (omap relayed tr).
Proof.
  assert (forall subject tr, Forall (fun e => exists d b, e = ev (OIsOnline subject d) b) tr ->
    omap relayed tr = [] /\ omap audited tr = []) as Hl.
  { intros subject l. induction 1 as [|? ? (d & b & ->) _ [IH1 IH2]]; [done|]. log. by rewrite IH1, IH2. }
  intros H. apply serveHTTP_trace in H as [->|(token & x & tr' & Hb & -> & H)]; [by split; [simpl; lia|]|]. log.
  destruct H as [[-> _]|(id & -> & Hs & H)]; [by split; [simpl; lia|]|].
  apply serve_rpc_trace in H as [->|(b & req & modern & _ & _ & _ & _ & H)]; [by split; [simpl; lia|]|].
  apply callTool_trace in H.
  destruct H as [|y tr' Htr|dev' y|dev' d args' payload name tr' ok Hd Hk Hp Hr];
    [by split; [simpl; lia|] | | by split; [simpl; lia|] |]; log.
  - destruct (Hl _ _ Htr) as [H1 H2]. rewrite H1, H2. split; [simpl; lia|done].
  - apply relay_call_trace in Hr as (t0 & y & _ & Ho). destruct (outcome y) as [[status code]|] eqn:Eo.
    + destruct Ho as [t1 ->]. log. simpl. rewrite Eo. split; [lia|done].
    + subst tr'. log. simpl. rewrite Eo. split; [lia|done].
Qed.

(** ** Headers *)

Lemma blank_or (h : string) (l : list string) :
  bool_decide (h <> EmptyString) && forallb (fun x => bool_decide (h <> x)) l = false -> h ∈ EmptyString :: l.
Proof.
  intros H. apply andb_false_iff in H as [H|H].
  - apply bool_decide_eq_false in H. apply dec_stable in H. rewrite H. apply list_elem_of_here.
  - apply list_elem_of_further. induction l as [|x l IH]; [done|]. simpl in H.
    apply andb_false_iff in H as [H|H]; [|apply list_elem_of_further; auto].
    apply bool_decide_eq_false in H. apply dec_stable in H. rewrite H. apply list_elem_of_here.
Qed.

(** The routing headers tell the truth: when a request relays a call, its
    Mcp-Method header is blank or tools/call, its Mcp-Name header is blank
    or the name of the relayed tool, and if either the header or the
    metadata announce the modern protocol then both do. *)
Theorem headers_match_the_call r tr rep pre s dev tool args y post :
  follows (serveHTTP r) tr rep -> tr = pre ++ ev (OCall s dev tool args) y :: post ->
  TrimSpace (Request_Get r "Mcp-Method") ∈ [EmptyString; "tools/call"%string] /\
  TrimSpace (Request_Get r "Mcp-Name") ∈ [EmptyString; tool] /\
  TrimSpace (Request_Get r "MCP-Protocol-Version") ∈ [EmptyString; modernVersion; legacyVersion] /\
  exists x req, parse (Request_Body r) = Some x /\ decode_struct set_rpcRequest x zero_rpcRequest = (req, true) /\
    (TrimSpace (Request_Get r "MCP-Protocol-Version") = modernVersion <->
     meta_version float64 (req_Params req) = modernVersion).
Proof.
  intros H E. apply serveHTTP_trace in H as [->|(token & x & tr' & Hb & -> & H)]; [by destruct pre|].
  destruct H as [[-> _]|(id & -> & Hs & H)].
  { destruct pre as [|? pre]; apply cons_eq_inv in E as [E1 E2]; [other_event|by destruct pre]. }
  destruct pre as [|e0 pre]; apply cons_eq_inv in E as [E0 E1]; [other_event|].
  apply serve_rpc_trace in H as [->|(b & req & modern & Hp & Hd & Hv & Hm & H)]; [by destruct pre|].
  apply callTool_trace in H. destruct (tool_trace_call _ _ _ _ _ _ _ _ _ _ _ _ H E1) as (_ & _ & _ & (p & Hdp & Hn) & _).
  assert ((decode_params set_name (req_Params req) EmptyString).1 = tool) as Hname.
  { assert (p.1.1 = (decode_params set_name (req_Params req) EmptyString).1) as <-; [|done].
    change p.1 with ((p.1, p.2).1). rewrite <- Hdp. unfold decode_params.
    destruct (req_Params req) as [v|]; [|done].
    apply (decode_struct_project fst set_call set_name).
    intros k w [n m]. unfold set_call, set_name. simpl.
    destruct (EqualFold k "name"); [by destruct (decode_string w n)|].
    destruct (EqualFold k "arguments"); [by destruct (decode_raw_map w m)|done]. }
  unfold validateProtocolHeaders in Hv. rewrite Hm in Hv.
  rewrite (bool_decide_eq_false_2 ("tools/call"%string = "server/discover"%string)) in Hv by done. simpl in Hv.
  rewrite Hname in Hv. set (hv := TrimSpace (Request_Get r "MCP-Protocol-Version")) in *.
  set (mv := meta_version float64 (req_Params req)) in *.
  destruct (bool_decide (hv <> EmptyString) && _ && _) eqn:Eh; [done|].
  apply result_bind_ok in Hv as ([] & Hmod & Hv).
  destruct (bool_decide (TrimSpace (Request_Get r "Mcp-Method") <> EmptyString) && _) eqn:Em; [done|].
  destruct (bool_decide (TrimSpace (Request_Get r "Mcp-Name") <> EmptyString) && _) eqn:En; [done|].
  split; [|split; [|split]].
  - apply (blank_or _ ["tools/call"%string]). simpl. by rewrite andb_true_r.
  - apply (blank_or _ [tool]). simpl. by rewrite andb_true_r.
  - apply (blank_or _ [modernVersion; legacyVersion]). simpl. by rewrite andb_true_r, andb_assoc.
  - exists b, req. split; [done|]. split; [done|]. fold mv.
    destruct (bool_decide (hv = modernVersion) || bool_decide (mv = modernVersion)) eqn:Eo; simpl in Hmod.
    + repeat (case_decide; [done|]). assert (hv = mv) as -> by (destruct (decide (hv = mv)); done). done.
    + clear Eh Em En. bool_props. by split.
Qed.

(** ** Replies *)

(** A JSON-RPC reply to the identifier [id]: a result, or an error. *)
Definition rpc_reply (id : option json) (rep : reply) : Prop :=
  exists status res err, rep = Rpc status id res err /\
    (status = 200 /\ is_Some res /\ err = None \/
     status ∈ [400; 404; 500] /\ res = None /\ is_Some err).

Lemma fail_reply status id code msg tr rep :
  status ∈ [400; 404; 500] -> follows (fail status id code msg) tr rep -> rpc_reply id rep.
Proof. intros Hs [_ ->]. eexists _, _, _. split; [reflexivity|]. right. eauto. Qed.

Lemma ok_reply id v rep : rep = rpcWrite 200 id (Some v) None -> rpc_reply id rep.
Proof. intros ->. eexists _, _, _. split; [reflexivity|]. left. eauto. Qed.

Lemma callTool_reply req identity modern tr rep :
  follows (callTool req identity modern) tr rep -> rpc_reply (req_ID req) rep.
Proof.
  unfold Mcp.callTool. destruct (decode_params _ _ _) as [[name args] ok]. intros H.
  assert (forall v tr, follows (Ret (toolResult Marshal error_text (req_ID req) v modern)) tr rep ->
    rpc_reply (req_ID req) rep) as Hr by (intros v tr' [_ ->]; by eapply ok_reply).
  destruct (negb ok || _); [apply fail_reply in H; [done|set_solver]|].
  case_decide.
  { destruct H as (x & tr1 & -> & H). simpl in H. destruct x as [ds|e]; [|apply fail_reply in H; [done|set_solver]].
    apply follows_bind in H as (tr2 & tr3 & l & -> & _ & H). by eapply Hr. }
  destruct (negb (knownRemoteTool name)); [apply fail_reply in H; [done|set_solver]|].
  case_decide; [apply fail_reply in H; [done|set_solver]|].
  destruct H as (x & tr1 & -> & H). simpl in H. destruct x as [d|e]; [|by eapply Hr].
  destruct (payload_of _) as [payload|]; [|apply fail_reply in H; [done|set_solver]].
  apply relay_call_trace in H as (t0 & y & -> & _). by eapply ok_reply.
Qed.

(** Replies fit requests: a request with the right method, content type
    and token, whose body is small enough and is a JSON-RPC object, gets no
    body if it is a notification, and else a reply to its identifier, which
    has a result and status 200, or an error and a status that says so, never
    both. *)
Theorem replies_fit_requests r tr rep x req :
  follows (serveHTTP r) tr rep ->
  parse (Request_Body r) = Some x -> decode_struct set_rpcRequest x zero_rpcRequest = (req, true) ->
  len (Request_Body r) <= maxBody ->
  rep = Plain 405 [("Allow", "POST")]%string /\ Request_Method r <> "POST"%string \/
  rep = Plain 415 [] /\ HasPrefix (ToLower unicode_ToLower (Request_Get r "Content-Type")) "application/json" = false \/
  rep = unauthorized url \/
  rep = Plain 202 [] /\ absent_or_null (req_ID req) = true \/
  rpc_reply (req_ID req) rep.
Proof.
  intros H Hp Hd Hl. unfold Mcp.serveHTTP, identity in H. case_decide as Hm; [left; by destruct H as [_ ->]|].
  destruct (HasPrefix _ _) eqn:Hc; simpl in H; [|right; left; by destruct H as [_ ->]].
  apply follows_bind in H as (tr1 & tr2 & id & -> & _ & H).
  destruct id as [id|]; [|do 2 right; left; by destruct H as [_ ->]].
  unfold Mcp.serve_rpc in H. destruct (Z.ltb_spec maxBody (len (Request_Body r))); [lia|].
  rewrite Hp in H. simpl in H. rewrite Hd in H.
  assert (forall status code msg tr, status ∈ [400; 404; 500] -> follows (fail status (req_ID req) code msg) tr rep ->
    rep = Plain 202 [] /\ absent_or_null (req_ID req) = true \/ rpc_reply (req_ID req) rep) as Hf.
  { intros status code msg tr' Hs' H'. right. by eapply fail_reply. }
  do 3 right. destruct (_ || _); [eapply Hf; [|done]; set_solver|].
  destruct (validateProtocolHeaders float64 r req) as [modern|]; [|eapply Hf; [|done]; set_solver].
  destruct (absent_or_null (req_ID req)) eqn:Ea; [left; by destruct H as [_ ->]|].
  unfold Mcp.dispatch in H.
  repeat (case_decide; [right; first [by (destruct H as [_ ->]; eapply ok_reply) | by eapply callTool_reply]|]).
  eapply Hf; [|done]. set_solver.
Qed.

(** A request that relays a call is answered with what came back. *)
Lemma reply_to_call r tr rep pre s dev tool args y post :
  follows (serveHTTP r) tr rep -> tr = pre ++ ev (OCall s dev tool args) y :: post ->
  knownRemoteTool tool = true /\ exists x req modern,
    parse (Request_Body r) = Some x /\ decode_struct set_rpcRequest x zero_rpcRequest = (req, true) /\
    rep = toolResult Marshal error_text (req_ID req) (client_value y) modern.
Proof.
  intros H E. apply serveHTTP_trace in H as [->|(token & x & tr' & Hb & -> & H)]; [by destruct pre|].
  destruct pre as [|e0 pre]; apply cons_eq_inv in E as [E0 E1]; [other_event|].
  destruct H as [[-> _]|(id & -> & Hs & H)]; [by destruct pre|].
  apply serve_rpc_trace in H as [->|(b & req & modern & Hp & Hd & Hv & Hm & H)]; [by destruct pre|].
  apply callTool_trace in H. destruct (tool_trace_call _ _ _ _ _ _ _ _ _ _ _ _ H E1) as (_ & Hk & _ & _ & Hr & _).
  split; [exact Hk|]. exists b, req, modern. exact (conj Hp (conj Hd Hr)).
Qed.
End Server.

(** ** The table of tools *)

(** The names that a tool's schema requires. *)
Definition required_of (schema : json) : list string :=
  match schema with
  | JObject kvs =>
      omap (fun x => match x with JString s => Some s | _ => None end)
        (kvs ≫= fun kv => match kv with ("required"%string, JArray l) => l | _ => [] end)
  | _ => []
  end.

Lemma is_Some_remote : (if buildRemoteToolSet toolSpecs then true else false) = true ->
  buildRemoteToolSet toolSpecs = Some remoteToolSet.
Proof. unfold remoteToolSet. by destruct (buildRemoteToolSet toolSpecs). Qed.

(** The table of tools is sound: building the set of remote tools and the
    tool definitions does not panic, no two tools share a name, the remote
    tools are exactly those of the table marked so, and each of them
    requires the identifier of a device. *)
Theorem tool_table_is_sound :
  buildRemoteToolSet toolSpecs = Some remoteToolSet /\
  buildToolDefinitions toolSpecs = Some toolDefinitions /\ NoDup (ts_name <$> toolSpecs) /\
  forall name, knownRemoteTool name = true <->
    exists spec, spec ∈ toolSpecs /\ ts_name spec = name /\ ts_remote spec = true /\
      "device_id"%string ∈ required_of (ts_inputSchema spec).
Proof.
  split; [by apply is_Some_remote; vm_compute|]. split; [vm_compute; reflexivity|].
  split; [apply (bool_decide_unpack _); vm_compute; exact I|].
  assert (remoteToolSet = list_to_set (ts_name <$> filter (fun s => ts_remote s = true) toolSpecs)) as Hs
    by (apply (bool_decide_unpack _); vm_compute; exact I).
  assert (Forall (fun s => ts_remote s = true -> "device_id"%string ∈ required_of (ts_inputSchema s)) toolSpecs) as Hd.
  { repeat constructor; intros H; try discriminate H; apply list_elem_of_here. }
  intros name. unfold knownRemoteTool. rewrite bool_decide_eq_true, Hs, elem_of_list_to_set, list_elem_of_fmap. split.
  - intros (spec & -> & Hin). apply list_elem_of_filter in Hin as [Hr Hin]. exists spec.
    rewrite Forall_forall in Hd. exact (conj Hin (conj eq_refl (conj Hr (Hd _ Hin Hr)))).
  - intros (spec & Hin & <- & Hr & _). exists spec. split; [reflexivity|]. apply list_elem_of_filter. exact (conj Hr Hin).
Qed.

(** ** Witnesses: a call of ping on a device *)

Definition demo_body : list byte := bytes_of_string "ping dev_1".
Definition demo_params : json :=
  JObject [("name", JString "ping"); ("arguments", JObject [("device_id", JString "dev_1"); ("n", JNumber "1")])]%string.
Definition demo_json : json :=
  JObject [("jsonrpc", JString "2.0"); ("id", JNumber "7"); ("method", JString "tools/call");
           ("params", demo_params)]%string.
Definition demo_parse (b : list byte) : option json := if decide (b = demo_body) then Some demo_json else None.
Definition demo_request : Request :=
  mkRequest "POST" {[ "Authorization" := ["Bearer t0"]; "Content-Type" := ["application/json"];
                      "Mcp-Name" := ["ping"] ]}%string "10.0.0.1:9" ∅ (Ok ∅) ∅ demo_body.
Definition demo_identity : Identity := mkIdentity "alice" {["orc:tools"%string]} 0.
Definition demo_device : Device := mkDevice "dev_1" "alice" "laptop" 1 None None false.
Definition demo_memory : Memory := mkMemory {["dev_1"%string := mkMemoryDevice demo_device ""]} ∅ ∅ [].

(** A store with one device, a clock that ticks, a device that answers. *)
Definition demo_handle (o : op) (now : Z) : answer o * Z :=
  match o return answer o * Z with
  | OVerify t => (if decide (t = "t0"%string) then Ok demo_identity else Err ErrInvalidToken, now)
  | OListDevices s => (Ok [demo_device], now)
  | OGetDevice s id => (GetDevice s id demo_memory, now)
  | OAuthenticateDevice _ _ | OConsumePairing _ _ _ => (Err ErrNotFound, now)
  | OTouchDevice _ | ORevokeDevice _ _ | OCreatePairing _ | OApprovePairing _ _ | OUpgrade => (Err ErrNotFound, now)
  | OIsOnline _ _ | OAllow _ => (true, now)
  | OCall _ _ _ _ => (Ok (mkResult [] None), now)
  | ODisconnect _ | ORegister _ | ORecord _ => (tt, now)
  | ORandom _ => (Err ErrNotFound, now)
  | ONow => (now, now + 5)
  end.

Notation demo_server :=
  (serveHTTP demo_parse (fun _ => EmptyString) (fun s => s) Some (fun _ => EmptyString) (fun _ => JNull) "u").
Definition demo_trace : list event := (run_prog demo_handle (demo_server demo_request) 0).1.1.
Definition demo_reply : reply := (run_prog demo_handle (demo_server demo_request) 0).1.2.

Example demo_is_relayed :
  omap (fun e => c ← relayed e; Some (c.1.1.1.1, c.1.1.1.2, c.1.1.2)) demo_trace = [("alice", "dev_1", "ping")]%string /\
  omap audited demo_trace = [mkAuditEvent "alice" "dev_1" "ping" "ok" 5 ""].
Proof. split; vm_compute; reflexivity. Qed.

Lemma demo_follows : follows (demo_server demo_request) demo_trace demo_reply.
Proof.
  apply (run_prog_follows demo_handle _ 0 _ _ (run_prog demo_handle (demo_server demo_request) 0).2).
  unfold demo_trace, demo_reply. by destruct (run_prog _ _ _) as [[tr a] w].
Qed.

Lemma mcp_calls_are_authorised_witness :
  demo_trace = [] \/ exists token x tr', BearerToken demo_request = Some token /\ demo_trace = ev (OVerify token) x :: tr' /\
    (tr' <> [] -> exists id, x = Ok id /\ HasScope id toolScope = true /\
      Forall (caused_by (Identity_Subject id)) tr' /\
      forall pre s dev tool args y post, tr' = pre ++ ev (OCall s dev tool args) y :: post ->
        s = Identity_Subject id /\ knownRemoteTool tool = true /\ args !! "device_id"%string = None /\
        exists d, ev (OGetDevice s dev) (Ok d) ∈ pre /\
          (Forall store_answers tr' -> Device_OwnerSubject d = s /\ Device_RevokedAt d = None)).
Proof.
  exact (mcp_calls_are_authorised demo_parse (fun _ => EmptyString) (fun s => s) Some (fun _ => EmptyString)
    (fun _ => JNull) "u" demo_request demo_trace demo_reply demo_follows).
Defined.

Lemma mcp_calls_are_audited_witness :
  (length (omap relayed demo_trace) <= 1)%nat /\
  without_duration <$> omap audited demo_trace =
    omap (expected demo_parse Some) (omap relayed demo_trace).
Proof.
  exact (mcp_calls_are_audited demo_parse (fun _ => EmptyString) (fun s => s) Some (fun _ => EmptyString)
    (fun _ => JNull) "u" demo_request demo_trace demo_reply demo_follows).
Defined.

Lemma headers_match_the_call_witness :
  exists pre s dev tool args y post, demo_trace = pre ++ ev (OCall s dev tool args) y :: post /\
  TrimSpace (Request_Get demo_request "Mcp-Name") ∈ [EmptyString; tool].
Proof.
  exists (take 3 demo_trace), "alice"%string, "dev_1"%string, "ping"%string, {["n"%string := JNumber "1"]},
    (Ok (mkResult [] None)), (drop 4 demo_trace).
  assert (demo_trace = take 3 demo_trace ++
    ev (OCall "alice" "dev_1" "ping" {["n"%string := JNumber "1"]}) (Ok (mkResult [] None)) :: drop 4 demo_trace) as E
    by (vm_compute; reflexivity).
  split; [exact E|].
  apply (headers_match_the_call demo_parse (fun _ => EmptyString) (fun s => s) Some (fun _ => EmptyString)
    (fun _ => JNull) "u" demo_request demo_trace demo_reply _ _ _ _ _ _ _ demo_follows E).
Defined.

Definition demo_req : rpcRequest := (decode_struct set_rpcRequest demo_json zero_rpcRequest).1.

Lemma replies_fit_requests_witness :
  demo_reply = Plain 405 [("Allow", "POST")]%string /\ Request_Method demo_request <> "POST"%string \/
  demo_reply = Plain 415 [] /\ HasPrefix (ToLower (fun s => s) (Request_Get demo_request "Content-Type")) "application/json" = false \/
  demo_reply = unauthorized "u" \/
  demo_reply = Plain 202 [] /\ absent_or_null (req_ID demo_req) = true \/
  rpc_reply (req_ID demo_req) demo_reply.
Proof.
  apply (replies_fit_requests demo_parse (fun _ => EmptyString) (fun s => s) Some (fun _ => EmptyString)
    (fun _ => JNull) "u" demo_request demo_trace demo_reply demo_json demo_req demo_follows);
    vm_compute; first [reflexivity | congruence].
Defined.
