(* ===== verification/ToolsProps.v ===== *)
(** * What the agent guarantees

    The tool table agrees with the server's, its annotations tell the truth,
    and every call frame is answered. *)
From S2P Require Import Prelude Crypto GoStrings Text Base64 Protocol.
From S2P Require Import Filepath FileSystem PathPolicy FileOps Executor FileProps ExecutorProps.
From S2P Require Import OsProc ProcessMgr SearchMgr Tools.
From S2P Require Import Json Http Authn Store RelayHub Effects Mcp McpProps.
Local Open Scope Z_scope.

Section Agent.
Context (paths : Policy) (allowKillProcess : bool).
Context (ToLower : string -> string).
Context (compile : string -> result (string -> option (nat * nat))).
Context (dec : Decoders).

Notation toolHandlers := (toolHandlers paths allowKillProcess ToLower compile dec).
Notation Execute := (Execute paths allowKillProcess ToLower compile dec).
Notation SupportedTools := (SupportedTools paths allowKillProcess ToLower compile dec).

(** ** Two tables *)

Lemma assoc_Some {A} name (l : list (string * A)) : is_Some (assoc name l) <-> name ∈ l.*1.
Proof.
  induction l as [|[k x] l IH]; simpl.
  - split; [by intros []|by intros ?%elem_of_nil].
  - rewrite elem_of_cons. case_decide; subst; [split; [by left|by eexists]|]. rewrite IH. naive_solver.
Qed.

Lemma assoc_In {A} name (l : list (string * A)) x : assoc name l = Some x -> (name, x) ∈ l.
Proof.
  induction l as [|[k y] l IH]; simpl; [done|]. case_decide; subst.
  - intros [= ->]. apply list_elem_of_here.
  - intros Ha. apply list_elem_of_further. auto.
Qed.

Lemma relayed_tools_are_supported_aux name : knownRemoteTool name = true <-> name ∈ SupportedTools.
Proof.
  assert (remoteToolSet = list_to_set (toolHandlers.*1)) as Hs
    by (apply (bool_decide_unpack _); vm_compute; exact I).
  unfold knownRemoteTool. rewrite bool_decide_eq_true, Hs, elem_of_list_to_set.
  unfold Tools.SupportedTools. by rewrite isort_perm.
Qed.

(** The server and the agent agree on the tools: a tool is relayed exactly
    if the agent supports it, so no relayed call fails for want of a handler,
    and any other name is answered with an error and changes nothing. *)
Theorem relayed_tools_are_supported name r e a :
  (knownRemoteTool name = true <-> name ∈ SupportedTools) /\
  (knownRemoteTool name = true -> exists h, assoc name toolHandlers = Some h /\ Execute name r e a = h r e a) /\
  (knownRemoteTool name = false -> Execute name r e a = (Err (Errorf "unsupported tool %q" [name]), a)).
Proof.
  pose proof (relayed_tools_are_supported_aux name) as Hk. split; [exact Hk|].
  unfold Tools.SupportedTools in Hk. rewrite isort_perm in Hk. split.
  - intros [h Hh]%Hk%assoc_Some. exists h. split; [done|]. unfold Tools.Execute. by rewrite Hh.
  - intros Hn. unfold Tools.Execute. destruct (assoc name toolHandlers) eqn:E; [|done].
    assert (name ∈ toolHandlers.*1) as Hin%Hk by (apply assoc_Some; eauto). congruence.
Qed.

(** ** Read-only tools *)

(** The parts of the agent that a client can observe through other tools:
    files, process sessions, signals sent. *)
Definition unchanged (a a' : Agent) : Prop :=
  w_os (ag_world a') = w_os (ag_world a) /\ ag_procs a' = ag_procs a /\ ag_signalled a' = ag_signalled a.

Definition harmless (h : handler) : Prop := forall r e a x a', h r e a = (x, a') -> unchanged a a'.

Lemma unchanged_refl a : unchanged a a.
Proof. done. Qed.

Lemma harmless_on_files {A} (m : raw -> F A) f : (forall r, Looks (m r)) -> harmless (on_files m f).
Proof.
  intros Hm r e a x a'. unfold on_files. destruct (m r (ag_world a)) as [y w] eqn:E. intros [= <- <-].
  apply Hm in E as [Ho _]. by split.
Qed.

Lemma with_path_unchanged {A} (q : F A) `{!Looks q} k a x a' :
  with_path q k a = (x, a') -> (forall y b, unchanged a b -> k y b = (x, a') -> unchanged a a') -> unchanged a a'.
Proof.
  unfold with_path. destruct (q (ag_world a)) as [[y|er] w] eqn:E; apply looks in E as [Ho _].
  - intros H Hk. apply (Hk y (set_world a w)); [by split|exact H].
  - intros [= <- <-] _. by split.
Qed.

Lemma with_args_unchanged {A} (y : result A) k a x a' :
  with_args y k a = (x, a') -> (forall args, k args a = (x, a') -> unchanged a a') -> unchanged a a'.
Proof. destruct y; simpl; [by eauto|]. intros [= <- <-] _. apply unchanged_refl. Qed.

Lemma harmless_startSearch : harmless (startSearch paths ToLower compile dec).
Proof.
  intros r e a x a' H. eapply with_args_unchanged; [exact H|]. intros q H1.
  eapply (with_path_unchanged _ _ _ _ _ H1). intros root b Hb H2.
  assert (unchanged b a') as Hba; [|destruct Hb as (? & ? & ?), Hba as (? & ? & ?); split_and!; congruence].
  eapply (with_path_unchanged _ _ _ _ _ H2). intros st c Hc H3.
  destruct (negb (is_dir st)); [by injection H3 as <- <-|].
  destruct (SearchMgr.Start _ _ _ _ _ _). by injection H3 as <- <-.
Qed.

Ltac harmless_args := intros ?r ?e ?a ?x ?a' ?H; eapply with_args_unchanged; [eassumption|]; intros ?args ?H'; cbn beta in H'.

Lemma harmless_searches :
  harmless (getMoreSearch dec) /\ harmless (stopSearch dec) /\ harmless (readProcess dec) /\ harmless (listProcesses dec).
Proof.
  split_and!; harmless_args.
  - destruct (SearchMgr.GetMore _ _ _). by injection H' as <- <-.
  - destruct (SearchMgr.Stop _ _). by injection H' as <- <-.
  - destruct (ProcessMgr.Read _ _ _ _); by injection H' as <- <-.
  - by injection H' as <- <-.
Qed.

Lemma harmless_const (f : ToolEnv -> Agent -> result value) : harmless (fun _ e a => (f e a, a)).
Proof. intros r e a x a' [= <- <-]. apply unchanged_refl. Qed.

(** The handlers of the tools that the server's table marks read-only. *)
Lemma read_only_harmless spec h :
  spec ∈ toolSpecs -> ts_remote spec = true -> ts_safety spec = safetyReadOnly ->
  assoc (ts_name spec) toolHandlers = Some h -> harmless h.
Proof.
  pose proof harmless_searches as (Hg & Hs & Hr & Hl).
  assert (Forall (fun spec => ts_remote spec = true -> ts_safety spec = safetyReadOnly ->
    forall h, assoc (ts_name spec) toolHandlers = Some h -> harmless h) toolSpecs) as Hall.
  { unfold toolSpecs, buildToolSpecs.
    repeat (apply Forall_cons; split; [cbn [ts_remote ts_safety ts_name]; intros Hre Hsa h';
      try discriminate Hre; try discriminate Hsa; intros [= <-]|]); [..|apply Forall_nil; exact I].
    all: first [apply harmless_on_files; intros; apply _ | apply harmless_startSearch | done | apply harmless_const]. }
  rewrite Forall_forall in Hall. intros Hin Hre Hsa Hh. exact (Hall spec Hin Hre Hsa h Hh).
Qed.

(** The one tool that the table marks as mutating but not destructive. *)
Lemma mutating_is_create_directory spec :
  spec ∈ toolSpecs -> ts_remote spec = true -> ts_safety spec <> safetyDestructive ->
  ts_safety spec = safetyReadOnly \/ ts_name spec = "create_directory"%string.
Proof.
  assert (Forall (fun spec => ts_remote spec = true -> ts_safety spec <> safetyDestructive ->
    ts_safety spec = safetyReadOnly \/ ts_name spec = "create_directory"%string) toolSpecs) as Hall.
  { unfold toolSpecs, buildToolSpecs.
    repeat (apply Forall_cons; split; [cbn [ts_remote ts_safety ts_name]; intros Hre Hsa;
      try discriminate Hre; first [left; reflexivity | right; reflexivity | by destruct Hsa]|]); [..|apply Forall_nil; exact I]. }
  rewrite Forall_forall in Hall. intros Hin. exact (Hall spec Hin).
Qed.


(** ** Signals *)

Definition keeps_signals (h : handler) : Prop :=
  forall r e a x a', h r e a = (x, a') -> ag_signalled a' = ag_signalled a.

Lemma harmless_keeps_signals h : harmless h -> keeps_signals h.
Proof. intros Hh r e a x a' H. by apply Hh in H as (_ & _ & ?). Qed.

Lemma keeps_on_files {A} (m : raw -> F A) f : keeps_signals (on_files m f).
Proof. intros r e a x a'. unfold on_files. destruct (m r (ag_world a)). by intros [= <- <-]. Qed.

Lemma keeps_with_args {A} (y : result A) k a x a' :
  with_args y k a = (x, a') -> (forall args, k args a = (x, a') -> ag_signalled a' = ag_signalled a) ->
  ag_signalled a' = ag_signalled a.
Proof. destruct y; simpl; [by eauto|]. by intros [= <- <-] _. Qed.

Lemma keeps_process :
  keeps_signals (startProcess paths dec) /\ keeps_signals (writeProcess dec) /\ keeps_signals (terminateProcess dec).
Proof.
  assert (forall e req a x a', start e req a = (x, a') -> ag_signalled a' = ag_signalled a) as Hs.
  { intros e req a x a'. unfold start. destruct (ProcessMgr.Start _ _ _). by intros [= <- <-]. }
  split_and!; intros r e a x a' H; eapply keeps_with_args; try exact H; intros args H'; cbn beta in H'.
  - case_decide; [by eapply Hs|]. unfold with_path in H'.
    destruct (resolveExisting _ _ _) as [[cwd|er] w]; [apply Hs in H'; done|by injection H' as <- <-].
  - destruct (stdin_data args); [|by injection H' as <- <-].
    destruct (ProcessMgr.Write _ _ _ _). by injection H' as <- <-.
  - destruct (ProcessMgr.Terminate _ _ _). by injection H' as <- <-.
Qed.

Lemma only_kill_signals :
  Forall (fun kh => kh.1 <> "kill_process"%string -> keeps_signals kh.2) toolHandlers.
Proof.
  pose proof (harmless_searches) as (Hg & Hs & Hr & Hl). pose proof keeps_process as (H1 & H2 & H3).
  assert (forall f, keeps_signals (fun _ e a => (f e a, a))) as Hc
    by (intros f; apply harmless_keeps_signals, (harmless_const f)).
  unfold Tools.toolHandlers.
  repeat (apply Forall_cons; split; [cbn [fst snd]; intros Hk|]); [..|apply Forall_nil; exact I].
  all: first [exact (keeps_on_files _ _) | assumption | apply Hc | apply harmless_keeps_signals; assumption
    | apply harmless_keeps_signals, harmless_startSearch | by destruct Hk].
Qed.

(** Signals are sent by kill_process alone, only when the agent's policy
    enables it, to one process that is the one asked for, with a positive
    identifier, and is not the agent itself. *)
Theorem kill_process_is_guarded tool r e a x a' :
  Execute tool r e a = (x, a') -> ag_signalled a' <> ag_signalled a ->
  tool = "kill_process"%string /\ allowKillProcess = true /\
  exists pid, dec_pid dec r = Ok pid /\ 0 < pid /\ pid <> ke_getpid (te_kill e) /\
    ag_signalled a' = ag_signalled a ++ [pid].
Proof.
  intros H Hne. unfold Tools.Execute in H. destruct (assoc tool toolHandlers) as [h|] eqn:Eh; [|by injection H as <- <-].
  destruct (decide (tool = "kill_process"%string)) as [->|Hk].
  - assert (h = killProcess allowKillProcess dec) as -> by (revert Eh; by intros [= <-]).
    unfold killProcess in H. destruct allowKillProcess; [|by injection H as <- <-]. simpl in H.
    split; [done|]. split; [done|]. destruct (dec_pid dec r) as [pid|] eqn:Ed; [|by injection H as <- <-].
    simpl in H. exists pid. split; [done|]. unfold OsProc.Kill in H.
    destruct (Z.leb_spec pid 0); [by injection H as <- <-|]. case_decide; [by injection H as <- <-|].
    destruct (ke_find (te_kill e)); [|by injection H as <- <-].
    destruct (ke_windows (te_kill e)); injection H as <- <-; by split_and!.
  - pose proof only_kill_signals as Ho. rewrite Forall_forall in Ho.
    destruct Hne. exact (Ho _ (assoc_In _ _ _ Eh) Hk _ _ _ _ _ H).
Qed.

(** ** Where sessions start *)

Lemma Start_new req e m res m' :
  ProcessMgr.Start req e m = (Ok res, m') ->
  exists ref p, procs m' !! ProcessID res = Some ref /\ ProcessMgr.heap m' !! ref = Some p /\
    cmd_Dir (p_cmd p) = Cwd req.
Proof.
  unfold ProcessMgr.Start. destruct (maxProcs m <=? ProcessMgr.active m); [done|].
  destruct (_ ≫= _) as [[[id cmd] pid]|] eqn:E; [|done]. intros [= <- <-].
  apply result_bind_ok in E as (id' & _ & E). apply result_bind_ok in E as (argv & _ & E).
  apply result_bind_ok in E as (env & _ & E). apply result_bind_ok in E as (_ & _ & E).
  apply result_bind_ok in E as (pid' & _ & [= <- <- <-]). simpl.
  eexists _, _. split; [apply lookup_insert_eq|]. split; [apply lookup_insert_eq|]. done.
Qed.

Lemma Start_search q rid root m id m' :
  SearchMgr.Start ToLower compile q rid root m = (Ok id, m') ->
  exists ref s, sessions m' !! id = Some ref /\ SearchMgr.heap m' !! ref = Some s /\
    Query_Path (s_query s) = Clean (Query_Path q) /\
    s_run s = Walking (match root with Ok n => [IEntry (Clean (Query_Path q)) n] | Err _ => [] end).
Proof.
  unfold SearchMgr.Start. destruct (normalize q) as [q'|] eqn:En; [|done].
  assert (Query_Path q' = Clean (Query_Path q)) as Hp.
  { unfold normalize in En. case_decide; [done|]. destruct (_ && _); [done|]. by injection En as <-. }
  destruct (newMatcher _ _ _ _ _) as [matcher|]; [|done]. destruct rid as [id'|]; [|done].
  destruct (maxSessions m <=? _); [done|]. intros [= <- <-]. simpl.
  eexists _, _. split; [apply lookup_insert_eq|]. split; [apply lookup_insert_eq|]. by rewrite Hp.
Qed.

(** A path below a root, with no symbolic link in it, that exists. *)
Definition safe_path (w : World) (path : string) : Prop :=
  exists cs, path = render true cs /\ under_root paths cs /\ canonical (fs_of w) cs.

(** Sessions start below the roots: the working directory that a client
    chooses for a process, and the directory it chooses to search, are the
    resolved form of what it asked for, exist and lie below an allowed root;
    the search starts at that directory. *)
Theorem sessions_start_below_roots r e a a' :
  ready paths (ag_world a) ->
  (forall res, Execute "start_process" r e a = (Ok (VStarted res), a') ->
    exists req ref p, dec_start dec r = Ok req /\
      procs (ag_procs a') !! ProcessID res = Some ref /\ ProcessMgr.heap (ag_procs a') !! ref = Some p /\
      (Cwd req = EmptyString /\ cmd_Dir (p_cmd p) = EmptyString \/
       Cwd req <> EmptyString /\ safe_path (ag_world a) (cmd_Dir (p_cmd p)))) /\
  (forall id, Execute "start_search" r e a = (Ok (VSearch id), a') ->
    exists ref s n path, sessions (ag_search a') !! id = Some ref /\ SearchMgr.heap (ag_search a') !! ref = Some s /\
      Query_Path (s_query s) = path /\ safe_path (ag_world a) path /\
      s_run s = Walking match n with Some n => [IEntry path n] | None => [] end).
Proof.
  intros Hw. split.
  - intros res. change (Execute "start_process" r e a) with (startProcess paths dec r e a).
    unfold startProcess, with_args. destruct (dec_start dec r) as [req|]; [|done].
    assert (forall req' b, start e req' b = (Ok (VStarted res), a') ->
      exists ref p, procs (ag_procs a') !! ProcessID res = Some ref /\
        ProcessMgr.heap (ag_procs a') !! ref = Some p /\ cmd_Dir (p_cmd p) = Cwd req') as Hst.
    { intros req' b. unfold start. destruct (ProcessMgr.Start req' (te_start e) (ag_procs b)) as [[res'|] m] eqn:Es; [|done].
      simpl. intros [= -> <-]. by apply Start_new in Es. }
    case_decide as Hc.
    + intros (ref & p & ? & ? & Hd)%Hst. exists req, ref, p. split; [done|]. split; [done|]. split; [done|].
      left. by rewrite Hd.
    + unfold with_path. destruct (resolveExisting paths (Cwd req) (ag_world a)) as [[cwd|er] w] eqn:Er; [|done].
      intros (ref & p & ? & ? & Hd)%Hst. exists req, ref, p. split; [done|]. split; [done|]. split; [done|].
      right. split; [done|]. rewrite Hd. simpl.
      eapply (resolveExisting_run paths) in Er as (cs & -> & Hu & _ & Hcan); [|apply Hw|apply Hw|apply still_refl].
      by exists cs.
  - intros id. change (Execute "start_search" r e a) with (startSearch paths ToLower compile dec r e a).
    unfold startSearch, with_args. destruct (dec_query dec r) as [q|]; [|done].
    unfold with_path. destruct (resolveExisting paths (Query_Path q) (ag_world a)) as [[root|er] w] eqn:Er; [|done].
    simpl. destruct (stat root w) as [[st|er] w'] eqn:Es; [|done]. destruct (negb (is_dir st)); [done|].
    simpl. destruct (SearchMgr.Start _ _ _ _ _ _) as [[id'|er] m] eqn:Em; [|done]. simpl. intros [= -> <-].
    eapply (resolveExisting_run paths) in Er as (cs & -> & Hu & Hn & Hcan); [|apply Hw|apply Hw|apply still_refl].
    apply Start_search in Em as (ref & s & Hs & Hh & Hp & Hrun). cbn [Query_Path set_Path ag_world set_world] in Hp, Hrun.
    rewrite Clean_render in Hp, Hrun by done.
    exists ref, s, (match Lstat (w_os w') (render true cs) with Ok n => Some n | Err _ => None end), (render true cs).
    split; [done|]. split; [done|]. split; [done|]. split; [by exists cs|]. rewrite Hrun.
    by destruct (Lstat _ _).
Qed.

(** ** Answers to call frames *)

Context (json_Marshal : value -> result (list byte)).
Context (error_text : error -> string).
Notation handleCall := (handleCall paths allowKillProcess ToLower compile dec json_Marshal error_text).
Notation agent_turn := (agent_turn paths allowKillProcess ToLower compile dec json_Marshal error_text).

(** Every call is answered: for a valid call frame the agent runs the tool
    once and writes one result frame, valid, with the identifier of the call,
    that carries the tool's value or, if the tool or the encoding failed, an
    error whose code tells a path outside the roots and a missing file or
    process from the rest.  Pings are answered by pongs with their
    identifier, pongs by nothing, and a result frame ends the connection. *)
Theorem calls_are_answered f e a :
  Validate f = Ok tt ->
  (Frame_Type f = TypeCall /\
   exists out, agent_turn f e a = (Ok (Some out), (Execute (Frame_Tool f) (Frame_Args f) e a).2) /\
     Validate out = Ok tt /\ Frame_Type out = TypeResult /\ Frame_ID out = Frame_ID f /\
     match (Execute (Frame_Tool f) (Frame_Args f) e a).1 with
     | Ok v => match json_Marshal v with
               | Ok raw => Frame_OK out = true /\ Frame_Result out = raw /\ Frame_Error out = None
               | Err _ => Frame_OK out = false /\ option_map RemoteError_Code (Frame_Error out) = Some "internal_error"%string
               end
     | Err er => Frame_OK out = false /\ Frame_Error out = Some (mkRemoteError (classify er) (error_text er))
     end) \/
  (Frame_Type f = TypePing /\ exists out, agent_turn f e a = (Ok (Some out), a) /\
     Validate out = Ok tt /\ Frame_Type out = TypePong /\ Frame_ID out = Frame_ID f) \/
  (Frame_Type f = TypePong /\ agent_turn f e a = (Ok None, a)) \/
  (Frame_Type f = TypeResult /\ exists er, agent_turn f e a = (Err er, a)).
Proof.
  intros Hv. pose proof Hv as Hwf. apply Validate_well_formed in Hwf. unfold Tools.agent_turn. rewrite Hv.
  destruct Hwf as [Ht Hi _ _|Ht _ _|Ht].
  - left. split; [done|]. rewrite decide_True by done. unfold Tools.handleCall.
    destruct (Execute _ _ _ _) as [[v|er] a']; cbn [fst snd].
    + destruct (json_Marshal v) as [b|er]; eexists; (split; [reflexivity|]); (split; [apply Validate_well_formed|done]).
      * apply wf_result; [done|done|by left].
      * apply wf_result; [done|done|right; by eexists].
    + eexists; (split; [reflexivity|]); (split; [apply Validate_well_formed|done]).
      apply wf_result; [done|done|right; by eexists].
  - do 3 right. rewrite Ht. split; [done|]. by eexists.
  - assert (Frame_Type f = TypePing \/ Frame_Type f = TypePong) as [Hp|Hp] by set_solver; rewrite Hp.
    + right; left. split; [done|]. eexists. split; [reflexivity|]. by split_and!.
    + do 2 right; left. by split.
Qed.

(** ** The server, the hub and the agent together *)

(** What the hub hands to the caller when the agent's answer to the call
    frame with the identifier [id] arrives. *)
Definition device_answer (id tool : string) (args : list byte) (e : ToolEnv) (a : Agent) : result Result :=
  let out := (handleCall (mkFrame TypeCall id tool args false [] None) e a).1 in
  returned (mkPending (mkResult (Frame_Result out) (Frame_Error out)) None).

Context (parse : list byte -> option json).
Context (print : json -> string).
Context (unicode_ToLower : string -> string).
Context (float64 : string -> option string).
Context (time_json : Z -> json).
Context (url : string).
Notation serveHTTP := (serveHTTP parse print unicode_ToLower float64 error_text time_json url).

(** C9 What the client gets is what the tool did: when a request relays a call
    and the hub returns the answer of the device, the reply to the client
    carries the value that [Execute] returned there, as the device encoded
    it; or, if [Execute] failed, a tool error with the class and the text of
    that failure; and the tool is one that the device supports. *)
Theorem tool_results_reach_the_client r tr rep pre s dev tool payload y post id args e a :
  follows (serveHTTP r) tr rep -> tr = pre ++ ev (OCall s dev tool payload) y :: post ->
  y = device_answer id tool args e a ->
  tool ∈ SupportedTools /\
  exists x req modern, parse (Request_Body r) = Some x /\
    decode_struct set_rpcRequest x zero_rpcRequest = (req, true) /\
    match (Execute tool args e a).1 with
    | Ok v => forall b j out,
        json_Marshal v = Ok b -> b <> [] -> b <> bytes_of_string "null" ->
        parse b = Some j -> to_any float64 j = Some out ->
        rep = toolResult print error_text (req_ID req) (Ok out) modern
    | Err er =>
        rep = toolResult print error_text (req_ID req)
                (Err (Errorf "%s: %s" [classify er; error_text er])) modern
    end.
Proof.
  intros H E Hy. destruct (reply_to_call _ _ _ _ _ _ _ _ _ _ _ _ _ _ _ _ _ H E) as [Hk (x & req & modern & Hp & Hd & Hr)].
  split; [by apply (relayed_tools_are_supported_aux tool)|].
  exists x, req, modern. split; [done|]. split; [done|]. rewrite Hr, Hy. unfold device_answer, Tools.handleCall. simpl.
  destruct (Execute tool args e a) as [[v|er] a']; simpl; [|done].
  intros b j out -> Hne Hnn Hj Ho. simpl. unfold output_of.
  rewrite !bool_decide_eq_true_2 by done. simpl. rewrite Hj. simpl. by rewrite Ho.
Qed.
End Agent.
