(* ===== verification/ToolsDemo.v ===== *)
(** * Runs of the agent, and the witnesses of ToolsProps.v *)
From S2P Require Import Prelude Crypto GoStrings Text Base64 Protocol.
From S2P Require Import Filepath FileSystem PathPolicy FileOps Executor FileProps ExecutorProps ToolClaims.
From S2P Require Import OsProc ProcessMgr SearchMgr Tools.
From S2P Require Import Json Http Authn Store RelayHub Effects Mcp McpProps ToolsProps.
Local Open Scope Z_scope.

(** The same arguments whatever the text says. *)
Definition demo_dec : Decoders :=
  mkDecoders (fun _ => Ok (mkReadFileArgs "f" 0 0)) (fun _ => Ok (mkWriteFileArgs "in/g" "hi" "" 0))
    (fun _ => Ok (mkReadMultipleArgs ["f"] 0)) (fun _ => Ok (mkEditArgs "f" "X" "Y" 3))
    (fun _ => Ok (mkCreateDirArgs "in/a/b" 0)) (fun _ => Ok (mkMoveArgs "f" "in/h" false))
    (fun _ => Ok (mkStartRequest ["ls"] "" "in" ∅)) (fun _ => Ok (mkReadProcessArgs "p1" 0 0))
    (fun _ => Ok (mkWriteProcessArgs "p1" "x" "")) (fun _ => Ok (mkQuery "in" "h" "files" false true false 0 0))
    (fun _ => Ok (mkGetMoreArgs "s1" 0)) (fun _ => Ok "in") (fun _ => Ok "p1") (fun _ => Ok "s1")
    (fun _ => Ok 0) (fun _ => Ok 42)%string.

Definition demo_env : ToolEnv :=
  mkToolEnv (mkStartEnv (Ok "p1") false [] (Ok tt) (Ok 77)) (Ok tt) (Ok tt) (Ok "s1")
    (fun _ => Ok []) (mkKillEnv false 1 (Ok tt) (Ok tt)) ("linux", "amd64")%string.

Definition demo_agent : Agent := mkAgent tool_world (NewManager 2 100 100 false) (SearchMgr.New 8) [].

Notation demo_Execute := (Execute demo_policy true (fun s => s) (fun _ => Err (NewErr "no regexp")) demo_dec).


Lemma kill_process_is_guarded_witness :
  "kill_process"%string = "kill_process"%string /\ true = true /\
  exists pid, dec_pid demo_dec [] = Ok pid /\ 0 < pid /\ pid <> ke_getpid (te_kill demo_env) /\
    ag_signalled (demo_Execute "kill_process" [] demo_env demo_agent).2 = ag_signalled demo_agent ++ [pid].
Proof.
  apply (kill_process_is_guarded demo_policy true (fun s => s) (fun _ => Err (NewErr "no regexp")) demo_dec
    "kill_process" [] demo_env demo_agent _ _ (surjective_pairing _)).
  vm_compute. discriminate.
Defined.

Lemma sessions_start_below_roots_witness :
  exists req ref p, dec_start demo_dec [] = Ok req /\
    procs (ag_procs (demo_Execute "start_process" [] demo_env demo_agent).2) !! "p1"%string = Some ref /\
    ProcessMgr.heap (ag_procs (demo_Execute "start_process" [] demo_env demo_agent).2) !! ref = Some p /\
    (Cwd req = EmptyString /\ cmd_Dir (p_cmd p) = EmptyString \/
     Cwd req <> EmptyString /\ safe_path demo_policy tool_world (cmd_Dir (p_cmd p))).
Proof.
  apply (proj1 (sessions_start_below_roots demo_policy true (fun s => s) (fun _ => Err (NewErr "no regexp")) demo_dec
    [] demo_env demo_agent (demo_Execute "start_process" [] demo_env demo_agent).2 tool_world_ready)
    (mkStartResult "p1" 77)).
  vm_compute. reflexivity.
Defined.

Example search_starts :
  (demo_Execute "start_search" [] demo_env demo_agent).1 = Ok (VSearch "s1").
Proof. vm_compute. reflexivity. Qed.

Definition demo_frame : Frame := mkFrame TypeCall "c1" "ping" [z2b 0] false [] None.

Lemma calls_are_answered_witness :
  exists out, agent_turn demo_policy true (fun s => s) (fun _ => Err (NewErr "no regexp")) demo_dec
      (fun _ => Ok [z2b 1]) (fun _ => EmptyString) demo_frame demo_env demo_agent =
      (Ok (Some out), (demo_Execute "ping" [z2b 0] demo_env demo_agent).2) /\
    Validate out = Ok tt /\ Frame_ID out = "c1"%string.
Proof.
  destruct (calls_are_answered demo_policy true (fun s => s) (fun _ => Err (NewErr "no regexp")) demo_dec
    (fun _ => Ok [z2b 1]) (fun _ => EmptyString) demo_frame demo_env demo_agent eq_refl)
    as [(_ & out & H & Hv & _ & Hi & _)|[[E _]|[[E _]|[E _]]]]; [|discriminate E..].
  exists out. split; [exact H|]. split; [exact Hv|exact Hi].
Defined.

(** ** A request, relayed to the agent and back *)

Definition demo_value : list byte := bytes_of_string "7".
Notation demo_device_answer :=
  (device_answer demo_policy true (fun s => s) (fun _ => Err (NewErr "no regexp")) demo_dec
    (fun _ => Ok demo_value) (fun _ => EmptyString)).
Definition full_parse (b : list byte) : option json :=
  if decide (b = demo_value) then Some (JNumber "7") else demo_parse b.

Definition full_handle (o : op) (now : Z) : answer o * Z :=
  match o return answer o * Z with
  | OCall s d t a => (demo_device_answer "c1" t [z2b 0] demo_env demo_agent, now)
  | o => demo_handle o now
  end.
Notation full_server :=
  (serveHTTP full_parse (fun _ => "7") (fun s => s) Some (fun _ => EmptyString) (fun _ => JNull) "u")%string.
Definition full_run : list event * reply * Z := run_prog full_handle (full_server demo_request) 0.

Lemma full_follows : follows (full_server demo_request) full_run.1.1 full_run.1.2.
Proof.
  apply (run_prog_follows full_handle _ 0 _ _ full_run.2).
  unfold full_run. by destruct (run_prog _ _ _) as [[tr a] w].
Qed.

Lemma tool_results_reach_the_client_witness :
  exists id modern, full_run.1.2 = toolResult (fun _ => "7"%string) (fun _ => EmptyString) id (Ok (JNumber "7")) modern.
Proof.
  assert (full_run.1.1 = take 3 full_run.1.1 ++
    ev (OCall "alice" "dev_1" "ping" {["n"%string := JNumber "1"]})
       (demo_device_answer "c1" "ping" [z2b 0] demo_env demo_agent) :: drop 4 full_run.1.1) as E
    by (vm_compute; reflexivity).
  destruct (tool_results_reach_the_client demo_policy true (fun s => s) (fun _ => Err (NewErr "no regexp")) demo_dec
    (fun _ => Ok demo_value) (fun _ => EmptyString) full_parse (fun _ => "7"%string) (fun s => s) Some
    (fun _ => JNull) "u" demo_request full_run.1.1 full_run.1.2 _ _ _ _ _ _ _ "c1" [z2b 0] demo_env demo_agent
    full_follows E eq_refl) as (_ & x & req & modern & _ & _ & H).
  exists (req_ID req), modern. apply (H demo_value (JNumber "7") (JNumber "7")); first [reflexivity | discriminate].
Defined.
