(* ===== verification/ControlPlaneDemo.v ===== *)
(** * A pairing on the in-memory store, and the witnesses of ControlPlaneProps.v *)
From S2P Require Import Prelude Crypto GoStrings Text Json Http Base64 Authn AuthnProps Store RelayHub Effects.
From S2P Require Import ControlPlane ControlPlaneProps.
Local Open Scope Z_scope.

(** Bodies of the form [key=value], in the place of JSON texts. *)
Definition demo_first_json (l : list byte) : option json :=
  i ← first_index (z2b 61) l;
  Some (JObject [(string_of_bytes (take i l), JString (string_of_bytes (drop (S i) l)))]).

Definition demo_http : HTTP := New "http://127.0.0.1:8080/" [] (bytes_of_string "a secret of the server").

Definition demo_post (body : string) : Request :=
  mkRequest "POST" {[ "Authorization" := ["Bearer t0"] ]}%string "10.0.0.1:9" ∅ (Ok ∅) ∅ (bytes_of_string body).

Definition demo_user : Identity := mkIdentity "alice" {["orc:tools"%string]} 0.
Definition demo_verify (token : string) : result Identity :=
  if decide (token = "t0"%string) then Ok demo_user else Err ErrInvalidToken.

Definition demo_rd : list byte := repeat (z2b 7) 32.
Definition demo_rc : list byte := repeat (z2b 200) 8.
Definition demo_site : Site := mkSite NewMemory 5 [demo_rd; demo_rc] demo_verify.

Notation demo_start := (api_start demo_first_json (fun s => s) (fun s => s) demo_http).
Notation demo_approve := (api_approve demo_first_json (fun s => s) demo_http).
Notation demo_token := (api_token demo_first_json demo_http).
Notation demo_run p w := (run_prog site_handle p w).

Definition start_request : Request := demo_post "device_name= laptop ".
Definition approve_request : Request := demo_post "user_code=jjj-j j j-jj".
Definition token_request : Request := demo_post ("device_code=" +:+ RawURL_Encode demo_rd).

Definition demo_approve_trace : list event := (demo_run (demo_approve approve_request) demo_site).1.1.
Definition demo_approve_reply : reply := (demo_run (demo_approve approve_request) demo_site).1.2.

(** No pairing has been started: the code is unknown, but the calls are the
    same. *)
Lemma demo_approve_follows : follows (demo_approve approve_request) demo_approve_trace demo_approve_reply.
Proof.
  apply (run_prog_follows site_handle _ demo_site _ _ (demo_run (demo_approve approve_request) demo_site).2).
  unfold demo_approve_trace, demo_approve_reply. by destruct (demo_run _ _) as [[tr a] w].
Qed.

Definition demo_hash : string := hashUserCode (fun s => s) demo_http "JJJJJJJJ".

Lemma control_plane_is_guarded_witness :
  exists pre x post, demo_approve_trace = pre ++ ev (OApprovePairing demo_hash "alice") x :: post /\
    limited pre /\ signed_in pre "alice".
Proof.
  exists (take 2 demo_approve_trace), (Err ErrNotFound), [].
  assert (demo_approve_trace = take 2 demo_approve_trace ++ [ev (OApprovePairing demo_hash "alice") (Err ErrNotFound)]) as E
    by (vm_compute; reflexivity).
  split; [exact E|].
  exact (control_plane_is_guarded demo_first_json (fun s => s) (fun s => s) demo_http "POST /api/v1/pairings/approve" demo_approve approve_request
    demo_approve_trace demo_approve_reply _ (OApprovePairing demo_hash "alice") _ []
    ltac:(apply list_elem_of_further, list_elem_of_here) demo_approve_follows E).
Defined.

Lemma pairing_issues_credentials_witness :
  exists tr1 tr2 tr3 tr4 w1 w2 w3 w4 resp tok d code msg,
    demo_run (demo_start start_request) (mkSite NewMemory 5 [demo_rd; demo_rc] demo_verify) =
      (tr1, JSONReply 201 (BStart resp), w1) /\
    ps_DeviceCode resp = RawURL_Encode demo_rd /\ ps_UserCode resp = human_code demo_rc /\
    demo_run (demo_approve approve_request) (mkSite (st_mem w1) 7 [] demo_verify) =
      (tr2, JSONReply 200 BApproved, w2) /\
    demo_run (demo_token token_request) (mkSite (st_mem w2) 9 [demo_rc; demo_rd] demo_verify) =
      (tr3, JSONReply 200 (BToken tok), w3) /\
    AuthenticateDevice (pt_DeviceID tok) (pt_AccessToken tok) (st_mem w3) = Ok d /\
    Device_OwnerSubject d = "alice"%string /\ Device_Name d = "laptop"%string /\
    demo_run (demo_token token_request) (mkSite (st_mem w3) 11 [demo_rc; demo_rd] demo_verify) =
      (tr4, JSONReply 410 (BError code msg), w4) /\
    st_mem w4 = st_mem w3.
Proof.
  exact (pairing_issues_credentials demo_first_json (fun s => s) (fun s => s) demo_http NewMemory demo_verify 5 7 9 11
    demo_rd demo_rc demo_rc demo_rd demo_rc demo_rd start_request approve_request token_request " laptop "
    "jjj-j j j-jj" "t0" demo_user
    eq_refl eq_refl ltac:(vm_compute; reflexivity) ltac:(vm_compute; reflexivity) ltac:(vm_compute; reflexivity)
    ltac:(vm_compute; reflexivity) ltac:(vm_compute; discriminate) ltac:(vm_compute; discriminate)
    ltac:(vm_compute; reflexivity) ltac:(vm_compute; reflexivity) ltac:(vm_compute; reflexivity)
    ltac:(vm_compute; discriminate) ltac:(vm_compute; reflexivity) ltac:(vm_compute; reflexivity)
    ltac:(vm_compute; reflexivity) eq_refl eq_refl eq_refl ltac:(vm_compute; discriminate) ltac:(vm_compute; discriminate)).
Defined.
