(* ===== verification/Config.v ===== *)
(** * Configuration: internal/config/config.go

    What LoadServer and LoadAgent make of the environment.  [getenv] is
    [os.Getenv]; [url_Parse], [ParseIP], [ParseDuration], [user_home],
    [os_hostname] and the working directory are answers of the libraries and
    the system.  [windows] is [runtime.GOOS == "windows"], where a list of
    paths is separated by semicolons. *)
From S2P Require Import Prelude Crypto GoStrings Text Json Http Filepath.
Local Open Scope Z_scope.

(** The fields of a [url.URL] that are read, and its text. *)
Record URL := mkURL { URL_Scheme : string; URL_Host : string; URL_String : string }.

(** [u.Hostname()]: the host without an optional port and without brackets. *)
Definition valid_optional_port (l : list byte) : bool := forallb is_digit l.
Definition strip_port (l : list byte) : list byte :=
  match last_index colon l with
  | Some i => if valid_optional_port (drop (S i) l) then take i l else l
  | None => l
  end.
Definition strip_brackets (l : list byte) : list byte :=
  if decide (head l = Some bracket_open /\ last l = Some bracket_close /\ (2 <= length l)%nat) then
    take (length l - 2) (drop 1 l)
  else l.
Definition Hostname (u : URL) : string :=
  string_of_bytes (strip_brackets (strip_port (bytes_of_string (URL_Host u)))).

Record Server := mkServer {
  ListenAddr : string;
  PublicBaseURL : string;
  AuthMode : string;
  AuthAudience : string;
  AuthIssuer : string;
  HMACSecret : string;
  PairingSecret : string;
  IntrospectionURL : string;
  IntrospectionID : string;
  IntrospectionSecret : string;
  DatabaseURL : string;
  NeonHTTPEndpoint : string;
  AllowedOrigins : list string;
  MaxInFlightPerDevice : Z;
  MCPTrustLoopback : bool;
  MCPTrustedSubject : string }.

Record Agent := mkAgent {
  ServerURL : string;
  DeviceID : string;
  AgentToken : string;
  DeviceName : string;
  AllowedRoots : list string;
  MaxProcesses : Z;
  MaxProcessBytes : Z;
  MaxRuntime : Z;
  AllowShell : bool;
  AllowKillProcess : bool }.

Definition slash : byte := z2b 47.
Definition comma : Ascii.ascii := Ascii.ascii_of_nat 44.
Definition semicolon : Ascii.ascii := Ascii.ascii_of_nat 59.
Definition colon_char : Ascii.ascii := Ascii.ascii_of_nat 58.

(** [strings.Contains(s, c)] for one character. *)
Definition contains_char (s : string) (c : Ascii.ascii) : bool :=
  bool_decide (c ∈ String.list_ascii_of_string s).

Section Config.
Context (getenv : string -> string).
Context (unicode_ToLower : string -> string).
Context (url_Parse : string -> result URL).
Context (ParseIP : string -> option (list byte)).
Context (ParseDuration : string -> result Z).
Context (windows : bool).
Context (user_home getwd os_hostname : result string).

(** ** Variables of the environment *)

(** [func env(k, fallback string) string] *)
Definition env (k fallback : string) : string :=
  let v := TrimSpace (getenv k) in if decide (v <> EmptyString) then v else fallback.

(** [func envInt(k string, fallback int) int] *)
Definition envInt (k : string) (fallback : Z) : Z :=
  let v := TrimSpace (getenv k) in
  if decide (v = EmptyString) then fallback
  else match Atoi v with Ok n => n | Err _ => fallback end.

(** [func envDuration(k string, fallback time.Duration) time.Duration] *)
Definition envDuration (k : string) (fallback : Z) : Z :=
  let v := TrimSpace (getenv k) in
  if decide (v = EmptyString) then fallback
  else match ParseDuration v with Ok d => d | Err _ => fallback end.

(** [func envBool(k string, fallback bool) bool] *)
Definition envBool (k : string) (fallback : bool) : bool :=
  let v := TrimSpace (ToLower unicode_ToLower (getenv k)) in
  if decide (v = EmptyString) then fallback
  else if decide (v ∈ ["1"; "true"; "yes"; "on"]%string) then true
  else if decide (v ∈ ["0"; "false"; "no"; "off"]%string) then false
  else fallback.

(** The words of a list that are not blank. *)
Definition nonblank (l : list string) : list string :=
  filter (fun p => p <> EmptyString) (TrimSpace <$> l).

(** [func splitCSV(v string) []string] *)
Definition splitCSV (v : string) : list string := nonblank (Split v comma).

(** [func splitPathList(v string) []string] *)
Definition splitPathList (v : string) : list string :=
  if decide (TrimSpace v = EmptyString) then []
  else
    let sep := if windows then semicolon else colon_char in
    let sep := if windows && contains_char v comma && negb (contains_char v sep) then comma else sep in
    nonblank (Split v sep).

(** [func isLoopback(host string) bool] *)
Definition isLoopback (host : string) : bool :=
  if EqualFold host "localhost" then true
  else match ParseIP host with Some ip => IsLoopback ip | None => false end.

(** [func hostname() string] *)
Definition hostname : string :=
  match os_hostname with
  | Ok h => if decide (h = EmptyString) then "unnamed-device" else h
  | Err _ => "unnamed-device"
  end.

(** ** The checks *)

Definition guard_config (b : bool) (e : error) : result unit := if b then Ok tt else Err e.

(** [u, err := url.Parse(s); err != nil || u.Host == ""], and the scheme. *)
Definition parse_base (s : string) (invalid insecure : error) : result URL :=
  match url_Parse s with
  | Err _ => Err invalid
  | Ok u =>
      if decide (URL_Host u = EmptyString) then Err invalid
      else if bool_decide (URL_Scheme u <> "https"%string)
              && (bool_decide (URL_Scheme u <> "http"%string) || negb (isLoopback (Hostname u)))
      then Err insecure
      else Ok u
  end.

(** The configuration that [LoadServer] checks. *)
Definition server_of_env : Server :=
  mkServer (env "ORC_LISTEN_ADDR" "127.0.0.1:8080")
    (TrimRight (env "ORC_PUBLIC_BASE_URL" "http://127.0.0.1:8080") slash)
    (env "ORC_AUTH_MODE" "dev")
    (env "ORC_AUTH_AUDIENCE" "http://127.0.0.1:8080/mcp")
    (TrimRight (getenv "ORC_AUTH_ISSUER") slash)
    (getenv "ORC_HMAC_SECRET")
    (getenv "ORC_PAIRING_SECRET")
    (getenv "ORC_INTROSPECTION_URL")
    (getenv "ORC_INTROSPECTION_CLIENT_ID")
    (getenv "ORC_INTROSPECTION_CLIENT_SECRET")
    (getenv "DATABASE_URL")
    (getenv "ORC_NEON_HTTP_ENDPOINT")
    (splitCSV (getenv "ORC_ALLOWED_ORIGINS"))
    (envInt "ORC_MAX_IN_FLIGHT_PER_DEVICE" 16)
    (envBool "ORC_MCP_TRUST_LOOPBACK" false)
    (TrimSpace (getenv "ORC_MCP_TRUSTED_SUBJECT")).

(** The checks on loopback trust. *)
Definition check_trust (c : Server) : result unit :=
  if MCPTrustLoopback c then
    if decide (MCPTrustedSubject c = EmptyString) then
      Err (New "ORC_MCP_TRUSTED_SUBJECT is required when ORC_MCP_TRUST_LOOPBACK=true")
    else
      match SplitHostPort (ListenAddr c) with
      | Ok (host, _) =>
          guard_config (isLoopback host) (New "ORC_MCP_TRUST_LOOPBACK requires an explicit loopback ORC_LISTEN_ADDR")
      | Err _ => Err (New "ORC_MCP_TRUST_LOOPBACK requires an explicit loopback ORC_LISTEN_ADDR")
      end
  else Ok tt.

(** The switch on the mode of authentication. *)
Definition check_auth (c : Server) : result unit :=
  if decide (AuthMode c = "dev"%string) then
    guard_config (32 <=? slen (HMACSecret c)) (New "ORC_HMAC_SECRET must be at least 32 bytes in dev auth mode")
  else if decide (AuthMode c = "introspection"%string) then
    match url_Parse (IntrospectionURL c) with
    | Err _ => Err (New "ORC_INTROSPECTION_URL must be an https URL")
    | Ok iu =>
        if bool_decide (URL_Scheme iu <> "https"%string) || bool_decide (URL_Host iu = EmptyString)
        then Err (New "ORC_INTROSPECTION_URL must be an https URL")
        else guard_config (bool_decide (AuthIssuer c <> EmptyString))
               (New "ORC_AUTH_ISSUER is required in introspection mode")
    end
  else Err (Errorf "unsupported ORC_AUTH_MODE %q" [AuthMode c]).

(** [func LoadServer() (Server, error)] *)
Definition LoadServer : result Server :=
  let c := server_of_env in
  _ ← guard_config (bool_decide (ListenAddr c <> EmptyString)) (New "listen address is required");
  _ ← parse_base (PublicBaseURL c) (New "invalid ORC_PUBLIC_BASE_URL")
        (New "ORC_PUBLIC_BASE_URL must use https outside loopback");
  _ ← guard_config ((1 <=? MaxInFlightPerDevice c) && (MaxInFlightPerDevice c <=? 128))
        (New "ORC_MAX_IN_FLIGHT_PER_DEVICE must be between 1 and 128");
  _ ← guard_config (32 <=? slen (PairingSecret c)) (New "ORC_PAIRING_SECRET must be at least 32 bytes");
  _ ← check_trust c;
  _ ← check_auth c;
  Ok c.

(** The loop of [LoadAgent] over the roots. *)
Fixpoint absolute_roots (roots : list string) : result (list string) :=
  match roots with
  | [] => Ok []
  | root :: roots' =>
      match Abs getwd root with
      | Err e => Err (Wrapf "allowed root %q: %w" [root] e)
      | Ok abs => rest ← absolute_roots roots'; Ok (abs :: rest)
      end
  end.

(** The roots that are named, or the home directory. *)
Definition root_list : result (list string) :=
  match splitPathList (getenv "ORC_ALLOWED_ROOTS") with
  | [] =>
      match user_home with
      | Ok home => Ok [home]
      | Err _ => Err (New "ORC_ALLOWED_ROOTS is required when home cannot be resolved")
      end
  | roots => Ok roots
  end.

(** [func LoadAgent() (Agent, error)] *)
Definition LoadAgent : result Agent :=
  roots ← root_list;
  roots ← absolute_roots roots;
  let c := mkAgent (TrimRight (env "ORC_SERVER_URL" "http://127.0.0.1:8080") slash)
    (getenv "ORC_DEVICE_ID") (getenv "ORC_AGENT_TOKEN") (env "ORC_DEVICE_NAME" hostname) roots
    (envInt "ORC_MAX_PROCESSES" 8) (envInt "ORC_MAX_PROCESS_BUFFER_BYTES" (Z.shiftl 1 20))
    (envDuration "ORC_MAX_PROCESS_RUNTIME" Hour)
    (envBool "ORC_ALLOW_SHELL" false) (envBool "ORC_ALLOW_KILL_PROCESS" false) in
  _ ← parse_base (ServerURL c) (New "invalid ORC_SERVER_URL")
        (New "ORC_SERVER_URL must use https outside loopback");
  _ ← guard_config ((1 <=? MaxProcesses c) && (MaxProcesses c <=? 64))
        (New "ORC_MAX_PROCESSES must be between 1 and 64");
  _ ← guard_config ((Z.shiftl 64 10 <=? MaxProcessBytes c) && (MaxProcessBytes c <=? Z.shiftl 32 20))
        (New "ORC_MAX_PROCESS_BUFFER_BYTES must be between 64KiB and 32MiB");
  Ok c.
End Config.

(** ** Facts *)

Example csv_words : splitCSV " https://a.example ,,https://b.example" = ["https://a.example"; "https://b.example"]%string.
Proof. vm_compute. reflexivity. Qed.

Example windows_commas : splitPathList true "C:\a, C:\b" = ["C:\a"; "C:\b"]%string.
Proof. vm_compute. reflexivity. Qed.

Example hostname_v6 : Hostname (mkURL "http" "[::1]:8080" "http://[::1]:8080") = "::1"%string.
Proof. vm_compute. reflexivity. Qed.
