(* ===== verification/OrcServer.v ===== *)
(** * The server: cmd/orc-server/main.go

    What [main] builds from the configuration, and the route of the MCP
    endpoint; all routes are in Service.v.  Listening, signals and shutdown
    are not modelled. *)
From S2P Require Import Prelude Crypto GoStrings Text Json Http Authn Store RelayHub Effects Mcp Config.
From S2P Require ControlPlane.
Local Open Scope Z_scope.

(** The verifiers that [buildVerifier] returns. *)
Inductive Verifier :=
| VHMAC (v : HMACVerifier)
| VIntrospection (v : IntrospectionVerifier).

(** What [main] holds before it listens. *)
Record Service (N : Type) := mkService {
  sv_config : Server;
  sv_store : Memory + N;
  sv_verifier : Verifier;
  sv_trust : option (LoopbackTrust Verifier);
  sv_hub : Hub;
  sv_metadataURL : string;
  sv_controlplane : ControlPlane.HTTP }.
Arguments mkService {N}.
Arguments sv_config {N}.
Arguments sv_store {N}.
Arguments sv_verifier {N}.
Arguments sv_trust {N}.
Arguments sv_hub {N}.
Arguments sv_metadataURL {N}.
Arguments sv_controlplane {N}.

Section OrcServer.
Context (getenv : string -> string).
Context (unicode_ToLower : string -> string).
Context (url_Parse : string -> result URL).
Context (ParseIP : string -> option (list byte)).

(** [func buildVerifier(cfg config.Server) (authn.Verifier, error)] *)
Definition buildVerifier (cfg : Server) : result Verifier :=
  if decide (AuthMode cfg = "dev"%string) then
    VHMAC <$> NewHMACVerifier (bytes_of_string (HMACSecret cfg)) (AuthAudience cfg)
  else if decide (AuthMode cfg = "introspection"%string) then
    u ← url_Parse (IntrospectionURL cfg);
    Ok (VIntrospection (mkIntrospectionVerifier (Some (URL_Scheme u, URL_String u)) (AuthAudience cfg) 0 ∅))
  else Err (New "unsupported auth mode").

(** [func buildStore(cfg config.Server) (store.Store, error)]; a Neon store
    is what [store.NewNeonHTTP] returned. *)
Definition buildStore {N} (NewNeonHTTP : string -> string -> result N) (cfg : Server) : result (Memory + N) :=
  if decide (TrimSpace (DatabaseURL cfg) = EmptyString) then Ok (inl NewMemory)
  else inr <$> NewNeonHTTP (DatabaseURL cfg) (NeonHTTPEndpoint cfg).

(** [main] up to the routes: [Err] is an exit with status 2.  [raw] and
    [expiry] are what [NewLoopbackTrust] reads. *)
Definition main_service {N} (NewNeonHTTP : string -> string -> result N) (raw : result (list byte)) (expiry : Z)
    : result (Service N) :=
  cfg ← LoadServer getenv unicode_ToLower url_Parse ParseIP;
  st ← buildStore NewNeonHTTP cfg;
  verifier ← buildVerifier cfg;
  trust ← (if MCPTrustLoopback cfg
           then Some <$> NewLoopbackTrust (Some verifier) (MCPTrustedSubject cfg) raw expiry
           else Ok None);
  Ok (mkService cfg st verifier trust (NewHub (MaxInFlightPerDevice cfg))
        (PublicBaseURL cfg +:+ "/.well-known/oauth-protected-resource/mcp")
        (ControlPlane.New (PublicBaseURL cfg) (AllowedOrigins cfg) (bytes_of_string (PairingSecret cfg)))).

(** [func registerMetadataRoutes(mux, cfg)]: the routes it adds. *)
Definition registerMetadataRoutes (cfg : Server) : list string :=
  if MCPTrustLoopback cfg then []
  else ["GET /.well-known/oauth-protected-resource"; "GET /.well-known/oauth-protected-resource/mcp"]%string.

(** [func protectedResourceMetadata(cfg config.Server)]: the JSON it writes. *)
Definition protectedResourceMetadata (cfg : Server) : json :=
  let issuer := if decide (AuthIssuer cfg = EmptyString) then PublicBaseURL cfg else AuthIssuer cfg in
  JObject [("resource", JString (PublicBaseURL cfg +:+ "/mcp"));
           ("authorization_servers", JArray [JString issuer]);
           ("scopes_supported", JArray [JString "orc:tools"]);
           ("bearer_methods_supported", JArray [JString "header"])]%string.

(** [func originGuard(allowed []string, next http.Handler) http.Handler] *)
Definition originGuard (allowed : list string) (next : Request -> prog reply) (r : Request) : prog reply :=
  let set : gset string := list_to_set ((fun v => TrimRight v slash) <$> allowed) in
  let origin := TrimRight (TrimSpace (Request_Get r "Origin")) slash in
  if bool_decide (origin <> EmptyString) && negb (bool_decide (origin ∈ set)) then Ret (Plain 403 [])
  else next r.

(** The handler behind [/mcp], with [mcpWrap]. *)
Definition mcp_route {B} (allowed : list string) (trust : option (LoopbackTrust B))
    (handler : Request -> prog reply) : Request -> prog reply :=
  originGuard allowed (fun r => handler match trust with Some t => Middleware ParseIP t r | None => r end).

(** [mcpVerifier.Verify], where [base] answers for the configured verifier. *)
Definition mcp_verify (trust : option (LoopbackTrust (string -> result Identity))) (base : string -> result Identity)
    (token : string) : result Identity :=
  match trust with Some t => trust_Verify t token | None => base token end.
End OrcServer.
