(* ===== verification/OrcServerProps.v ===== *)
(** * What the configuration and the MCP route of the server guarantee *)
From S2P Require Import Prelude Crypto GoStrings Text Json Http Authn AuthnProps Store RelayHub Effects Mcp McpProps.
From S2P Require Import Config OrcServer.
From S2P Require ControlPlane.
Local Open Scope Z_scope.

#[local] Arguments TrimSpace : simpl never.
#[local] Arguments EqualFold : simpl never.

(** ** Reading the environment *)

Lemma guard_config_Ok b e : guard_config b e = Ok tt <-> b = true.
Proof. unfold guard_config. by destruct b. Qed.

(** A value of [env] is not blank. *)
Lemma env_not_blank getenv k fallback :
  TrimSpace fallback <> EmptyString -> TrimSpace (env getenv k fallback) <> EmptyString.
Proof. intros H. unfold env. case_decide as E; [by rewrite TrimSpace_idemp|done]. Qed.

(** The transport of a base URL that was accepted. *)
Definition secure_url (ParseIP : string -> option (list byte)) (u : URL) : Prop :=
  URL_Host u <> EmptyString /\
  (URL_Scheme u = "https"%string \/ URL_Scheme u = "http"%string /\ isLoopback ParseIP (Hostname u) = true).

Lemma parse_base_Ok url_Parse ParseIP s e1 e2 u :
  parse_base url_Parse ParseIP s e1 e2 = Ok u <-> url_Parse s = Ok u /\ secure_url ParseIP u.
Proof.
  unfold parse_base, secure_url. destruct (url_Parse s) as [u'|e]; [|by split; [|intros [? _]]].
  case_decide as Eh; [split; [done|]; by intros [[= ->] [? _]]|].
  destruct (decide (URL_Scheme u' = "https"%string)) as [Es|Es].
  { rewrite bool_decide_eq_false_2 by (intros H; exact (H Es)). simpl.
    split; [intros [= <-]; auto|by intros [[= ->] _]]. }
  rewrite bool_decide_eq_true_2 by done. simpl. destruct (decide (URL_Scheme u' = "http"%string)) as [Eh2|Eh2].
  - rewrite bool_decide_eq_false_2 by (intros H; exact (H Eh2)). simpl. destruct (isLoopback ParseIP (Hostname u')) eqn:El; simpl.
    + split; [intros [= <-]; auto|by intros [[= ->] _]].
    + split; [done|]. intros [[= ->] [_ [?|[_ ?]]]]; congruence.
  - rewrite bool_decide_eq_true_2 by done. simpl. split; [done|]. intros [[= ->] [_ [?|[? _]]]]; done.
Qed.

(** The host of the address that the server listens on. *)
Definition listens_on_loopback (ParseIP : string -> option (list byte)) (c : Server) : Prop :=
  exists host port, SplitHostPort (ListenAddr c) = Ok (host, port) /\ isLoopback ParseIP host = true.

(** When [LoadServer] accepts. *)
Definition server_ok (url_Parse : string -> result URL) (ParseIP : string -> option (list byte)) (c : Server) : Prop :=
  (exists u, url_Parse (PublicBaseURL c) = Ok u /\ secure_url ParseIP u) /\
  1 <= MaxInFlightPerDevice c <= 128 /\ 32 <= slen (PairingSecret c) /\
  (MCPTrustLoopback c = true -> MCPTrustedSubject c <> EmptyString /\ listens_on_loopback ParseIP c) /\
  (AuthMode c = "dev"%string /\ 32 <= slen (HMACSecret c) \/
   AuthMode c = "introspection"%string /\ AuthIssuer c <> EmptyString /\
   exists u, url_Parse (IntrospectionURL c) = Ok u /\ URL_Scheme u = "https"%string /\ URL_Host u <> EmptyString).

Lemma check_trust_Ok ParseIP c :
  check_trust ParseIP c = Ok tt <->
  (MCPTrustLoopback c = true -> MCPTrustedSubject c <> EmptyString /\ listens_on_loopback ParseIP c).
Proof.
  unfold check_trust, listens_on_loopback. destruct (MCPTrustLoopback c); [|by split].
  case_decide as E; [split; [done|]; intros H; by destruct (H eq_refl)|].
  destruct (SplitHostPort (ListenAddr c)) as [[host port]|e].
  - rewrite guard_config_Ok. split; [intros H _; eauto|]. intros H. by destruct (H eq_refl) as (_ & ? & ? & [= <- <-] & ?).
  - split; [done|]. intros H. by destruct (H eq_refl) as (_ & ? & ? & ? & _).
Qed.

Lemma check_auth_Ok url_Parse c :
  check_auth url_Parse c = Ok tt <->
  (AuthMode c = "dev"%string /\ 32 <= slen (HMACSecret c) \/
   AuthMode c = "introspection"%string /\ AuthIssuer c <> EmptyString /\
   exists u, url_Parse (IntrospectionURL c) = Ok u /\ URL_Scheme u = "https"%string /\ URL_Host u <> EmptyString).
Proof.
  unfold check_auth. case_decide as E1.
  { rewrite guard_config_Ok, Z.leb_le. split; [by left|]. intros [[_ ?]|[E2 _]]; [done|]. by rewrite E1 in E2. }
  case_decide as E2; [|split; [done|]; intros [[? _]|[? _]]; done].
  destruct (url_Parse (IntrospectionURL c)) as [iu|e].
  2:{ split; [done|]. intros [[? _]|(_ & _ & u & ? & _)]; done. }
  destruct (_ || _) eqn:Eb.
  - split; [done|]. intros [[? _]|(_ & _ & u & [= <-] & Hs & Hh)]; [done|].
    rewrite bool_decide_eq_false_2 in Eb by (intros H; exact (H Hs)). by rewrite bool_decide_eq_false_2 in Eb.
  - rewrite guard_config_Ok, bool_decide_eq_true. bool_props.
    split; [right; split; [done|split; [done|eauto]]|]. intros [[? _]|(_ & ? & _)]; done.
Qed.

Section Config.
Context (getenv : string -> string).
Context (unicode_ToLower : string -> string).
Context (url_Parse : string -> result URL).
Context (ParseIP : string -> option (list byte)).

Notation LoadServer := (LoadServer getenv unicode_ToLower url_Parse ParseIP).
Notation server_of_env := (server_of_env getenv unicode_ToLower).

Lemma server_of_env_not_blank :
  ListenAddr server_of_env <> EmptyString /\ TrimSpace (AuthAudience server_of_env) <> EmptyString.
Proof.
  split; [|apply env_not_blank; by vm_compute]. intros E.
  assert (TrimSpace (ListenAddr server_of_env) <> EmptyString) as H by (apply env_not_blank; by vm_compute).
  by rewrite E in H.
Qed.

Lemma LoadServer_Ok c : LoadServer = Ok c <-> c = server_of_env /\ server_ok url_Parse ParseIP c.
Proof.
  unfold Config.LoadServer, server_ok.
  rewrite (bool_decide_eq_true_2 _ (proj1 server_of_env_not_blank)). cbn [guard_config mbind result_bind].
  repeat setoid_rewrite result_bind_ok. split.
  - intros (u & Hu & [] & Hm & [] & Hp & [] & Ht & [] & Ha & [= <-]). split; [done|].
    apply parse_base_Ok in Hu. apply guard_config_Ok in Hm, Hp. bool_props.
    split; [eauto|]. split; [done|]. split; [done|]. by rewrite <- check_trust_Ok, <- check_auth_Ok.
  - intros (-> & (u & Hu) & Hm & Hp & Ht & Ha). exists u. split; [by apply parse_base_Ok|].
    exists tt. split; [apply guard_config_Ok, andb_true_iff; rewrite !Z.leb_le; lia|].
    exists tt. split; [apply guard_config_Ok, Z.leb_le; lia|]. exists tt. split; [by apply check_trust_Ok|].
    exists tt. split; [by apply check_auth_Ok|done].
Qed.
End Config.

(** ** Starting *)

(** A verifier that can accept a token. *)
Definition verifier_ready (v : Verifier) : Prop :=
  match v with
  | VHMAC h => 32 <= len (hv_secret h) /\ TrimSpace (hv_audience h) <> EmptyString
  | VIntrospection i => forall token, token <> EmptyString -> usable i token = true
  end.

Lemma buildVerifier_ready url_Parse c :
  TrimSpace (AuthAudience c) <> EmptyString -> check_auth url_Parse c = Ok tt ->
  exists v, buildVerifier url_Parse c = Ok v /\ verifier_ready v.
Proof.
  intros Ha Hc. apply check_auth_Ok in Hc. unfold buildVerifier.
  destruct Hc as [[-> Hs]|(-> & _ & u & Hu & Hh & _)].
  - rewrite decide_True by done. unfold NewHMACVerifier. rewrite <- length_bytes_of_string in Hs.
    rewrite (proj2 (Z.ltb_ge _ _)) by done. rewrite decide_False by done. by eexists.
  - rewrite decide_False, decide_True, Hu by done. eexists. split; [reflexivity|]. intros token Ht. unfold usable. simpl.
    rewrite !bool_decide_eq_true_2; [done|done| |done]. intros E. by rewrite E in Ha.
Qed.

Section Main.
Context (getenv : string -> string).
Context (unicode_ToLower : string -> string).
Context (url_Parse : string -> result URL).
Context (ParseIP : string -> option (list byte)).
Context {N : Type} (NewNeonHTTP : string -> string -> result N).

Notation main_service := (main_service getenv unicode_ToLower url_Parse ParseIP NewNeonHTTP).
Notation server_of_env := (server_of_env getenv unicode_ToLower).

Lemma new_trust_Ok {B} (base : B) subject raw expiry :
  TrimSpace subject <> EmptyString ->
  NewLoopbackTrust (Some base) subject (Ok raw) expiry =
    Ok (mkLoopbackTrust (RawURL_Encode raw) base (mkIdentity subject {["orc:tools"%string]} expiry)).
Proof. intros H. unfold NewLoopbackTrust. by rewrite decide_False. Qed.

(** Whether the configured store can be opened. *)
Definition store_opens (c : Server) : Prop :=
  TrimSpace (DatabaseURL c) = EmptyString \/ exists n, NewNeonHTTP (DatabaseURL c) (NeonHTTPEndpoint c) = Ok n.

Lemma buildStore_Ok c : (exists st, buildStore NewNeonHTTP c = Ok st) <-> store_opens c.
Proof.
  unfold buildStore, store_opens. case_decide; [split; eauto|]. split.
  - intros [st H']. destruct (NewNeonHTTP _ _); [eauto|done].
  - intros [?|[n ->]]; [done|by eexists].
Qed.

(** What [main] has built. *)
Definition service_of (sv : Service N) raw expiry : Prop :=
  let c := sv_config sv in
  c = server_of_env /\ server_ok url_Parse ParseIP c /\ verifier_ready (sv_verifier sv) /\
  maxInFlight (sv_hub sv) = MaxInFlightPerDevice c /\
  32 <= len (ControlPlane.h_pairingSecret (sv_controlplane sv)) /\
  sv_trust sv = if MCPTrustLoopback c
                then Some (mkLoopbackTrust (RawURL_Encode raw) (sv_verifier sv)
                       (mkIdentity (MCPTrustedSubject c) {["orc:tools"%string]} expiry))
                else None.

Lemma main_service_Ok raw expiry :
  server_ok url_Parse ParseIP server_of_env -> store_opens server_of_env ->
  exists sv, main_service (Ok raw) expiry = Ok sv /\ service_of sv raw expiry.
Proof.
  intros Hok Hst. unfold OrcServer.main_service. pose proof Hok as (_ & Hm & Hp & Ht & Ha).
  rewrite (result_bind_eq _ _ _ (proj2 (LoadServer_Ok getenv unicode_ToLower url_Parse ParseIP _) (conj eq_refl Hok))).
  apply buildStore_Ok in Hst as [st ->]. cbn [mbind result_bind].
  destruct (buildVerifier_ready url_Parse server_of_env) as (v & -> & Hv);
    [apply server_of_env_not_blank|by apply check_auth_Ok|]. cbn [mbind result_bind].
  set (trust := if MCPTrustLoopback _ then _ else _).
  assert (trust = Ok (if MCPTrustLoopback server_of_env
    then Some (mkLoopbackTrust (RawURL_Encode raw) v (mkIdentity (MCPTrustedSubject server_of_env) {["orc:tools"%string]} expiry))
    else None)) as ->.
  { subst trust. destruct (MCPTrustLoopback server_of_env); [|done]. rewrite new_trust_Ok; [done|].
    destruct (Ht eq_refl) as [Hs _]. cbn [MCPTrustedSubject] in *. unfold Config.server_of_env in *. simpl in *.
    by rewrite TrimSpace_idemp. }
  cbn [mbind result_bind]. eexists. split; [reflexivity|]. unfold service_of. cbn [sv_config sv_verifier sv_hub sv_controlplane sv_trust].
  split; [done|]. split; [done|]. split; [done|]. split.
  { unfold NewHub. cbn [maxInFlight]. by rewrite (proj2 (Z.ltb_ge _ _)) by lia. }
  split; [|done]. unfold ControlPlane.New. cbn [ControlPlane.h_pairingSecret]. by rewrite length_bytes_of_string.
Qed.

(** C31 The server starts exactly when its configuration is accepted and its
    store can be opened, and what it then runs with is fit for use: its
    public address is encrypted or on loopback, the verifier has a secret of
    32 bytes and an audience, or an https endpoint that it can ask about
    every token; the hub has the configured limit of calls, between 1 and
    128; pairing codes are hashed under a secret of 32 bytes; and loopback
    connections are trusted only where that is asked for, for a named
    subject, on a listener bound to a loopback address. *)
Theorem server_starts_when_configured raw expiry :
  ((exists sv, main_service (Ok raw) expiry = Ok sv) <->
    server_ok url_Parse ParseIP server_of_env /\ store_opens server_of_env) /\
  forall sv, main_service (Ok raw) expiry = Ok sv -> service_of sv raw expiry.
Proof.
  assert (forall sv, main_service (Ok raw) expiry = Ok sv ->
    server_ok url_Parse ParseIP server_of_env /\ store_opens server_of_env) as H.
  { intros sv Hsv. apply result_bind_ok in Hsv as (c & Hc & Hsv). apply LoadServer_Ok in Hc as [-> Hok].
    apply result_bind_ok in Hsv as (st & Hst & _). split; [done|]. apply buildStore_Ok. by exists st. }
  split; [split|].
  - intros [sv Hsv]. by eapply H.
  - intros [Hok Hst]. destruct (main_service_Ok raw expiry Hok Hst) as (sv & Hsv & _). by exists sv.
  - intros sv Hsv. destruct (H _ Hsv) as [Hok Hst].
    destruct (main_service_Ok raw expiry Hok Hst) as (sv' & Hsv' & Hs). rewrite Hsv' in Hsv. by injection Hsv as <-.
Qed.
End Main.

(** ** The MCP route *)

(** The answers of the verifier in a trace are those of [verify]. *)
Definition verified_by (verify : string -> result Identity) (tr : list event) : Prop :=
  forall token x, ev (OVerify token) x ∈ tr -> x = verify token.

Section Route.
Context (parse : list byte -> option json).
Context (Marshal : json -> string).
Context (unicode_ToLower : string -> string).
Context (float64 : string -> option string).
Context (error_text : error -> string).
Context (time_json : Z -> json).
Context (url : string).
Context (ParseIP : string -> option (list byte)).

Notation handler := (serveHTTP parse Marshal unicode_ToLower float64 error_text time_json url).

Lemma originGuard_passes allowed next r tr rep :
  follows (originGuard allowed next r) tr rep -> tr <> [] ->
  (ControlPlane.origin_of r = EmptyString \/ ControlPlane.origin_of r ∈ (fun v => TrimRight v slash) <$> allowed) /\
  follows (next r) tr rep.
Proof.
  unfold originGuard, ControlPlane.origin_of, slash, ControlPlane.slash_byte. set (o := TrimRight _ _).
  intros H Hne. destruct (decide (o = EmptyString)) as [E|E].
  { rewrite bool_decide_eq_false_2 in H by (intros F; exact (F E)). split; [by left|exact H]. }
  rewrite bool_decide_eq_true_2 in H by done. simpl in H. destruct (bool_decide (o ∈ _)) eqn:Eo.
  - simpl in H. apply bool_decide_eq_true, elem_of_list_to_set in Eo. auto.
  - simpl in H. by destruct H as [-> _].
Qed.

(** A relayed call comes from a verified identity. *)
Lemma call_is_verified r tr rep s dev tool args y :
  follows (handler r) tr rep -> ev (OCall s dev tool args) y ∈ tr ->
  exists token id, BearerToken r = Some token /\ ev (OVerify token) (Ok id) ∈ tr /\
    HasScope id toolScope = true /\ s = Identity_Subject id.
Proof.
  intros H Hin. apply serveHTTP_trace in H as [->|(token & x & tr' & Hb & -> & H)]; [by apply elem_of_nil in Hin|].
  apply elem_of_cons in Hin as [E|Hin]; [other_event|].
  destruct H as [[-> _]|(id & -> & Hs & H)]; [by apply elem_of_nil in Hin|].
  apply serve_rpc_trace in H as [->|(b & req & modern & _ & _ & _ & _ & H)]; [by apply elem_of_nil in Hin|].
  apply callTool_trace, tool_trace_caused in H. rewrite Forall_forall in H. apply H in Hin as [E|E]; [done|].
  simpl in E. injection E as ->. exists token, id. split; [done|]. split; [apply list_elem_of_here|done].
Qed.

Lemma Some_ne_None {A} (x : A) : Some x <> None.
Proof. discriminate. Qed.

(** C8 Behind the guards of the server a call reaches a device only for
    the right subject: when the MCP route relays a call, the request has no
    Origin or an allowed one, and either loopback connections are trusted,
    the request has no Authorization header and comes from a loopback
    address, and the call is made for the configured subject; or the request
    bears a token that the verifier accepts with the scope orc:tools, and the
    call is made for that token's subject; or, with trust, it bears the
    random token that only the server itself knows. *)
Theorem mcp_route_acts_for allowed trust base subject raw expiry r tr rep s dev tool args y :
  len raw = 32 ->
  match trust with None => True | Some t => NewLoopbackTrust (Some base) subject (Ok raw) expiry = Ok t end ->
  follows (mcp_route ParseIP allowed trust handler r) tr rep -> verified_by (mcp_verify trust base) tr ->
  ev (OCall s dev tool args) y ∈ tr ->
  (ControlPlane.origin_of r = EmptyString \/ ControlPlane.origin_of r ∈ (fun v => TrimRight v slash) <$> allowed) /\
  (trust <> None /\ TrimSpace (Request_Get r "Authorization") = EmptyString /\
     remoteIsLoopback ParseIP (Request_RemoteAddr r) = true /\ s = subject \/
   (exists token id, BearerToken r = Some token /\ base token = Ok id /\ HasScope id toolScope = true /\
     s = Identity_Subject id) \/
   trust <> None /\ BearerToken r = Some (RawURL_Encode raw) /\ s = subject).
Proof.
  intros Hl Ht H Hv Hin. apply originGuard_passes in H as [Ho H]; [|by intros ->; apply elem_of_nil in Hin].
  split; [exact Ho|]. destruct (call_is_verified _ _ _ _ _ _ _ _ H Hin) as (token & id & Hb & Hver & Hs & ->).
  apply Hv in Hver. destruct trust as [t|]; [|right; left; by exists token, id].
  assert (authenticate ParseIP t r = Some (Ok id)) as Ha.
  { unfold authenticate. rewrite Hb. simpl. f_equal. by symmetry. }
  rewrite (loopback_trust_decides ParseIP base subject raw expiry t r Hl Ht) in Ha. case_decide as Hc.
  - injection Ha as <-. left. destruct Hc as [H1 H2].
    exact (conj (Some_ne_None t) (conj H1 (conj H2 eq_refl))).
  - destruct (BearerToken r) as [tok|]; [|done]. simpl in Ha. case_decide as Et.
    + injection Ha as <-. right. right. subst tok.
      exact (conj (Some_ne_None t) (conj eq_refl eq_refl)).
    + injection Ha as Ha. right. left. exact (ex_intro _ tok (ex_intro _ id (conj eq_refl (conj Ha (conj Hs eq_refl))))).
Qed.
End Route.

(** ** Witnesses *)

Definition demo_url : string := "u".
Notation demo_handler :=
  (serveHTTP demo_parse (fun _ => EmptyString) (fun s => s) Some (fun _ => EmptyString) (fun _ => JNull) demo_url).

(** The request of McpProps.v without its token, from the machine itself. *)
Definition demo_local : Request :=
  mkRequest "POST" {[ "Content-Type" := ["application/json"] ]}%string "127.0.0.1:9" ∅ (Ok ∅) ∅ demo_body.

Definition trust_handle (o : op) (now : Z) : answer o * Z :=
  match o return answer o * Z with
  | OVerify t => (trust_Verify demo_trust t, now)
  | OGetDevice _ _ => (Ok demo_device, now)
  | o => demo_handle o now
  end.

Notation local_run := (run_prog trust_handle (mcp_route demo_ParseIP [] (Some demo_trust) demo_handler demo_local) 0).
Definition local_trace : list event := local_run.1.1.
Definition local_reply : reply := local_run.1.2.

Lemma local_follows : follows (mcp_route demo_ParseIP [] (Some demo_trust) demo_handler demo_local) local_trace local_reply.
Proof.
  apply (run_prog_follows trust_handle _ 0 _ _ local_run.2).
  unfold local_trace, local_reply. by destruct (run_prog _ _ _) as [[tr a] w].
Qed.

Lemma local_verified : verified_by (mcp_verify (Some demo_trust) (fun _ => Err ErrInvalidToken)) local_trace.
Proof.
  intros token x Hin. unfold local_trace in Hin. destruct local_run as [[tr a] w] eqn:E. simpl in Hin.
  destruct (run_prog_answers trust_handle _ _ _ _ _ _ E Hin) as [w0 H]. exact H.
Qed.

Lemma mcp_route_acts_for_witness :
  exists x, ev (OCall "local" "dev_1" "ping" {["n"%string := JNumber "1"]}) x ∈ local_trace /\
  (ControlPlane.origin_of demo_local = EmptyString \/ ControlPlane.origin_of demo_local ∈ (fun v => TrimRight v slash) <$> []) /\
  (Some demo_trust <> None /\ TrimSpace (Request_Get demo_local "Authorization") = EmptyString /\
     remoteIsLoopback demo_ParseIP (Request_RemoteAddr demo_local) = true /\ "local"%string = "local"%string \/
   (exists token id, BearerToken demo_local = Some token /\ (Err ErrInvalidToken : result Identity) = Ok id /\
     HasScope id toolScope = true /\ "local"%string = Identity_Subject id) \/
   Some demo_trust <> None /\ BearerToken demo_local = Some (RawURL_Encode demo_raw) /\ "local"%string = "local"%string).
Proof.
  exists (Ok (mkResult [] None)).
  assert (ev (OCall "local" "dev_1" "ping" {["n"%string := JNumber "1"]}) (Ok (mkResult [] None)) ∈ local_trace) as Hin.
  { assert (local_trace !! 3%nat = Some (ev (OCall "local" "dev_1" "ping" {["n"%string := JNumber "1"]}) (Ok (mkResult [] None))))
      as E by (vm_compute; reflexivity). by eapply list_elem_of_lookup_2. }
  split; [exact Hin|].
  exact (mcp_route_acts_for demo_parse (fun _ => EmptyString) (fun s => s) Some (fun _ => EmptyString) (fun _ => JNull)
    demo_url demo_ParseIP [] (Some demo_trust) (fun _ => Err ErrInvalidToken) "local" demo_raw (at_second 9000) demo_local
    local_trace local_reply "local" "dev_1" "ping" _ _ eq_refl eq_refl local_follows local_verified Hin).
Defined.
