(* ===== verification/WsHandshake.v ===== *)
(** * The opening handshake of internal/ws/ws.go

    [Dial] and [Upgrade] with the texts that they exchange.  Connecting, TLS,
    hijacking and flushing are arguments: whether they succeed.  A text is read
    as net/textproto does, with two limits: continued header lines and header
    names with a space are refused. *)
From S2P Require Import Prelude Crypto GoStrings Text Json Http Base64 Config Ws.
Local Open Scope Z_scope.

Definition magicGUID : string := "258EAFA5-E914-47DA-95CA-C5AB0DC85B11".

(** [base64.StdEncoding.EncodeToString(sha1.Sum(key + magicGUID))] *)
Definition accept_key (key : string) : string :=
  Encoding_EncodeToString StdEncoding (Sha1.Sum (bytes_of_string (key +:+ magicGUID))).

(** [func tokenContains(header, token string) bool] *)
Definition tokenContains (header token : string) : bool :=
  existsb (fun p => EqualFold (TrimSpace p) token) (Split header comma).

(** ** Messages *)

Definition cr : byte := z2b 13.
Definition lf : byte := z2b 10.
Definition blank : byte := z2b 32.
Definition CRLF : list byte := [cr; lf].

(** A line and its end; a message head: its lines and an empty one. *)
Definition line (l : list byte) : list byte := l ++ CRLF.
Definition head_text (ls : list (list byte)) : list byte := (ls ≫= line) ++ CRLF.
Definition field (key value : string) : list byte := bytes_of_string (key +:+ ": " +:+ value).

(** The lines up to the first empty one, and what is behind it; a carriage
    return before the end of a line is dropped. *)
Definition drop_last_cr (l : list byte) : list byte :=
  match reverse l with b :: r => if decide (b = cr) then reverse r else l | [] => l end.
Fixpoint read_lines (cur l : list byte) : option (list (list byte) * list byte) :=
  match l with
  | [] => None
  | b :: l' =>
      if decide (b = lf) then
        let cur := drop_last_cr cur in
        if decide (cur = []) then Some ([], l')
        else '(ls, rest) ← read_lines [] l'; Some (cur :: ls, rest)
      else read_lines (cur ++ [b]) l'
  end.

Fixpoint trim_blanks (l : list byte) : list byte :=
  match l with
  | b :: l' => if decide (b = blank \/ b2z b = 9) then trim_blanks l' else l
  | [] => []
  end.

(** A header line: a name, a colon, a value between blanks. *)
Definition read_field (l : list byte) : option (string * string) :=
  i ← first_index colon l;
  let name := take i l in
  if decide (name = []) then None
  else if forallb is_token_byte name then
    Some (CanonicalMIMEHeaderKey (string_of_bytes name),
          string_of_bytes (reverse (trim_blanks (reverse (trim_blanks (drop (S i) l))))))
  else None.

(** [h.Add(key, value)] for each line. *)
Definition add_field (h : gmap string (list string)) (kv : string * string) : gmap string (list string) :=
  <[kv.1 := default [] (h !! kv.1) ++ [kv.2]]> h.
Definition read_header (ls : list (list byte)) : option (gmap string (list string)) :=
  kvs ← mapM read_field ls; Some (fold_left add_field kvs ∅).

(** The words of a request or status line, at the first two blanks. *)
Definition cut (l : list byte) : option (list byte * list byte) :=
  i ← first_index blank l; Some (take i l, drop (S i) l).

(** A request as the server reads it: the method, the header without Host,
    the peer's address; and the target. *)
Definition read_request (remoteAddr : string) (text : list byte) : option (Request * string) :=
  '(ls, rest) ← read_lines [] text;
  match ls with
  | [] => None
  | l :: ls =>
      '(method, l) ← cut l;
      '(target, proto) ← cut l;
      if decide (proto = bytes_of_string "HTTP/1.1") then
        h ← read_header ls;
        Some (mkRequest (string_of_bytes method) (delete "Host"%string h) remoteAddr ∅ (Ok ∅) ∅ rest,
              string_of_bytes target)
      else None
  end.

(** A response as [http.ReadResponse] reads it. *)
Record Response := mkResponse {
  StatusCode : Z;
  Status : string;
  Response_Header : gmap string (list string) }.
Definition read_response (text : list byte) : option (Response * list byte) :=
  '(ls, rest) ← read_lines [] text;
  match ls with
  | [] => None
  | l :: ls =>
      '(proto, l) ← cut l;
      let code := match cut l with Some (code, _) => code | None => l end in
      if decide (proto = bytes_of_string "HTTP/1.1" /\ length code = 3%nat) then
        match Atoi (string_of_bytes code) with
        | Ok n => h ← read_header ls; Some (mkResponse n (string_of_bytes l) h, rest)
        | Err _ => None
        end
      else None
  end.

(** ** Upgrade *)

Definition default_max (max : Z) : Z := if max <=? 0 then Z.shiftl 4 20 else max.

(** The text that [Upgrade] writes. *)
Definition upgrade_text (key : string) : list byte :=
  head_text [bytes_of_string "HTTP/1.1 101 Switching Protocols"; field "Upgrade" "websocket";
             field "Connection" "Upgrade"; field "Sec-WebSocket-Accept" (accept_key key)].

(** The checks of [Upgrade]: the key of an acceptable request. *)
Definition upgrade_key (r : Request) : result string :=
  if bool_decide (Request_Method r <> "GET"%string)
     || negb (tokenContains (Request_Get r "Connection") "upgrade")
     || negb (EqualFold (TrimSpace (Request_Get r "Upgrade")) "websocket")
  then Err (Wrapf "%w: invalid upgrade headers" [] ErrProtocol)
  else if decide (Request_Get r "Sec-WebSocket-Version" <> "13"%string) then
    Err (Wrapf "%w: unsupported version" [] ErrProtocol)
  else
    let key := TrimSpace (Request_Get r "Sec-WebSocket-Key") in
    match Encoding_DecodeString StdEncoding key with
    | Ok decoded =>
        if decide (length decoded = 16%nat) then Ok key else Err (Wrapf "%w: invalid key" [] ErrProtocol)
    | Err _ => Err (Wrapf "%w: invalid key" [] ErrProtocol)
    end.

(** [func Upgrade(w, r, maxMessageBytes)]: what is written, and the role and
    limit of the connection.  [hijacker] is whether [w] can be hijacked. *)
Definition Upgrade (r : Request) (hijacker : bool) (hijack write flush : result unit) (max : Z)
    : result (list byte * Role * Z) :=
  key ← upgrade_key r;
  if negb hijacker then Err (New "http server does not support hijacking")
  else
    _ ← hijack;
    _ ← write;
    _ ← flush;
    Ok (upgrade_text key, Server, default_max max).

(** ** Dial *)

Record DialURL := mkDialURL { du_URL : URL; du_EscapedPath : string; du_RawQuery : string }.

Section Dial.
Context (ParseIP : string -> option (list byte)).

(** [func isLoopbackHost(h string) bool] *)
Definition isLoopbackHost (h : string) : bool :=
  if EqualFold h "localhost" then true
  else match ParseIP h with Some ip => IsLoopback ip | None => false end.

(** The guard on the URL, and the address that is dialled. *)
Definition dial_guard (u : URL) : result unit :=
  if bool_decide (URL_Scheme u <> "wss"%string)
     && (bool_decide (URL_Scheme u <> "ws"%string) || negb (isLoopbackHost (Hostname u)))
  then Err (New "websocket URL must use wss (ws is allowed only for loopback)")
  else Ok tt.
Definition dial_hostPort (u : URL) : string :=
  if contains_char (URL_Host u) colon_char then URL_Host u
  else if decide (URL_Scheme u = "wss"%string) then URL_Host u +:+ ":443" else URL_Host u +:+ ":80".

(** The path of the request line. *)
Definition dial_path (u : DialURL) : string :=
  let path := if decide (du_EscapedPath u = EmptyString) then "/" else du_EscapedPath u in
  if decide (du_RawQuery u <> EmptyString) then path +:+ "?" +:+ du_RawQuery u else path.

Definition bearer_lines (bearer : string) : list (list byte) :=
  if decide (bearer = EmptyString) then [] else [field "Authorization" ("Bearer " +:+ bearer)].
Definition dial_lines (u : DialURL) (key bearer : string) : list (list byte) :=
  [bytes_of_string ("GET " +:+ dial_path u +:+ " HTTP/1.1"); field "Host" (URL_Host (du_URL u));
   field "Upgrade" "websocket"; field "Connection" "Upgrade"; field "Sec-WebSocket-Version" "13";
   field "Sec-WebSocket-Key" key] ++ bearer_lines bearer.

(** The text that [Dial] writes; [None] when the bearer could end a line. *)
Definition dial_text (u : DialURL) (key bearer : string) : result (list byte) :=
  if ContainsAny bearer [cr; lf] then Err (New "invalid bearer token")
  else Ok (head_text (dial_lines u key bearer)).

(** The checks on the response. *)
Definition dial_check (key : string) (resp : Response) : result unit :=
  let get := Header_Get (Response_Header resp) in
  if negb (StatusCode resp =? 101) || negb (tokenContains (get "Connection") "upgrade")
     || negb (EqualFold (get "Upgrade") "websocket")
  then Err (Errorf "websocket upgrade rejected: %s" [Status resp])
  else if decide (get "Sec-WebSocket-Accept" <> accept_key key) then
    Err (Wrapf "%w: bad accept key" [] ErrProtocol)
  else Ok tt.

(** [func Dial(ctx, rawURL, bearer, maxMessageBytes)], where the URL is
    parsed: [connect] and [tls] are the outcomes for an address and a server
    name, [nonce] is what [rand.Read] gave, and [respond] what the peer sends
    back for a request.  The answer is the role and limit of the connection,
    and the bytes behind the response. *)
Definition Dial (u : result DialURL) (connect tls : string -> result unit) (nonce : result (list byte))
    (respond : list byte -> result (list byte)) (bearer : string) (max : Z) : result (Role * Z * list byte) :=
  u ← u;
  _ ← dial_guard (du_URL u);
  _ ← connect (dial_hostPort (du_URL u));
  _ ← (if decide (URL_Scheme (du_URL u) = "wss"%string) then tls (Hostname (du_URL u)) else Ok tt);
  nonce ← nonce;
  let key := Encoding_EncodeToString StdEncoding nonce in
  request ← dial_text u key bearer;
  response ← respond request;
  match read_response response with
  | None => Err (Foreign "http.ReadResponse")
  | Some (resp, rest) => _ ← dial_check key resp; Ok (Client, default_max max, rest)
  end.
End Dial.

(** ** Facts *)

(** The example of RFC 6455, section 1.3. *)
Example accept_rfc6455 : accept_key "dGhlIHNhbXBsZSBub25jZQ==" = "s3pPLMBiTxaQ9kYGzzhZRbK+xOo="%string.
Proof. vm_compute. reflexivity. Qed.
