(* ===== verification/WsHandshakeProps.v ===== *)
(** * Client and server agree on the opening handshake *)
From S2P Require Import Prelude Crypto GoStrings Text Json Http Base64 AuthnProps Config Ws WsHandshake.
Local Open Scope Z_scope.

#[local] Arguments accept_key : simpl never.
#[local] Arguments CanonicalMIMEHeaderKey : simpl never.

(** ** Reading lines *)

(** Bytes that do not end a line. *)
Definition in_line (b : byte) : Prop := b <> cr /\ b <> lf.

Lemma graphic_in_line b : graphic b = true -> in_line b.
Proof. intros H. split; intros ->; by vm_compute in H. Qed.

Lemma drop_last_cr_snoc l : drop_last_cr (l ++ [cr]) = l.
Proof. unfold drop_last_cr. rewrite reverse_snoc. rewrite decide_True by done. apply reverse_involutive. Qed.

Lemma read_lines_line cur l k :
  Forall in_line l -> cur ++ l <> [] ->
  read_lines cur (line l ++ k) = ('(ls, rest) ← read_lines [] k; Some ((cur ++ l) :: ls, rest)).
Proof.
  unfold line. intros Hl. revert cur. induction Hl as [|b l [Hc Hb] Hl IH]; intros cur Hne.
  - simpl. rewrite app_nil_r in *. rewrite drop_last_cr_snoc. by rewrite decide_False.
  - simpl. rewrite decide_False by done. rewrite IH by by destruct cur. by rewrite <- app_assoc.
Qed.

Lemma read_lines_head ls k :
  Forall (fun l => l <> [] /\ Forall in_line l) ls -> read_lines [] (head_text ls ++ k) = Some (ls, k).
Proof.
  unfold head_text. induction 1 as [|l ls [Hne Hl] _ IH]; [done|].
  rewrite bind_cons, <- !app_assoc. rewrite read_lines_line by done. rewrite app_assoc, IH. done.
Qed.

(** ** Reading header lines *)

(** A value without blanks at its ends. *)
Definition trimmed (l : list byte) : Prop := trim_blanks l = l /\ trim_blanks (reverse l) = reverse l.

Lemma trim_blanks_graphic b l : graphic b = true -> trim_blanks (b :: l) = b :: l.
Proof. intros H. simpl. rewrite decide_False; [done|]. intros [->|E]; [by vm_compute in H|]. unfold graphic, in_range in H. lia. Qed.

Lemma trimmed_graphic l : Forall (fun b => graphic b = true) l -> trimmed l.
Proof.
  intros H. split; [destruct H; [done|]; by apply trim_blanks_graphic|].
  apply Forall_reverse in H. destruct (reverse l); [done|]. apply Forall_cons in H as [? _]. by apply trim_blanks_graphic.
Qed.

(** Graphic bytes at both ends are enough. *)
Lemma trimmed_ends a b l k : graphic a = true -> graphic b = true -> (a :: l) = k ++ [b] -> trimmed (a :: l).
Proof.
  intros Ha Hb E. split; [by apply trim_blanks_graphic|]. rewrite E, reverse_snoc. by apply trim_blanks_graphic.
Qed.

Lemma first_index_app c l k : c ∉ l -> first_index c (l ++ c :: k) = Some (length l).
Proof.
  induction l as [|b l IH]; intros H; simpl; [by rewrite decide_True|].
  rewrite decide_False by (intros ->; apply H; apply list_elem_of_here).
  rewrite IH by (intros F; apply H; by right). done.
Qed.

Lemma token_no_colon l : forallb is_token_byte l = true -> colon ∉ l.
Proof.
  intros H Hin. apply list_elem_of_In in Hin. rewrite forallb_forall in H. apply H in Hin. by vm_compute in Hin.
Qed.

Lemma field_bytes key value : field key value = bytes_of_string key ++ colon :: blank :: bytes_of_string value.
Proof. unfold field. rewrite !bytes_of_string_app. done. Qed.

Lemma read_field_field key value :
  forallb is_token_byte (bytes_of_string key) = true -> bytes_of_string key <> [] -> trimmed (bytes_of_string value) ->
  read_field (field key value) = Some (CanonicalMIMEHeaderKey key, value).
Proof.
  intros Hk Hne [H1 H2]. rewrite field_bytes. unfold read_field.
  rewrite first_index_app by by apply token_no_colon. cbn [mbind option_bind].
  rewrite take_app_length, decide_False by done. rewrite Hk.
  rewrite drop_app_ge by lia. replace (S _ - _)%nat with 1%nat by lia. cbn [drop trim_blanks].
  rewrite decide_True by by left. rewrite H1, H2, reverse_involutive.
  by rewrite !String.string_of_list_byte_of_string.
Qed.

Lemma cut_app l k : blank ∉ l -> cut (l ++ blank :: k) = Some (l, k).
Proof.
  intros H. unfold cut. rewrite first_index_app by done. cbn [mbind option_bind].
  rewrite take_app_length, drop_app_ge by lia. by replace (S _ - _)%nat with 1%nat by lia.
Qed.

Lemma graphic_no_blank l : Forall (fun b => graphic b = true) l -> blank ∉ l.
Proof. intros H Hin. rewrite Forall_forall in H. apply H in Hin. by vm_compute in Hin. Qed.

(** ** The two messages *)

Definition graphic_text (s : string) : Prop := s <> EmptyString /\ Forall (fun b => graphic b = true) (bytes_of_string s).

Lemma graphic_text_trimmed s : graphic_text s -> trimmed (bytes_of_string s).
Proof. intros [_ H]. by apply trimmed_graphic. Qed.

Lemma graphic_lines l : Forall (fun b => graphic b = true \/ b = blank) l -> Forall in_line l.
Proof. intros H. eapply Forall_impl; [exact H|]. intros b [?| ->]; [by apply graphic_in_line|]. by vm_compute. Qed.

Definition printable (l : list byte) : Prop := Forall (fun b => graphic b = true \/ b = blank) l.

Lemma printable_graphic s : graphic_text s -> printable (bytes_of_string s).
Proof. intros [_ H]. eapply Forall_impl; [exact H|]. auto. Qed.

Lemma printable_app l k : printable l -> printable k -> printable (l ++ k).
Proof. intros. by apply Forall_app. Qed.

(** Literals are checked by computation. *)
Definition printableb (l : list byte) : bool := forallb (fun b => graphic b || bool_decide (b = blank)) l.
Lemma printableb_true l : printableb l = true -> printable l.
Proof.
  unfold printableb. rewrite forallb_forall. intros H. apply Forall_forall. intros b Hb%list_elem_of_In.
  apply H, orb_true_iff in Hb as [?|Hb]; [by left|]. right. by apply bool_decide_eq_true in Hb.
Qed.

Lemma field_line key value : printableb (bytes_of_string key) = true -> printable (bytes_of_string value) ->
  field key value <> [] /\ Forall in_line (field key value).
Proof.
  intros Hk Hv. rewrite field_bytes. split; [by destruct (bytes_of_string key)|]. apply graphic_lines, printable_app; [by apply printableb_true|].
  constructor; [left; by vm_compute|]. constructor; [by right|done].
Qed.

Lemma key_graphic nonce : nonce <> [] -> graphic_text (Encoding_EncodeToString StdEncoding nonce).
Proof.
  intros Hn. unfold graphic_text, Encoding_EncodeToString. rewrite bytes_of_string_of_bytes. split; [|apply encode_graphic].
  intros E. apply (f_equal bytes_of_string) in E. rewrite bytes_of_string_of_bytes in E. by destruct nonce as [|a [|b [|c l]]].
Qed.

(** The header that the server reads, and the one that the client reads. *)
Definition request_header (host key bearer : string) : gmap string (list string) :=
  fold_left add_field [("Host", host); ("Upgrade", "websocket"); ("Connection", "Upgrade");
    ("Sec-Websocket-Version", "13"); ("Sec-Websocket-Key", key); ("Authorization", "Bearer " +:+ bearer)]%string ∅.
Definition response_header (accept : string) : gmap string (list string) :=
  fold_left add_field [("Upgrade", "websocket"); ("Connection", "Upgrade"); ("Sec-Websocket-Accept", accept)]%string ∅.

Lemma bearer_trimmed bearer : graphic_text bearer -> trimmed (bytes_of_string ("Bearer " +:+ bearer)).
Proof.
  intros [Hne Hg]. rewrite bytes_of_string_app. destruct (bytes_of_string bearer) as [|b l] eqn:E using rev_ind.
  { by apply bytes_of_string_nil in E. }
  apply Forall_app in Hg as [_ Hb]. apply Forall_cons in Hb as [Hb _].
  eapply (trimmed_ends _ b _ (bytes_of_string "Bearer " ++ l)); [by vm_compute|done|]. by rewrite <- app_assoc.
Qed.

Lemma read_request_text u key bearer text addr :
  graphic_text (dial_path u) -> graphic_text (URL_Host (du_URL u)) -> graphic_text key -> graphic_text bearer ->
  dial_text u key bearer = Ok text ->
  read_request addr text =
    Some (mkRequest "GET" (delete "Host"%string (request_header (URL_Host (du_URL u)) key bearer)) addr ∅ (Ok ∅) ∅ [], dial_path u).
Proof.
  intros Hp Hh Hk Hb. unfold dial_text. destruct (ContainsAny bearer _); [done|]. intros [= <-]. unfold read_request.
  unfold dial_lines, bearer_lines. rewrite decide_False by apply Hb. cbn [app].
  rewrite <- (app_nil_r (head_text _)), read_lines_head.
  2:{ constructor.
      { rewrite !bytes_of_string_app. split; [done|]. apply graphic_lines.
        repeat apply printable_app; try (apply printableb_true; by vm_compute). by apply printable_graphic. }
      repeat (constructor; [apply field_line; [by vm_compute|first [by apply printable_graphic | by apply printableb_true; vm_compute]]|]).
      constructor; [|constructor]. apply field_line; [by vm_compute|]. rewrite bytes_of_string_app.
      apply printable_app; [apply printableb_true; by vm_compute|by apply printable_graphic]. }
  cbn [mbind option_bind]. rewrite !bytes_of_string_app.
  change (bytes_of_string "GET ") with (bytes_of_string "GET" ++ [blank]). rewrite <- app_assoc. cbn [app].
  rewrite cut_app by (vm_compute; set_solver). cbn [mbind option_bind].
  change (bytes_of_string " HTTP/1.1") with (blank :: bytes_of_string "HTTP/1.1").
  rewrite cut_app by by apply graphic_no_blank, Hp. cbn [mbind option_bind]. rewrite decide_True by done.
  unfold read_header. cbn [mapM].
  rewrite !read_field_field;
    [|first [by vm_compute | by apply graphic_text_trimmed | by apply bearer_trimmed
       | apply trimmed_graphic; apply forallb_True; by vm_compute | vm_compute; discriminate] ..].
  cbn [mbind option_bind]. unfold request_header. rewrite !String.string_of_list_byte_of_string. reflexivity.
Qed.

Lemma accept_graphic key : Forall (fun b => graphic b = true) (bytes_of_string (accept_key key)).
Proof. unfold accept_key, Encoding_EncodeToString. rewrite bytes_of_string_of_bytes. apply encode_graphic. Qed.

Lemma read_response_text key rest :
  read_response (upgrade_text key ++ rest) =
    Some (mkResponse 101 "101 Switching Protocols" (response_header (accept_key key)), rest).
Proof.
  unfold read_response, upgrade_text. rewrite read_lines_head.
  2:{ constructor.
      { split; [done|]. apply graphic_lines, printableb_true. by vm_compute. }
      do 2 (constructor; [apply field_line; [by vm_compute|by apply printableb_true; vm_compute]|]).
      constructor; [|constructor]. apply field_line; [by vm_compute|].
      eapply Forall_impl; [apply accept_graphic|]. auto. }
  cbn [mbind option_bind].
  change (bytes_of_string "HTTP/1.1 101 Switching Protocols") with
    (bytes_of_string "HTTP/1.1" ++ blank :: bytes_of_string "101" ++ blank :: bytes_of_string "Switching Protocols").
  rewrite cut_app by (vm_compute; set_solver). cbn [mbind option_bind].
  rewrite cut_app by (vm_compute; set_solver). rewrite decide_True by done.
  change (Atoi (string_of_bytes (bytes_of_string "101"))) with (Ok 101). cbv iota.
  unfold read_header. cbn [mapM].
  rewrite !(read_field_field "Upgrade"), !(read_field_field "Connection"), read_field_field;
    [reflexivity|by vm_compute|vm_compute; discriminate|apply trimmed_graphic, accept_graphic
    |by vm_compute|vm_compute; discriminate|by vm_compute
    |by vm_compute|vm_compute; discriminate|by vm_compute].
Qed.

Lemma response_get accept :
  Header_Get (response_header accept) "Connection" = "Upgrade"%string /\
  Header_Get (response_header accept) "Upgrade" = "websocket"%string /\
  Header_Get (response_header accept) "Sec-WebSocket-Accept" = accept.
Proof. split_and!; vm_compute; reflexivity. Qed.

Lemma request_get host key bearer :
  let get := Header_Get (delete "Host"%string (request_header host key bearer)) in
  get "Connection" = "Upgrade"%string /\ get "Upgrade" = "websocket"%string /\
  get "Sec-WebSocket-Version" = "13"%string /\ get "Sec-WebSocket-Key" = key /\
  get "Authorization" = "Bearer " +:+ bearer.
Proof. split_and!; vm_compute; reflexivity. Qed.

(** What [Dial] accepts: a switch of protocols to websocket, with the
    answer to its own key. *)
Lemma dial_check_Ok key resp :
  dial_check key resp = Ok tt <->
  StatusCode resp = 101 /\ tokenContains (Header_Get (Response_Header resp) "Connection") "upgrade" = true /\
  EqualFold (Header_Get (Response_Header resp) "Upgrade") "websocket" = true /\
  Header_Get (Response_Header resp) "Sec-WebSocket-Accept" = accept_key key.
Proof.
  unfold dial_check. destruct (Z.eqb_spec (StatusCode resp) 101); [|split; [done|by intros [? _]]].
  destruct (tokenContains _ _); [|split; [done|by intros (_ & ? & _)]].
  destruct (EqualFold _ _); [|split; [done|by intros (_ & _ & ? & _)]].
  cbn [negb orb]. case_decide as E; [split; [done|by intros (_ & _ & _ & ?)]|].
  split; [intros _|done]. done.
Qed.

(** What [Upgrade] accepts. *)
Lemma upgrade_key_Ok r key :
  upgrade_key r = Ok key <->
  Request_Method r = "GET"%string /\ tokenContains (Request_Get r "Connection") "upgrade" = true /\
  EqualFold (TrimSpace (Request_Get r "Upgrade")) "websocket" = true /\
  Request_Get r "Sec-WebSocket-Version" = "13"%string /\ key = TrimSpace (Request_Get r "Sec-WebSocket-Key") /\
  exists nonce, Encoding_DecodeString StdEncoding key = Ok nonce /\ length nonce = 16%nat.
Proof.
  unfold upgrade_key. destruct (decide (Request_Method r = "GET"%string)) as [Em|Em].
  2:{ rewrite bool_decide_eq_true_2 by done. split; [done|by intros [? _]]. }
  rewrite bool_decide_eq_false_2 by (intros H; exact (H Em)).
  destruct (tokenContains _ _); [|split; [done|by intros (_ & ? & _)]].
  destruct (EqualFold _ _); [|split; [done|by intros (_ & _ & ? & _)]].
  cbn [negb orb]. case_decide as Ev; [split; [done|by intros (_ & _ & _ & ? & _)]|].
  set (k := TrimSpace _). destruct (Encoding_DecodeString StdEncoding k) as [n|e] eqn:Ed.
  - case_decide as En.
    + split; [intros [= <-]; do 5 (split; [done|]); by exists n|]. intros (_ & _ & _ & _ & -> & _). done.
    + split; [done|]. intros (_ & _ & _ & _ & -> & n' & Hn & ?). rewrite Ed in Hn. by injection Hn as ->.
  - split; [done|]. intros (_ & _ & _ & _ & -> & n' & Hn & ?). by rewrite Ed in Hn.
Qed.

(** [Dial] got through to the response. *)
Definition io_ok (ParseIP : string -> option (list byte)) (u : DialURL) (connect tls : string -> result unit) : Prop :=
  dial_guard ParseIP (du_URL u) = Ok tt /\ connect (dial_hostPort (du_URL u)) = Ok tt /\
  (URL_Scheme (du_URL u) = "wss"%string -> tls (Hostname (du_URL u)) = Ok tt).

Lemma Dial_io ParseIP u connect tls nonce respond bearer max :
  io_ok ParseIP u connect tls ->
  Dial ParseIP (Ok u) connect tls (Ok nonce) respond bearer max =
    (request ← dial_text u (Encoding_EncodeToString StdEncoding nonce) bearer;
     response ← respond request;
     match read_response response with
     | None => Err (Foreign "http.ReadResponse")
     | Some (resp, rest) =>
         _ ← dial_check (Encoding_EncodeToString StdEncoding nonce) resp; Ok (Client, default_max max, rest)
     end).
Proof.
  intros (Hg & Hc & Ht). unfold Dial. cbn [mbind result_bind]. rewrite Hg. cbn [mbind result_bind]. rewrite Hc.
  cbn [mbind result_bind]. case_decide as E; [by rewrite (Ht E)|done].
Qed.

Lemma graphic_not_newline s : graphic_text s -> ContainsAny s [cr; lf] = false.
Proof.
  intros [_ H]. unfold ContainsAny. apply bool_decide_eq_false. intros (b & Hb & Hin)%Exists_exists.
  rewrite Forall_forall in H. apply H in Hb. apply elem_of_cons in Hin as [->|[->|[]%elem_of_nil]%elem_of_cons]; by vm_compute in Hb.
Qed.

(** C19 The two sides of the handshake agree.  Against a server that reads the
    request and runs [Upgrade], [Dial] comes back with a connection in the role
    of the client, the server has one in the role of the server with the same
    message limit, the server has read the client's own path and bearer token,
    and no byte that the server sends after its response is lost.  Against any
    other peer [Dial] accepts a response only if it switches to websocket and
    answers the key that was drawn. *)
Theorem handshake_agrees ParseIP u connect tls nonce bearer max addr frames :
  io_ok ParseIP u connect tls -> length nonce = 16%nat ->
  graphic_text (dial_path u) -> graphic_text (URL_Host (du_URL u)) -> graphic_text bearer ->
  (exists request r response,
    dial_text u (Encoding_EncodeToString StdEncoding nonce) bearer = Ok request /\
    read_request addr request = Some (r, dial_path u) /\
    BearerToken r = Some bearer /\
    Upgrade r true (Ok tt) (Ok tt) (Ok tt) max = Ok (response, Server, default_max max) /\
    Dial ParseIP (Ok u) connect tls (Ok nonce)
      (fun t => if decide (t = request) then Ok (response ++ frames) else Err EOF) bearer max =
      Ok (Client, default_max max, frames)) /\
  forall respond out, Dial ParseIP (Ok u) connect tls (Ok nonce) respond bearer max = Ok out ->
    exists request response resp rest, respond request = Ok response /\ read_response response = Some (resp, rest) /\
      out = (Client, default_max max, rest) /\ StatusCode resp = 101 /\
      Header_Get (Response_Header resp) "Sec-WebSocket-Accept" = accept_key (Encoding_EncodeToString StdEncoding nonce).
Proof.
  intros Hio Hn Hp Hh Hb. set (key := Encoding_EncodeToString StdEncoding nonce).
  assert (graphic_text key) as Hk by (apply key_graphic; by intros ->).
  split.
  - assert (exists request, dial_text u key bearer = Ok request) as [request Hreq].
    { unfold dial_text. rewrite graphic_not_newline by done. by eexists. }
    pose proof (read_request_text u key bearer request addr Hp Hh Hk Hb Hreq) as Hr.
    set (r := mkRequest _ _ _ _ _ _ _) in Hr. exists request, r, (upgrade_text key).
    split; [done|]. split; [done|].
    destruct (request_get (URL_Host (du_URL u)) key bearer) as (Hg1 & Hg2 & Hg3 & Hg4 & Hg5).
    split; [by apply BearerToken_of_graphic; [apply Hb|apply Hb|]|].
    assert (upgrade_key r = Ok key) as Hu.
    { apply upgrade_key_Ok. unfold Request_Get, r. cbn [Request_Method Request_Header]. rewrite Hg1, Hg2, Hg3, Hg4.
      split; [done|]. split; [by vm_compute|]. split; [by vm_compute|]. split; [done|].
      rewrite TrimSpace_graphic by apply Hk. split; [done|]. exists nonce. split; [apply Encoding_DecodeString_EncodeToString|done]. }
    split; [unfold Upgrade; by rewrite Hu|].
    rewrite Dial_io by done. fold key. rewrite Hreq. cbn [mbind result_bind]. rewrite decide_True by done. cbn [mbind result_bind].
    rewrite read_response_text. rewrite (proj2 (dial_check_Ok key _)); [done|].
    cbn [Response_Header StatusCode]. destruct (response_get (accept_key key)) as (-> & -> & ->).
    split; [done|]. split; [by vm_compute|]. split; [by vm_compute|done].
  - intros respond out H. rewrite Dial_io in H by done. fold key in H.
    apply result_bind_ok in H as (request & _ & H). apply result_bind_ok in H as (response & Hres & H).
    destruct (read_response response) as [[resp rest]|] eqn:Er; [|done].
    apply result_bind_ok in H as ([] & Hc & [= <-]). apply dial_check_Ok in Hc as (Hs & _ & _ & Ha).
    by exists request, response, resp, rest.
Qed.

(** ** Witness *)

Definition demo_dial_url : DialURL :=
  mkDialURL (mkURL "wss" "orc.example.com" "wss://orc.example.com") "/agent/v1/connect" "device_id=dev_1".
Definition demo_nonce : list byte := repeat (z2b 9) 16.

Lemma graphic_text_literal s : s <> EmptyString -> forallb graphic (bytes_of_string s) = true -> graphic_text s.
Proof.
  intros Hs H. split; [done|]. apply Forall_forall. intros b Hb%list_elem_of_In. rewrite forallb_forall in H. by apply H.
Qed.

Lemma handshake_agrees_witness :
  exists request r response,
    dial_text demo_dial_url (Encoding_EncodeToString StdEncoding demo_nonce) "secret" = Ok request /\
    read_request "10.0.0.1:9" request = Some (r, "/agent/v1/connect?device_id=dev_1"%string) /\
    BearerToken r = Some "secret"%string /\
    Upgrade r true (Ok tt) (Ok tt) (Ok tt) 0 = Ok (response, Server, default_max 0) /\
    Dial (fun _ => None) (Ok demo_dial_url) (fun _ => Ok tt) (fun _ => Ok tt) (Ok demo_nonce)
      (fun t => if decide (t = request) then Ok (response ++ [z2b 129; z2b 0]) else Err EOF) "secret" 0 =
      Ok (Client, default_max 0, [z2b 129; z2b 0]).
Proof.
  apply (handshake_agrees (fun _ => None) demo_dial_url (fun _ => Ok tt) (fun _ => Ok tt) demo_nonce "secret" 0 "10.0.0.1:9").
  - split; [vm_compute; reflexivity|]. split; [reflexivity|]. intros _. reflexivity.
  - reflexivity.
  - apply graphic_text_literal; [discriminate|vm_compute; reflexivity].
  - apply graphic_text_literal; [discriminate|vm_compute; reflexivity].
  - apply graphic_text_literal; [discriminate|vm_compute; reflexivity].
Defined.
