(* ===== verification/OrcAgent.v ===== *)
(** * The agent's way to the server: cmd/orc-agent/main.go

    Credentials, pairing, the address that is dialled and the pauses between
    connections.  What the server answers, what is read from disk and the
    encoding of a query are arguments; the answering of frames is in Tools.v,
    the connection and its goroutines in AgentRun.v, the credential file in
    AgentFiles.v. *)
From S2P Require Import Prelude Crypto GoStrings Text Json Http Config WsHandshake.
From S2P Require Import ControlPlane.
Local Open Scope Z_scope.

Record credentials := mkCredentials { cr_DeviceID : string; cr_Token : string }.

(** [creds.DeviceID == "" || creds.Token == ""] *)
Definition incomplete (c : credentials) : bool :=
  bool_decide (cr_DeviceID c = EmptyString) || bool_decide (cr_Token c = EmptyString).

(** [func loadCredentials(path string) (credentials, error)]; [read] is what
    [os.ReadFile] returned. *)
Definition loadCredentials (json_Unmarshal : list byte -> result credentials) (read : result (list byte))
    : result credentials :=
  b ← read;
  c ← json_Unmarshal b;
  if incomplete c then Err (Prelude.New "invalid credential file") else Ok c.

(** The start of [main]: the credentials of the configuration, else the saved
    ones, else those of a pairing; and whether they are to be saved. *)
Definition main_credentials (c : Config.Agent) (saved : result credentials) (paired : result credentials)
    : result (credentials * bool) :=
  let creds := mkCredentials (Config.DeviceID c) (AgentToken c) in
  let creds := if incomplete creds then match saved with Ok s => s | Err _ => creds end else creds in
  if incomplete creds then creds ← paired; Ok (creds, true) else Ok (creds, false).

(** ** Pairing *)

(** A turn of the select in [pair]: the context is done, the deadline is
    over, or a poll, with the status, its text and the decoded body of the
    answer if there was one. *)
Inductive pair_event :=
| PCancelled (e : error)
| PExpired
| PTick (answer : result (Z * string * result PairingTokenResponse)).

(** The loop of [pair]; [None] while it goes on. *)
Fixpoint pair_loop (evs : list pair_event) : option (result credentials) :=
  match evs with
  | [] => None
  | PCancelled e :: _ => Some (Err e)
  | PExpired :: _ => Some (Err (Prelude.New "pairing expired"))
  | PTick (Err _) :: evs' => pair_loop evs'
  | PTick (Ok (code, status, body)) :: evs' =>
      if code =? 200 then
        Some (tok ← body; Ok (mkCredentials (pt_DeviceID tok) (pt_AccessToken tok)))
      else if negb (code =? 428) then Some (Err (Errorf "pairing token endpoint returned %s" [status]))
      else pair_loop evs'
  end.

(** The pause between polls, and the deadline. *)
Definition pair_interval (start : PairingStartResponse) : Z :=
  let interval := wrap64 (ps_Interval start * Second) in
  if interval <? Second then 3 * Second else interval.
Definition pair_deadline (start : PairingStartResponse) : Z := wrap64 (ps_ExpiresIn start * Second).

(** [func pair(ctx, server, deviceName, logger) (credentials, error)]: the
    answer to the first request, with its text, and the turns of the loop. *)
Definition pair (answer : result (Z * string * string * result PairingStartResponse)) (evs : list pair_event)
    : option (result credentials) :=
  match answer with
  | Err e => Some (Err e)
  | Ok (code, status, text, body) =>
      if negb (code =? 201) then Some (Err (Errorf "start pairing: %s: %s" [status; TrimSpace text]))
      else match body with Err e => Some (Err e) | Ok _ => pair_loop evs end
  end.

(** ** Connecting *)

(** The URL that [connectAndServe] makes of the server's and dials. *)
Definition connect_url (encode_query : string -> string) (u : URL) (creds : credentials) : DialURL :=
  let scheme := if decide (URL_Scheme u = "https"%string) then "wss"%string else "ws"%string in
  mkDialURL (mkURL scheme (URL_Host u) (URL_String u)) "/agent/v1/connect" (encode_query (cr_DeviceID creds)).

(** The pause after the one of length [backoff]. *)
Definition next_backoff (backoff : Z) : Z :=
  if backoff <? 30 * Second then
    let b := backoff * 2 in if 30 * Second <? b then 30 * Second else b
  else backoff.
Fixpoint backoff_after (n : nat) : Z :=
  match n with O => Second | S n' => next_backoff (backoff_after n') end.

(** ** Facts *)

Lemma backoff_bounds n : Second <= backoff_after n <= 30 * Second.
Proof.
  induction n as [|n IH]; [vm_compute; split; discriminate|]. simpl. unfold next_backoff.
  destruct (Z.ltb_spec (backoff_after n) (30 * Second)); [|lia].
  destruct (Z.ltb_spec (30 * Second) (backoff_after n * 2)); [|lia].
  assert (0 < Second) by (by vm_compute). lia.
Qed.
