(* ===== verification/OrcAgentProps.v ===== *)
(** * What the agent's way to the server guarantees

    An accepted configuration can be connected with, and the agent's polling
    loop against the control plane of ControlPlane.v, over the store of
    Store.v, ends with credentials that work. *)
From S2P Require Import Prelude Crypto GoStrings Text Json Http Base64 Authn AuthnProps Store RelayHub Effects.
From S2P Require Import Filepath Config OrcServerProps WsHandshake ControlPlane ControlPlaneProps ControlPlaneDemo OrcAgent.
Local Open Scope Z_scope.

#[local] Arguments HashSecret : simpl never.
#[local] Arguments RawURL_Encode : simpl never.
#[local] Arguments TrimSpace : simpl never.
#[local] Arguments decodeJSON : simpl never.

(** ** Configuration *)

Lemma connect_url_guard ParseIP encode_query u creds :
  secure_url ParseIP u -> dial_guard ParseIP (du_URL (connect_url encode_query u creds)) = Ok tt.
Proof.
  intros [_ Hs]. unfold dial_guard, connect_url. cbn [du_URL URL_Scheme]. case_decide as E; [done|].
  destruct Hs as [?|[_ Hl]]; [done|]. rewrite bool_decide_eq_true_2 by done. rewrite bool_decide_eq_false_2 by (intros F; by apply F).
  change (isLoopbackHost ParseIP (Hostname (mkURL "ws" (URL_Host u) (URL_String u)))) with (isLoopback ParseIP (Hostname u)).
  by rewrite Hl.
Qed.

Lemma absolute_roots_length getwd roots out : absolute_roots getwd roots = Ok out -> length out = length roots.
Proof.
  revert out. induction roots as [|root roots IH]; intros out; simpl; [by intros [= <-]|].
  destruct (Abs getwd root); [|done]. intros H. apply result_bind_ok in H as (rest & Hr & [= <-]). simpl. f_equal. by apply IH.
Qed.

(** An accepted configuration of the agent can be run: its address passes
    the guard of [Dial], so the connection is encrypted or on loopback; there
    is a root, so the path policy is not refused as empty; and the process
    manager gets limits of 1 to 64 processes and of 64 KiB to 32 MiB of
    output each. *)
Theorem accepted_agent_can_run getenv unicode_ToLower url_Parse ParseIP ParseDuration windows user_home getwd os_hostname
    encode_query creds c :
  LoadAgent getenv unicode_ToLower url_Parse ParseIP ParseDuration windows user_home getwd os_hostname = Ok c ->
  (exists u, url_Parse (ServerURL c) = Ok u /\
    dial_guard ParseIP (du_URL (connect_url encode_query u creds)) = Ok tt) /\
  AllowedRoots c <> [] /\ 1 <= MaxProcesses c <= 64 /\ 2 ^ 16 <= MaxProcessBytes c <= 2 ^ 25.
Proof.
  intros H. apply result_bind_ok in H as (rs & Hrs & H). apply result_bind_ok in H as (roots & Hro & H).
  set (c0 := mkAgent _ _ _ _ _ _ _ _ _ _) in H. cbv zeta in H.
  apply result_bind_ok in H as (u & Hu & H). apply result_bind_ok in H as ([] & Hp & H).
  apply result_bind_ok in H as ([] & Hb & [= <-]). apply parse_base_Ok in Hu as [Hu Hs].
  apply guard_config_Ok in Hp, Hb. bool_props. split; [exists u; split; [exact Hu|by apply connect_url_guard]|].
  split; [|by split]. subst c0. cbn [AllowedRoots]. apply absolute_roots_length in Hro. intros ->. simpl in Hro.
  destruct rs; [|done]. unfold root_list in Hrs. destruct (splitPathList _ _); [|done]. by destruct user_home.
Qed.

(** ** Pairing *)

Section Pairing.
Context (first_json : list byte -> option json).
Context (unicode_ToUpper : string -> string).
Context (QueryEscape : string -> string).
Context (h : HTTP).
Context (status_text : Z -> string).

Notation api_start := (api_start first_json unicode_ToUpper QueryEscape h).
Notation api_approve := (api_approve first_json unicode_ToUpper h).
Notation api_token := (api_token first_json h).
Notation normalizeUserCode := (normalizeUserCode unicode_ToUpper).
Notation hashUserCode := (hashUserCode unicode_ToUpper h).
Notation serve := (run_prog site_handle).

(** A reply as the agent reads it: only the body of a token is decoded. *)
Definition answer_of (rep : reply) : result (Z * string * result PairingTokenResponse) :=
  match rep with
  | JSONReply s (BToken t) => Ok (s, status_text s, Ok t)
  | JSONReply s _ | TextReply s | StatusReply s => Ok (s, status_text s, Ok (mkPairingTokenResponse "" "" ""))
  | PageReply _ => Ok (200, status_text 200, Err (Foreign "json"))
  | NoReply => Err (Foreign "net")
  end.

(** Polls with the same request at the given times, with the random bytes
    that each of them draws. *)
Fixpoint poll_all verify (r : Request) (ps : list (Z * list byte * list byte)) (m : Memory) : list reply * Memory :=
  match ps with
  | [] => ([], m)
  | (t, ri, rt) :: ps' =>
      let '(_, rep, w) := serve (api_token r) (mkSite m t [ri; rt] verify) in
      let '(reps, m') := poll_all verify r ps' (st_mem w) in (rep :: reps, m')
  end.

(** A poll before the approval. *)
Lemma consume_pending m now verify rd ri rt r p :
  same_origin r -> decodeJSON first_json "device_code" r = Some (RawURL_Encode rd) -> length rd = 32%nat ->
  m_pairings m !! HashSecret (RawURL_Encode rd) = Some p -> now <= Pairing_ExpiresAt p ->
  Pairing_ConsumedAt p = None -> Pairing_ApprovedAt p = None ->
  exists tr b w, serve (api_token r) (mkSite m now [ri; rt] verify) = (tr, JSONReply 428 b, w) /\ st_mem w = m.
Proof.
  intros Ho Hd Hlen Hp Hx Hc Ha. unfold ControlPlane.api_token. rewrite cors_same_origin by done.
  unfold consumePairing, randomID, randomSecret.
  cbn [call prog_bind mbind prog_mbind run_prog site_handle negb fmap result_fmap st_random st_mem st_now st_verify].
  rewrite Hd, slen_RawURL_Encode, Hlen.
  change ((Z.of_nat ((4 * 32 + 2) / 3) <? 32) || (256 <? Z.of_nat ((4 * 32 + 2) / 3))) with false.
  cbn [call prog_bind mbind prog_mbind run_prog site_handle negb fmap result_fmap st_random st_mem st_now st_verify].
  unfold ConsumePairing. rewrite Hp. unfold After. rewrite (proj2 (Z.ltb_ge _ _)) by done.
  rewrite bool_decide_eq_false_2 by (intros E; exact (E Hc)). rewrite (bool_decide_eq_true_2 _ Ha). cbn [orb].
  eexists _, _, _. split; reflexivity.
Qed.

Lemma poll_all_pending verify rd r p ps m :
  same_origin r -> decodeJSON first_json "device_code" r = Some (RawURL_Encode rd) -> length rd = 32%nat ->
  m_pairings m !! HashSecret (RawURL_Encode rd) = Some p -> Forall (fun x => x.1.1 <= Pairing_ExpiresAt p) ps ->
  Pairing_ConsumedAt p = None -> Pairing_ApprovedAt p = None ->
  (poll_all verify r ps m).2 = m /\
  forall evs, pair_loop (((fun rep => PTick (answer_of rep)) <$> (poll_all verify r ps m).1) ++ evs) = pair_loop evs.
Proof.
  intros Ho Hd Hlen Hp Ht Hc Ha. induction Ht as [|[[t ri] rt] ps Hx _ IH]; [done|]. cbn [poll_all].
  destruct (consume_pending m t verify rd ri rt r p Ho Hd Hlen Hp Hx Hc Ha) as (tr & b & w & -> & ->).
  destruct (poll_all verify r ps m) as [reps m']. destruct IH as [IH1 IH2]. split; [exact IH1|].
  intros evs. cbn [fst fmap list_fmap app] in *. rewrite <- (IH2 evs). by destruct b.
Qed.

(** C12 Pairing works from the agent's side: the loop of the agent that
    polls a control plane which lets it pass, any number of times while its
    pairing is pending and once after the user has typed the code, in any
    spelling that normalizes to it, all within the ten minutes, goes on while
    the pairing is pending and then ends with credentials with which the store
    authenticates it, as a device of that user under the name it gave; and
    whoever polls with the same code later is refused and changes nothing. *)
Theorem agent_pairs m verify t1 t2 t3 t4 ps rd rc ri rt ri' rt' r1 r2 r3 name typed token id :
  length rd = 32%nat -> length rc = 8%nat ->
  same_origin r1 -> same_origin r2 -> same_origin r3 ->
  decodeJSON first_json "device_name" r1 = Some name -> TrimSpace name <> EmptyString -> slen (TrimSpace name) <= 160 ->
  BearerToken r2 = Some token -> verify token = Ok id -> HasScope id toolScope = true -> Identity_Subject id <> EmptyString ->
  decodeJSON first_json "user_code" r2 = Some typed -> normalizeUserCode typed = normalizeUserCode (human_code rc) ->
  decodeJSON first_json "device_code" r3 = Some (RawURL_Encode rd) ->
  m_pairings m !! HashSecret (RawURL_Encode rd) = None -> m_userCode m !! hashUserCode (human_code rc) = None ->
  m_devices m !! ("dev_" +:+ hex_EncodeToString ri) = None ->
  Forall (fun x => x.1.1 <= t1 + 10 * Minute) ps -> t2 <= t1 + 10 * Minute -> t3 <= t1 + 10 * Minute ->
  exists tr1 w1 resp tr2 w2 tr3 rep w3 creds d tr4 code msg w4,
    serve (api_start r1) (mkSite m t1 [rd; rc] verify) = (tr1, JSONReply 201 (BStart resp), w1) /\
    ps_DeviceCode resp = RawURL_Encode rd /\ ps_UserCode resp = human_code rc /\
    serve (api_approve r2) (mkSite (poll_all verify r3 ps (st_mem w1)).2 t2 [] verify) = (tr2, JSONReply 200 BApproved, w2) /\
    serve (api_token r3) (mkSite (st_mem w2) t3 [ri; rt] verify) = (tr3, rep, w3) /\
    pair (Ok (201, status_text 201, "", Ok resp))
      ((fun rep => PTick (answer_of rep)) <$> (poll_all verify r3 ps (st_mem w1)).1 ++ [rep]) = Some (Ok creds) /\
    AuthenticateDevice (cr_DeviceID creds) (cr_Token creds) (st_mem w3) = Ok d /\
    Device_OwnerSubject d = Identity_Subject id /\ Device_Name d = TrimSpace name /\
    serve (api_token r3) (mkSite (st_mem w3) t4 [ri'; rt'] verify) = (tr4, JSONReply 410 (BError code msg), w4) /\
    st_mem w4 = st_mem w3.
Proof.
  intros Hrd Hrc Ho1 Ho2 Ho3 Hn1 Hn2 Hn3 Hb Hv Hs Hid Hc1 Hc2 Hd Hp Hu Hdev Hps Ht2 Ht3.
  destruct (start_run first_json unicode_ToUpper QueryEscape h m t1 verify rd rc r1 name Ho1 Hn1 Hn2 Hn3 Hp Hu)
    as (tr1 & resp & Hrun1 & Hr1 & Hr2).
  cbv zeta in Hrun1. set (p := mkPairing _ _ _ _ _ _ _) in Hrun1. set (m1 := mkMemory _ _ _ _) in Hrun1.
  destruct (poll_all_pending verify rd r3 p ps m1 Ho3 Hd Hrd (lookup_insert_eq _ _ _) Hps eq_refl eq_refl) as [Hm Hloop].
  destruct (approve_run first_json unicode_ToUpper h m1 t2 verify rc r2 token id typed (HashSecret (RawURL_Encode rd)) p)
    as (tr2 & Hrun2); [done..|apply lookup_insert_eq|apply lookup_insert_eq|done|done|].
  set (m2 := m_set_pairings _ _) in Hrun2.
  destruct (consume_run first_json h m2 t3 verify rd ri rt r3 (Pairing_approve t2 (Identity_Subject id) p))
    as (tr3 & tok & d & m3 & Hrun3 & Hau & Hown & Hnm & Hcon); [done..|apply lookup_insert_eq|done|done|done|done|done|].
  destruct (consume_again first_json h m3 t4 verify rd ri' rt' r3 _ Ho3 Hd Hrd Hcon) as (tr4 & code & msg & w4 & Hrun4 & Hw4); [done|].
  exists tr1, (mkSite m1 t1 [] verify), resp, tr2, (mkSite m2 t2 [] verify), tr3, (JSONReply 200 (BToken tok)),
    (mkSite m3 t3 [] verify), (mkCredentials (pt_DeviceID tok) (pt_AccessToken tok)), d, tr4, code, msg, w4.
  cbn [st_mem]. rewrite Hm. split; [exact Hrun1|]. split; [exact Hr1|]. split; [exact Hr2|]. split; [exact Hrun2|].
  split; [exact Hrun3|]. split; [|split_and!; done].
  unfold pair. rewrite fmap_app, Hloop. done.
Qed.

(** The server's slow_down ends the pairing of an agent. *)
Lemma slow_down_ends_pairing b evs :
  pair_loop (PTick (Ok (429, status_text 429, b)) :: evs) =
    Some (Err (Errorf "pairing token endpoint returned %s" [status_text 429])).
Proof. done. Qed.
End Pairing.

(** ** Witnesses *)

Definition demo_getenv (k : string) : string := if decide (k = "ORC_MAX_PROCESSES"%string) then " 3 " else EmptyString.
Definition demo_url_Parse (s : string) : result URL := Ok (mkURL "http" "127.0.0.1:8080" s).
Definition demo_LoadAgent : result Config.Agent :=
  LoadAgent demo_getenv (fun s => s) demo_url_Parse demo_ParseIP (fun _ => Err ErrSyntax) false (Ok "/home/u"%string)
    (Ok "/"%string) (Ok "laptop"%string).
Definition demo_config : Config.Agent :=
  mkAgent "http://127.0.0.1:8080" "" "" "laptop" ["/home/u"%string] 3 (2 ^ 20) Hour false false.

Lemma accepted_agent_can_run_witness :
  (exists u, demo_url_Parse (ServerURL demo_config) = Ok u /\
    dial_guard demo_ParseIP (du_URL (connect_url (fun s => s) u (mkCredentials "dev_1" "t"))) = Ok tt) /\
  AllowedRoots demo_config <> [] /\ 1 <= MaxProcesses demo_config <= 64 /\ 2 ^ 16 <= MaxProcessBytes demo_config <= 2 ^ 25.
Proof.
  apply (accepted_agent_can_run demo_getenv (fun s => s) demo_url_Parse demo_ParseIP (fun _ => Err ErrSyntax) false
    (Ok "/home/u"%string) (Ok "/"%string) (Ok "laptop"%string) (fun s => s) (mkCredentials "dev_1" "t") demo_config).
  vm_compute. reflexivity.
Defined.

Notation demo_polls := [(6, demo_rc, demo_rd); (600000000, demo_rd, demo_rc)].
Notation demo_poll_all m := (poll_all demo_first_json demo_http demo_verify token_request demo_polls m).

Lemma agent_pairs_witness :
  exists tr1 w1 resp tr2 w2 tr3 rep w3 creds d tr4 code msg w4,
    demo_run (demo_start start_request) (mkSite NewMemory 5 [demo_rd; demo_rc] demo_verify) =
      (tr1, JSONReply 201 (BStart resp), w1) /\
    ps_DeviceCode resp = RawURL_Encode demo_rd /\ ps_UserCode resp = human_code demo_rc /\
    demo_run (demo_approve approve_request) (mkSite (demo_poll_all (st_mem w1)).2 7 [] demo_verify) =
      (tr2, JSONReply 200 BApproved, w2) /\
    demo_run (demo_token token_request) (mkSite (st_mem w2) 9 [demo_rc; demo_rd] demo_verify) = (tr3, rep, w3) /\
    pair (Ok (201, "201 Created"%string, "", Ok resp))
      ((fun rep => PTick (answer_of (fun _ => "201 Created"%string) rep)) <$> (demo_poll_all (st_mem w1)).1 ++ [rep]) =
      Some (Ok creds) /\
    AuthenticateDevice (cr_DeviceID creds) (cr_Token creds) (st_mem w3) = Ok d /\
    Device_OwnerSubject d = "alice"%string /\ Device_Name d = "laptop"%string /\
    demo_run (demo_token token_request) (mkSite (st_mem w3) 11 [demo_rc; demo_rd] demo_verify) =
      (tr4, JSONReply 410 (BError code msg), w4) /\
    st_mem w4 = st_mem w3.
Proof.
  exact (agent_pairs demo_first_json (fun s => s) (fun s => s) demo_http (fun _ => "201 Created"%string) NewMemory demo_verify
    5 7 9 11 demo_polls demo_rd demo_rc demo_rc demo_rd demo_rc demo_rd start_request approve_request token_request " laptop "
    "jjj-j j j-jj" "t0" demo_user
    eq_refl eq_refl ltac:(vm_compute; reflexivity) ltac:(vm_compute; reflexivity) ltac:(vm_compute; reflexivity)
    ltac:(vm_compute; reflexivity) ltac:(vm_compute; discriminate) ltac:(vm_compute; discriminate)
    ltac:(vm_compute; reflexivity) ltac:(vm_compute; reflexivity) ltac:(vm_compute; reflexivity)
    ltac:(vm_compute; discriminate) ltac:(vm_compute; reflexivity) ltac:(vm_compute; reflexivity)
    ltac:(vm_compute; reflexivity) eq_refl eq_refl eq_refl
    ltac:(repeat constructor; vm_compute; discriminate) ltac:(vm_compute; discriminate) ltac:(vm_compute; discriminate)).
Defined.
