(* ===== verification/Parser.v ===== *)
(** * Parsers over lists

    A parser consumes a prefix of its input: it returns what it read and the
    rest, or [None].  Times (GoTime.v) are read from bytes, SQL statements
    (Sql.v) from tokens. *)
From S2P Require Import Prelude.

Definition parser (T A : Type) : Type := list T -> option (A * list T).
#[global] Instance parser_ret {T} : MRet (parser T) := fun A a l => Some (a, l).
#[global] Instance parser_bind {T} : MBind (parser T) := fun A B f p l =>
  match p l with Some (a, r) => f a r | None => None end.

Section combinators.
Context {T : Type}.

(** [p], and [q] where [p] fails. *)
Definition p_or {A} (p q : parser T A) : parser T A := fun l =>
  match p l with Some x => Some x | None => q l end.
Definition p_option {A} (p : parser T A) : parser T (option A) :=
  p_or (a ← p; mret (Some a)) (mret None).

(** Items with [sep] between them, as many as there are. *)
Fixpoint sep_by_fuel {A} (fuel : nat) (p : parser T A) (sep : parser T unit) : parser T (list A) :=
  match fuel with
  | O => fun _ => None
  | S fuel' =>
      a ← p;
      p_or (_ ← sep; l ← sep_by_fuel fuel' p sep; mret (a :: l)) (mret [a])
  end.
Definition sep_by {A} (p : parser T A) (sep : parser T unit) : parser T (list A) := fun l =>
  sep_by_fuel (length l) p sep l.

(** The whole input. *)
Definition parse_all {A} (p : parser T A) (l : list T) : option A :=
  match p l with Some (a, []) => Some a | _ => None end.

Lemma parser_bind_Some {A B} (f : A -> parser T B) (p : parser T A) l a r :
  p l = Some (a, r) -> (p ≫= f) l = f a r.
Proof. intros H. unfold mbind, parser_bind. by rewrite H. Qed.
End combinators.
