(* ===== verification/GoTime.v ===== *)
(** * RFC 3339 times, as package time prints and reads them

    [t.UTC().Format(time.RFC3339Nano)] and [time.Parse(time.RFC3339Nano, s)].
    A [time.Time] is nanoseconds since January 1, year 1 UTC (Prelude.v); the
    calendar is the proleptic Gregorian one. *)
From S2P Require Import Prelude Crypto GoStrings Text Parser.
Local Open Scope Z_scope.

(** ** The calendar *)

Definition isLeap (y : Z) : bool := (y mod 4 =? 0) && (negb (y mod 100 =? 0) || (y mod 400 =? 0)).
Definition month_lengths (leap : bool) : list Z :=
  [31; if leap then 29 else 28; 31; 30; 31; 30; 31; 31; 30; 31; 30; 31].
Definition daysIn (y m : Z) : Z := nth (Z.to_nat (m - 1)) (month_lengths (isLeap y)) 0.

(** Days from January 1, year 1 to January 1 of year [y], and to a date. *)
Definition daysBefore (y : Z) : Z := let p := y - 1 in 365 * p + p / 4 - p / 100 + p / 400.
Definition date_days (y m d : Z) : Z :=
  daysBefore y + foldr Z.add 0 (take (Z.to_nat (m - 1)) (month_lengths (isLeap y))) + (d - 1).

(** The month and day of a day of the year. *)
Fixpoint month_of (lengths : list Z) (m yday : Z) : Z * Z :=
  match lengths with
  | [] => (m, yday + 1)
  | n :: rest => if yday <? n then (m, yday + 1) else month_of rest (m + 1) (yday - n)
  end.

(** [t.Date()]: year, month and day, by cycles of 400, 100, 4 and 1 years. *)
Definition date_of (days : Z) : Z * Z * Z :=
  let n400 := days / 146097 in let d := days - 146097 * n400 in
  let n100 := (let n := d / 36524 in n - n / 4) in let d := d - 36524 * n100 in
  let n4 := d / 1461 in let d := d - 1461 * n4 in
  let n1 := (let n := d / 365 in n - n / 4) in let d := d - 365 * n1 in
  let y := 400 * n400 + 100 * n100 + 4 * n4 + n1 + 1 in
  let '(m, dd) := month_of (month_lengths (isLeap y)) 1 d in (y, m, dd).

Definition Day : Z := 86400 * Second.

(** [time.Date(y, m, d, hour, min, sec, nsec, time.UTC)] of fields in range. *)
Definition Date (y m d hour min sec nsec : Z) : Z :=
  ((date_days y m d * 24 + hour) * 60 + min) * 60 * Second + sec * Second + nsec.

(** ** Printing *)

Definition digit (z : Z) : byte := z2b (48 + z).
(** The last [n] decimal digits of [z]. *)
Fixpoint pad (n : nat) (z : Z) : list byte :=
  match n with
  | O => []
  | S n' => pad n' (z / 10) ++ [digit (z mod 10)]
  end.
Definition char (z : Z) : list byte := [z2b z].

(** The fraction of a second without trailing zeros, nothing when it is zero. *)
Fixpoint trim_zeros (l : list byte) : list byte :=
  match l with
  | [] => []
  | b :: l' => match trim_zeros l' with
               | [] => if decide (b = digit 0) then [] else [b]
               | r => b :: r
               end
  end.
Definition fraction (nsec : Z) : list byte :=
  if nsec =? 0 then [] else char 46 ++ trim_zeros (pad 9 nsec).

(** [t.UTC().Format(time.RFC3339Nano)] for a year of four digits. *)
Definition FormatRFC3339Nano_bytes (t : Z) : list byte :=
  let '(y, m, d) := date_of (t / Day) in
  let r := t mod Day in
  let sec := r / Second in
  pad 4 y ++ char 45 ++ pad 2 m ++ char 45 ++ pad 2 d ++ char 84 ++
  pad 2 (sec / 3600) ++ char 58 ++ pad 2 (sec / 60 mod 60) ++ char 58 ++ pad 2 (sec mod 60) ++
  fraction (r mod Second) ++ char 90.
Definition FormatRFC3339Nano (t : Z) : string := string_of_bytes (FormatRFC3339Nano_bytes t).

(** ** Reading *)

Definition digit_value (b : byte) : Z := b2z b - 48.
Definition p_digit : parser byte Z := fun l =>
  match l with b :: r => if is_digit b then Some (digit_value b, r) else None | [] => None end.
(** Exactly [n] digits. *)
Fixpoint p_number (n : nat) (acc : Z) : parser byte Z :=
  match n with
  | O => mret acc
  | S n' => d ← p_digit; p_number n' (10 * acc + d)
  end.
Definition p_range (lo hi : Z) (p : parser byte Z) : parser byte Z := fun l =>
  match p l with Some (z, r) => if (lo <=? z) && (z <=? hi) then Some (z, r) else None | None => None end.
Definition p_char (c : Z) : parser byte unit := fun l =>
  match l with b :: r => if decide (b = z2b c) then Some (tt, r) else None | [] => None end.

(** [getnum(value, false)]: one digit, or two. *)
Definition p_hour : parser byte Z := fun l =>
  match p_number 2 0 l with Some x => Some x | None => p_number 1 0 l end.

Fixpoint span_digits (l : list byte) : list byte * list byte :=
  match l with
  | b :: r => if is_digit b then let '(ds, rest) := span_digits r in (b :: ds, rest) else ([], l)
  | [] => ([], [])
  end.
Definition digits_value (l : list byte) : Z := foldl (fun acc b => 10 * acc + digit_value b) 0 l.

(** An optional fraction behind a point or a comma; of its digits the first
    nine count. *)
Definition p_fraction : parser byte Z := fun l =>
  match l with
  | c :: r =>
      if decide (c = z2b 46 \/ c = z2b 44) then
        match span_digits r with
        | ([], _) => Some (0, l)
        | (ds, rest) => Some (digits_value (take 9 ds) * 10 ^ (9 - len (take 9 ds)), rest)
        end
      else Some (0, l)
  | [] => Some (0, l)
  end.

(** [Z] or an offset from UTC, in seconds. *)
Definition p_sign : parser byte Z := fun l =>
  match p_char 43 l with
  | Some (_, r) => Some (1, r)
  | None => match p_char 45 l with Some (_, r) => Some (-1, r) | None => None end
  end.
Definition p_zone : parser byte Z := fun l =>
  match p_char 90 l with
  | Some (_, r) => Some (0, r)
  | None =>
      (s ← p_sign; hh ← p_range 0 24 (p_number 2 0); _ ← p_char 58; mm ← p_range 0 60 (p_number 2 0);
       mret (s * ((hh * 60 + mm) * 60)) : parser byte Z) l
  end.

Definition p_time : parser byte (option Z) :=
  y ← p_number 4 0; _ ← p_char 45; m ← p_range 1 12 (p_number 2 0); _ ← p_char 45;
  d ← p_number 2 0; _ ← p_char 84; hour ← p_range 0 23 p_hour; _ ← p_char 58;
  min ← p_range 0 59 (p_number 2 0); _ ← p_char 58; sec ← p_range 0 59 (p_number 2 0);
  nsec ← p_fraction; zone ← p_zone;
  mret (if (1 <=? d) && (d <=? daysIn y m)
        then Some (Date y m d hour min sec nsec - zone * Second) else None).

(** [time.Parse(time.RFC3339Nano, s)]; [None] is an error. *)
Definition ParseRFC3339Nano (s : string) : option Z :=
  match p_time (bytes_of_string s) with
  | Some (Some t, []) => Some t
  | _ => None
  end.

(** ** Reading what was printed *)

Definition date_ok (days : Z) : bool :=
  let '(y, m, d) := date_of days in
  (date_days y m d =? days) && ((1 <=? y) && (y <=? 400)) && ((1 <=? m) && (m <=? 12))
  && ((1 <=? d) && (d <=? daysIn y m)).

(** Checking the integers below [n] in turn. *)
Definition check_next (f : Z -> bool) (s : Z * bool) : Z * bool := (s.1 + 1, s.2 && f s.1).
Definition check_below (f : Z -> bool) (n : positive) : Z * bool := Pos.iter (check_next f) (0, true) n.

Lemma check_below_sound f n :
  (check_below f n).2 = true -> forall z, 0 <= z < Z.pos n -> f z = true.
Proof.
  assert ((check_below f n).1 = Z.pos n /\
          ((check_below f n).2 = true -> forall z, 0 <= z < Z.pos n -> f z = true)) as [_ H]; [|done].
  unfold check_below. induction n as [|n [IH1 IH2]] using Pos.peano_ind.
  - simpl. split; [done|]. intros H z Hz. by replace z with 0 by lia.
  - rewrite Pos.iter_succ. unfold check_next at 1 3. simpl. rewrite IH1. split; [lia|].
    intros H z Hz. bool_props. destruct (decide (z = Z.pos n)) as [->|]; [done|]. apply IH2; [done|lia].
Qed.

Lemma date_ok_cycle r : 0 <= r < 146097 -> date_ok r = true.
Proof. apply (check_below_sound date_ok 146097). vm_cast_no_check (eq_refl true). Qed.

Lemma isLeap_cycle q y : isLeap (400 * q + y) = isLeap y.
Proof.
  unfold isLeap.
  replace (400 * q + y) with (y + (100 * q) * 4) at 1 by lia. rewrite Z.mod_add by lia.
  replace (400 * q + y) with (y + (4 * q) * 100) at 1 by lia. rewrite Z.mod_add by lia.
  replace (400 * q + y) with (y + q * 400) by lia. by rewrite Z.mod_add by lia.
Qed.

Lemma daysBefore_cycle q y : daysBefore (400 * q + y) = 146097 * q + daysBefore y.
Proof.
  unfold daysBefore.
  replace (400 * q + y - 1) with (y - 1 + (100 * q) * 4) at 2 by lia. rewrite Z.div_add by lia.
  replace (400 * q + y - 1) with (y - 1 + (4 * q) * 100) at 2 by lia. rewrite Z.div_add by lia.
  replace (400 * q + y - 1) with (y - 1 + q * 400) at 2 by lia. rewrite Z.div_add by lia. lia.
Qed.

Lemma date_of_cycle q r :
  0 <= r < 146097 ->
  date_of (146097 * q + r) = (let '(y, m, d) := date_of r in (400 * q + y, m, d)).
Proof.
  intros Hr. unfold date_of.
  replace ((146097 * q + r) / 146097) with (q + r / 146097)
    by (rewrite (Z.mul_comm 146097 q), Z.div_add_l by lia; lia).
  rewrite (Z.div_small r) by lia. cbv zeta. rewrite Z.add_0_r, Z.mul_0_r, Z.sub_0_r.
  replace (146097 * q + r - 146097 * q) with r by lia.
  set (n100 := _ - _ / 4). set (n4 := _ / 1461). set (n1 := _ - _ / 4).
  replace (400 * q + 100 * n100 + 4 * n4 + n1 + 1) with (400 * q + (400 * 0 + 100 * n100 + 4 * n4 + n1 + 1)) by lia.
  rewrite isLeap_cycle. by destruct (month_of _ _ _).
Qed.

(** The calendar is inverted by [date_days], and dates are in range. *)
Lemma date_of_spec days y m d :
  0 <= days -> date_of days = (y, m, d) ->
  date_days y m d = days /\ 1 <= m <= 12 /\ 1 <= d <= daysIn y m /\
  400 * (days / 146097) + 1 <= y <= 400 * (days / 146097) + 400.
Proof.
  intros Hd. set (q := days / 146097). set (r := days mod 146097).
  pose proof (Z.mod_pos_bound days 146097 ltac:(lia)) as Hr. fold r in Hr.
  assert (days = 146097 * q + r) as Heq by (apply Z.div_mod; lia).
  clearbody q r. subst days. rewrite date_of_cycle by done.
  pose proof (date_ok_cycle r Hr) as Hok. unfold date_ok in Hok.
  destruct (date_of r) as [[y0 m0] d0]. intros [= <- <- <-]. bool_props.
  unfold date_days, daysIn in *. rewrite isLeap_cycle, daysBefore_cycle. lia.
Qed.

Lemma is_digit_digit z : 0 <= z < 10 -> is_digit (digit z) = true /\ digit_value (digit z) = z.
Proof.
  intros Hz. unfold is_digit, in_range, digit_value, digit. rewrite b2z_z2b_small by lia.
  split; [|lia]. apply andb_true_iff. rewrite !Z.leb_le. lia.
Qed.

Lemma length_pad n z : length (pad n z) = n.
Proof. revert z. induction n; intros; simpl; [done|]. rewrite length_app, IHn. simpl. lia. Qed.

Lemma pad_digits n z : Forall (fun b => is_digit b = true) (pad n z).
Proof.
  revert z. induction n; intros; simpl; [constructor|]. apply Forall_app. split; [done|].
  repeat constructor. apply is_digit_digit, Z.mod_pos_bound. lia.
Qed.

Lemma digits_value_app l k : digits_value (l ++ k) = foldl (fun acc b => 10 * acc + digit_value b) (digits_value l) k.
Proof. apply foldl_app. Qed.

Lemma digits_value_pad n z : 0 <= z < 10 ^ Z.of_nat n -> digits_value (pad n z) = z.
Proof.
  revert z. induction n as [|n IH]; intros z Hz; simpl.
  - rewrite Z.pow_0_r in Hz. unfold digits_value. simpl. lia.
  - rewrite Nat2Z.inj_succ, Z.pow_succ_r in Hz by lia.
    rewrite digits_value_app, IH by (split; [apply Z.div_pos; lia|apply Z.div_lt_upper_bound; lia]).
    simpl. rewrite (proj2 (is_digit_digit _ (Z.mod_pos_bound z 10 ltac:(lia)))).
    pose proof (Z.div_mod z 10). lia.
Qed.

(** A number behind which anything follows. *)
Lemma p_number_digits ds acc rest :
  Forall (fun b => is_digit b = true) ds ->
  p_number (length ds) acc (ds ++ rest) = Some (foldl (fun acc b => 10 * acc + digit_value b) acc ds, rest).
Proof.
  intros H. revert acc. induction H as [|b ds Hb _ IH]; intros acc; [done|].
  simpl. unfold mbind, parser_bind, p_digit. simpl. rewrite Hb. apply IH.
Qed.

Lemma p_number_pad n z rest :
  0 <= z < 10 ^ Z.of_nat n -> p_number n 0 (pad n z ++ rest) = Some (z, rest).
Proof.
  intros Hz. rewrite <- (length_pad n z) at 1. rewrite p_number_digits by apply pad_digits.
  fold (digits_value (pad n z)). by rewrite digits_value_pad.
Qed.

Lemma p_char_char c rest : p_char c (char c ++ rest) = Some (tt, rest).
Proof. unfold p_char. simpl. by rewrite decide_True. Qed.

Lemma p_range_Some lo hi p l z r : p l = Some (z, r) -> lo <= z <= hi -> p_range lo hi p l = Some (z, r).
Proof. intros Hp [H1 H2]. unfold p_range. rewrite Hp. by rewrite (proj2 (Z.leb_le _ _) H1), (proj2 (Z.leb_le _ _) H2). Qed.

(** *** Fractions *)

Lemma trim_zeros_app l : exists n, l = trim_zeros l ++ replicate n (digit 0).
Proof.
  induction l as [|b l [n IH]]; [by exists O|]. simpl.
  destruct (trim_zeros l) as [|c r] eqn:E.
  - simpl in IH. case_decide as Hb; [exists (S n)|exists n]; simpl; by rewrite IH, ?Hb.
  - exists n. simpl. f_equal. exact IH.
Qed.

Lemma digits_value_zeros acc n :
  foldl (fun acc b => 10 * acc + digit_value b) acc (replicate n (digit 0)) = acc * 10 ^ Z.of_nat n.
Proof.
  revert acc. induction n as [|n IH]; intros acc; [rewrite Z.pow_0_r; simpl; lia|].
  rewrite Nat2Z.inj_succ, Z.pow_succ_r by lia. cbn [replicate foldl].
  rewrite IH, (proj2 (is_digit_digit 0 ltac:(lia))). lia.
Qed.

Lemma trim_zeros_value l : digits_value l = digits_value (trim_zeros l) * 10 ^ (len l - len (trim_zeros l)).
Proof.
  destruct (trim_zeros_app l) as [n Hn]. rewrite Hn at 1. rewrite digits_value_app, digits_value_zeros.
  f_equal. f_equal. rewrite Hn at 1. rewrite length_app, length_replicate. lia.
Qed.

Lemma span_digits_app ds rest :
  Forall (fun b => is_digit b = true) ds -> head (filter (fun b => is_digit b = true) (take 1 rest)) = None ->
  span_digits (ds ++ rest) = (ds, rest).
Proof.
  intros H Hr. induction H as [|b ds Hb _ IH]; simpl.
  - destruct rest as [|b rest]; [done|]. simpl in *. rewrite filter_cons in Hr.
    by destruct (is_digit b).
  - by rewrite Hb, IH.
Qed.

Lemma p_fraction_fraction nsec :
  0 <= nsec < Second -> p_fraction (fraction nsec ++ char 90) = Some (nsec, char 90).
Proof.
  intros Hn. unfold fraction. destruct (nsec =? 0) eqn:E; bool_props.
  - subst. vm_compute. reflexivity.
  - unfold p_fraction. cbn [char app]. rewrite decide_True by (by left).
    rewrite span_digits_app; [|destruct (trim_zeros_app (pad 9 nsec)) as [k Hk];
      pose proof (pad_digits 9 nsec) as Hd; rewrite Hk in Hd; by apply Forall_app in Hd as [? _]|done].
    pose proof (trim_zeros_value (pad 9 nsec)) as Hv.
    rewrite digits_value_pad in Hv by (change (10 ^ Z.of_nat 9) with Second; lia).
    assert (length (trim_zeros (pad 9 nsec)) <= 9)%nat as Hle.
    { destruct (trim_zeros_app (pad 9 nsec)) as [k Hk]. apply (f_equal length) in Hk.
      rewrite length_app, length_pad in Hk. lia. }
    destruct (trim_zeros (pad 9 nsec)) as [|b l] eqn:Et.
    + rewrite Hv in E. unfold digits_value in E. simpl in E. lia.
    + rewrite take_ge by done. rewrite length_pad in Hv. by rewrite Hv.
Qed.

(** *** Times *)

Definition year_10000 : Z := Date 10000 1 1 0 0 0 0.

Lemma Date_of_day t y m d :
  date_days y m d = t / Day ->
  let r := t mod Day in let sec := r / Second in
  Date y m d (sec / 3600) (sec / 60 mod 60) (sec mod 60) (r mod Second) = t.
Proof.
  intros Hd r sec. unfold Date. rewrite Hd.
  pose proof (Z.div_mod t Day ltac:(done)) as Ht.
  pose proof (Z.div_mod r Second ltac:(done)) as Hr. fold sec in Hr. fold r in Ht.
  pose proof (Z.div_mod sec 60 ltac:(done)). pose proof (Z.div_mod (sec / 60) 60 ltac:(done)) as H2.
  rewrite Z.div_div in H2 by lia. change (60 * 60) with 3600 in H2.
  replace (((t / Day * 24 + sec / 3600) * 60 + sec / 60 mod 60) * 60) with (86400 * (t / Day) + (sec - sec mod 60)) by lia.
  unfold Day in *. lia.
Qed.

Lemma year_of_date t y m d :
  0 <= t < year_10000 -> date_of (t / Day) = (y, m, d) -> 0 <= y < 10000.
Proof.
  intros Ht H. assert (0 <= t / Day < 3652059) as Hq.
  { split; [apply Z.div_pos; [lia|done]|]. apply Z.div_lt_upper_bound; [done|].
    replace (Day * 3652059) with year_10000 by (vm_compute; reflexivity). lia. }
  set (q := t / Day) in *. clearbody q. clear Ht t.
  pose proof (date_of_spec q y m d ltac:(lia) H) as (_ & _ & _ & Hy).
  assert (q / 146097 <= 24) by (apply Z.lt_succ_r, Z.div_lt_upper_bound; lia).
  assert (0 <= q / 146097) by (apply Z.div_pos; lia).
  destruct (decide (y = 10000)) as [->|]; [|lia]. exfalso.
  pose proof (date_of_spec q _ _ _ ltac:(lia) H) as (Hdays & Hm & Hd & _).
  unfold date_days in Hdays.
  assert (0 <= foldr Z.add 0 (take (Z.to_nat (m - 1)) (month_lengths (isLeap 10000)))).
  { generalize (Z.to_nat (m - 1)). intros k. do 13 (destruct k as [|k]; [done|]). done. }
  replace (daysBefore 10000) with 3652059 in Hdays by (vm_compute; reflexivity). lia.
Qed.

(** What [Format] printed, [Parse] reads back, up to the end of year 9999. *)
Lemma ParseRFC3339Nano_Format t :
  0 <= t < year_10000 -> ParseRFC3339Nano (FormatRFC3339Nano t) = Some t.
Proof.
  intros Ht. unfold ParseRFC3339Nano, FormatRFC3339Nano, FormatRFC3339Nano_bytes.
  rewrite bytes_of_string_of_bytes. destruct (date_of (t / Day)) as [[y m] d] eqn:Hdate.
  pose proof (year_of_date _ _ _ _ Ht Hdate) as Hy.
  apply date_of_spec in Hdate as (Hdays & Hm & Hd & _); [|apply Z.div_pos; [lia|done]].
  pose proof (Date_of_day _ _ _ _ Hdays) as HDate. cbv zeta in *.
  assert (daysIn y m <= 31).
  { unfold daysIn. generalize (Z.to_nat (m - 1)). intros k. destruct (isLeap y); do 13 (destruct k as [|k]; [done|]); done. }
  set (r := t mod Day) in *.
  assert (0 <= r < Day) as Hr by (by apply Z.mod_pos_bound).
  assert (0 <= r / Second < 86400) as Hs by (split; [apply Z.div_pos; [lia|done]|apply Z.div_lt_upper_bound; [done|unfold Day in Hr; lia]]).
  assert (0 <= r mod Second < Second) as Hf by (by apply Z.mod_pos_bound).
  set (sec := r / Second) in *.
  assert (0 <= sec / 3600 < 24) by (split; [apply Z.div_pos; lia|apply Z.div_lt_upper_bound; lia]).
  pose proof (Z.mod_pos_bound sec 60 ltac:(lia)). pose proof (Z.mod_pos_bound (sec / 60) 60 ltac:(lia)).
  unfold p_time. change (10 ^ Z.of_nat 2) with 100 in *.
  assert (forall z rest, 0 <= z < 100 -> p_number 2 0 (pad 2 z ++ rest) = Some (z, rest)) as Hnum
    by (intros; by apply p_number_pad).
  erewrite parser_bind_Some by (apply p_number_pad; change (10 ^ Z.of_nat 4) with 10000; lia).
  erewrite parser_bind_Some by apply p_char_char.
  erewrite parser_bind_Some by (apply p_range_Some; [apply Hnum; lia|lia]).
  erewrite parser_bind_Some by apply p_char_char.
  erewrite parser_bind_Some by (apply Hnum; lia).
  erewrite parser_bind_Some by apply p_char_char.
  erewrite parser_bind_Some by (apply p_range_Some; [unfold p_hour; rewrite Hnum by lia; reflexivity|lia]).
  erewrite parser_bind_Some by apply p_char_char.
  erewrite parser_bind_Some by (apply p_range_Some; [apply Hnum; lia|lia]).
  erewrite parser_bind_Some by apply p_char_char.
  erewrite parser_bind_Some by (apply p_range_Some; [apply Hnum; lia|lia]).
  erewrite parser_bind_Some by (by apply p_fraction_fraction).
  erewrite parser_bind_Some by reflexivity. simpl.
  rewrite (proj2 (Z.leb_le 1 d)), (proj2 (Z.leb_le d (daysIn y m))) by lia. simpl.
  unfold mret, parser_ret. f_equal. rewrite HDate. lia.
Qed.
