(* ===== verification/Sql.v ===== *)
(** * The SQL statements of internal/store/neonhttp.go

    Statements are texts in the source.  [parse_sql] reads the fragment of SQL
    they are written in; [run_sql] says what a statement does to the tables of
    src/migrations/001_init.sql, one transaction per statement, with the
    constraints of that file.  Every parameter is text, as the store sends
    them.  A statement that breaks a constraint is an error and changes
    nothing.  A comparison with NULL is not true; nothing here negates one. *)
From S2P Require Import Prelude Crypto GoStrings Text Parser GoTime.

(** ** Syntax *)

Inductive expr : Type :=
| EParam (n : nat)
| ECol (c : string)
| EText (s : string)
| ENow
| ENullif (a b : expr).

Inductive atom : Type :=
| AEq (a b : expr)
| AGt (a b : expr)
| AIsNull (a : expr)
| AIsNotNull (a : expr).

Inductive stmt : Type :=
| Select (cols : list string) (from : string) (where_ : list atom) (order : option string)
| InsertValues (table : string) (cols : list string) (vals : list expr)
| InsertSelect (table : string) (cols : list string) (vals : list expr) (from : string) (returning : list string)
| Update (table : string) (sets : list (string * expr)) (where_ : list atom) (returning : list string).

(** Statements whose results have names, and the one that uses them. *)
Record sql_query := mkQuery { q_with : list (string * stmt); q_main : stmt }.

(** ** Reading *)

Inductive token : Type :=
| TWord (w : string)
| TParam (n : nat)
| TStr (s : string)
| TSym (b : byte).
#[global] Instance token_eq_dec : EqDecision token.
Proof. solve_decision. Defined.

Definition is_letter (b : byte) : bool := in_range 65 90 b || in_range 97 122 b || bool_decide (b = z2b 95).
Definition is_blank (b : byte) : bool := bool_decide (b ∈ bytes_of_Zs [9; 10; 13; 32]%Z).

Inductive mode : Type := MStart | MWord (w : list byte) | MParam (n : nat) | MStr (s : list byte).

Definition emit (m : mode) : list token :=
  match m with
  | MStart => []
  | MWord w => [TWord (string_of_bytes w)]
  | MParam n => [TParam n]
  | MStr s => [TStr (string_of_bytes s)]
  end.
(** The first byte of a token. *)
Definition start (b : byte) : list token * mode :=
  if is_letter b then ([], MWord [b])
  else if decide (b = z2b 36) then ([], MParam 0)
  else if decide (b = z2b 39) then ([], MStr [])
  else if is_blank b then ([], MStart)
  else ([TSym b], MStart).
Fixpoint lex (m : mode) (l : list byte) : list token :=
  match l with
  | [] => emit m
  | b :: l' =>
      match m with
      | MWord w => if is_letter b || is_digit b then lex (MWord (w ++ [b])) l'
                   else let '(t, m') := start b in emit m ++ t ++ lex m' l'
      | MParam n => if is_digit b then lex (MParam (10 * n + Z.to_nat (digit_value b))) l'
                    else let '(t, m') := start b in emit m ++ t ++ lex m' l'
      | MStr s => if decide (b = z2b 39) then emit m ++ lex MStart l' else lex (MStr (s ++ [b])) l'
      | MStart => let '(t, m') := start b in t ++ lex m' l'
      end
  end.

Definition p_token (t : token) : parser token unit := fun l =>
  match l with u :: r => if decide (u = t) then Some (tt, r) else None | [] => None end.
Definition kw (w : string) : parser token unit := p_token (TWord w).
Definition sym (c : Z) : parser token unit := p_token (TSym (z2b c)).
Definition p_open := sym 40.
Definition p_close := sym 41.
Definition p_comma := sym 44.

(** Names are in lower case, keywords in upper case. *)
Definition p_name : parser token string := fun l =>
  match l with
  | TWord w :: r => match bytes_of_string w with
                    | b :: _ => if in_range 97 122 b then Some (w, r) else None
                    | [] => None
                    end
  | _ => None
  end.
Definition p_names : parser token (list string) := sep_by p_name p_comma.
Definition p_primary : parser token expr := fun l =>
  match l with
  | TParam n :: r => Some (EParam n, r)
  | TStr s :: r => Some (EText s, r)
  | _ => p_or (_ ← kw "now"; _ ← p_open; _ ← p_close; mret ENow) (c ← p_name; mret (ECol c)) l
  end.
Definition p_expr : parser token expr :=
  p_or (_ ← kw "NULLIF"; _ ← p_open; a ← p_primary; _ ← p_comma; b ← p_primary; _ ← p_close; mret (ENullif a b))
       p_primary.
Definition p_atom : parser token atom :=
  a ← p_expr;
  p_or (_ ← sym 61; b ← p_expr; mret (AEq a b))
  (p_or (_ ← sym 62; b ← p_expr; mret (AGt a b))
  (_ ← kw "IS"; n ← p_option (kw "NOT"); _ ← kw "NULL";
   mret (match n with Some _ => AIsNotNull a | None => AIsNull a end))).
Definition p_where : parser token (list atom) :=
  p_or (_ ← kw "WHERE"; sep_by p_atom (kw "AND")) (mret []).
Definition p_returning : parser token (list string) := p_or (_ ← kw "RETURNING"; p_names) (mret []).
Definition p_set : parser token (string * expr) := c ← p_name; _ ← sym 61; e ← p_expr; mret (c, e).

Definition p_select : parser token stmt :=
  _ ← kw "SELECT"; cols ← p_names; _ ← kw "FROM"; from ← p_name; w ← p_where;
  o ← p_option (_ ← kw "ORDER"; _ ← kw "BY"; p_name); mret (Select cols from w o).
Definition p_insert : parser token stmt :=
  _ ← kw "INSERT"; _ ← kw "INTO"; t ← p_name; _ ← p_open; cols ← p_names; _ ← p_close;
  p_or (_ ← kw "VALUES"; _ ← p_open; vals ← sep_by p_expr p_comma; _ ← p_close; mret (InsertValues t cols vals))
       (_ ← kw "SELECT"; vals ← sep_by p_expr p_comma; _ ← kw "FROM"; from ← p_name; ret ← p_returning;
        mret (InsertSelect t cols vals from ret)).
Definition p_update : parser token stmt :=
  _ ← kw "UPDATE"; t ← p_name; _ ← kw "SET"; sets ← sep_by p_set p_comma; w ← p_where; ret ← p_returning;
  mret (Update t sets w ret).
Definition p_stmt : parser token stmt := p_or p_select (p_or p_insert p_update).
Definition p_cte : parser token (string * stmt) :=
  n ← p_name; _ ← kw "AS"; _ ← p_open; s ← p_stmt; _ ← p_close; mret (n, s).
Definition p_query : parser token sql_query :=
  ctes ← p_or (_ ← kw "WITH"; sep_by p_cte p_comma) (mret []); s ← p_stmt; mret (mkQuery ctes s).

Definition parse_sql (text : string) : option sql_query :=
  parse_all p_query (lex MStart (bytes_of_string text)).

(** ** Tables *)

Inductive value : Type := VNull | VText (s : string) | VTime (t : Z) | VInt (z : Z).
#[global] Instance value_eq_dec : EqDecision value.
Proof. solve_decision. Defined.

(** A row has the columns of its table in order. *)
Definition row : Type := list (string * value).
Fixpoint assoc {A} (k : string) (l : list (string * A)) : option A :=
  match l with
  | [] => None
  | (k', v) :: l' => if String.eqb k' k then Some v else assoc k l'
  end.
Definition cell (r : row) (c : string) : value := default VNull (assoc c r).
Definition set_cell (c : string) (v : value) (r : row) : row :=
  (fun kv => if String.eqb kv.1 c then (kv.1, v) else kv) <$> r.

Inductive type : Type := TyText | TyTime | TyInt.
Inductive default_value : Type := NoDefault | DefaultNow | DefaultSerial.
Record column := mkColumn {
  c_name : string;
  c_type : type;
  c_not_null : bool;
  c_default : default_value;
  c_unique : bool;
  c_check : value -> bool }.
Record table := mkTable {
  t_columns : list column;
  t_check : row -> bool;
  t_references : list (string * (string * string)) }.

Definition no_check {A} (_ : A) : bool := true.
(** [CHECK (length(c) = 64)]; a check of NULL passes. *)
Definition length_64 (v : value) : bool :=
  match v with VText s => (slen s =? 64)%Z | _ => true end.

(** [CREATE TABLE devices] *)
Definition devices : table := mkTable
  [mkColumn "id" TyText true NoDefault true no_check;
   mkColumn "owner_subject" TyText true NoDefault false no_check;
   mkColumn "name" TyText true NoDefault false no_check;
   mkColumn "token_hash" TyText true NoDefault true length_64;
   mkColumn "created_at" TyTime true DefaultNow false no_check;
   mkColumn "last_seen_at" TyTime false NoDefault false no_check;
   mkColumn "revoked_at" TyTime false NoDefault false no_check]
  no_check [].

Definition is_null (v : value) : bool := bool_decide (v = VNull).

(** [CREATE TABLE pairings] *)
Definition approved_with_owner (r : row) : bool :=
  (is_null (cell r "approved_at") && is_null (cell r "owner_subject"))
  || (negb (is_null (cell r "approved_at")) && negb (is_null (cell r "owner_subject"))).
Definition pairings : table := mkTable
  [mkColumn "device_code_hash" TyText true NoDefault true length_64;
   mkColumn "user_code_hash" TyText true NoDefault true length_64;
   mkColumn "device_name" TyText true NoDefault false no_check;
   mkColumn "expires_at" TyTime true NoDefault false no_check;
   mkColumn "owner_subject" TyText false NoDefault false no_check;
   mkColumn "approved_at" TyTime false NoDefault false no_check;
   mkColumn "consumed_at" TyTime false NoDefault false no_check;
   mkColumn "created_at" TyTime true DefaultNow false no_check]
  approved_with_owner [].

(** [CREATE TABLE call_audit] *)
Definition status_check (v : value) : bool :=
  match v with VText s => bool_decide (s ∈ ["ok"; "error"; "offline"; "timeout"]%string) | _ => true end.
Definition duration_check (v : value) : bool := match v with VInt z => (0 <=? z)%Z | _ => true end.
Definition call_audit : table := mkTable
  [mkColumn "id" TyInt true DefaultSerial true no_check;
   mkColumn "owner_subject" TyText true NoDefault false no_check;
   mkColumn "device_id" TyText true NoDefault false no_check;
   mkColumn "tool_name" TyText true NoDefault false no_check;
   mkColumn "status" TyText true NoDefault false status_check;
   mkColumn "duration_ms" TyInt true NoDefault false duration_check;
   mkColumn "error_code" TyText false NoDefault false no_check;
   mkColumn "created_at" TyTime true DefaultNow false no_check]
  no_check [("device_id", ("devices", "id"))]%string.

Definition schema (name : string) : option table :=
  if String.eqb name "devices" then Some devices
  else if String.eqb name "pairings" then Some pairings
  else if String.eqb name "call_audit" then Some call_audit
  else None.

(** The contents of the tables; [d_serial] is the sequence of [call_audit.id]. *)
Record db := mkDB {
  d_devices : list row;
  d_pairings : list row;
  d_audit : list row;
  d_serial : Z }.
Definition empty_db : db := mkDB [] [] [] 1.

Definition rows_of (d : db) (name : string) : list row :=
  if String.eqb name "devices" then d_devices d
  else if String.eqb name "pairings" then d_pairings d
  else if String.eqb name "call_audit" then d_audit d
  else [].
Definition set_rows (d : db) (name : string) (rs : list row) : db :=
  if String.eqb name "devices" then mkDB rs (d_pairings d) (d_audit d) (d_serial d)
  else if String.eqb name "pairings" then mkDB (d_devices d) rs (d_audit d) (d_serial d)
  else if String.eqb name "call_audit" then mkDB (d_devices d) (d_pairings d) rs (d_serial d + 1)
  else d.

(** ** Meaning *)

(** Equality and order of values of one type. *)
Definition sql_eq (v w : value) : bool :=
  match v, w with
  | VText s, VText t => bool_decide (s = t)
  | VTime s, VTime t | VInt s, VInt t => (s =? t)%Z
  | _, _ => false
  end.
Definition sql_gt (v w : value) : bool :=
  match v, w with
  | VTime s, VTime t | VInt s, VInt t => (t <? s)%Z
  | _, _ => false
  end.
Definition cell_le (c : string) (r s : row) : Prop := sql_gt (cell r c) (cell s c) = false.
#[global] Instance cell_le_dec c : RelDecision (cell_le c).
Proof. intros r s. unfold cell_le. apply _. Defined.

(** The input of a bigint column. *)
Definition bigint_in (s : string) : option Z := match ParseInt s with Ok z => Some z | Err _ => None end.

Section run.
(** How a timestamptz column reads text, and the time of the transaction. *)
Context (timestamptz_in : string -> option Z).
Context (now : Z) (params : list string).

Fixpoint eval (r : row) (e : expr) : value :=
  match e with
  | EParam n => match params !! Nat.pred n with Some s => VText s | None => VNull end
  | ECol c => cell r c
  | EText s => VText s
  | ENow => VTime now
  | ENullif a b => if sql_eq (eval r a) (eval r b) then VNull else eval r a
  end.
Definition holds (r : row) (a : atom) : bool :=
  match a with
  | AEq x y => sql_eq (eval r x) (eval r y)
  | AGt x y => sql_gt (eval r x) (eval r y)
  | AIsNull x => is_null (eval r x)
  | AIsNotNull x => negb (is_null (eval r x))
  end.
Definition selected (w : list atom) (r : row) : bool := forallb (holds r) w.
Definition project (cols : list string) (r : row) : row := (fun c => (c, cell r c)) <$> cols.

(** Storing a value in a column. *)
Definition assign (ty : type) (v : value) : option value :=
  match ty, v with
  | _, VNull => Some VNull
  | TyText, VText s => Some (VText s)
  | TyTime, VTime t => Some (VTime t)
  | TyTime, VText s => VTime <$> timestamptz_in s
  | TyInt, VInt z => Some (VInt z)
  | TyInt, VText s => VInt <$> bigint_in s
  | _, _ => None
  end.
Definition column_ok (c : column) (v : value) : bool :=
  negb (c_not_null c && is_null v) && c_check c v.
Definition row_ok (t : table) (r : row) : bool :=
  forallb (fun c => column_ok c (cell r (c_name c))) (t_columns t) && t_check t r.
(** No other row has the same value in a unique column. *)
Definition unique_in (t : table) (rs : list row) (r : row) : bool :=
  forallb (fun c => negb (c_unique c) || negb (existsb (fun s => sql_eq (cell r (c_name c)) (cell s (c_name c))) rs))
    (t_columns t).
Definition references_ok (d : db) (t : table) (r : row) : bool :=
  forallb (fun '(c, (t', c')) =>
    is_null (cell r c) || existsb (fun s => sql_eq (cell r c) (cell s c')) (rows_of d t')) (t_references t).

Definition default_of (d : db) (c : column) : value :=
  match c_default c with NoDefault => VNull | DefaultNow => VTime now | DefaultSerial => VInt (d_serial d) end.
Definition given (cols : list string) (vals : list value) (c : column) : option value :=
  assoc (c_name c) (zip cols vals).
Definition new_row (d : db) (t : table) (cols : list string) (vals : list value) : option row :=
  mapM (fun c => v ← assign (c_type c) (default (default_of d c) (given cols vals c)); Some (c_name c, v))
    (t_columns t).

Definition insert_row (name : string) (t : table) (cols : list string) (vals : list value) (d : db) : option (row * db) :=
  r ← new_row d t cols vals;
  if row_ok t r && unique_in t (rows_of d name) r && references_ok d t r
  then Some (r, set_rows d name (rows_of d name ++ [r])) else None.
Fixpoint insert_rows (name : string) (t : table) (cols : list string) (l : list (list value)) (d : db)
    : option (list row * db) :=
  match l with
  | [] => Some ([], d)
  | vals :: l' =>
      '(r, d) ← insert_row name t cols vals d;
      '(rs, d) ← insert_rows name t cols l' d;
      Some (r :: rs, d)
  end.

(** [UPDATE]: the assigned columns of the sources here are not unique ones. *)
Definition assign_all (t : table) (sets : list (string * expr)) (r : row) : option row :=
  foldl (fun acc se =>
      r' ← acc; c ← List.find (fun c => String.eqb (c_name c) se.1) (t_columns t);
      v ← assign (c_type c) (eval r se.2); Some (set_cell se.1 v r')) (Some r) sets.
Definition update_row (t : table) (sets : list (string * expr)) (w : list atom) (r : row) : option (row * bool) :=
  if selected w r then r' ← assign_all t sets r; if row_ok t r' then Some (r', true) else None
  else Some (r, false).

Definition env : Type := list (string * list row).
Definition source_rows (e : env) (d : db) (name : string) : list row :=
  default (rows_of d name) (assoc name e).

(** One statement: its result and the new tables, [None] on an error. *)
Definition run_stmt (e : env) (s : stmt) (d : db) : option (list row * db) :=
  match s with
  | Select cols from w order =>
      let rs := List.filter (selected w) (source_rows e d from) in
      let rs := match order with Some c => isort (cell_le c) rs | None => rs end in
      Some (project cols <$> rs, d)
  | InsertValues name cols vals =>
      t ← schema name;
      '(_, d) ← insert_row name t cols (eval [] <$> vals) d;
      Some ([], d)
  | InsertSelect name cols vals from ret =>
      t ← schema name;
      '(rs, d) ← insert_rows name t cols ((fun r => eval r <$> vals) <$> source_rows e d from) d;
      Some (if ret is [] then [] else project ret <$> rs, d)
  | Update name sets w ret =>
      t ← schema name;
      rs ← mapM (update_row t sets w) (rows_of d name);
      Some (if ret is [] then [] else project ret <$> (List.filter snd rs).*1,
            set_rows d name rs.*1)
  end.
Fixpoint run_with (ctes : list (string * stmt)) (e : env) (d : db) : option (env * db) :=
  match ctes with
  | [] => Some (e, d)
  | (n, s) :: ctes' => '(rs, d) ← run_stmt e s d; run_with ctes' (e ++ [(n, rs)]) d
  end.
Definition run_query (q : sql_query) (d : db) : option (list row * db) :=
  '(e, d) ← run_with (q_with q) [] d; run_stmt e (q_main q) d.
End run.

(** The columns of the result. *)
Definition result_columns (q : sql_query) : list string :=
  match q_main q with
  | Select cols _ _ _ => cols
  | InsertValues _ _ _ => []
  | InsertSelect _ _ _ _ ret | Update _ _ _ ret => ret
  end.

(** A statement text with its parameters: columns, rows and the new tables. *)
Definition run_sql (timestamptz_in : string -> option Z) (now : Z) (text : string) (params : list string) (d : db)
    : option (list string * list row * db) :=
  q ← parse_sql text;
  '(rs, d) ← run_query timestamptz_in now params q d;
  Some (result_columns q, rs, d).
