(* ===== verification/Neon.v ===== *)
(** * The SQL store: internal/store/neonhttp.go

    Every method of [NeonHTTP] posts one statement, at most two, to the SQL
    endpoint over HTTP.  [Do] is [client.Do] and what is on the other side of
    it: it takes a request and the state [W] of the world to a response or an
    error and a new state.  [first_json] is the JSON value at the start of a
    body, [url_Parse] is that of net/url, [Sprint] that of fmt for the values
    that JSON decodes to, and [float64] as in Json.v. *)
From S2P Require Import Prelude Crypto GoStrings Text Json Http Store Config GoTime.
Local Open Scope Z_scope.

(** ** Fallible operations on the world *)

Definition io (W A : Type) : Type := W -> result A * W.
#[global] Instance io_ret {W} : MRet (io W) := fun A a w => (Ok a, w).
#[global] Instance io_bind {W} : MBind (io W) := fun A B f m w =>
  let '(r, w) := m w in
  match r with Ok a => f a w | Err e => (Err e, w) end.
Definition fail {W A} (e : error) : io W A := fun w => (Err e, w).

(** ** Requests and answers *)

(** A [url.URL] with its user information, if it has one, and its path. *)
Record FullURL := mkFullURL { fu_URL : URL; fu_User : bool; fu_Path : string }.

(** [json.Marshal(neonQuery{Query: q, Params: params})] prints this value. *)
Definition neonQuery (q : string) (params : list string) : json :=
  JObject [("query", JString q); ("params", JArray (JString <$> params))]%string.

Record neonRequest := mkNeonRequest {
  nr_url : string;
  nr_header : gmap string (list string);
  nr_body : json }.

Record neonResult := mkNeonResult {
  nq_Fields : list string;
  nq_Rows : list (list json);
  nq_RowCount : Z }.
Definition zero_neonResult : neonResult := mkNeonResult [] [] 0.

(** A slice whose elements [dec] decodes, each from the zero value. *)
Definition decode_list {A} (dec : json -> A * bool) (v : json) (old : list A) : list A * bool :=
  match v with
  | JNull => ([], true)
  | JArray l => ((dec <$> l).*1, forallb snd (dec <$> l))
  | _ => (old, false)
  end.
Definition decode_int (v : json) (old : Z) : Z * bool :=
  match v with
  | JNull => (old, true)
  | JNumber t => match ParseInt t with Ok z => (z, true) | Err _ => (old, false) end
  | _ => (old, false)
  end.

Section decode.
Context (float64 : string -> option string).

Definition decode_any (v : json) : json * bool :=
  match to_any float64 v with Some x => (x, true) | None => (JNull, false) end.
Definition decode_field (v : json) : string * bool :=
  decode_struct (fun k x s => if EqualFold k "name" then decode_string x s else (s, true)) v EmptyString.
Definition set_neonResult (k : string) (v : json) (r : neonResult) : neonResult * bool :=
  if EqualFold k "fields" then
    let '(l, ok) := decode_list decode_field v (nq_Fields r) in (mkNeonResult l (nq_Rows r) (nq_RowCount r), ok)
  else if EqualFold k "rows" then
    let '(l, ok) := decode_list (fun x => decode_list decode_any x []) v (nq_Rows r) in
    (mkNeonResult (nq_Fields r) l (nq_RowCount r), ok)
  else if EqualFold k "rowCount" then
    let '(n, ok) := decode_int v (nq_RowCount r) in (mkNeonResult (nq_Fields r) (nq_Rows r) n, ok)
  else (r, true).
Definition decode_neonResult (v : json) : neonResult * bool := decode_struct set_neonResult v zero_neonResult.
End decode.

(** [func rowMap(r neonResult, row []any) map[string]any] *)
Fixpoint row_map (fields : list string) (row : list json) (m : gmap string json) : gmap string json :=
  match fields, row with
  | f :: fields', v :: row' => row_map fields' row' (<[f := v]> m)
  | _, _ => m
  end.
Definition rowMap (r : neonResult) (row : list json) : gmap string json := row_map (nq_Fields r) row ∅.

(** ** The statements *)

Definition sql_CreateDevice : string :=
  "INSERT INTO devices(id, owner_subject, name, token_hash) VALUES ($1,$2,$3,$4)".
Definition sql_GetDevice : string :=
  "SELECT id, owner_subject, name, created_at, last_seen_at, revoked_at FROM devices WHERE id=$1 AND owner_subject=$2 AND revoked_at IS NULL".
Definition sql_ListDevices : string :=
  "SELECT id, owner_subject, name, created_at, last_seen_at, revoked_at FROM devices WHERE owner_subject=$1 AND revoked_at IS NULL ORDER BY created_at".
Definition sql_AuthenticateDevice : string :=
  "SELECT id, owner_subject, name, token_hash, created_at, last_seen_at, revoked_at FROM devices WHERE id=$1 AND revoked_at IS NULL".
Definition sql_TouchDevice : string :=
  "UPDATE devices SET last_seen_at=now() WHERE id=$1 AND revoked_at IS NULL".
Definition sql_RevokeDevice : string :=
  "UPDATE devices SET revoked_at=now() WHERE id=$1 AND owner_subject=$2 AND revoked_at IS NULL RETURNING id".
Definition sql_WriteAudit : string :=
  "INSERT INTO call_audit(owner_subject, device_id, tool_name, status, duration_ms, error_code) VALUES ($1,$2,$3,$4,$5,NULLIF($6,''))".
Definition sql_CreatePairing : string :=
  "INSERT INTO pairings(device_code_hash,user_code_hash,device_name,expires_at) VALUES ($1,$2,$3,$4)".
Definition sql_ApprovePairing : string :=
  "UPDATE pairings SET owner_subject=$2, approved_at=now() WHERE user_code_hash=$1 AND consumed_at IS NULL AND expires_at>now() RETURNING device_code_hash".
Definition sql_ConsumePairing : string :=
  "WITH p AS (
  UPDATE pairings SET consumed_at=now()
  WHERE device_code_hash=$1 AND approved_at IS NOT NULL AND owner_subject IS NOT NULL AND consumed_at IS NULL AND expires_at>now()
  RETURNING owner_subject, device_name
), ins AS (
  INSERT INTO devices(id,owner_subject,name,token_hash)
  SELECT $2,owner_subject,device_name,$3 FROM p
  RETURNING id,owner_subject,name,created_at,last_seen_at,revoked_at
)
SELECT id,owner_subject,name,created_at,last_seen_at,revoked_at FROM ins".
Definition sql_PairingStatus : string :=
  "SELECT approved_at,consumed_at,expires_at FROM pairings WHERE device_code_hash=$1".

(** ** The store *)

Record NeonHTTP := mkNeonHTTP { n_connectionString : string; n_endpoint : string }.

Definition dot : Ascii.ascii := Ascii.ascii_of_nat 46.
(** [strings.TrimPrefix(s, "/")] *)
Definition trim_slash (s : string) : string :=
  match bytes_of_string s with
  | b :: l => if decide (b = slash) then string_of_bytes l else s
  | [] => s
  end.

Section NewNeonHTTP.
Context (url_Parse : string -> result FullURL).

(** [func NewNeonHTTP(connectionString, endpointOverride string)] *)
Definition derived_endpoint (u : FullURL) (endpointOverride : string) : result string :=
  let endpoint := TrimSpace endpointOverride in
  if decide (endpoint = EmptyString) then
    let parts := Split (Hostname (fu_URL u)) dot in
    if (len parts <? 2)%Z then Err (New "cannot derive Neon HTTP endpoint")
    else Ok ("https://" +:+ Join (<[0%nat := "api"%string]> parts) "." +:+ "/sql")
  else Ok endpoint.

Definition postgres_url (u : FullURL) : bool :=
  (bool_decide (URL_Scheme (fu_URL u) = "postgres"%string) || bool_decide (URL_Scheme (fu_URL u) = "postgresql"%string))
  && fu_User u && bool_decide (Hostname (fu_URL u) <> EmptyString) && bool_decide (trim_slash (fu_Path u) <> EmptyString).

Definition endpoint_ok (eu : URL) : bool :=
  let loopback := bool_decide (Hostname eu = "127.0.0.1"%string) || bool_decide (Hostname eu = "localhost"%string) in
  bool_decide (URL_Host eu <> EmptyString)
  && (bool_decide (URL_Scheme eu = "https"%string) || (bool_decide (URL_Scheme eu = "http"%string) && loopback)).

Definition NewNeonHTTP (connectionString endpointOverride : string) : result NeonHTTP :=
  match url_Parse connectionString with
  | Err _ => Err (New "invalid Neon Postgres connection string")
  | Ok u =>
      if negb (postgres_url u) then Err (New "invalid Neon Postgres connection string")
      else
        endpoint ← derived_endpoint u endpointOverride;
        match url_Parse endpoint with
        | Err _ => Err (New "neon HTTP endpoint must use https outside loopback")
        | Ok eu =>
            if endpoint_ok (fu_URL eu) then Ok (mkNeonHTTP connectionString endpoint)
            else Err (New "neon HTTP endpoint must use https outside loopback")
        end
  end.
End NewNeonHTTP.

Section Neon.
Context {W : Type}.
Context (url_Parse : string -> result FullURL).
Context (Do : neonRequest -> W -> result (Z * list byte) * W).
Context (first_json : list byte -> option json).
Context (float64 : string -> option string).
Context (Sprint : json -> string).
(** The clock of the server. *)
Context (time_Now : W -> Z).

(** The request of [query]. *)
Definition neon_request (n : NeonHTTP) (q : string) (params : list string) : neonRequest :=
  mkNeonRequest (n_endpoint n)
    (Header_Set "Neon-Array-Mode" "true" (Header_Set "Neon-Raw-Text-Output" "true"
      (Header_Set "Neon-Connection-String" (n_connectionString n) (Header_Set "Content-Type" "application/json" ∅))))
    (neonQuery q params).

(** What [query] makes of a response; at most [8<<20] bytes are read. *)
Definition max_body : Z := Z.shiftl 8 20.
Definition max_error : Z := Z.shiftl 8 10.
Definition read_response (status : Z) (body : list byte) : result neonResult :=
  if (status <? 200) || (300 <=? status) then
    Err (Errorf "neon http query status %d: %s"
           [FormatInt status; TrimSpace (string_of_bytes (take (Z.to_nat max_error) body))])
  else
    match first_json (take (Z.to_nat max_body) body) with
    | None => Err (Wrapf "decode neon response: %w" [] (Foreign "encoding/json"))
    | Some v =>
        let '(out, ok) := decode_neonResult float64 v in
        if ok : bool then Ok out else Err (Wrapf "decode neon response: %w" [] (Foreign "encoding/json"))
    end.

(** [func (n) query(ctx, q string, params ...any) (neonResult, error)] *)
Definition query (n : NeonHTTP) (q : string) (params : list string) : io W neonResult := fun w =>
  match url_Parse (n_endpoint n) with
  | Err e => (Err e, w)
  | Ok _ =>
      let '(resp, w) := Do (neon_request n q params) w in
      (match resp with
       | Err e => Err (Wrapf "neon http query: %w" [] e)
       | Ok (status, body) => read_response status body
       end, w)
  end.

(** [func textVal(v any) string]; a missing key gives [nil]. *)
Definition textVal (v : json) : string :=
  match v with JString s => s | JNull => EmptyString | _ => Sprint v end.
Definition lookup_any (m : gmap string json) (k : string) : json := default JNull (m !! k).

(** [func timePtr(v any) *time.Time], [func derefTime(p *time.Time) time.Time] *)
Definition timePtr (v : json) : option Z :=
  let s := textVal v in if decide (s = EmptyString) then None else ParseRFC3339Nano s.
Definition derefTime (p : option Z) : Z := default 0 p.

(** [func deviceFromMap(m map[string]any) Device] *)
Definition deviceFromMap (m : gmap string json) : Device :=
  mkDevice (textVal (lookup_any m "id")) (textVal (lookup_any m "owner_subject")) (textVal (lookup_any m "name"))
    (derefTime (timePtr (lookup_any m "created_at"))) (timePtr (lookup_any m "last_seen_at"))
    (timePtr (lookup_any m "revoked_at")) false.

(** [len(r.Rows) == 1] and [r.Rows[0]] *)
Definition only_row (r : neonResult) : option (list json) :=
  match nq_Rows r with [row] => Some row | _ => None end.

Definition CreateDevice (n : NeonHTTP) (d : Device) (token : string) : io W unit :=
  _ ← query n sql_CreateDevice [Device_ID d; Device_OwnerSubject d; Device_Name d; HashSecret token];
  mret tt.

Definition GetDevice (n : NeonHTTP) (owner id : string) : io W Device :=
  r ← query n sql_GetDevice [id; owner];
  match only_row r with
  | None => fail ErrNotFound
  | Some row => mret (deviceFromMap (rowMap r row))
  end.

Definition ListDevices (n : NeonHTTP) (owner : string) : io W (list Device) :=
  r ← query n sql_ListDevices [owner];
  mret ((fun row => deviceFromMap (rowMap r row)) <$> nq_Rows r).

Definition AuthenticateDevice (n : NeonHTTP) (id token : string) : io W Device :=
  r ← query n sql_AuthenticateDevice [id];
  match only_row r with
  | None => fail ErrUnauthorized
  | Some row =>
      let m := rowMap r row in
      let want := textVal (lookup_any m "token_hash") in
      let got := HashSecret token in
      if bool_decide (slen want <> slen got)
         || negb (ConstantTimeCompare (bytes_of_string want) (bytes_of_string got) =? 1)
      then fail ErrUnauthorized
      else mret (deviceFromMap m)
  end.

Definition TouchDevice (n : NeonHTTP) (id : string) : io W unit :=
  _ ← query n sql_TouchDevice [id]; mret tt.

Definition RevokeDevice (n : NeonHTTP) (owner id : string) : io W unit :=
  r ← query n sql_RevokeDevice [id; owner];
  match only_row r with None => fail ErrNotFound | Some _ => mret tt end.

(** [e.Duration.Milliseconds()] *)
Definition Milliseconds (d : Z) : Z := Z.quot d Millisecond.
Definition WriteAudit (n : NeonHTTP) (e : AuditEvent) : io W unit :=
  _ ← query n sql_WriteAudit
        [AuditEvent_OwnerSubject e; AuditEvent_DeviceID e; AuditEvent_ToolName e; AuditEvent_Status e;
         FormatInt (Milliseconds (AuditEvent_Duration e)); AuditEvent_ErrorCode e];
  mret tt.

Definition CreatePairing (n : NeonHTTP) (p : Pairing) : io W unit :=
  _ ← query n sql_CreatePairing
        [Pairing_DeviceCodeHash p; Pairing_UserCodeHash p; Pairing_DeviceName p;
         FormatRFC3339Nano (Pairing_ExpiresAt p)];
  mret tt.

Definition ApprovePairing (n : NeonHTTP) (userCodeHash owner : string) : io W unit :=
  r ← query n sql_ApprovePairing [userCodeHash; owner];
  match only_row r with None => fail ErrNotFound | Some _ => mret tt end.

(** [ConsumePairing] when the statement consumed nothing: why not. *)
Definition pairing_status (n : NeonHTTP) (deviceCodeHash : string) : io W Device :=
  status ← query n sql_PairingStatus [deviceCodeHash];
  match only_row status with
  | None => fail ErrNotFound
  | Some row =>
      let m := rowMap status row in
      if bool_decide (timePtr (lookup_any m "consumed_at") <> None) then fail ErrPairingUsed
      else fun w =>
        if match timePtr (lookup_any m "expires_at") with Some exp => After (time_Now w) exp | None => false end
        then fail ErrPairingExpired w
        else if bool_decide (timePtr (lookup_any m "approved_at") = None) then fail ErrPairingPending w
        else fail ErrNotFound w
  end.

Definition ConsumePairing (n : NeonHTTP) (deviceCodeHash : string) (d : Device) (token : string) : io W Device :=
  r ← query n sql_ConsumePairing [deviceCodeHash; Device_ID d; HashSecret token];
  match only_row r with
  | Some row => mret (deviceFromMap (rowMap r row))
  | None => pairing_status n deviceCodeHash
  end.
End Neon.
