(* ===== verification/NeonDb.v ===== *)
(** * What the statements of the SQL store do, on typed rows

    The rows of the tables as records, and for every statement text of
    Neon.v what [run_sql] makes of it: a function of these records. *)
From S2P Require Import Prelude Crypto GoStrings Text Json Http Store Config Parser GoTime Sql Neon.

(** ** Typed rows *)

Record device_rec := mkDeviceRec {
  dr_id : string;
  dr_owner : string;
  dr_name : string;
  dr_hash : string;
  dr_created : Z;
  dr_last : option Z;
  dr_revoked : option Z }.
Record pairing_rec := mkPairingRec {
  pr_code : string;
  pr_user : string;
  pr_name : string;
  pr_expires : Z;
  pr_owner : option string;
  pr_approved : option Z;
  pr_consumed : option Z;
  pr_created : Z }.

Definition text_or_null (o : option string) : value := match o with Some s => VText s | None => VNull end.
Definition time_or_null (o : option Z) : value := match o with Some t => VTime t | None => VNull end.

Definition device_row (d : device_rec) : row :=
  [("id", VText (dr_id d)); ("owner_subject", VText (dr_owner d)); ("name", VText (dr_name d));
   ("token_hash", VText (dr_hash d)); ("created_at", VTime (dr_created d));
   ("last_seen_at", time_or_null (dr_last d)); ("revoked_at", time_or_null (dr_revoked d))]%string.
Definition pairing_row (p : pairing_rec) : row :=
  [("device_code_hash", VText (pr_code p)); ("user_code_hash", VText (pr_user p));
   ("device_name", VText (pr_name p)); ("expires_at", VTime (pr_expires p));
   ("owner_subject", text_or_null (pr_owner p)); ("approved_at", time_or_null (pr_approved p));
   ("consumed_at", time_or_null (pr_consumed p)); ("created_at", VTime (pr_created p))]%string.

Definition touch_rec (now : Z) (d : device_rec) : device_rec :=
  mkDeviceRec (dr_id d) (dr_owner d) (dr_name d) (dr_hash d) (dr_created d) (Some now) (dr_revoked d).
Definition revoke_rec (now : Z) (d : device_rec) : device_rec :=
  mkDeviceRec (dr_id d) (dr_owner d) (dr_name d) (dr_hash d) (dr_created d) (dr_last d) (Some now).
Definition approve_rec (now : Z) (owner : string) (p : pairing_rec) : pairing_rec :=
  mkPairingRec (pr_code p) (pr_user p) (pr_name p) (pr_expires p) (Some owner) (Some now) (pr_consumed p) (pr_created p).
Definition consume_rec (now : Z) (p : pairing_rec) : pairing_rec :=
  mkPairingRec (pr_code p) (pr_user p) (pr_name p) (pr_expires p) (pr_owner p) (pr_approved p) (Some now) (pr_created p).

(** The tables with typed rows; the audit log is kept as it is. *)
Record tables := mkTables {
  tb_devices : list device_rec;
  tb_pairings : list pairing_rec;
  tb_audit : list row;
  tb_serial : Z }.
Definition to_db (t : tables) : db :=
  mkDB (device_row <$> tb_devices t) (pairing_row <$> tb_pairings t) (tb_audit t) (tb_serial t).
Definition with_devices (t : tables) ds : tables := mkTables ds (tb_pairings t) (tb_audit t) (tb_serial t).
Definition with_pairings (t : tables) ps : tables := mkTables (tb_devices t) ps (tb_audit t) (tb_serial t).

(** Rows that satisfy the checks of their tables. *)
Definition device_ok (d : device_rec) : bool := (slen (dr_hash d) =? 64)%Z.
Definition pairing_ok (p : pairing_rec) : bool :=
  ((slen (pr_code p) =? 64)%Z && (slen (pr_user p) =? 64)%Z)
  && bool_decide (pr_approved p = None <-> pr_owner p = None).

(** ** The statements, parsed *)

Definition parsed (text : string) : sql_query :=
  default (mkQuery [] (Select [] EmptyString [] None)) (parse_sql text).
Definition q_CreateDevice : sql_query := Eval vm_compute in parsed sql_CreateDevice.
Definition q_GetDevice : sql_query := Eval vm_compute in parsed sql_GetDevice.
Definition q_ListDevices : sql_query := Eval vm_compute in parsed sql_ListDevices.
Definition q_AuthenticateDevice : sql_query := Eval vm_compute in parsed sql_AuthenticateDevice.
Definition q_TouchDevice : sql_query := Eval vm_compute in parsed sql_TouchDevice.
Definition q_RevokeDevice : sql_query := Eval vm_compute in parsed sql_RevokeDevice.
Definition q_WriteAudit : sql_query := Eval vm_compute in parsed sql_WriteAudit.
Definition q_CreatePairing : sql_query := Eval vm_compute in parsed sql_CreatePairing.
Definition q_ApprovePairing : sql_query := Eval vm_compute in parsed sql_ApprovePairing.
Definition q_ConsumePairing : sql_query := Eval vm_compute in parsed sql_ConsumePairing.
Definition q_PairingStatus : sql_query := Eval vm_compute in parsed sql_PairingStatus.

Lemma run_sql_parsed tin now text ps d q :
  parse_sql text = Some q ->
  run_sql tin now text ps d =
  (fun '(rs, d) => (result_columns q, rs, d)) <$> run_query tin now ps q d.
Proof. intros H. unfold run_sql. rewrite H. simpl. by destruct (run_query _ _ _ _ _) as [[]|]. Qed.

(** Run a statement: parse it, unfold the interpreter on its tree. *)
Ltac run_statement q :=
  rewrite (run_sql_parsed _ _ _ _ _ q) by (vm_compute; reflexivity);
  unfold q, run_query, run_with; cbn [q_with q_main run_stmt mbind option_bind].

(** ** Tables as lists of typed rows *)

Section rows.
Context {A : Type} (enc : A -> row).

(** [WHERE] on encoded rows. *)
Lemma filter_encoded now ps w (sel : A -> bool) (l : list A) :
  (forall a, selected now ps w (enc a) = sel a) ->
  List.filter (selected now ps w) (enc <$> l) = enc <$> List.filter sel l.
Proof.
  intros H. induction l as [|a l IH]; [done|]. cbn [fmap list_fmap List.filter]. rewrite H, IH.
  by destruct (sel a).
Qed.

(** [UPDATE] on encoded rows. *)
Lemma update_encoded tin now ps t sets w (sel : A -> bool) (f : A -> A) (l : list A) :
  (forall a, selected now ps w (enc a) = sel a) ->
  (forall a, a ∈ l -> sel a = true -> update_row tin now ps t sets w (enc a) = Some (enc (f a), true)) ->
  mapM (update_row tin now ps t sets w) (enc <$> l) =
  Some ((fun a => if sel a then (enc (f a), true) else (enc a, false)) <$> l).
Proof.
  intros Hs Hf. induction l as [|a l IH]; [done|]. cbn [fmap list_fmap mapM].
  assert (update_row tin now ps t sets w (enc a) = Some (if sel a then (enc (f a), true) else (enc a, false))) as ->.
  { destruct (sel a) eqn:E; [apply Hf; [left|done]|]. unfold update_row. by rewrite Hs, E. }
  cbn. rewrite IH by (intros b Hb; apply Hf; by right). done.
Qed.

Lemma updated_rows (sel : A -> bool) (f : A -> A) (l : list A) :
  (List.filter snd ((fun a => if sel a then (enc (f a), true) else (enc a, false)) <$> l)).*1
  = enc <$> (f <$> List.filter sel l) /\
  ((fun a => if sel a then (enc (f a), true) else (enc a, false)) <$> l).*1
  = enc <$> ((fun a => if sel a then f a else a) <$> l).
Proof.
  induction l as [|a l [IH1 IH2]]; [done|]. cbn [fmap list_fmap List.filter] in *.
  by destruct (sel a); cbn; rewrite IH1, IH2.
Qed.
End rows.

Lemma is_null_time o : is_null (time_or_null o) = bool_decide (o = None).
Proof. by destruct o. Qed.
Lemma is_null_text o : is_null (text_or_null o) = bool_decide (o = None).
Proof. by destruct o. Qed.

Lemma device_row_ok d : row_ok devices (device_row d) = device_ok d.
Proof. destruct d as [? ? ? ? ? [] []]; unfold row_ok, device_ok; cbn; by rewrite ?andb_true_r. Qed.
Lemma pairing_row_ok p : row_ok pairings (pairing_row p) = pairing_ok p.
Proof.
  destruct p as [? ? ? ? [] [] [] ?]; unfold row_ok, pairing_ok; cbn;
    rewrite ?andb_true_r; f_equal; apply bool_decide_ext; naive_solver.
Qed.
#[export] Hint Rewrite is_null_time is_null_text device_row_ok pairing_row_ok : orc.

(** Tables in which every row satisfies the checks and unique columns are so. *)
Record tables_ok (t : tables) : Prop := mkTablesOk {
  tok_devices : Forall (fun d => device_ok d = true) (tb_devices t);
  tok_pairings : Forall (fun p => pairing_ok p = true) (tb_pairings t);
  tok_id : NoDup (dr_id <$> tb_devices t);
  tok_hash : NoDup (dr_hash <$> tb_devices t);
  tok_code : NoDup (pr_code <$> tb_pairings t);
  tok_user : NoDup (pr_user <$> tb_pairings t);
  tok_audit : Forall (fun r => exists z, cell r "id" = VInt z /\ (z < tb_serial t)%Z) (tb_audit t) }.

(** ** Updates and selections *)

Definition is_device (id : string) (d : device_rec) : bool := bool_decide (dr_id d = id).
Definition live (d : device_rec) : bool := bool_decide (dr_revoked d = None).
Definition owned (id owner : string) (d : device_rec) : bool :=
  is_device id d && (bool_decide (dr_owner d = owner) && live d).
Definition approvable (now : Z) (user : string) (p : pairing_rec) : bool :=
  bool_decide (pr_user p = user) && (bool_decide (pr_consumed p = None) && (now <? pr_expires p)%Z).
Definition is_pairing (code : string) (p : pairing_rec) : bool := bool_decide (pr_code p = code).
Definition consumable (now : Z) (code : string) (p : pairing_rec) : bool :=
  is_pairing code p
  && (negb (bool_decide (pr_approved p = None)) && (negb (bool_decide (pr_owner p = None))
      && (bool_decide (pr_consumed p = None) && (now <? pr_expires p)%Z))).

Definition change {A} (sel : A -> bool) (f : A -> A) (l : list A) : list A :=
  (fun a => if sel a then f a else a) <$> l.

Definition older (d e : device_rec) : Prop := (dr_created d <= dr_created e)%Z.
#[global] Instance older_dec : RelDecision older.
Proof. intros d e. unfold older. apply _. Defined.

Lemma isort_fmap {A B} (f : A -> B) (R : A -> A -> Prop) (R' : B -> B -> Prop) `{!RelDecision R, !RelDecision R'} l :
  (forall a b, R' (f a) (f b) <-> R a b) -> isort R' (f <$> l) = f <$> isort R l.
Proof.
  intros H. assert (forall a l, insert_by R' (f a) (f <$> l) = f <$> insert_by R a l) as Hins.
  { intros a k. induction k as [|b k IH]; [done|]. cbn [fmap list_fmap insert_by].
    specialize (H a b). case_decide as H1; case_decide as H2; try tauto; cbn; by rewrite <- ?IH. }
  induction l as [|a l IH]; [done|]. cbn [fmap list_fmap]. unfold isort in *. cbn [foldr].
  rewrite <- Hins. by f_equal.
Qed.

Lemma approve_ok now owner p : pairing_ok p = true -> pairing_ok (approve_rec now owner p) = true.
Proof.
  unfold pairing_ok. intros H. bool_props. cbn. rewrite !(proj2 (Z.eqb_eq _ _)) by done. done.
Qed.

(** ** Insertions *)

Definition fresh_device (ds : list device_rec) (d : device_rec) : bool :=
  negb (existsb (fun e => bool_decide (dr_id d = dr_id e)) ds)
  && negb (existsb (fun e => bool_decide (dr_hash d = dr_hash e)) ds).
Definition fresh_pairing_rec (ps : list pairing_rec) (p : pairing_rec) : bool :=
  negb (existsb (fun e => bool_decide (pr_code p = pr_code e)) ps)
  && negb (existsb (fun e => bool_decide (pr_user p = pr_user e)) ps).
Definition insert_device (t : tables) (d : device_rec) : option tables :=
  if device_ok d && fresh_device (tb_devices t) d then Some (with_devices t (tb_devices t ++ [d])) else None.
Definition insert_pairing (t : tables) (p : pairing_rec) : option tables :=
  if pairing_ok p && fresh_pairing_rec (tb_pairings t) p then Some (with_pairings t (tb_pairings t ++ [p])) else None.

Lemma existsb_encoded {A} (enc : A -> row) c v (f : A -> bool) (l : list A) :
  (forall a, sql_eq v (cell (enc a) c) = f a) ->
  existsb (fun s => sql_eq v (cell s c)) (enc <$> l) = existsb f l.
Proof. intros H. induction l as [|a l IH]; [done|]. cbn [fmap list_fmap existsb]. by rewrite H, IH. Qed.

Lemma unique_device ds d : unique_in devices (device_row <$> ds) (device_row d) = fresh_device ds d.
Proof.
  unfold unique_in, fresh_device. cbn -[cell existsb sql_eq].
  rewrite (existsb_encoded device_row "id"%string _ (fun e => bool_decide (dr_id d = dr_id e))) by done.
  rewrite (existsb_encoded device_row "token_hash"%string _ (fun e => bool_decide (dr_hash d = dr_hash e))) by done.
  by rewrite !andb_true_r.
Qed.
Lemma unique_pairing ps p : unique_in pairings (pairing_row <$> ps) (pairing_row p) = fresh_pairing_rec ps p.
Proof.
  unfold unique_in, fresh_pairing_rec. cbn -[cell existsb sql_eq].
  rewrite (existsb_encoded pairing_row "device_code_hash"%string _ (fun e => bool_decide (pr_code p = pr_code e))) by done.
  rewrite (existsb_encoded pairing_row "user_code_hash"%string _ (fun e => bool_decide (pr_user p = pr_user e))) by done.
  by rewrite !andb_true_r.
Qed.

(** A condition on a unique column selects one row at most. *)
Lemma filter_unique {A B} (f : A -> B) (sel : A -> bool) k (l : list A) :
  NoDup (f <$> l) -> (forall a, sel a = true -> f a = k) ->
  List.filter sel l = [] \/ exists a, a ∈ l /\ sel a = true /\ List.filter sel l = [a].
Proof.
  intros Hnd Hk. induction l as [|a l IH]; [by left|]. cbn in *. apply NoDup_cons in Hnd as [Hna Hnd].
  destruct (sel a) eqn:E; [|destruct (IH Hnd) as [|(b & ? & ? & ?)]; [by left|right; exists b; set_solver]].
  right. exists a. split; [left|]. split; [done|]. f_equal.
  destruct (IH Hnd) as [|(b & Hb & Hs & _)]; [done|]. destruct Hna.
  rewrite (Hk a E), <- (Hk b Hs). by apply list_elem_of_fmap_2.
Qed.

Lemma unique_eq {A B} (g : A -> B) (l : list A) a b :
  NoDup (g <$> l) -> a ∈ l -> b ∈ l -> g a = g b -> a = b.
Proof.
  intros Hnd Ha Hb Hg. induction l as [|c l IH]; [set_solver|]. cbn in Hnd. apply NoDup_cons in Hnd as [Hc Hnd].
  apply elem_of_cons in Ha as [->|Ha], Hb as [->|Hb]; try done; [| |by apply IH].
  - destruct Hc. rewrite Hg. by apply list_elem_of_fmap_2.
  - destruct Hc. rewrite <- Hg. by apply list_elem_of_fmap_2.
Qed.

Lemma filter_In_one {A} (sel : A -> bool) l a : List.filter sel l = [a] -> a ∈ l /\ sel a = true.
Proof.
  intros H. assert (In a (List.filter sel l)) as Hin by (rewrite H; by left).
  apply filter_In in Hin as [Hin Hs]. split; [by apply list_elem_of_In|done].
Qed.

(** The row that a unique column picks out. *)
Lemma filter_one {A B} (g : A -> B) (sel : A -> bool) l a :
  NoDup (g <$> l) -> a ∈ l -> sel a = true -> (forall b, sel b = true -> g b = g a) -> List.filter sel l = [a].
Proof.
  intros Hnd Ha Hs Hg. destruct (filter_unique g sel (g a) l Hnd Hg) as [Hn|(b & Hb & Hsb & ->)].
  - exfalso. assert (In a (List.filter sel l)) as Hin by (apply filter_In; split; [by apply list_elem_of_In|done]).
    by rewrite Hn in Hin.
  - f_equal. apply (unique_eq g l); auto.
Qed.

Lemma change_none {A} (sel : A -> bool) f (l : list A) : List.filter sel l = [] -> change sel f l = l.
Proof.
  unfold change. induction l as [|a l IH]; [done|]. cbn. destruct (sel a); [done|]. intros H. by rewrite IH.
Qed.

(** The condition of a statement on a typed row. *)
Ltac typed_condition :=
  intros; unfold selected; cbn; autorewrite with orc; rewrite ?andb_true_r; reflexivity.

Lemma bigint_in_FormatInt z : int64_ok z -> bigint_in (FormatInt z) = Some z.
Proof. intros H. unfold bigint_in. by rewrite ParseInt_FormatInt. Qed.

Section statements.
Context (tin : string -> option Z) (now : Z).
Notation run := (run_sql tin now).

Lemma run_update {A} (enc : A -> row) t ps sets w sel f (l : list A) :
  (forall a, selected now ps w (enc a) = sel a) ->
  (forall a, assign_all tin now ps t sets (enc a) = Some (enc (f a))) ->
  Forall (fun a => sel a = true -> row_ok t (enc (f a)) = true) l ->
  exists rs, mapM (update_row tin now ps t sets w) (enc <$> l) = Some rs /\
    (List.filter snd rs).*1 = enc <$> (f <$> List.filter sel l) /\ rs.*1 = enc <$> change sel f l.
Proof.
  intros Hs Ha Hok. eexists. split; [|apply updated_rows]. apply update_encoded; [done|].
  intros a Hin Hsel. unfold update_row. rewrite Hs, Hsel, Ha. cbn.
  rewrite Forall_forall in Hok. by rewrite Hok.
Qed.

(** An update of typed rows that keeps the checks. *)
Ltac typed_update enc t sel f :=
  cbn [schema String.eqb Ascii.eqb Bool.eqb mbind option_bind rows_of to_db d_devices d_pairings];
  match goal with
  | |- context [mapM (update_row _ _ ?ps _ ?sets ?w) (enc <$> ?l)] =>
      let rs := fresh "rs" in let H1 := fresh "H" in let H2 := fresh "H" in
      destruct (run_update enc t ps sets w sel f l) as (rs & -> & H1 & H2);
      [typed_condition|reflexivity| |cbn; rewrite ?H1, ?H2]
  end.

Lemma run_ApprovePairing t user owner :
  tables_ok t ->
  run sql_ApprovePairing [user; owner] (to_db t) =
  Some (["device_code_hash"%string],
        project ["device_code_hash"%string] <$> (pairing_row <$> (approve_rec now owner <$> List.filter (approvable now user) (tb_pairings t))),
        to_db (with_pairings t (change (approvable now user) (approve_rec now owner) (tb_pairings t)))).
Proof.
  intros [_ Hok _ _ _ _ _]. run_statement q_ApprovePairing.
  typed_update pairing_row pairings (approvable now user) (approve_rec now owner).
  - eapply Forall_impl; [exact Hok|]. intros p Hp _. rewrite pairing_row_ok. by apply approve_ok.
  - done.
Qed.

Lemma run_TouchDevice t id :
  tables_ok t ->
  run sql_TouchDevice [id] (to_db t) =
  Some ([], [], to_db (with_devices t (change (fun d => is_device id d && live d) (touch_rec now) (tb_devices t)))).
Proof.
  intros [Hok _ _ _ _ _ _]. run_statement q_TouchDevice.
  typed_update device_row devices (fun d => is_device id d && live d) (touch_rec now).
  - eapply Forall_impl; [exact Hok|]. intros d Hd _. by rewrite device_row_ok.
  - done.
Qed.

Lemma run_RevokeDevice t id owner :
  tables_ok t ->
  run sql_RevokeDevice [id; owner] (to_db t) =
  Some (["id"%string],
        project ["id"%string] <$> (device_row <$> (revoke_rec now <$> List.filter (owned id owner) (tb_devices t))),
        to_db (with_devices t (change (owned id owner) (revoke_rec now) (tb_devices t)))).
Proof.
  intros [Hok _ _ _ _ _ _]. run_statement q_RevokeDevice.
  typed_update device_row devices (owned id owner) (revoke_rec now).
  - eapply Forall_impl; [exact Hok|]. intros d Hd _. by rewrite device_row_ok.
  - done.
Qed.

Definition device_columns : list string :=
  ["id"; "owner_subject"; "name"; "created_at"; "last_seen_at"; "revoked_at"]%string.
Definition auth_columns : list string :=
  ["id"; "owner_subject"; "name"; "token_hash"; "created_at"; "last_seen_at"; "revoked_at"]%string.
Definition status_columns : list string := ["approved_at"; "consumed_at"; "expires_at"]%string.

Lemma run_GetDevice t id owner :
  run sql_GetDevice [id; owner] (to_db t) =
  Some (device_columns, project device_columns <$> (device_row <$> List.filter (owned id owner) (tb_devices t)), to_db t).
Proof.
  run_statement q_GetDevice. cbn [source_rows assoc default rows_of String.eqb Ascii.eqb Bool.eqb to_db d_devices].
  by rewrite (filter_encoded device_row _ _ _ (owned id owner)) by typed_condition.
Qed.

Lemma run_AuthenticateDevice t id :
  run sql_AuthenticateDevice [id] (to_db t) =
  Some (auth_columns, project auth_columns <$> (device_row <$> List.filter (fun d => is_device id d && live d) (tb_devices t)), to_db t).
Proof.
  run_statement q_AuthenticateDevice. cbn [source_rows assoc default rows_of String.eqb Ascii.eqb Bool.eqb to_db d_devices].
  by rewrite (filter_encoded device_row _ _ _ (fun d => is_device id d && live d)) by typed_condition.
Qed.

Lemma run_PairingStatus t code :
  run sql_PairingStatus [code] (to_db t) =
  Some (status_columns, project status_columns <$> (pairing_row <$> List.filter (is_pairing code) (tb_pairings t)), to_db t).
Proof.
  run_statement q_PairingStatus. cbn [source_rows assoc default rows_of String.eqb Ascii.eqb Bool.eqb to_db d_pairings].
  by rewrite (filter_encoded pairing_row _ _ _ (is_pairing code)) by typed_condition.
Qed.

Lemma run_ListDevices t owner :
  run sql_ListDevices [owner] (to_db t) =
  Some (device_columns,
        project device_columns <$> (device_row <$> isort older (List.filter (fun d => bool_decide (dr_owner d = owner) && live d) (tb_devices t))),
        to_db t).
Proof.
  run_statement q_ListDevices. cbn [source_rows assoc default rows_of String.eqb Ascii.eqb Bool.eqb to_db d_devices].
  rewrite (filter_encoded device_row _ _ _ (fun d => bool_decide (dr_owner d = owner) && live d)) by typed_condition.
  rewrite (isort_fmap device_row older (cell_le "created_at"%string)); [done|]. intros d e. unfold cell_le, older. cbn.
  rewrite Z.ltb_ge. done.
Qed.

Lemma insert_device_row t id owner name hash :
  let d := mkDeviceRec id owner name hash now None None in
  insert_row tin now "devices" devices ["id"; "owner_subject"; "name"; "token_hash"]%string
    [VText id; VText owner; VText name; VText hash] (to_db t) =
  (fun t' => (device_row d, to_db t')) <$> insert_device t d.
Proof.
  intros d. unfold insert_row, new_row. cbn -[unique_in row_ok rows_of].
  change (row_ok devices _) with (row_ok devices (device_row d)).
  change (unique_in devices _ _) with (unique_in devices (device_row <$> tb_devices t) (device_row d)).
  rewrite unique_device, device_row_ok, andb_true_r. unfold insert_device.
  destruct (device_ok d && fresh_device _ d); [|done]. cbn. unfold to_db, with_devices. cbn. by rewrite fmap_app.
Qed.

Lemma run_CreateDevice t id owner name hash :
  run sql_CreateDevice [id; owner; name; hash] (to_db t) =
  (fun t' => ([], [], to_db t')) <$> insert_device t (mkDeviceRec id owner name hash now None None).
Proof.
  run_statement q_CreateDevice. cbn [schema String.eqb Ascii.eqb Bool.eqb mbind option_bind fmap list_fmap eval lookup list_lookup Nat.pred].
  rewrite insert_device_row. by destruct (insert_device _ _).
Qed.

Lemma run_CreatePairing t code user name exp :
  run sql_CreatePairing [code; user; name; exp] (to_db t) =
  e ← tin exp;
  (fun t' => ([], [], to_db t')) <$> insert_pairing t (mkPairingRec code user name e None None None now).
Proof.
  run_statement q_CreatePairing. cbn [schema String.eqb Ascii.eqb Bool.eqb mbind option_bind fmap list_fmap eval lookup list_lookup Nat.pred].
  unfold insert_row, new_row. cbn -[unique_in row_ok rows_of]. destruct (tin exp) as [e|]; [|done].
  cbn -[unique_in row_ok rows_of]. set (p := mkPairingRec code user name e None None None now).
  change (row_ok pairings _) with (row_ok pairings (pairing_row p)).
  change (unique_in pairings _ _) with (unique_in pairings (pairing_row <$> tb_pairings t) (pairing_row p)).
  rewrite unique_pairing, pairing_row_ok, andb_true_r. unfold insert_pairing.
  destruct (pairing_ok p && fresh_pairing_rec _ p); [|done]. cbn. unfold to_db, with_pairings. cbn. by rewrite fmap_app.
Qed.

(** The device that a pairing gives. *)
Definition paired_rec (id hash : string) (p : pairing_rec) : device_rec :=
  mkDeviceRec id (default EmptyString (pr_owner p)) (pr_name p) hash now None None.

Lemma run_ConsumePairing t code id hash :
  tables_ok t ->
  run sql_ConsumePairing [code; id; hash] (to_db t) =
  match List.filter (consumable now code) (tb_pairings t) with
  | p :: _ =>
      (fun t' => (device_columns, [project device_columns (device_row (paired_rec id hash p))], to_db t')) <$>
      insert_device (with_pairings t (change (consumable now code) (consume_rec now) (tb_pairings t))) (paired_rec id hash p)
  | [] => Some (device_columns, [], to_db t)
  end.
Proof.
  intros [_ Hok _ _ Hcode _ _]. run_statement q_ConsumePairing.
  typed_update pairing_row pairings (consumable now code) (consume_rec now).
  { eapply Forall_impl; [exact Hok|]. intros p Hp _. by rewrite pairing_row_ok. }
  clear H H0. set (sel := consumable now code) in *. set (f := consume_rec now) in *.
  change (mkDB _ _ _ _) with (to_db (with_pairings t (change sel f (tb_pairings t)))).
  destruct (filter_unique pr_code sel code (tb_pairings t) Hcode) as [Hnil|(p & _ & Hsel & ->)].
  { intros p Hp. unfold sel, consumable, is_pairing in Hp. by bool_props. }
  - rewrite Hnil, change_none by done. by destruct t.
  - unfold sel, consumable in Hsel. bool_props.
    change (consume_rec now p) with (f p). cbn [fmap list_fmap insert_rows project].
    destruct (pr_owner p) as [o|] eqn:Ho; [|done].
    change (cell [_; _] "owner_subject") with (text_or_null (pr_owner p)).
    change (cell [_; _] "device_name") with (VText (pr_name p)). rewrite Ho. cbn [text_or_null].
    rewrite insert_device_row. unfold paired_rec. rewrite Ho. cbn [default].
    by destruct (insert_device _ _).
Qed.

(** [INSERT INTO call_audit]: the device must exist. *)
Definition audit_row (serial : Z) (owner device tool status : string) (ms : Z) (code : string) : row :=
  [("id", VInt serial); ("owner_subject", VText owner); ("device_id", VText device); ("tool_name", VText tool);
   ("status", VText status); ("duration_ms", VInt ms);
   ("error_code", if bool_decide (code = EmptyString) then VNull else VText code); ("created_at", VTime now)]%string.
Definition audit_ok (t : tables) (device status : string) (ms : Z) : bool :=
  (bool_decide (status ∈ ["ok"; "error"; "offline"; "timeout"]%string) && (0 <=? ms)%Z)
  && existsb (is_device device) (tb_devices t).

Lemma run_WriteAudit t owner device tool status ms code :
  tables_ok t -> int64_ok ms ->
  run sql_WriteAudit [owner; device; tool; status; FormatInt ms; code] (to_db t) =
  if audit_ok t device status ms
  then Some ([], [], to_db (mkTables (tb_devices t) (tb_pairings t)
                       (tb_audit t ++ [audit_row (tb_serial t) owner device tool status ms code]) (tb_serial t + 1)))
  else None.
Proof.
  intros Ht Hms. pose proof (tok_audit t Ht) as Hser. run_statement q_WriteAudit.
  cbn [schema String.eqb Ascii.eqb Bool.eqb mbind option_bind fmap list_fmap eval lookup list_lookup Nat.pred].
  unfold insert_row, new_row. cbn -[unique_in row_ok rows_of references_ok FormatInt].
  rewrite bigint_in_FormatInt by done.
  set (r := audit_row (tb_serial t) owner device tool status ms code).
  assert (row_ok call_audit r = bool_decide (status ∈ ["ok"; "error"; "offline"; "timeout"]%string) && (0 <=? ms)%Z) as Hrow.
  { unfold row_ok, r, audit_row. cbn. rewrite ?andb_true_r.
    by destruct (bool_decide (code = EmptyString)). }
  assert (unique_in call_audit (tb_audit t) r = true) as Huniq.
  { unfold unique_in, r. cbn -[existsb sql_eq cell]. rewrite !andb_true_r. apply negb_true_iff, not_true_is_false.
    rewrite existsb_exists. intros (q & Hq & Heq). rewrite Forall_forall in Hser.
    destruct (Hser q ltac:(by apply list_elem_of_In)) as (z & Hz & Hlt). rewrite Hz in Heq. cbn in Heq. bool_props. lia. }
  assert (references_ok (to_db t) call_audit r = existsb (is_device device) (tb_devices t)) as Href.
  { unfold references_ok, r. cbn -[existsb sql_eq cell]. rewrite andb_true_r.
    apply existsb_encoded. intros d. unfold is_device. cbn. apply bool_decide_ext. naive_solver. }
  destruct (bool_decide (code = EmptyString)) eqn:Hcode; cbn -[row_ok unique_in references_ok];
    match goal with |- context [row_ok call_audit ?r'] => assert (r' = r) as -> by (unfold r, audit_row; by rewrite Hcode) end;
    rewrite Hrow, Huniq, Href, andb_true_r; unfold audit_ok; by case_match.
Qed.
End statements.

(** ** Operations on the tables keep their constraints *)

Section change.
Context {A : Type} (sel : A -> bool) (f : A -> A).

Lemma change_fmap {B} (g : A -> B) l : (forall a, g (f a) = g a) -> g <$> change sel f l = g <$> l.
Proof.
  intros H. induction l as [|a l IH]; [done|]. unfold change in *. cbn. rewrite IH.
  by destruct (sel a); rewrite ?H.
Qed.

Lemma change_Forall (P : A -> Prop) l : (forall a, P a -> P (f a)) -> Forall P l -> Forall P (change sel f l).
Proof.
  intros H Hl. unfold change. apply Forall_fmap. eapply Forall_impl; [exact Hl|]. intros a Ha. cbn.
  destruct (sel a); auto.
Qed.
End change.

Lemma NoDup_snoc {A} (l : list A) a : NoDup l -> a ∉ l -> NoDup (l ++ [a]).
Proof. intros Hl Ha. apply NoDup_app. split; [done|]. split; [set_solver|]. apply NoDup_singleton. Qed.

Lemma fresh_not_in {A B} `{EqDecision B} (g : A -> B) a l :
  negb (existsb (fun e => bool_decide (g a = g e)) l) = true -> g a ∉ g <$> l.
Proof.
  intros H Hin. apply list_elem_of_fmap in Hin as (e & He & Hin). bool_props.
  assert (existsb (fun e => bool_decide (g a = g e)) l = true) as Ht; [|congruence].
  apply existsb_exists. exists e. split; [by apply list_elem_of_In|]. by apply bool_decide_eq_true_2.
Qed.

Lemma with_devices_ok t sel f :
  (forall d, device_ok (f d) = device_ok d /\ dr_id (f d) = dr_id d /\ dr_hash (f d) = dr_hash d) ->
  tables_ok t -> tables_ok (with_devices t (change sel f (tb_devices t))).
Proof.
  intros Hf [Hd Hp Hid Hh Hc Hu Ha]. split; cbn; try done.
  - apply change_Forall; [|done]. intros d. by destruct (Hf d) as [-> _].
  - rewrite change_fmap; [done|]. apply Hf.
  - rewrite change_fmap; [done|]. apply Hf.
Qed.

Lemma with_pairings_ok t sel f :
  (forall p, pairing_ok p = true -> pairing_ok (f p) = true) ->
  (forall p, pr_code (f p) = pr_code p /\ pr_user (f p) = pr_user p) ->
  tables_ok t -> tables_ok (with_pairings t (change sel f (tb_pairings t))).
Proof.
  intros Hok Hf [Hd Hp Hid Hh Hc Hu Ha]. split; cbn; try done.
  - by apply change_Forall.
  - rewrite change_fmap; [done|]. apply Hf.
  - rewrite change_fmap; [done|]. apply Hf.
Qed.

Lemma insert_device_Some t d t' :
  insert_device t d = Some t' ->
  t' = with_devices t (tb_devices t ++ [d]) /\ device_ok d = true /\ fresh_device (tb_devices t) d = true.
Proof. unfold insert_device. intros H. case_guards. bool_props. done. Qed.
Lemma insert_pairing_Some t p t' :
  insert_pairing t p = Some t' ->
  t' = with_pairings t (tb_pairings t ++ [p]) /\ pairing_ok p = true /\ fresh_pairing_rec (tb_pairings t) p = true.
Proof. unfold insert_pairing. intros H. case_guards. bool_props. done. Qed.

Lemma insert_device_ok t d t' : tables_ok t -> insert_device t d = Some t' -> tables_ok t'.
Proof.
  intros [Hd Hp Hid Hh Hc Hu Ha] (-> & Hok & Hf)%insert_device_Some. unfold fresh_device in Hf.
  apply andb_true_iff in Hf as [Hf1 Hf2]. split; cbn; rewrite ?fmap_app; try done.
  - apply Forall_app. by repeat constructor.
  - apply NoDup_snoc; [done|]. by apply (fresh_not_in dr_id).
  - apply NoDup_snoc; [done|]. by apply (fresh_not_in dr_hash).
Qed.

Lemma insert_pairing_ok t p t' : tables_ok t -> insert_pairing t p = Some t' -> tables_ok t'.
Proof.
  intros [Hd Hp Hid Hh Hc Hu Ha] (-> & Hok & Hf)%insert_pairing_Some. unfold fresh_pairing_rec in Hf.
  apply andb_true_iff in Hf as [Hf1 Hf2]. split; cbn; rewrite ?fmap_app; try done.
  - apply Forall_app. by repeat constructor.
  - apply NoDup_snoc; [done|]. by apply (fresh_not_in pr_code).
  - apply NoDup_snoc; [done|]. by apply (fresh_not_in pr_user).
Qed.

Lemma append_audit_ok t owner device tool status ms code now :
  tables_ok t ->
  tables_ok (mkTables (tb_devices t) (tb_pairings t)
    (tb_audit t ++ [audit_row now (tb_serial t) owner device tool status ms code]) (tb_serial t + 1)).
Proof.
  intros [Hd Hp Hid Hh Hc Hu Ha]. split; cbn; try done. apply Forall_app. split.
  - eapply Forall_impl; [exact Ha|]. intros r (z & Hz & Hlt). exists z. split; [done|lia].
  - repeat constructor. exists (tb_serial t). split; [done|lia].
Qed.

Lemma Milliseconds_ok d : int64_ok d -> int64_ok (Milliseconds d).
Proof.
  unfold int64_ok, Milliseconds, Millisecond. intros H.
  pose proof (Z.quot_rem' d 1000000). pose proof (Z.rem_bound_abs d 1000000 ltac:(lia)). lia.
Qed.
