(* ===== verification/NeonProps.v ===== *)
(** * Properties of the SQL store

    The SQL service is an assumption ([neon_service]): it runs the statement
    it is sent in one transaction on its tables and answers with the rows as
    text, or the call fails, before or after the transaction.  The store over
    any such service refines the pairing protocol of StoreProps.v. *)
From S2P Require Import Prelude Crypto GoStrings Text Json Http Store StoreProps Config Parser GoTime Sql Neon NeonDb.
Import PairingSpec.
Local Open Scope Z_scope.

#[local] Opaque run_sql HashSecret.

(** ** The pairings, as the protocol sees them *)

Definition text_of (v : value) : string := match v with VText s => s | _ => EmptyString end.
Definition time_of (v : value) : Z := match v with VTime t => t | _ => 0 end.
Definition entry_of (r : row) : entry :=
  mkEntry (time_of (cell r "expires_at"))
    (if is_null (cell r "consumed_at") then
       if is_null (cell r "approved_at") then Pending else Approved (text_of (cell r "owner_subject"))
     else Consumed (text_of (cell r "owner_subject"))).
Definition abs_db (d : db) : gmap string entry :=
  list_to_map ((fun r => (text_of (cell r "device_code_hash"), entry_of r)) <$> d_pairings d).
(** The device code of a user code. *)
Definition code_of (d : db) (user : string) : string :=
  default EmptyString (text_of ∘ (fun r => cell r "device_code_hash") <$>
    List.find (fun r => sql_eq (cell r "user_code_hash") (VText user)) (d_pairings d)).

(** Tables that satisfy the constraints of src/migrations/001_init.sql, with
    no pairing approved by the empty subject. *)
Definition no_empty_owner (p : pairing_rec) : Prop := pr_owner p <> Some EmptyString.
Definition db_ok (d : db) : Prop :=
  exists t, d = to_db t /\ tables_ok t /\ Forall no_empty_owner (tb_pairings t).

Definition entry_rec (p : pairing_rec) : entry :=
  mkEntry (pr_expires p)
    (match pr_consumed p, pr_approved p with
     | Some _, _ => Consumed (default EmptyString (pr_owner p))
     | None, Some _ => Approved (default EmptyString (pr_owner p))
     | None, None => Pending
     end).
Definition abs_recs (ps : list pairing_rec) : gmap string entry :=
  list_to_map ((fun p => (pr_code p, entry_rec p)) <$> ps).

Lemma entry_of_row p : entry_of (pairing_row p) = entry_rec p.
Proof. by destruct p as [? ? ? ? [] [] [] ?]. Qed.

Lemma abs_to_db t : abs_db (to_db t) = abs_recs (tb_pairings t).
Proof.
  unfold abs_db, abs_recs, to_db. cbn [d_pairings]. rewrite <- list_fmap_compose. f_equal.
  apply list_fmap_ext. intros i p _. cbn [compose]. unfold compose. by rewrite entry_of_row.
Qed.

Lemma code_of_to_db t p : tables_ok t -> p ∈ tb_pairings t -> code_of (to_db t) (pr_user p) = pr_code p.
Proof.
  intros Ht Hp. pose proof (tok_user t Ht) as Hnd. unfold code_of, to_db. cbn [d_pairings].
  induction (tb_pairings t) as [|q l IH]; [set_solver|]. cbn in *. apply NoDup_cons in Hnd as [Hq Hnd].
  case_bool_decide as E; cbn.
  - apply elem_of_cons in Hp as [->|Hp]; [done|]. destruct Hq. rewrite E. by apply list_elem_of_fmap_2.
  - apply elem_of_cons in Hp as [->|Hp]; [done|]. by apply IH.
Qed.

Section abs.
Implicit Types ps : list pairing_rec.

Lemma codes_of ps : ((fun p => (pr_code p, entry_rec p)) <$> ps).*1 = pr_code <$> ps.
Proof. by rewrite <- list_fmap_compose. Qed.

Lemma abs_recs_lookup ps p : NoDup (pr_code <$> ps) -> p ∈ ps -> abs_recs ps !! pr_code p = Some (entry_rec p).
Proof.
  intros Hnd Hp. apply elem_of_list_to_map_1; [by rewrite codes_of|].
  by apply (list_elem_of_fmap_2 (fun p => (pr_code p, entry_rec p))).
Qed.

Lemma abs_recs_None ps c : c ∉ pr_code <$> ps -> abs_recs ps !! c = None.
Proof. intros H. apply not_elem_of_list_to_map_1. by rewrite codes_of. Qed.

Lemma abs_recs_snoc ps p :
  pr_code p ∉ pr_code <$> ps -> abs_recs (ps ++ [p]) = <[pr_code p := entry_rec p]> (abs_recs ps).
Proof.
  intros H. unfold abs_recs. rewrite fmap_app, list_to_map_app. cbn. rewrite insert_empty, <- insert_union_singleton_r; [done|].
  by apply abs_recs_None.
Qed.

(** An update of the one selected pairing. *)
Lemma abs_recs_change sel f ps p :
  NoDup (pr_code <$> ps) -> List.filter sel ps = [p] -> (forall q, pr_code (f q) = pr_code q) ->
  abs_recs (change sel f ps) = <[pr_code p := entry_rec (f p)]> (abs_recs ps).
Proof.
  intros Hnd Hf Hc. induction ps as [|q ps IH]; [done|]. cbn in Hnd, Hf. apply NoDup_cons in Hnd as [Hq Hnd].
  unfold abs_recs, change in *. cbn. destruct (sel q).
  - injection Hf as <- Hf. rewrite Hc, insert_insert_eq. pose proof (change_none sel f ps Hf) as Hn. unfold change in Hn. by rewrite Hn.
  - rewrite IH by done. apply insert_insert_ne. intros E. apply Hq. rewrite E.
    apply list_elem_of_fmap_2. apply list_elem_of_In, (List.filter_In sel). rewrite Hf. by left.
Qed.
End abs.

(** ** What a statement does to the pairings *)

(** The statement of a call and its parameters. *)
Definition statement_of (o : op) : string * list string :=
  match o with
  | OpCreateDevice d token => (sql_CreateDevice, [Device_ID d; Device_OwnerSubject d; Device_Name d; HashSecret token])
  | OpTouchDevice id => (sql_TouchDevice, [id])
  | OpRevokeDevice owner id => (sql_RevokeDevice, [id; owner])
  | OpWriteAudit e => (sql_WriteAudit,
      [AuditEvent_OwnerSubject e; AuditEvent_DeviceID e; AuditEvent_ToolName e; AuditEvent_Status e;
       FormatInt (Milliseconds (AuditEvent_Duration e)); AuditEvent_ErrorCode e])
  | OpCreatePairing p => (sql_CreatePairing,
      [Pairing_DeviceCodeHash p; Pairing_UserCodeHash p; Pairing_DeviceName p; FormatRFC3339Nano (Pairing_ExpiresAt p)])
  | OpApprovePairing user owner => (sql_ApprovePairing, [user; owner])
  | OpConsumePairing code d token => (sql_ConsumePairing, [code; Device_ID d; HashSecret token])
  end.

(** The step of the protocol that a statement with these rows performs. *)
Definition row_label (o : op) (d : db) (rows : list row) : label :=
  match o, rows with
  | OpCreatePairing p, _ => LStart (Pairing_DeviceCodeHash p)
  | OpApprovePairing user owner, _ :: _ => LApprove (code_of d user) owner
  | OpConsumePairing code _ _, r :: _ => LConsume code (text_of (cell r "owner_subject"))
  | _, _ => LTau
  end.

(** The interface's callers never approve for the empty subject, and a
    duration is an [int64]. *)
Definition op_fine (o : op) : Prop :=
  match o with
  | OpApprovePairing _ owner => owner <> EmptyString
  | OpWriteAudit e => int64_ok (AuditEvent_Duration e)
  | _ => True
  end.

Section effects.
Context (tin : string -> option Z) (now : Z).

(** The pairings of the tables are as before. *)
Definition quiet (t t' : tables) : Prop := tb_pairings t' = tb_pairings t /\ tables_ok t'.

Lemma quiet_effect t t' l (rows : list row) :
  quiet t t' -> Forall no_empty_owner (tb_pairings t) -> l = LTau -> (length rows <= 1)%nat ->
  db_ok (to_db t') /\ PairingSpec.step now l (abs_db (to_db t)) (abs_db (to_db t')) /\ (length rows <= 1)%nat.
Proof.
  intros [Hp Hok] Hne -> Hl. split; [exists t'; by rewrite Hp|]. split; [|done]. rewrite !abs_to_db, Hp. constructor.
Qed.

Lemma approve_effect t user owner p :
  tables_ok t -> List.filter (approvable now user) (tb_pairings t) = [p] ->
  PairingSpec.step now (LApprove (code_of (to_db t) user) owner) (abs_recs (tb_pairings t))
    (abs_recs (change (approvable now user) (approve_rec now owner) (tb_pairings t))).
Proof.
  intros Ht Hf. destruct (filter_In_one _ _ _ Hf) as [Hp Hsel]. unfold approvable in Hsel. bool_props. subst user.
  rewrite code_of_to_db, (abs_recs_change _ _ _ p) by (try apply tok_code; done).
  unfold entry_rec at 1. cbn. rewrite H0.
  eapply step_approve; [by apply abs_recs_lookup; [apply tok_code|]|lia|].
  rewrite H0. by destruct (pr_approved p).
Qed.

Lemma consume_effect t code p :
  tables_ok t -> Forall no_empty_owner (tb_pairings t) ->
  List.filter (consumable now code) (tb_pairings t) = [p] ->
  PairingSpec.step now (LConsume code (default EmptyString (pr_owner p))) (abs_recs (tb_pairings t))
    (abs_recs (change (consumable now code) (consume_rec now) (tb_pairings t))).
Proof.
  intros Ht Hne Hf. destruct (filter_In_one _ _ _ Hf) as [Hp Hsel]. unfold consumable, is_pairing in Hsel. bool_props. subst code.
  rewrite (abs_recs_change _ _ _ p) by (try apply tok_code; done). unfold entry_rec at 1. cbn.
  rewrite Forall_forall in Hne. specialize (Hne p Hp).
  apply step_consume; [|lia|].
  - rewrite abs_recs_lookup; [|by apply tok_code|done]. unfold entry_rec. rewrite H2. by destruct (pr_approved p).
  - unfold no_empty_owner in Hne. destruct (pr_owner p); cbn; congruence.
Qed.

(** Every statement that changes the tables keeps them in order and performs
    at most one step of the protocol, the one its rows tell. *)
Lemma statement_effect o d cols rows d' :
  op_fine o -> db_ok d -> run_sql tin now (statement_of o).1 (statement_of o).2 d = Some (cols, rows, d') ->
  db_ok d' /\ PairingSpec.step now (row_label o d rows) (abs_db d) (abs_db d') /\ (length rows <= 1)%nat.
Proof.
  intros Hfine (t & -> & Ht & Hne). destruct o as [dv tok|id|owner id|e|p|user owner|code dv tok]; cbn [statement_of fst snd].
  - rewrite run_CreateDevice. intros H. destruct (insert_device t _) as [t'|] eqn:Hi; [|done]. cbn in H. simplify_eq.
    apply quiet_effect; [|done|done|cbn; lia].
    pose proof (insert_device_ok _ _ _ Ht Hi). apply insert_device_Some in Hi as (-> & _). done.
  - rewrite run_TouchDevice by done. intros H. simplify_eq.
    apply quiet_effect; [|done|done|cbn; lia]. split; [done|]. by apply with_devices_ok.
  - rewrite run_RevokeDevice by done. intros H. simplify_eq.
    apply quiet_effect; [|done|done|].
    + split; [done|]. by apply with_devices_ok.
    + rewrite !length_fmap.
      destruct (filter_unique dr_id (owned id owner) id _ (tok_id t Ht)) as [->|(x & _ & _ & ->)]; [|cbn; lia..].
      intros x Hx. unfold owned, is_device in Hx. by bool_props.
  - rewrite run_WriteAudit; [|done|by apply Milliseconds_ok]. intros H. case_guards.
    apply (quiet_effect t (mkTables _ _ _ _) _ []); [|done|done|cbn; lia]. split; [done|]. by apply append_audit_ok.
  - rewrite run_CreatePairing. intros H. destruct (tin _) as [t0|]; [|done]. cbn in H.
    destruct (insert_pairing t _) as [t'|] eqn:Hi; [|done]. cbn in H. simplify_eq.
    pose proof (insert_pairing_ok _ _ _ Ht Hi) as Ht'. apply insert_pairing_Some in Hi as (-> & _ & Hf).
    unfold fresh_pairing_rec in Hf. apply andb_true_iff in Hf as [Hf _]. apply (fresh_not_in pr_code) in Hf. cbn [pr_code] in Hf.
    split; [eexists; split; [done|]; split; [done|]; apply Forall_app; split; [done|by repeat constructor]|].
    split; [|cbn; lia]. rewrite !abs_to_db. cbn [row_label with_pairings tb_pairings].
    rewrite abs_recs_snoc by done. by apply step_start, abs_recs_None.
  - rewrite run_ApprovePairing by done. intros H. simplify_eq. rewrite !abs_to_db. cbn [with_pairings tb_pairings].
    destruct (filter_unique pr_user (approvable now user) user _ (tok_user t Ht)) as [Hn|(x & _ & _ & Hx)].
    { intros x Hx. unfold approvable in Hx. by bool_props. }
    + rewrite Hn. cbn. rewrite change_none by done. split; [by exists t; destruct t|]. split; [constructor|lia].
    + rewrite Hx. cbn [fmap list_fmap row_label length]. split; [|split; [by eapply approve_effect|lia]].
      eexists. split; [done|]. split; [apply with_pairings_ok; auto using approve_ok|].
      apply change_Forall; [|done]. intros q _. unfold no_empty_owner. cbn. cbn in Hfine. congruence.
  - rewrite run_ConsumePairing by done. intros H.
    destruct (filter_unique pr_code (consumable now code) code _ (tok_code t Ht)) as [Hn|(x & Hin & Hsel & Hx)].
    { intros x Hx. unfold consumable, is_pairing in Hx. by bool_props. }
    + rewrite Hn in H. simplify_eq. split; [by exists t|]. split; [constructor|cbn; lia].
    + rewrite Hx in H. destruct (insert_device _ _) as [t'|] eqn:Hi; [|done]. cbn in H. simplify_eq.
      assert (tables_ok (with_pairings t (change (consumable now code) (consume_rec now) (tb_pairings t)))) as Ht1
        by (by apply with_pairings_ok).
      pose proof (insert_device_ok _ _ _ Ht1 Hi) as Ht'. apply insert_device_Some in Hi as (-> & _ & _).
      split; [|split; [|cbn; lia]].
      * eexists. split; [done|]. split; [done|]. cbn. by apply change_Forall.
      * rewrite !abs_to_db. cbn. by apply consume_effect.
Qed.
End effects.

(** ** Answers of the service *)

(** How a value is written in an answer; [tout] prints timestamps. *)
Definition value_json (tout : Z -> string) (v : value) : json :=
  match v with
  | VNull => JNull
  | VText s => JString s
  | VTime t => JString (tout t)
  | VInt z => JString (FormatInt z)
  end.
Definition answer_of (tout : Z -> string) (cols : list string) (rows : list row) (r : neonResult) : Prop :=
  nq_Fields r = cols /\ nq_Rows r = (fun row => value_json tout <$> row.*2) <$> rows.

Lemma only_row_answer tout cols rows res :
  answer_of tout cols rows res -> (length rows <= 1)%nat ->
  only_row res = head ((fun row => value_json tout <$> row.*2) <$> rows).
Proof. intros [_ H] Hl. unfold only_row. rewrite H. destruct rows as [|? []]; [done..|cbn in Hl; lia]. Qed.

(** The fields of an answer by their names. *)
Lemma row_map_lookup fields row (m : gmap string json) k :
  NoDup fields -> row_map fields row m !! k = match assoc k (zip fields row) with Some v => Some v | None => m !! k end.
Proof.
  intros Hnd. revert row m. induction Hnd as [|f fields Hf _ IH]; intros [|v row] m; try done. cbn [row_map zip zip_with assoc].
  rewrite IH. destruct (String.eqb_spec f k) as [->|Hne].
  - rewrite lookup_insert_eq. clear IH. assert (assoc k (zip fields row) = None) as ->; [|done].
    revert row. induction fields as [|g fields IH]; intros [|v' row]; try done. cbn.
    apply not_elem_of_cons in Hf as [Hne Hf]. destruct (String.eqb_spec g k); [congruence|]. by apply IH.
  - by rewrite lookup_insert_ne.
Qed.

(** A device as an answer shows it: its times are printed and read again. *)
Definition seen_time (tout : Z -> string) (t : Z) : option Z :=
  if decide (tout t = EmptyString) then None else ParseRFC3339Nano (tout t).
Definition seen_device (tout : Z -> string) (d : device_rec) : Device :=
  mkDevice (dr_id d) (dr_owner d) (dr_name d) (default 0 (seen_time tout (dr_created d)))
    (dr_last d ≫= seen_time tout) (dr_revoked d ≫= seen_time tout) false.

Lemma timePtr_shown Sprint tout o : timePtr Sprint (value_json tout (time_or_null o)) = o ≫= seen_time tout.
Proof. by destruct o. Qed.

(** The columns of a device in a result that has them. *)
Lemma device_answer Sprint tout cols d res :
  nq_Fields res = cols -> NoDup cols ->
  (forall c, c ∈ device_columns -> assoc c (zip cols (value_json tout <$> (project cols (device_row d)).*2))
     = Some (value_json tout (cell (device_row d) c))) ->
  deviceFromMap Sprint (rowMap res (value_json tout <$> (project cols (device_row d)).*2)) = seen_device tout d.
Proof.
  intros Hf Hnd Hc. unfold deviceFromMap, rowMap, lookup_any. rewrite Hf. rewrite !row_map_lookup by done.
  rewrite !Hc by (unfold device_columns; set_solver). unfold seen_device. cbn [default from_option id].
  change (cell (device_row d) "created_at") with (time_or_null (Some (dr_created d))).
  change (cell (device_row d) "last_seen_at") with (time_or_null (dr_last d)).
  change (cell (device_row d) "revoked_at") with (time_or_null (dr_revoked d)).
  by rewrite !timePtr_shown.
Qed.

Lemma device_columns_NoDup : NoDup device_columns.
Proof. apply (bool_decide_unpack _). vm_compute. exact I. Qed.
Lemma auth_columns_NoDup : NoDup auth_columns.
Proof. apply (bool_decide_unpack _). vm_compute. exact I. Qed.

Lemma shown_device Sprint tout d res :
  nq_Fields res = device_columns ->
  deviceFromMap Sprint (rowMap res (value_json tout <$> (project device_columns (device_row d)).*2)) = seen_device tout d.
Proof.
  intros Hf. apply device_answer; [done|apply device_columns_NoDup|].
  intros c Hc. unfold device_columns in *. rewrite !elem_of_cons in Hc. destruct_or?; subst; try done. set_solver.
Qed.
Lemma shown_device_auth Sprint tout d res :
  nq_Fields res = auth_columns ->
  deviceFromMap Sprint (rowMap res (value_json tout <$> (project auth_columns (device_row d)).*2)) = seen_device tout d.
Proof.
  intros Hf. apply device_answer; [done|apply auth_columns_NoDup|].
  intros c Hc. unfold device_columns in *. rewrite !elem_of_cons in Hc. destruct_or?; subst; try done. set_solver.
Qed.

Section service.
Context {W : Type}.
Context (url_Parse : string -> result FullURL).
Context (Do : neonRequest -> W -> result (Z * list byte) * W).
Context (first_json : list byte -> option json).
Context (float64 : string -> option string).
Context (Sprint : json -> string).
Context (time_Now : W -> Z).
(** The tables behind the service, its clock at the last transaction, and how
    it reads and writes timestamps. *)
Context (contents : W -> db) (clock : W -> Z).
Context (tin : string -> option Z) (tout : Z -> string).

(** No answer: an error of the transport, a status that is not a success, or
    a body that is not JSON, wherever the reader cuts it. *)
Definition failed (resp : result (Z * list byte)) : Prop :=
  match resp with
  | Err _ => True
  | Ok (status, body) => ~ (200 <= status < 300) \/ forall k, first_json (take k body) = None
  end.

Inductive responds (now : Z) (q : string) (ps : list string) (d : db) : result (Z * list byte) -> db -> Prop :=
| responds_rows status body kvs r cols rows d' :
    run_sql tin now q ps d = Some (cols, rows, d') ->
    200 <= status < 300 -> first_json body = Some (JObject kvs) ->
    decode_neonResult float64 (JObject kvs) = (r, true) -> answer_of tout cols rows r ->
    responds now q ps d (Ok (status, body)) d'
| responds_lost resp cols rows d' :
    run_sql tin now q ps d = Some (cols, rows, d') -> failed resp -> responds now q ps d resp d'
| responds_failed resp : failed resp -> responds now q ps d resp d.

(** What the store relies on: a JSON object is read whole or not at all, and
    the service answers as said. *)
Record neon_service : Prop := mkNeonService {
  ns_prefix : forall b k kvs, first_json b = Some (JObject kvs) ->
    first_json (take k b) = Some (JObject kvs) \/ first_json (take k b) = None;
  ns_Do : forall n q ps w resp w', Do (neon_request n q ps) w = (resp, w') ->
    clock w <= clock w' /\ responds (clock w') q ps (contents w) resp (contents w') }.

(** The errors of the interface are sentinels; those of a call are not. *)
Definition sentinel (e : error) : Prop := match e with Sentinel _ _ => True | _ => False end.

Notation query := (query url_Parse Do first_json float64).

Context (Hs : neon_service).
(** A store that [NewNeonHTTP] returned. *)
Context (n : NeonHTTP) (Hn : is_ok (url_Parse (n_endpoint n)) = true).

Lemma read_response_failed status body :
  failed (Ok (status, body)) -> exists e, read_response first_json float64 status body = Err e /\ ~ sentinel e.
Proof.
  unfold read_response. intros [H|H].
  - destruct ((status <? 200) || (300 <=? status)) eqn:E; [eexists; split; [done|tauto]|]. bool_props. lia.
  - rewrite H. destruct ((status <? 200) || (300 <=? status)); eexists; split; try done; tauto.
Qed.

(** [query] either gives the rows of the statement, or fails. *)
Lemma query_spec q ps w r w' :
  query n q ps w = (r, w') ->
  clock w <= clock w' /\
  ((exists res cols rows, r = Ok res /\ run_sql tin (clock w') q ps (contents w) = Some (cols, rows, contents w') /\
      answer_of tout cols rows res) \/
   (exists e, r = Err e /\ ~ sentinel e /\
      (contents w' = contents w \/
       exists cols rows, run_sql tin (clock w') q ps (contents w) = Some (cols, rows, contents w')))).
Proof.
  unfold Neon.query. destruct (url_Parse (n_endpoint n)); [|done].
  destruct (Do (neon_request n q ps) w) as [resp w1] eqn:HDo. intros [= <- <-].
  destruct (ns_Do Hs _ _ _ _ _ _ HDo) as [Hc H]. split; [done|].
  assert (failed resp -> exists e, match resp with
     | Ok (status, body) => read_response first_json float64 status body
     | Err e => Err (Wrapf "neon http query: %w" [] e) end = Err e /\ ~ sentinel e) as Hfail.
  { intros Hf. destruct resp as [[status body]|e]; [by apply read_response_failed|]. eexists. split; [done|tauto]. }
  destruct H as [status body kvs r cols rows d' Hrun Hst Hj Hd Ha|resp cols rows d' Hrun Hf|resp Hf].
  - unfold read_response.
    destruct ((status <? 200) || (300 <=? status)) eqn:E; [bool_props; lia|].
    destruct (ns_prefix Hs body (Z.to_nat max_body) kvs Hj) as [->| ->].
    + rewrite Hd. left. by exists r, cols, rows.
    + right. eexists. split; [done|]. split; [tauto|]. right. by exists cols, rows.
  - destruct (Hfail Hf) as (e & -> & He). right. exists e. split; [done|]. split; [done|]. right. by exists cols, rows.
  - destruct (Hfail Hf) as (e & -> & He). right. exists e. split; [done|]. split; [done|]. by left.
Qed.

(** One call of the interface; [Some d] is a device that it returns. *)
Definition neon_apply (o : op) : io W (option Device) :=
  match o with
  | OpCreateDevice d token => _ ← CreateDevice url_Parse Do first_json float64 n d token; mret None
  | OpTouchDevice id => _ ← TouchDevice url_Parse Do first_json float64 n id; mret None
  | OpRevokeDevice owner id => _ ← RevokeDevice url_Parse Do first_json float64 n owner id; mret None
  | OpWriteAudit e => _ ← WriteAudit url_Parse Do first_json float64 n e; mret None
  | OpCreatePairing p => _ ← CreatePairing url_Parse Do first_json float64 n p; mret None
  | OpApprovePairing user owner => _ ← ApprovePairing url_Parse Do first_json float64 n user owner; mret None
  | OpConsumePairing code d token =>
      d' ← ConsumePairing url_Parse Do first_json float64 Sprint time_Now n code d token; mret (Some d')
  end.

(** What a call that succeeded did. *)
Definition neon_label (o : op) (d : db) (x : option Device) : label :=
  match o with
  | OpCreatePairing p => LStart (Pairing_DeviceCodeHash p)
  | OpApprovePairing user owner => LApprove (code_of d user) owner
  | OpConsumePairing code _ _ => LConsume code (from_option Device_OwnerSubject EmptyString x)
  | _ => LTau
  end.

Notation state w := (abs_db (contents w)).

(** The statement of a call, sent through [query]. *)
Lemma query_effect o w r w' :
  op_fine o -> db_ok (contents w) -> query n (statement_of o).1 (statement_of o).2 w = (r, w') ->
  db_ok (contents w') /\ clock w <= clock w' /\
  exists l, PairingSpec.step (clock w') l (state w) (state w') /\
    match r with
    | Ok res => exists cols rows,
        run_sql tin (clock w') (statement_of o).1 (statement_of o).2 (contents w) = Some (cols, rows, contents w') /\
        answer_of tout cols rows res /\ (length rows <= 1)%nat /\ l = row_label o (contents w) rows
    | Err e => ~ sentinel e
    end.
Proof.
  intros Hf Hok Hq. apply query_spec in Hq as [Hc [(res & cols & rows & -> & Hrun & Ha)|(e & -> & He & Hrun)]].
  - destruct (statement_effect tin (clock w') o _ cols rows _ Hf Hok Hrun) as (Hok' & Hstep & Hl).
    split; [done|]. split; [done|]. eexists. split; [exact Hstep|]. eauto 10.
  - destruct Hrun as [->|(cols & rows & Hrun)].
    + split; [done|]. split; [done|]. exists LTau. split; [constructor|done].
    + destruct (statement_effect tin (clock w') o _ cols rows _ Hf Hok Hrun) as (Hok' & Hstep & Hl).
      split; [done|]. split; [done|]. eexists. split; [exact Hstep|done].
Qed.

Lemma consume_rows now code id hash d cols r0 d' :
  db_ok d -> run_sql tin now sql_ConsumePairing [code; id; hash] d = Some (cols, [r0], d') ->
  exists dr, cols = device_columns /\ r0 = project device_columns (device_row dr).
Proof.
  intros (t & -> & Ht & _). rewrite run_ConsumePairing by done. intros H.
  destruct (List.filter _ _) as [|p ?]; [done|]. destruct (insert_device _ _); [|done].
  injection H as <- <- _. by eexists.
Qed.

(** The second query of [ConsumePairing] changes nothing and ends in an error. *)
Lemma status_effect code w r w' :
  db_ok (contents w) -> pairing_status url_Parse Do first_json float64 Sprint time_Now n code w = (r, w') ->
  contents w' = contents w /\ clock w <= clock w' /\ is_ok r = false.
Proof.
  intros (t & Ht & _). unfold pairing_status, mbind, io_bind.
  destruct (query n sql_PairingStatus [code] w) as [res w1] eqn:Hq. intros H.
  apply query_spec in Hq as [Hc Hq]. rewrite Ht in *.
  assert (contents w1 = to_db t) as Hw.
  { destruct Hq as [(? & cols & rows & _ & Hrun & _)|(? & _ & _ & [Hw|(cols & rows & Hrun)])];
      [|done|]; rewrite run_PairingStatus in Hrun; congruence. }
  assert (w' = w1 /\ is_ok r = false) as [-> Hr]; [|by rewrite Hw].
  destruct res as [res|e]; [|by simplify_eq]. unfold fail in H. by case_guards.
Qed.

End service.
