(* ===== verification/NeonMemory.v ===== *)
(** * The SQL store answers like the in-memory store

    A relation between the tables of the SQL service and the maps of the
    in-memory store of Store.v, and the simulation: over related states the
    two stores give the same answers and end in related states.  A pairing
    expires at [expires_at] in SQL ([expires_at > now()]) and after
    [ExpiresAt] in memory ([now.After(ExpiresAt)]), so the related expiry is
    one nanosecond earlier in memory. *)
From S2P Require Import Prelude Crypto GoStrings Text Json Http Store StoreProps Config Parser GoTime Sql Neon NeonDb NeonProps.
Local Open Scope Z_scope.

(** ** Hashes have 64 characters *)

Lemma length_round st kw : length st = 8%nat -> length (Sha256.round st kw) = 8%nat.
Proof. by do 9 (destruct st as [|? st]; try done). Qed.
Lemma length_compress st block : length st = 8%nat -> length (Sha256.compress st block) = 8%nat.
Proof.
  intros H. unfold Sha256.compress. rewrite length_zip_with, H. generalize (zip Sha256.K (reverse (Sha256.schedule 48 (reverse (Sha256.words 16 block))))) as l.
  intros l. assert (forall s, length s = 8%nat -> length (fold_left Sha256.round l s) = 8%nat) as Hl.
  { induction l as [|x l IH]; [done|]. intros s Hs. cbn. by apply IH, length_round. }
  by rewrite Hl.
Qed.
Lemma length_Sum256 msg : length (Sha256.Sum256 msg) = 32%nat.
Proof.
  unfold Sha256.Sum256. generalize (Sha256.blocks (length (Sha256.pad msg) / 64) (Sha256.pad msg)) as bs. intros bs.
  assert (forall s, length s = 8%nat -> length (fold_left Sha256.compress bs s) = 8%nat) as Hl.
  { induction bs as [|x l IH]; [done|]. intros s Hs. cbn -[Sha256.compress]. by apply IH, length_compress. }
  specialize (Hl Sha256.H0 eq_refl). remember (fold_left Sha256.compress bs Sha256.H0) as s eqn:E. clear E.
  assert (length (s ≫= Sha256.be_bytes 4) = (4 * length s)%nat) as ->; [|by rewrite Hl].
  clear Hl. induction s as [|z s IH]; [done|]. rewrite bind_cons, length_app, length_be_bytes, IH. cbn [length]. lia.
Qed.
Lemma slen_hex bs : slen (hex_EncodeToString bs) = 2 * len bs.
Proof. unfold slen. induction bs as [|b bs IH]; [done|]. cbn [hex_EncodeToString String.length length] in *. lia. Qed.
Lemma slen_HashSecret s : slen (HashSecret s) = 64.
Proof. unfold HashSecret. by rewrite slen_hex, length_Sum256. Qed.

#[local] Opaque run_sql HashSecret.

(** ** Tables by a unique column *)

Section by_key.
Context {A : Type} (g : A -> string).
Implicit Types l : list A.

Definition by_key l : gmap string A := list_to_map ((fun a => (g a, a)) <$> l).

Lemma by_key_cons a l : by_key (a :: l) = <[g a := a]> (by_key l).
Proof. done. Qed.

Lemma by_key_Some l k a : by_key l !! k = Some a -> a ∈ l /\ g a = k.
Proof.
  intros H. apply elem_of_list_to_map_2, list_elem_of_fmap in H as (b & [= -> ->] & Hb). done.
Qed.

Lemma by_key_elem l a : NoDup (g <$> l) -> a ∈ l -> by_key l !! g a = Some a.
Proof.
  intros Hnd Ha. apply elem_of_list_to_map_1; [by rewrite <- list_fmap_compose|].
  by apply (list_elem_of_fmap_2 (fun a => (g a, a))).
Qed.

Lemma by_key_None l k : by_key l !! k = None -> k ∉ g <$> l.
Proof.
  intros H Hin. apply not_elem_of_list_to_map_2 in H. rewrite <- list_fmap_compose in H. by apply H.
Qed.

Lemma by_key_filter l k phi :
  NoDup (g <$> l) ->
  List.filter (fun a => bool_decide (g a = k) && phi a) l =
  match by_key l !! k with Some a => if phi a : bool then [a] else [] | None => [] end.
Proof.
  intros Hnd. induction l as [|a l IH]; [done|]. cbn in Hnd. apply NoDup_cons in Hnd as [Ha Hnd].
  rewrite by_key_cons. cbn [List.filter]. rewrite IH by done. destruct (decide (g a = k)) as [E|E].
  - rewrite bool_decide_eq_true_2, E, lookup_insert_eq by done. cbn [andb].
    destruct (by_key l !! k) as [b|] eqn:Eb; [|done].
    apply by_key_Some in Eb as [Hb Hk]. destruct Ha. rewrite E, <- Hk. by apply list_elem_of_fmap_2.
  - by rewrite bool_decide_eq_false_2, lookup_insert_ne by done.
Qed.

Lemma by_key_change l k phi f :
  NoDup (g <$> l) -> (forall a, g (f a) = g a) ->
  by_key (change (fun a => bool_decide (g a = k) && phi a) f l) =
  match by_key l !! k with Some a => if phi a : bool then <[k := f a]> (by_key l) else by_key l | None => by_key l end.
Proof.
  intros Hnd Hg. induction l as [|a l IH]; [done|]. cbn in Hnd. apply NoDup_cons in Hnd as [Ha Hnd].
  unfold change in *. cbn [fmap list_fmap]. rewrite !by_key_cons. rewrite IH by done. destruct (decide (g a = k)) as [E|E].
  - rewrite bool_decide_eq_true_2, E, lookup_insert_eq by done. cbn [andb].
    destruct (by_key l !! k) as [b|] eqn:Eb.
    + apply by_key_Some in Eb as [Hb Hk]. destruct Ha. rewrite E, <- Hk. by apply list_elem_of_fmap_2.
    + destruct (phi a); rewrite ?Hg, E; [by rewrite insert_insert_eq|done].
  - rewrite bool_decide_eq_false_2, lookup_insert_ne by done. cbn [andb].
    destruct (by_key l !! k) as [b|]; [|done]. destruct (phi b); [|done]. by rewrite insert_insert_ne.
Qed.

(** The change of the one row that a condition selects. *)
Lemma by_key_change_one l sel f a :
  NoDup (g <$> l) -> (forall b, g (f b) = g b) -> List.filter sel l = [a] ->
  by_key (change sel f l) = <[g a := f a]> (by_key l).
Proof.
  intros Hnd Hg. induction l as [|b l IH]; [done|]. cbn in Hnd. apply NoDup_cons in Hnd as [Hb Hnd].
  unfold change in *. cbn [fmap list_fmap List.filter]. rewrite !by_key_cons. destruct (sel b) eqn:E.
  - intros [= -> Hf]. pose proof (change_none sel f l Hf) as Hn. unfold change in Hn.
    by rewrite Hn, Hg, insert_insert_eq.
  - intros Hf. rewrite IH by done. apply insert_insert_ne. intros Eg. apply Hb. rewrite Eg.
    apply list_elem_of_fmap_2, (filter_In_one sel), Hf.
Qed.

Lemma by_key_snoc l a : g a ∉ g <$> l -> by_key (l ++ [a]) = <[g a := a]> (by_key l).
Proof.
  intros H. unfold by_key. rewrite fmap_app, list_to_map_app. cbn.
  rewrite insert_empty, <- insert_union_singleton_r; [done|].
  apply not_elem_of_list_to_map_1. by rewrite <- list_fmap_compose.
Qed.

Lemma existsb_by_key l k : existsb (fun e => bool_decide (k = g e)) l = bool_decide (is_Some (by_key l !! k)).
Proof.
  induction l as [|a l IH].
  - symmetry. apply bool_decide_eq_false_2. by intros [? ?].
  - rewrite by_key_cons. cbn [existsb]. rewrite IH. destruct (decide (g a = k)) as [E|E].
    + rewrite E, lookup_insert_eq, !bool_decide_eq_true_2 by eauto. done.
    + by rewrite lookup_insert_ne, (bool_decide_eq_false_2 (k = g a)) by congruence.
Qed.
End by_key.

(** ** Related states *)

Record device_match (md : memoryDevice) (dr : device_rec) : Prop := mkDeviceMatch {
  dm_id : Device_ID (md_device md) = dr_id dr;
  dm_owner : Device_OwnerSubject (md_device md) = dr_owner dr;
  dm_name : Device_Name (md_device md) = dr_name dr;
  dm_hash : md_tokenHash md = dr_hash dr;
  dm_created : Device_CreatedAt (md_device md) = dr_created dr;
  dm_revoked : Device_RevokedAt (md_device md) = dr_revoked dr;
  (** the in-memory store also touches revoked devices *)
  dm_last : dr_revoked dr = None -> Device_LastSeenAt (md_device md) = dr_last dr }.
Record pairing_match (p : Pairing) (pr : pairing_rec) : Prop := mkPairingMatch {
  pm_code : Pairing_DeviceCodeHash p = pr_code pr;
  pm_user : Pairing_UserCodeHash p = pr_user pr;
  pm_name : Pairing_DeviceName p = pr_name pr;
  pm_expires : Pairing_ExpiresAt p = pr_expires pr - 1;
  pm_owner : Pairing_OwnerSubject p = default EmptyString (pr_owner pr);
  pm_approved : Pairing_ApprovedAt p = pr_approved pr;
  pm_consumed : Pairing_ConsumedAt p = pr_consumed pr }.

Notation devices_of t := (by_key dr_id (tb_devices t)).
Notation pairings_of t := (by_key pr_code (tb_pairings t)).

Record related (m : Memory) (t : tables) : Prop := mkRelated {
  rel_ok : tables_ok t;
  rel_owner : Forall no_empty_owner (tb_pairings t);
  rel_devices : forall id, option_Forall2 device_match (m_devices m !! id) (devices_of t !! id);
  rel_pairings : forall c, option_Forall2 pairing_match (m_pairings m !! c) (pairings_of t !! c);
  rel_wf : wf m }.
Definition mirrors (m : Memory) (d : db) : Prop := exists t, d = to_db t /\ related m t.

Lemma mirrors_db_ok m d : mirrors m d -> db_ok d.
Proof. intros (t & -> & H). exists t. split; [done|]. split; [apply (rel_ok _ _ H)|apply (rel_owner _ _ H)]. Qed.

(** A device as the SQL store shows it. *)
Definition shown (tout : Z -> string) (d : Device) : Device :=
  mkDevice (Device_ID d) (Device_OwnerSubject d) (Device_Name d) (default 0 (seen_time tout (Device_CreatedAt d)))
    (Device_LastSeenAt d ≫= seen_time tout) (Device_RevokedAt d ≫= seen_time tout) false.

Lemma seen_shown tout md dr : device_match md dr -> live dr = true -> seen_device tout dr = shown tout (md_device md).
Proof.
  intros [Hi Ho Hn _ Hc Hr Hl] H. unfold live in H. bool_props. unfold seen_device, shown.
  by rewrite Hi, Ho, Hn, Hc, Hr, Hl.
Qed.

(** The device under an id, on both sides. *)
Lemma related_device m t id :
  related m t ->
  (m_devices m !! id = None /\ devices_of t !! id = None) \/
  exists md dr, m_devices m !! id = Some md /\ devices_of t !! id = Some dr /\ device_match md dr /\ dr_id dr = id.
Proof.
  intros H. pose proof (rel_devices _ _ H id) as Hd. inversion Hd as [md dr Hm E1 E2|E1 E2]; [right|by left].
  exists md, dr. split_and!; try done. symmetry in E2. by apply by_key_Some in E2 as [_ ?].
Qed.
Lemma related_pairing m t c :
  related m t ->
  (m_pairings m !! c = None /\ pairings_of t !! c = None) \/
  exists p pr, m_pairings m !! c = Some p /\ pairings_of t !! c = Some pr /\ pairing_match p pr /\
    pr ∈ tb_pairings t /\ pr_code pr = c.
Proof.
  intros H. pose proof (rel_pairings _ _ H c) as Hd. inversion Hd as [p pr Hm E1 E2|E1 E2]; [right|by left].
  exists p, pr. symmetry in E2. pose proof (by_key_Some _ _ _ _ E2) as [? ?]. done.
Qed.

(** The devices of the map in the order of the table. *)
Lemma related_list m t :
  related m t -> exists order, order ≡ₚ map_to_list (m_devices m) /\ Forall2 (fun kd dr => device_match kd.2 dr) order (tb_devices t).
Proof.
  intros H. pose proof (tok_id _ (rel_ok _ _ H)) as Hnd.
  exists (omap (fun dr => pair (dr_id dr) <$> m_devices m !! dr_id dr) (tb_devices t)).
  assert (forall dr, dr ∈ tb_devices t -> exists md, m_devices m !! dr_id dr = Some md /\ device_match md dr) as Hin.
  { intros dr Hdr. apply (by_key_elem dr_id) in Hdr; [|done].
    destruct (related_device m t (dr_id dr) H) as [[_ E]|(md & dr' & E1 & E2 & Hm & _)]; [by rewrite E in Hdr|].
    rewrite Hdr in E2. simplify_eq. eauto. }
  split.
  - apply NoDup_Permutation; [|apply NoDup_map_to_list|].
    + clear H. induction (tb_devices t) as [|dr l IH]; [constructor|]. cbn in Hnd. apply NoDup_cons in Hnd as [Hd Hnd].
      specialize (IH Hnd ltac:(intros; apply Hin; by right)). cbn.
      destruct (m_devices m !! dr_id dr) as [md|]; cbn; [|done]. apply NoDup_cons. split; [|done].
      intros Hx. apply list_elem_of_omap in Hx as (dr' & Hdr' & Hx). destruct (m_devices m !! dr_id dr'); simplify_eq/=.
      apply Hd. rewrite <- H. by apply list_elem_of_fmap_2.
    + intros [id md]. rewrite elem_of_map_to_list, list_elem_of_omap. split.
      * intros (dr & Hdr & Hx). destruct (Hin dr Hdr) as (md' & E & _). rewrite E in Hx. by simplify_eq/=.
      * intros E. destruct (related_device m t id H) as [[E' _]|(md' & dr & E1 & E2 & _ & Hid)]; [congruence|].
        apply by_key_Some in E2 as [Hdr _]. exists dr. split; [done|]. rewrite Hid, E. by simplify_eq/=.
  - clear H Hnd. induction (tb_devices t) as [|dr l IH]; [constructor|]. cbn.
    destruct (Hin dr ltac:(left)) as (md & -> & Hm). cbn. constructor; [done|]. apply IH. intros. apply Hin. by right.
Qed.

Lemma isort_Forall2 {A B} (P : A -> B -> Prop) R R' `{!RelDecision R, !RelDecision R'} l k :
  (forall a b a' b', P a b -> P a' b' -> R a a' <-> R' b b') -> Forall2 P l k -> Forall2 P (isort R l) (isort R' k).
Proof.
  intros HR H. assert (forall a b l k, P a b -> Forall2 P l k -> Forall2 P (insert_by R a l) (insert_by R' b k)) as Hins.
  { intros a b l' k' Hab Hl. induction Hl as [|a' b' l' k' Hab' Hl IH]; cbn; [by repeat constructor|].
    pose proof (HR _ _ _ _ Hab Hab'). case_decide; case_decide; try tauto; repeat constructor; done. }
  induction H as [|a b l k Hab _ IH]; [constructor|]. cbn. by apply Hins.
Qed.

Lemma filter_Forall2 {A B} (P : A -> B -> Prop) (f : A -> bool) (g : B -> bool) l k :
  (forall a b, P a b -> f a = g b) -> Forall2 P l k ->
  Forall2 (fun a b => P a b /\ g b = true) (filter (fun a => f a = true) l) (List.filter g k).
Proof.
  intros Hf H. induction H as [|a b l k Hab _ IH]; [constructor|]. rewrite filter_cons. cbn.
  pose proof (Hf _ _ Hab) as E. destruct (g b) eqn:Eg; rewrite E; case_decide; try done. by constructor.
Qed.

Lemma listed_alike tout owner order ds :
  Forall2 (fun kd dr => device_match kd.2 dr) order ds ->
  seen_device tout <$> isort older (List.filter (fun d => bool_decide (dr_owner d = owner) && live d) ds) =
  shown tout <$> Store.ListDevices order owner.
Proof.
  intros H. unfold Store.ListDevices.
  assert (Forall2 (fun d dr => seen_device tout dr = shown tout d /\ Device_CreatedAt d = dr_created dr)
    ((fun kd => md_device kd.2) <$> filter (fun kd => listed owner kd = true) order)
    (List.filter (fun d => bool_decide (dr_owner d = owner) && live d) ds)) as H1.
  { apply Forall2_fmap_l. eapply Forall2_impl; [eapply (filter_Forall2 (fun kd dr => device_match kd.2 dr) (listed owner)); [|exact H]|].
    - intros kd dr Hm. unfold listed, live. by rewrite (dm_owner _ _ Hm), (dm_revoked _ _ Hm).
    - intros kd dr [Hm Hg]. apply andb_true_iff in Hg as [_ Hg]. split; [by apply seen_shown|apply Hm]. }
  apply (isort_Forall2 _ created_le older) in H1.
  2: { intros a b a' b' [_ E1] [_ E2]. unfold created_le, older. by rewrite E1, E2. }
  induction H1 as [|d dr l k [E _] _ IH]; [done|]. cbn. by rewrite E, IH.
Qed.

Lemma shown_hash Sprint tout d res :
  nq_Fields res = auth_columns ->
  textVal Sprint (lookup_any (rowMap res (value_json tout <$> (project auth_columns (device_row d)).*2)) "token_hash") = dr_hash d.
Proof. intros Hf. unfold lookup_any, rowMap. rewrite Hf, row_map_lookup by apply auth_columns_NoDup. done. Qed.

Lemma owned_filter t id owner :
  tables_ok t ->
  List.filter (owned id owner) (tb_devices t) =
  match devices_of t !! id with
  | Some d => if bool_decide (dr_owner d = owner) && live d then [d] else []
  | None => []
  end.
Proof. intros Ht. by apply (by_key_filter dr_id _ id (fun d => bool_decide (dr_owner d = owner) && live d)), tok_id. Qed.

Lemma live_filter t id :
  tables_ok t ->
  List.filter (fun d => is_device id d && live d) (tb_devices t) =
  match devices_of t !! id with Some d => if live d then [d] else [] | None => [] end.
Proof. intros Ht. by apply (by_key_filter dr_id _ id live), tok_id. Qed.

(** ** Calls that change the store *)

Definition unset_times (d : Device) : Device :=
  mkDevice (Device_ID d) (Device_OwnerSubject d) (Device_Name d) 0 None None false.

(** The call of the in-memory store that does what the SQL statement does:
    the database sets the times of a device itself, and ignores what a pairing
    says of its approval. *)
Definition as_memory (tin : string -> option Z) (o : op) : op :=
  match o with
  | OpCreateDevice d token => OpCreateDevice (unset_times d) token
  | OpConsumePairing code d token => OpConsumePairing code (unset_times d) token
  | OpCreatePairing p =>
      OpCreatePairing (mkPairing (Pairing_DeviceCodeHash p) (Pairing_UserCodeHash p) (Pairing_DeviceName p)
        (default 0 (tin (FormatRFC3339Nano (Pairing_ExpiresAt p))) - 1) EmptyString None None)
  | _ => o
  end.

(** Where the stores differ: only SQL ignores a touch of an unknown device. *)
Definition alike (o : op) (m : Memory) : Prop :=
  match o with
  | OpTouchDevice id => m_devices m !! id <> None
  | _ => op_fine o
  end.

(** The device that a successful call returns. *)
Definition issued (o : op) (m' : Memory) : option Device :=
  match o with OpConsumePairing _ d _ => md_device <$> m_devices m' !! Device_ID d | _ => None end.

Lemma to_db_inj t t' : to_db t = to_db t' -> t = t'.
Proof.
  assert (forall o o', time_or_null o = time_or_null o' -> o = o') as Htime by (intros [] []; naive_solver).
  assert (forall o o', text_or_null o = text_or_null o' -> o = o') as Htext by (intros [] []; naive_solver).
  assert (Inj eq eq device_row) as Hd.
  { intros [] [] H. injection H as -> -> -> -> -> H1 H2. by apply Htime in H1 as ->, H2 as ->. }
  assert (Inj eq eq pairing_row) as Hp.
  { intros [] [] H. injection H as -> -> -> -> H1 H2 H3 ->. apply Htime in H2 as ->, H3 as ->. by apply Htext in H1 as ->. }
  destruct t, t'. unfold to_db. cbn. intros [= H1 H2 -> ->]. by apply (inj (fmap _)) in H1 as ->, H2 as ->.
Qed.

Section insert.
Context {A B : Type} (P : A -> B -> Prop) (m1 : gmap string A) (m2 : gmap string B).
Context (H : forall k, option_Forall2 P (m1 !! k) (m2 !! k)).

Lemma Forall2_insert k a b : P a b -> forall i, option_Forall2 P (<[k:=a]> m1 !! i) (<[k:=b]> m2 !! i).
Proof. intros Hab i. destruct (decide (k = i)) as [->|]; [rewrite !lookup_insert_eq; by constructor|by rewrite !lookup_insert_ne]. Qed.

(** A change on one side that stays a match. *)
Lemma Forall2_insert_l k a b : m2 !! k = Some b -> P a b -> forall i, option_Forall2 P (<[k:=a]> m1 !! i) (m2 !! i).
Proof.
  intros Hk Hab i. destruct (decide (k = i)) as [->|]; [rewrite lookup_insert_eq, Hk; by constructor|by rewrite lookup_insert_ne].
Qed.
End insert.

Section statements.
Context (tin : string -> option Z) (now : Z).

Lemma related_now o m t cols rows t' :
  related m t -> op_fine o ->
  run_sql tin now (statement_of o).1 (statement_of o).2 (to_db t) = Some (cols, rows, to_db t') ->
  (forall id, option_Forall2 device_match (m_devices (apply now (as_memory tin o) m).2 !! id) (devices_of t' !! id)) ->
  (forall c, option_Forall2 pairing_match (m_pairings (apply now (as_memory tin o) m).2 !! c) (pairings_of t' !! c)) ->
  related (apply now (as_memory tin o) m).2 t'.
Proof.
  intros Hrel Hf Hrun Hd Hp.
  destruct (statement_effect tin now o (to_db t) cols rows (to_db t') Hf) as ((t2 & E & Hok & Hne) & _); [|done|].
  { exists t. split; [done|]. split; [apply (rel_ok _ _ Hrel)|apply (rel_owner _ _ Hrel)]. }
  apply to_db_inj in E as <-. split; try done. apply apply_wf; [apply (rel_wf _ _ Hrel)|]. by destruct o.
Qed.

(** Whether a call succeeds that gets these rows. *)
Definition row_answer (o : op) (rows : list row) : bool :=
  match o with
  | OpRevokeDevice _ _ | OpApprovePairing _ _ | OpConsumePairing _ _ _ => match rows with [] => false | _ => true end
  | _ => true
  end.

Definition statement_agrees (o : op) : Prop := forall m t cols rows d',
  related m t -> alike o m -> op_fine o ->
  run_sql tin now (statement_of o).1 (statement_of o).2 (to_db t) = Some (cols, rows, d') ->
  exists t', d' = to_db t' /\ related (apply now (as_memory tin o) m).2 t' /\
    row_answer o rows = (apply now (as_memory tin o) m).1.

Lemma fresh_device_None ds d : fresh_device ds d = true -> by_key dr_id ds !! dr_id d = None /\ dr_id d ∉ dr_id <$> ds.
Proof.
  unfold fresh_device. intros H. apply andb_true_iff in H as [H _]. split; [|by apply fresh_not_in].
  rewrite (existsb_by_key dr_id) in H. bool_props. by apply eq_None_not_Some.
Qed.

Lemma CreateDevice_agrees d token : statement_agrees (OpCreateDevice d token).
Proof.
  intros m t cols rows d' Hrel _ Hf Hrun. pose proof Hrun as Hrun'. cbn [statement_of fst snd] in Hrun'.
  rewrite run_CreateDevice in Hrun'. destruct (insert_device t _) as [t'|] eqn:Hi; [|done]. cbn in Hrun'. injection Hrun' as <- <- <-.
  exists t'. split; [done|]. apply insert_device_Some in Hi as (-> & _ & Hfresh).
  apply fresh_device_None in Hfresh as [Hnone Hnin]. cbn [dr_id] in *.
  destruct (related_device m t (Device_ID d) Hrel) as [[Em _]|(? & ? & _ & E & _)]; [|congruence].
  assert (apply now (as_memory tin (OpCreateDevice d token)) m =
    (true, m_set_devices m (<[Device_ID d := mkMemoryDevice (Device_set_CreatedAt (unset_times d) now) (HashSecret token)]> (m_devices m)))) as Happ.
  { cbn [as_memory apply]. unfold Store.CreateDevice. cbn [unset_times Device_ID]. by rewrite Em. }
  split; [|by rewrite Happ]. eapply related_now; [exact Hrel|done|exact Hrun|rewrite Happ; cbn [snd m_devices m_pairings m_set_devices with_devices tb_devices tb_pairings]..].
  - rewrite by_key_snoc by done. apply Forall2_insert; [apply (rel_devices _ _ Hrel)|]. by split.
  - apply (rel_pairings _ _ Hrel).
Qed.

(** Reduce the projections of updated states. *)
Ltac state_cbn :=
  cbn [fst snd m_devices m_pairings m_userCode m_set_devices m_set_pairings m_set_audit
       with_devices with_pairings tb_devices tb_pairings].

Lemma TouchDevice_agrees id : statement_agrees (OpTouchDevice id).
Proof.
  intros m t cols rows d' Hrel Hknown Hf Hrun. pose proof Hrun as Hrun'. cbn [statement_of fst snd] in Hrun'.
  rewrite run_TouchDevice in Hrun' by apply (rel_ok _ _ Hrel). injection Hrun' as <- <- <-. eexists. split; [done|].
  destruct (related_device m t id Hrel) as [[Em _]|(md & dr & Em & E & Hm & Hid)]; [by destruct Hknown|].
  set (md' := mkMemoryDevice (Device_set_LastSeenAt (md_device md) (Some now)) (md_tokenHash md)).
  assert (apply now (as_memory tin (OpTouchDevice id)) m = (true, m_set_devices m (<[id := md']> (m_devices m)))) as Happ.
  { cbn [as_memory apply]. unfold Store.TouchDevice. by rewrite Em. }
  split; [|by rewrite Happ]. eapply related_now; [exact Hrel|done|exact Hrun|rewrite Happ; state_cbn..]; [|apply (rel_pairings _ _ Hrel)].
  rewrite (by_key_change dr_id _ id live) by (try apply (tok_id _ (rel_ok _ _ Hrel)); done). rewrite E.
  destruct Hm as [H1 H2 H3 H4 H5 H6 H7]. unfold live. case_bool_decide as Hl.
  - apply Forall2_insert; [apply (rel_devices _ _ Hrel)|]. by split.
  - eapply Forall2_insert_l; [apply (rel_devices _ _ Hrel)|exact E|]. by split.
Qed.

Lemma RevokeDevice_agrees owner id : statement_agrees (OpRevokeDevice owner id).
Proof.
  intros m t cols rows d' Hrel _ Hf Hrun. pose proof Hrun as Hrun'. cbn [statement_of fst snd] in Hrun'.
  pose proof (rel_ok _ _ Hrel) as Hok.
  rewrite run_RevokeDevice in Hrun' by done. injection Hrun' as <- <- <-. eexists. split; [done|].
  rewrite owned_filter by done.
  pose proof (by_key_change dr_id (tb_devices t) id (fun d => bool_decide (dr_owner d = owner) && live d) (revoke_rec now)
    (tok_id _ Hok) ltac:(done)) as Hch.
  destruct (related_device m t id Hrel) as [[Em E]|(md & dr & Em & E & Hm & Hid)]; rewrite E in Hch |- *.
  - assert (apply now (as_memory tin (OpRevokeDevice owner id)) m = (false, m)) as Happ.
    { cbn [as_memory apply]. unfold Store.RevokeDevice. by rewrite Em. }
    split; [|by rewrite Happ]. eapply related_now; [exact Hrel|done|exact Hrun|rewrite Happ; state_cbn..];
      [|apply (rel_pairings _ _ Hrel)]. unfold owned. cbv beta. unfold is_device. rewrite Hch. apply (rel_devices _ _ Hrel).
  - set (md' := mkMemoryDevice (Device_set_RevokedAt (md_device md) (Some now)) (md_tokenHash md)).
    assert (apply now (as_memory tin (OpRevokeDevice owner id)) m =
      if bool_decide (dr_owner dr = owner) && live dr then (true, m_set_devices m (<[id := md']> (m_devices m))) else (false, m)) as Happ.
    { cbn [as_memory apply]. unfold Store.RevokeDevice. rewrite Em, (dm_owner _ _ Hm), (dm_revoked _ _ Hm). unfold live.
      repeat case_bool_decide; naive_solver. }
    destruct (bool_decide (dr_owner dr = owner) && live dr); (split; [|by rewrite Happ]);
      (eapply related_now; [exact Hrel|done|exact Hrun|rewrite Happ; state_cbn..]; [|apply (rel_pairings _ _ Hrel)]);
      unfold owned, is_device; rewrite Hch; [|apply (rel_devices _ _ Hrel)].
    apply Forall2_insert; [apply (rel_devices _ _ Hrel)|]. by destruct Hm as [H1 H2 H3 H4 H5 H6 H7]; split.
Qed.

Lemma WriteAudit_agrees e : statement_agrees (OpWriteAudit e).
Proof.
  intros m t cols rows d' Hrel _ Hf Hrun. pose proof Hrun as Hrun'. cbn [statement_of fst snd] in Hrun'.
  rewrite run_WriteAudit in Hrun' by (try apply Milliseconds_ok; try apply Hrel; done).
  destruct (audit_ok _ _ _ _); [|done]. injection Hrun' as <- <- <-. eexists. split; [done|]. split; [|done].
  eapply related_now; [exact Hrel|done|exact Hrun|state_cbn..]; apply Hrel.
Qed.

(** The pairing under a user code, on both sides. *)
Lemma related_user m t u :
  related m t ->
  (m_userCode m !! u = None /\ u ∉ pr_user <$> tb_pairings t) \/
  exists c p pr, m_userCode m !! u = Some c /\ m_pairings m !! c = Some p /\ pairings_of t !! c = Some pr /\
    pairing_match p pr /\ pr ∈ tb_pairings t /\ pr_code pr = c /\ pr_user pr = u.
Proof.
  intros H. destruct (m_userCode m !! u) as [c|] eqn:Eu.
  - right. destruct (wf_userCode _ (rel_wf _ _ H) _ _ Eu) as (p & Ep & Hp).
    destruct (related_pairing m t c H) as [[E _]|(p' & pr & E1 & E2 & Hm & Hin & Hc)]; [congruence|].
    rewrite Ep in E1. simplify_eq. exists (pr_code pr), p', pr. split_and!; try done. symmetry. apply (pm_user _ _ Hm).
  - left. split; [done|]. intros Hin. apply list_elem_of_fmap in Hin as (pr & -> & Hin).
    pose proof (by_key_elem pr_code _ _ (tok_code _ (rel_ok _ _ H)) Hin) as E.
    destruct (related_pairing m t (pr_code pr) H) as [[_ E2]|(p & pr' & Ep & E2 & Hm & _ & Hc)]; [congruence|].
    rewrite E in E2. simplify_eq. destruct (wf_pairing _ (rel_wf _ _ H) _ _ Ep) as [_ Hu].
    rewrite (pm_user _ _ Hm) in Hu. congruence.
Qed.

Lemma CreatePairing_agrees p : statement_agrees (OpCreatePairing p).
Proof.
  intros m t cols rows d' Hrel _ Hf Hrun. pose proof Hrun as Hrun'. cbn [statement_of fst snd] in Hrun'.
  rewrite run_CreatePairing in Hrun'. destruct (tin (FormatRFC3339Nano (Pairing_ExpiresAt p))) as [e|] eqn:Ee; [|done].
  cbn [mbind option_bind] in Hrun'. destruct (insert_pairing t _) as [t'|] eqn:Hi; [|done]. cbn in Hrun'. injection Hrun' as <- <- <-.
  exists t'. split; [done|]. apply insert_pairing_Some in Hi as (-> & _ & Hfresh). unfold fresh_pairing_rec in Hfresh.
  apply andb_true_iff in Hfresh as [Hfc Hfu]. apply (fresh_not_in pr_code) in Hfc. apply (fresh_not_in pr_user) in Hfu. cbn in Hfc, Hfu.
  destruct (related_pairing m t (Pairing_DeviceCodeHash p) Hrel) as [[Em _]|(? & pr & _ & _ & _ & Hin & E)].
  2: { destruct Hfc. rewrite <- E. by apply list_elem_of_fmap_2. }
  destruct (related_user m t (Pairing_UserCodeHash p) Hrel) as [[Eu _]|(? & ? & pr & _ & _ & _ & _ & Hin & _ & E)].
  2: { destruct Hfu. rewrite <- E. by apply list_elem_of_fmap_2. }
  set (p' := mkPairing (Pairing_DeviceCodeHash p) (Pairing_UserCodeHash p) (Pairing_DeviceName p) (e - 1) EmptyString None None).
  assert (apply now (as_memory tin (OpCreatePairing p)) m =
    (true, mkMemory (m_devices m) (<[Pairing_DeviceCodeHash p := p']> (m_pairings m))
             (<[Pairing_UserCodeHash p := Pairing_DeviceCodeHash p]> (m_userCode m)) (m_audit m))) as Happ.
  { cbn [as_memory apply]. rewrite Ee. unfold Store.CreatePairing.
    cbn [Pairing_DeviceCodeHash Pairing_UserCodeHash]. by rewrite Em, Eu. }
  split; [|by rewrite Happ]. eapply related_now; [exact Hrel|done|exact Hrun|rewrite Happ; state_cbn..]; [apply Hrel|].
  rewrite by_key_snoc by done. apply Forall2_insert; [apply (rel_pairings _ _ Hrel)|]. by split.
Qed.

(** The expiry tests of the two stores. *)
Lemma After_match p pr : pairing_match p pr -> After now (Pairing_ExpiresAt p) = negb (now <? pr_expires pr).
Proof.
  intros H. rewrite (pm_expires _ _ H). unfold After.
  destruct (Z.ltb_spec (pr_expires pr - 1) now), (Z.ltb_spec now (pr_expires pr)); cbn; lia.
Qed.

Lemma approvable_filter t u :
  tables_ok t ->
  List.filter (approvable now u) (tb_pairings t) =
  match by_key pr_user (tb_pairings t) !! u with
  | Some p => if bool_decide (pr_consumed p = None) && (now <? pr_expires p) then [p] else []
  | None => []
  end.
Proof.
  intros Ht. by apply (by_key_filter pr_user _ u (fun p => bool_decide (pr_consumed p = None) && (now <? pr_expires p))), tok_user.
Qed.

Lemma ApprovePairing_agrees user owner : statement_agrees (OpApprovePairing user owner).
Proof.
  intros m t cols rows d' Hrel _ Hf Hrun. pose proof Hrun as Hrun'. cbn [statement_of fst snd] in Hrun'.
  pose proof (rel_ok _ _ Hrel) as Hok.
  rewrite run_ApprovePairing in Hrun' by done. injection Hrun' as <- <- <-. eexists. split; [done|].
  pose proof (approvable_filter t user Hok) as Hfil.
  destruct (related_user m t user Hrel) as [[Eu Hnin]|(c & p & pr & Eu & Ep & Epr & Hm & Hin & Hc & Hu)].
  - assert (List.filter (approvable now user) (tb_pairings t) = []) as Hnil.
    { rewrite Hfil. destruct (by_key pr_user _ !! user) as [pr|] eqn:E; [|done].
      apply by_key_Some in E as [Hin <-]. destruct Hnin. by apply list_elem_of_fmap_2. }
    assert (apply now (as_memory tin (OpApprovePairing user owner)) m = (false, m)) as Happ.
    { cbn [as_memory apply]. unfold Store.ApprovePairing. by rewrite Eu. }
    rewrite Hnil. split; [|by rewrite Happ]. eapply related_now; [exact Hrel|done|exact Hrun|rewrite Happ; state_cbn..]; [apply Hrel|].
    rewrite change_none by done. apply Hrel.
  - assert (apply now (as_memory tin (OpApprovePairing user owner)) m =
      if bool_decide (pr_consumed pr = None) && (now <? pr_expires pr)
      then (true, m_set_pairings m (<[c := Pairing_approve now owner p]> (m_pairings m))) else (false, m)) as Happ.
    { cbn [as_memory apply]. unfold Store.ApprovePairing. rewrite Eu, Ep. cbn [default from_option id].
      rewrite (After_match p pr Hm), (pm_consumed _ _ Hm).
      destruct (now <? pr_expires pr); cbn [negb]; repeat case_bool_decide; try done; naive_solver. }
    rewrite <- Hu, (by_key_elem pr_user) in Hfil by (try apply (tok_user _ Hok); done). rewrite Hu in Hfil.
    destruct (bool_decide (pr_consumed pr = None) && (now <? pr_expires pr)); rewrite Hfil; (split; [|by rewrite Happ]);
      (eapply related_now; [exact Hrel|done|exact Hrun|rewrite Happ; state_cbn..]; [apply Hrel|]).
    + rewrite (by_key_change_one pr_code _ _ _ pr) by (try apply (tok_code _ Hok); done).
      rewrite Hc. apply Forall2_insert; [apply Hrel|]. by destruct Hm; split.
    + rewrite change_none by done. apply Hrel.
Qed.

Lemma consumable_filter t c :
  tables_ok t ->
  List.filter (consumable now c) (tb_pairings t) =
  match pairings_of t !! c with
  | Some p => if negb (bool_decide (pr_approved p = None)) && (negb (bool_decide (pr_owner p = None))
                 && (bool_decide (pr_consumed p = None) && (now <? pr_expires p))) then [p] else []
  | None => []
  end.
Proof.
  intros Ht. by apply (by_key_filter pr_code _ c (fun p => negb (bool_decide (pr_approved p = None))
    && (negb (bool_decide (pr_owner p = None)) && (bool_decide (pr_consumed p = None) && (now <? pr_expires p))))), tok_code.
Qed.

(** What [ConsumePairing] of the in-memory store does to a known pairing. *)
Lemma Store_ConsumePairing m c d token p pr :
  m_pairings m !! c = Some p -> pairing_match p pr -> no_empty_owner pr ->
  let dev := mkDevice (Device_ID d) (Pairing_OwnerSubject p) (Pairing_DeviceName p) now None None false in
  (m_devices m !! Device_ID d = None ->
   negb (bool_decide (pr_approved pr = None)) && (negb (bool_decide (pr_owner pr = None))
     && (bool_decide (pr_consumed pr = None) && (now <? pr_expires pr))) = true ->
   Store.ConsumePairing now c (unset_times d) token m =
   (Ok dev, mkMemory (<[Device_ID d := mkMemoryDevice dev (HashSecret token)]> (m_devices m))
              (<[c := Pairing_consume now p]> (m_pairings m)) (m_userCode m) (m_audit m))) /\
  (negb (bool_decide (pr_approved pr = None)) && (negb (bool_decide (pr_owner pr = None))
     && (bool_decide (pr_consumed pr = None) && (now <? pr_expires pr))) = false ->
   is_ok (Store.ConsumePairing now c (unset_times d) token m).1 = false /\
   (Store.ConsumePairing now c (unset_times d) token m).2 = m).
Proof.
  intros Ep Hm Hne dev. unfold Store.ConsumePairing. rewrite Ep, (After_match p pr Hm), (pm_consumed _ _ Hm), (pm_approved _ _ Hm).
  assert (bool_decide (Pairing_OwnerSubject p = EmptyString) = bool_decide (pr_owner pr = None)) as ->.
  { rewrite (pm_owner _ _ Hm). apply bool_decide_ext. unfold no_empty_owner in Hne. destruct (pr_owner pr); cbn; naive_solver. }
  split.
  - intros Ed H. bool_props.
    rewrite (proj2 (Z.ltb_lt _ _)), !bool_decide_eq_false_2 by (try done; intros Hx; by apply Hx).
    cbn [negb orb Device_ID unset_times]. rewrite Ed. done.
  - intros H. destruct (now <? pr_expires pr); cbn [negb]; [|done].
    destruct (bool_decide (pr_consumed pr <> None)) eqn:E1; [done|].
    destruct (bool_decide (pr_approved pr = None) || bool_decide (pr_owner pr = None)) eqn:E2; [done|].
    apply orb_false_iff in E2 as [E2 E3]. apply bool_decide_eq_false_1, dec_stable in E1.
    by rewrite E2, E3, (bool_decide_eq_true_2 _ E1) in H.
Qed.

Lemma ConsumePairing_agrees code d token : statement_agrees (OpConsumePairing code d token).
Proof.
  intros m t cols rows d' Hrel _ Hf Hrun. pose proof Hrun as Hrun'. cbn [statement_of fst snd] in Hrun'.
  pose proof (rel_ok _ _ Hrel) as Hok. rewrite run_ConsumePairing in Hrun' by done.
  pose proof (consumable_filter t code Hok) as Hfil.
  destruct (related_pairing m t code Hrel) as [[Em E]|(p & pr & Em & E & Hm & Hin & <-)]; rewrite E in Hfil.
  - rewrite Hfil in Hrun'. injection Hrun' as <- <- <-. exists t. split; [done|].
    assert (apply now (as_memory tin (OpConsumePairing code d token)) m = (false, m)) as Happ.
    { cbn [as_memory apply]. unfold Store.ConsumePairing. by rewrite Em. }
    by rewrite Happ.
  - assert (no_empty_owner pr) as Hne by (pose proof (rel_owner _ _ Hrel) as H; rewrite Forall_forall in H; auto).
    destruct (Store_ConsumePairing m (pr_code pr) d token p pr Em Hm Hne) as [Hyes Hno].
    destruct (negb (bool_decide (pr_approved pr = None)) && _) eqn:Econd; rewrite Hfil in Hrun'.
    + destruct (insert_device _ _) as [t'|] eqn:Hi; [|done]. cbn in Hrun'. injection Hrun' as <- <- <-. exists t'. split; [done|].
      apply insert_device_Some in Hi as (-> & _ & Hfresh). apply fresh_device_None in Hfresh as [Hnone Hnin].
      cbn [dr_id paired_rec with_pairings tb_devices] in *.
      destruct (related_device m t (Device_ID d) Hrel) as [[Ed _]|(? & ? & _ & E2 & _)]; [|congruence].
      assert (apply now (as_memory tin (OpConsumePairing (pr_code pr) d token)) m = (true, (Store.ConsumePairing now (pr_code pr) (unset_times d) token m).2)) as Happ.
      { cbn [as_memory apply]. by rewrite (Hyes Ed eq_refl). }
      rewrite (Hyes Ed eq_refl) in Happ. split; [|by rewrite Happ].
      eapply related_now; [exact Hrel|done|exact Hrun|rewrite Happ; state_cbn..].
      * rewrite by_key_snoc by done. apply Forall2_insert; [apply Hrel|].
        split; try done; [apply (pm_owner _ _ Hm)|apply (pm_name _ _ Hm)].
      * rewrite (by_key_change_one pr_code _ _ _ pr) by (try apply (tok_code _ Hok); done).
        apply Forall2_insert; [apply Hrel|]. by destruct Hm; split.
    + injection Hrun' as <- <- <-. exists t. split; [done|]. destruct (Hno eq_refl) as [H1 H2].
      assert (apply now (as_memory tin (OpConsumePairing (pr_code pr) d token)) m = (false, m)) as Happ.
      { cbn [as_memory apply]. by rewrite H1, H2. }
      by rewrite Happ.
Qed.

(** Every statement does to the tables what the call does to the maps. *)
Lemma statements_agree o : statement_agrees o.
Proof.
  destruct o; [apply CreateDevice_agrees|apply TouchDevice_agrees|apply RevokeDevice_agrees|apply WriteAudit_agrees
    |apply CreatePairing_agrees|apply ApprovePairing_agrees|apply ConsumePairing_agrees].
Qed.
End statements.

Section service.
Context {W : Type}.
Context (url_Parse : string -> result FullURL).
Context (Do : neonRequest -> W -> result (Z * list byte) * W).
Context (first_json : list byte -> option json).
Context (float64 : string -> option string).
Context (Sprint : json -> string).
Context (time_Now : W -> Z).
Context (contents : W -> db) (clock : W -> Z).
Context (tin : string -> option Z) (tout : Z -> string).
Context (Hs : neon_service Do first_json float64 contents clock tin tout).
Context (n : NeonHTTP) (Hn : is_ok (url_Parse (n_endpoint n)) = true).

Notation query := (query url_Parse Do first_json float64).
Definition unanswered {A} (r : result A) : Prop := exists e, r = Err e /\ ~ sentinel e.

(** A statement that only reads: its answer, or a failure. *)
Lemma query_reads q ps w r w' cols rows :
  (forall now, run_sql tin now q ps (contents w) = Some (cols, rows, contents w)) ->
  query n q ps w = (r, w') ->
  contents w' = contents w /\ clock w <= clock w' /\
  (unanswered r \/ exists res, r = Ok res /\ answer_of tout cols rows res).
Proof.
  intros Hrun Hq. eapply query_spec in Hq as [Hc Hq]; [|done..].
  destruct Hq as [(res & c & rs & -> & Hr & Ha)|(e & -> & He & [->|(c & rs & Hr)])]; rewrite ?Hrun in *; simplify_eq.
  - split; [done|]. split; [done|]. right. eauto.
  - split; [done|]. split; [done|]. left. by exists e.
  - split; [done|]. split; [done|]. left. by exists e.
Qed.

(** [GetDevice] of both stores. *)
Lemma GetDevice_alike m owner id w r w' :
  mirrors m (contents w) -> GetDevice url_Parse Do first_json float64 Sprint n owner id w = (r, w') ->
  contents w' = contents w /\ (unanswered r \/ r = shown tout <$> Store.GetDevice owner id m).
Proof.
  intros (t & Ht & Hrel) H. pose proof (rel_ok _ _ Hrel) as Hok. unfold GetDevice, mbind, io_bind, mret, io_ret, fail in H.
  destruct (query n sql_GetDevice [id; owner] w) as [res w1] eqn:Hq.
  apply (query_reads _ _ _ _ _ device_columns (project device_columns <$> (device_row <$> List.filter (owned id owner) (tb_devices t)))) in Hq
    as (Hw & _ & [(e & -> & He)|(a & -> & Ha)]); [| |intros now; rewrite Ht; apply run_GetDevice].
  { simplify_eq. split; [done|]. left. by exists e. }
  rewrite owned_filter in Ha by done. unfold Store.GetDevice.
  destruct (related_device m t id Hrel) as [[-> E]|(md & dr & -> & E & Hm & Hid)]; rewrite E in Ha.
  - apply only_row_answer in Ha; [|cbn; lia]. rewrite Ha in H. cbn in H. simplify_eq. split; [done|by right].
  - rewrite (dm_owner _ _ Hm), (dm_revoked _ _ Hm). unfold live in Ha.
    destruct (bool_decide (dr_owner dr = owner) && bool_decide (dr_revoked dr = None)) eqn:Eb.
    + pose proof (only_row_answer _ _ _ _ Ha ltac:(cbn; lia)) as Hone. rewrite Hone in H. cbn [fmap list_fmap head] in H. simplify_eq. split; [done|]. right.
      destruct Ha as [Hf _]. rewrite shown_device by done. bool_props.
      rewrite !bool_decide_eq_false_2 by (intros Hx; by apply Hx). cbn. f_equal. apply seen_shown; [done|].
      by apply bool_decide_eq_true_2.
    + apply only_row_answer in Ha; [|cbn; lia]. rewrite Ha in H. cbn in H. simplify_eq. split; [done|]. right.
      apply andb_false_iff in Eb. destruct Eb; bool_props.
      * by rewrite bool_decide_eq_true_2.
      * by rewrite (bool_decide_eq_true_2 (dr_revoked dr <> None)), orb_true_r.
Qed.

Lemma slen_bytes s t : bytes_of_string s = bytes_of_string t -> slen s = slen t.
Proof. intros H. by apply bytes_of_string_inj in H as ->. Qed.

(** [AuthenticateDevice] of both stores. *)
Lemma AuthenticateDevice_alike m id token w r w' :
  mirrors m (contents w) -> AuthenticateDevice url_Parse Do first_json float64 Sprint n id token w = (r, w') ->
  contents w' = contents w /\ (unanswered r \/ r = shown tout <$> Store.AuthenticateDevice id token m).
Proof.
  intros (t & Ht & Hrel) H. pose proof (rel_ok _ _ Hrel) as Hok. unfold AuthenticateDevice, mbind, io_bind, mret, io_ret, fail in H.
  destruct (query n sql_AuthenticateDevice [id] w) as [res w1] eqn:Hq.
  apply (query_reads _ _ _ _ _ auth_columns (project auth_columns <$> (device_row <$> List.filter (fun d => is_device id d && live d) (tb_devices t)))) in Hq
    as (Hw & _ & [(e & -> & He)|(a & -> & Ha)]); [| |intros now; rewrite Ht; apply run_AuthenticateDevice].
  { simplify_eq. split; [done|]. left. by exists e. }
  rewrite live_filter in Ha by done. unfold Store.AuthenticateDevice.
  destruct (related_device m t id Hrel) as [[-> E]|(md & dr & -> & E & Hm & Hid)]; rewrite E in Ha.
  - apply only_row_answer in Ha; [|cbn; lia]. rewrite Ha in H. cbn in H. simplify_eq. split; [done|by right].
  - rewrite (dm_hash _ _ Hm), (dm_revoked _ _ Hm). destruct (live dr) eqn:Hlive.
    + pose proof (only_row_answer _ _ _ _ Ha ltac:(cbn; lia)) as Hone. rewrite Hone in H. cbn [fmap list_fmap head] in H.
      destruct Ha as [Hf _]. change ((fun c => _) <$> auth_columns) with (project auth_columns (device_row dr)) in H.
      rewrite shown_device_auth, shown_hash, (seen_shown tout md) in H by done.
      unfold live in Hlive. bool_props. rewrite (bool_decide_eq_false_2 (dr_revoked dr <> None)) by (intros Hx; by apply Hx).
      cbn [orb]. destruct (ConstantTimeCompare _ _ =? 1) eqn:Ec; bool_props; cbn [negb] in H |- *.
      * apply ConstantTimeCompare_1, slen_bytes in Ec.
        rewrite bool_decide_eq_false_2 in H by (intros Hx; exact (Hx Ec)). cbn [orb] in H. simplify_eq. split; [done|by right].
      * rewrite orb_true_r in H. simplify_eq. split; [done|by right].
    + apply only_row_answer in Ha; [|cbn; lia]. rewrite Ha in H. cbn in H. simplify_eq. split; [done|]. right.
      unfold live in Hlive. bool_props. by rewrite (bool_decide_eq_true_2 (dr_revoked dr <> None)).
Qed.

(** [ListDevices] of both stores; the order in which Go visits the map is
    the one that has devices of the same age in the order of the table. *)
Lemma ListDevices_alike m owner w r w' :
  mirrors m (contents w) -> ListDevices url_Parse Do first_json float64 Sprint n owner w = (r, w') ->
  contents w' = contents w /\
  (unanswered r \/ exists order, order ≡ₚ map_to_list (m_devices m) /\ r = Ok (shown tout <$> Store.ListDevices order owner)).
Proof.
  intros (t & Ht & Hrel) H. unfold ListDevices, mbind, io_bind, mret, io_ret in H.
  destruct (query n sql_ListDevices [owner] w) as [res w1] eqn:Hq.
  eapply query_reads in Hq as (Hw & _ & [(e & -> & He)|(a & -> & Hf & Ha)]); [| |intros now; rewrite Ht; apply run_ListDevices].
  { simplify_eq. split; [done|]. left. by exists e. }
  simplify_eq. split; [done|]. right. destruct (related_list m t Hrel) as (order & Hp & Hall).
  exists order. split; [done|]. f_equal. rewrite Ha, <- !list_fmap_compose. unfold compose.
  transitivity (seen_device tout <$> isort older (List.filter (fun d => bool_decide (dr_owner d = owner) && live d) (tb_devices t))).
  { apply list_fmap_ext. intros i d _. by apply shown_device. }
  by apply listed_alike.
Qed.

(** Over related states the reads of the SQL store change nothing, and give
    the answers of the in-memory store, errors included, with the times of the
    devices as the database prints them; or there is no answer. *)
Theorem neon_reads_like_memory m owner id token w :
  mirrors m (contents w) ->
  (forall r w', GetDevice url_Parse Do first_json float64 Sprint n owner id w = (r, w') ->
    contents w' = contents w /\ (unanswered r \/ r = shown tout <$> Store.GetDevice owner id m)) /\
  (forall r w', AuthenticateDevice url_Parse Do first_json float64 Sprint n id token w = (r, w') ->
    contents w' = contents w /\ (unanswered r \/ r = shown tout <$> Store.AuthenticateDevice id token m)) /\
  (forall r w', ListDevices url_Parse Do first_json float64 Sprint n owner w = (r, w') ->
    contents w' = contents w /\
    (unanswered r \/ exists order, order ≡ₚ map_to_list (m_devices m) /\ r = Ok (shown tout <$> Store.ListDevices order owner))).
Proof.
  intros H. split_and!; intros r w' Hr.
  - by eapply GetDevice_alike.
  - by eapply AuthenticateDevice_alike.
  - by eapply ListDevices_alike.
Qed.

(** The statement of a call, sent to tables that mirror the maps. *)
Lemma query_agrees o m w res w1 :
  mirrors m (contents w) -> alike o m -> op_fine o ->
  query n (statement_of o).1 (statement_of o).2 w = (res, w1) ->
  clock w <= clock w1 /\
  ((unanswered res /\ (mirrors m (contents w1) \/ mirrors (apply (clock w1) (as_memory tin o) m).2 (contents w1))) \/
   exists a cols rows, res = Ok a /\ answer_of tout cols rows a /\ (length rows <= 1)%nat /\
     run_sql tin (clock w1) (statement_of o).1 (statement_of o).2 (contents w) = Some (cols, rows, contents w1) /\
     mirrors (apply (clock w1) (as_memory tin o) m).2 (contents w1) /\
     row_answer o rows = (apply (clock w1) (as_memory tin o) m).1).
Proof.
  intros Hm Hal Hf Hq. eapply query_spec in Hq as [Hc Hq]; [|done..]. split; [done|].
  pose proof (mirrors_db_ok _ _ Hm) as Hok. destruct Hm as (t & Ht & Hrel).
  destruct Hq as [(a & cols & rows & -> & Hrun & Ha)|(e & -> & He & [Hw|(cols & rows & Hrun)])].
  - right. exists a, cols, rows. rewrite Ht in *.
    destruct (statements_agree tin (clock w1) o m t cols rows _ Hrel Hal Hf Hrun) as (t' & E & Hrel' & Hans).
    destruct (statement_effect tin (clock w1) o _ cols rows _ Hf Hok Hrun) as (_ & _ & Hl).
    split_and!; try done. by exists t'.
  - left. split; [by exists e|]. left. exists t. by rewrite Hw.
  - left. split; [by exists e|]. right. rewrite Ht in Hrun.
    destruct (statements_agree tin (clock w1) o m t cols rows _ Hrel Hal Hf Hrun) as (t' & E & Hrel' & _). by exists t'.
Qed.

Lemma result_inv {A B C} (a a' : A) (b b' : B) (c c' : C) :
  Some (a, [b], c) = Some (a', [b'], c') -> a = a' /\ b = b' /\ c = c'.
Proof. intros [= -> -> ->]. done. Qed.

Lemma consumed_row t now code d token cols r0 t' :
  tables_ok t -> run_sql tin now sql_ConsumePairing [code; Device_ID d; HashSecret token] (to_db t) = Some (cols, [r0], to_db t') ->
  cols = device_columns /\ exists dr, r0 = project device_columns (device_row dr) /\
    devices_of t' !! Device_ID d = Some dr /\ live dr = true.
Proof.
  intros Ht. rewrite run_ConsumePairing by done. intros H.
  destruct (List.filter _ _) as [|p ?]; [done|]. destruct (insert_device _ _) as [t2|] eqn:Hi; [|done].
  apply result_inv in H as (<- & <- & E). apply to_db_inj in E as <-.
  split; [done|]. exists (paired_rec now (Device_ID d) (HashSecret token) p). split; [done|]. split; [|done].
  apply insert_device_Some in Hi as (-> & _ & [_ Hf]%fresh_device_None). cbn [with_devices tb_devices] in *.
  rewrite by_key_snoc by done. apply lookup_insert_eq.
Qed.

End service.
