(* ===== verification/NeonClaims.v ===== *)
(** * The SQL store: where it connects, what it sends, which errors it gives

    The endpoint that [NewNeonHTTP] accepts, what leaves the program, the
    errors of [ConsumePairing] as the printed timestamps determine them, and a
    concrete service over which the theorems of NeonProps.v and NeonMemory.v
    are run. *)
From S2P Require Import Prelude Crypto GoStrings Text Json Http Store StoreProps Config Parser GoTime Sql Neon NeonDb NeonProps NeonMemory.
Local Open Scope Z_scope.

(** ** RFC 3339 times have a T between date and time *)

Section consumes.
Context {A : Type}.
Implicit Types p : parser byte A.

(** A parser that reads exactly [n] bytes. *)
Definition consumes (n : nat) p : Prop := forall l a r, p l = Some (a, r) -> r = drop n l.
End consumes.

Lemma consumes_bind {A B} k m (p : parser byte A) (f : A -> parser byte B) :
  consumes k p -> (forall a, consumes m (f a)) -> consumes (k + m) (p ≫= f).
Proof.
  unfold consumes, mbind, parser_bind. intros Hp Hf l b r H. destruct (p l) as [[a l']|] eqn:E; [|done].
  apply Hp in E as ->. apply Hf in H as ->. by rewrite drop_drop.
Qed.
Lemma consumes_digit : consumes 1 p_digit.
Proof. intros [|b l] a r H; [done|]. cbn in H. destruct (is_digit b); [|done]. by simplify_eq. Qed.
Lemma consumes_number k acc : consumes k (p_number k acc).
Proof.
  revert acc. induction k as [|k IH]; intros acc; [by intros l a r [= <- <-]|].
  change (S k) with (1 + k)%nat at 1. cbn [p_number]. apply consumes_bind; [apply consumes_digit|intros; apply IH].
Qed.
Lemma consumes_range lo hi p k : consumes k p -> consumes k (p_range lo hi p).
Proof. unfold consumes, p_range. intros H l a r Hr. case_guards. by eapply H. Qed.
Lemma consumes_char c : consumes 1 (p_char c).
Proof. intros [|b l] a r H; [done|]. unfold p_char in H. case_decide; [|done]. by simplify_eq. Qed.

Lemma parser_bind_inv {A B} (p : parser byte A) (f : A -> parser byte B) l b r :
  (p ≫= f) l = Some (b, r) -> exists a l', p l = Some (a, l') /\ f a l' = Some (b, r).
Proof. unfold mbind, parser_bind. destruct (p l) as [[a l']|]; [eauto|done]. Qed.

Lemma p_time_T l t r : p_time l = Some (t, r) -> l !! 10%nat = Some (z2b 84).
Proof.
  unfold p_time. intros H.
  apply parser_bind_inv in H as (y & l1 & H1 & H). apply consumes_number in H1 as ->.
  apply parser_bind_inv in H as (? & l2 & H2 & H). apply consumes_char in H2 as ->.
  apply parser_bind_inv in H as (m & l3 & H3 & H). apply (consumes_range 1 12 _ 2) in H3 as ->; [|apply consumes_number].
  apply parser_bind_inv in H as (? & l4 & H4 & H). apply consumes_char in H4 as ->.
  apply parser_bind_inv in H as (d & l5 & H5 & H). apply consumes_number in H5 as ->.
  apply parser_bind_inv in H as (? & l6 & H6 & _). rewrite !drop_drop in H6. cbn [Nat.add] in H6.
  unfold p_char in H6. destruct (drop 10 l) as [|b k] eqn:E; [done|]. case_decide; [|done]. subst b.
  pose proof (lookup_drop l 10 0) as Hd. rewrite E in Hd. symmetry. exact Hd.
Qed.

Lemma ParseRFC3339Nano_T s t : ParseRFC3339Nano s = Some t -> bytes_of_string s !! 10%nat = Some (z2b 84).
Proof. unfold ParseRFC3339Nano. intros H. case_guards. by eapply p_time_T. Qed.

(** PostgreSQL's ISO output ["2024-02-29 13:05:09.1203+00"] has a space there. *)
Definition space_separated (tout : Z -> string) : Prop :=
  forall t, bytes_of_string (tout t) !! 10%nat = Some (z2b 32).

Lemma seen_time_space tout t : space_separated tout -> seen_time tout t = None.
Proof.
  intros H. unfold seen_time. case_decide; [done|]. destruct (ParseRFC3339Nano (tout t)) eqn:E; [|done].
  apply ParseRFC3339Nano_T in E. by rewrite H in E.
Qed.

(** ** The connection *)

Section connection.
Context (url_Parse : string -> result FullURL).

Definition loopback_host (u : URL) : Prop := Hostname u = "127.0.0.1"%string \/ Hostname u = "localhost"%string.

(** A store is opened only for a Postgres URL with a user, a host and a
    database, and its endpoint is an https URL or one of this host; without an
    override it is [https://api.<rest of the host>/sql]. *)
Theorem neon_endpoint_is_protected connectionString endpointOverride n :
  NewNeonHTTP url_Parse connectionString endpointOverride = Ok n ->
  exists u eu, url_Parse connectionString = Ok u /\ url_Parse (n_endpoint n) = Ok eu /\
    n_connectionString n = connectionString /\
    (URL_Scheme (fu_URL u) ∈ ["postgres"; "postgresql"]%string /\ fu_User u = true /\
       Hostname (fu_URL u) <> EmptyString /\ trim_slash (fu_Path u) <> EmptyString) /\
    URL_Host (fu_URL eu) <> EmptyString /\
    (URL_Scheme (fu_URL eu) = "https"%string \/ (URL_Scheme (fu_URL eu) = "http"%string /\ loopback_host (fu_URL eu))) /\
    (TrimSpace endpointOverride <> EmptyString -> n_endpoint n = TrimSpace endpointOverride) /\
    (TrimSpace endpointOverride = EmptyString -> exists first rest, rest <> [] /\
       Hostname (fu_URL u) = Join (first :: rest) "." /\ n_endpoint n = "https://" +:+ Join ("api" :: rest) "." +:+ "/sql")%string.
Proof.
  unfold NewNeonHTTP. destruct (url_Parse connectionString) as [u|] eqn:Eu; [|done].
  destruct (postgres_url u) eqn:Ep; cbn [negb]; [|done].
  destruct (derived_endpoint u endpointOverride) as [endpoint|] eqn:Ed; cbn [mbind result_bind]; [|done].
  destruct (url_Parse endpoint) as [eu|] eqn:Ee; [|done]. destruct (endpoint_ok (fu_URL eu)) eqn:Eo; [|done].
  intros [= <-]. exists u, eu. cbn [n_endpoint n_connectionString]. split; [done|]. split; [done|]. split; [done|].
  split; [|split; [|split]].
  - unfold postgres_url in Ep. apply andb_true_iff in Ep as [[[H1 H2]%andb_true_iff H3]%andb_true_iff H4].
    apply bool_decide_eq_true_1 in H3, H4. split_and!; try done.
    apply orb_true_iff in H1 as [H1|H1]; apply bool_decide_eq_true_1 in H1; rewrite H1; set_solver.
  - unfold endpoint_ok in Eo. apply andb_true_iff in Eo as [H1 _]. by bool_props.
  - unfold endpoint_ok in Eo. apply andb_true_iff in Eo as [_ H2]. unfold loopback_host.
    apply orb_true_iff in H2 as [H2|[H2 H3]%andb_true_iff]; apply bool_decide_eq_true_1 in H2; [by left|]. right. split; [done|].
    apply orb_true_iff in H3 as [H3|H3]; apply bool_decide_eq_true_1 in H3; [by left|by right].
  - unfold derived_endpoint in Ed. split; intros Hov; case_decide; try done; [by simplify_eq|].
    destruct (Split (Hostname (fu_URL u)) dot) as [|first rest] eqn:Es; [done|].
    destruct (Z.ltb_spec (len (first :: rest)) 2) as [|Hlen]; [done|]. simplify_eq.
    exists first, rest. split; [intros ->; cbn in Hlen; lia|]. split; [|done].
    rewrite <- Es. symmetry. apply Join_Split.
Qed.
End connection.

(** ** What leaves the program *)

Section secrets.
Context {W : Type}.
Context (url_Parse : string -> result FullURL).
Context (Do Do' : neonRequest -> W -> result (Z * list byte) * W).
Context (first_json : list byte -> option json).
Context (float64 : string -> option string).
Context (Sprint : json -> string).
Context (time_Now : W -> Z).
Context (n : NeonHTTP).

(** Two worlds that differ only in what other requests do. *)
Definition same_endpoint : Prop := forall req w,
  nr_url req = n_endpoint n -> Header_Get (nr_header req) "Neon-Connection-String" = n_connectionString n ->
  Do req w = Do' req w.

Lemma connection_header q ps : Header_Get (nr_header (neon_request n q ps)) "Neon-Connection-String" = n_connectionString n.
Proof.
  unfold neon_request, Header_Get, Header_Set. cbn [nr_header].
  assert (CanonicalMIMEHeaderKey "Neon-Connection-String" <> CanonicalMIMEHeaderKey "Neon-Array-Mode" /\
          CanonicalMIMEHeaderKey "Neon-Connection-String" <> CanonicalMIMEHeaderKey "Neon-Raw-Text-Output") as [H1 H2]
    by (split; apply (bool_decide_unpack _); vm_compute; exact I).
  by rewrite !lookup_insert_ne, lookup_insert_eq by done.
Qed.

Lemma query_same q ps w :
  same_endpoint -> query url_Parse Do first_json float64 n q ps w = query url_Parse Do' first_json float64 n q ps w.
Proof. intros H. unfold query. by rewrite (H (neon_request n q ps) w eq_refl (connection_header q ps)). Qed.

(** The store speaks only to its endpoint, and of a device's token only the
    hash leaves the program: what a call does is the same for any token with
    that hash and whatever other requests would do. *)
Theorem neon_sends_hashes token token' d id code w :
  same_endpoint -> HashSecret token = HashSecret token' ->
  CreateDevice url_Parse Do first_json float64 n d token w = CreateDevice url_Parse Do' first_json float64 n d token' w /\
  AuthenticateDevice url_Parse Do first_json float64 Sprint n id token w
    = AuthenticateDevice url_Parse Do' first_json float64 Sprint n id token' w /\
  ConsumePairing url_Parse Do first_json float64 Sprint time_Now n code d token w
    = ConsumePairing url_Parse Do' first_json float64 Sprint time_Now n code d token' w.
Proof.
  intros Hsame Hhash. unfold CreateDevice, AuthenticateDevice, ConsumePairing, pairing_status, mbind, io_bind.
  rewrite Hhash, !query_same by done. split_and!; [done..|].
  destruct (query _ Do' _ _ n sql_ConsumePairing _ w) as [[r|e] w1]; [|done].
  destruct (only_row r); [done|]. by rewrite query_same.
Qed.
End secrets.

(** ** The errors of [ConsumePairing] *)

Section errors.
Context {W : Type}.
Context (url_Parse : string -> result FullURL).
Context (Do : neonRequest -> W -> result (Z * list byte) * W).
Context (first_json : list byte -> option json).
Context (float64 : string -> option string).
Context (Sprint : json -> string).
Context (time_Now : W -> Z).
Context (contents : W -> db) (clock : W -> Z).
Context (tin : string -> option Z) (tout : Z -> string).
Context (Hs : neon_service Do first_json float64 contents clock tin tout).
Context (n : NeonHTTP) (Hn : is_ok (url_Parse (n_endpoint n)) = true).

(** Why nothing was consumed, as the shown columns tell at the server's time. *)
Definition status_error (now : Z) (p : pairing_rec) : error :=
  if bool_decide ((pr_consumed p ≫= seen_time tout) <> None) then ErrPairingUsed
  else if match seen_time tout (pr_expires p) with Some exp => After now exp | None => false end then ErrPairingExpired
  else if bool_decide ((pr_approved p ≫= seen_time tout) = None) then ErrPairingPending
  else ErrNotFound.

Lemma status_columns_NoDup : NoDup status_columns.
Proof. apply (bool_decide_unpack _). vm_compute. exact I. Qed.

Lemma shown_status p res :
  nq_Fields res = status_columns ->
  let m := rowMap res (value_json tout <$> (project status_columns (pairing_row p)).*2) in
  timePtr Sprint (lookup_any m "consumed_at") = pr_consumed p ≫= seen_time tout /\
  timePtr Sprint (lookup_any m "expires_at") = seen_time tout (pr_expires p) /\
  timePtr Sprint (lookup_any m "approved_at") = pr_approved p ≫= seen_time tout.
Proof.
  intros Hf m. unfold m, lookup_any, rowMap. rewrite Hf, !row_map_lookup by apply status_columns_NoDup.
  split_and!; [apply (timePtr_shown Sprint tout (pr_consumed p))|apply (timePtr_shown Sprint tout (Some (pr_expires p)))
    |apply (timePtr_shown Sprint tout (pr_approved p))].
Qed.

Lemma status_query t code w r w' p :
  contents w = to_db t -> tables_ok t -> p ∈ tb_pairings t -> pr_code p = code ->
  pairing_status url_Parse Do first_json float64 Sprint time_Now n code w = (r, w') ->
  unanswered r \/ r = Err (status_error (time_Now w') p).
Proof.
  intros Ht Hok Hp Hc. unfold pairing_status, mbind, io_bind, fail.
  destruct (query url_Parse Do first_json float64 n sql_PairingStatus [code] w) as [res w1] eqn:Hq. intros H.
  eapply query_reads in Hq as (_ & _ & [(e & -> & He)|(a & -> & Ha)]); [| |done..|intros now; rewrite Ht; apply run_PairingStatus].
  { injection H as <- <-. left. by exists e. }
  rewrite (filter_one pr_code _ _ p (tok_code _ Hok) Hp) in Ha.
  2: { by apply bool_decide_eq_true_2. }
  2: { unfold is_pairing. intros b Hb. bool_props. congruence. }
  pose proof (only_row_answer _ _ _ _ Ha ltac:(cbn; lia)) as Hone. rewrite Hone in H. cbn [fmap list_fmap head] in H.
  destruct Ha as [Hf _]. destruct (shown_status p a Hf) as (E1 & E2 & E3). cbv zeta in E1, E2, E3. cbn [fmap list_fmap] in E1, E2, E3.
  rewrite E1, E2, E3 in H. right. unfold status_error.
  destruct (bool_decide ((pr_consumed p ≫= seen_time tout) <> None)); [by injection H as <- <-|].
  destruct (match seen_time tout (pr_expires p) with Some exp => After (time_Now w1) exp | None => false end) eqn:Eexp;
    [injection H as <- <-; by rewrite Eexp|].
  destruct (bool_decide ((pr_approved p ≫= seen_time tout) = None)); injection H as <- <-; by rewrite Eexp.
Qed.

End errors.
