(* ===== verification/NeonDemo.v ===== *)
(** * A concrete SQL service

    The service keeps its tables and its clock in the world, runs every
    statement by [run_sql] and knows how to print the answers of a list of
    [replies]; an answer that is not in the list is lost on the way.  Bodies
    are one byte, the place of the answer in the list.  It meets
    [neon_service], and the theorems on the SQL store are run over it. *)
From S2P Require Import Prelude Crypto GoStrings Text Json Http Store StoreProps Config Parser GoTime Sql Neon NeonDb NeonProps NeonMemory NeonClaims.
Local Open Scope Z_scope.

Section demo.
Context (tout : Z -> string) (replies : list (list string * list row)).

Definition world : Type := db * Z.

Definition reply_json (cols : list string) (rows : list row) : list (string * json) :=
  [("fields", JArray ((fun c => JObject [("name", JString c)]) <$> cols));
   ("rows", JArray ((fun r => JArray (value_json tout <$> r.*2)) <$> rows))]%string.

Definition params_of (l : list json) : list string := omap (fun x => match x with JString s => Some s | _ => None end) l.

Definition answer_query (q : string) (ps : list string) (w : world) : result (Z * list byte) * world :=
  let now := w.2 + 1 in
  match run_sql ParseRFC3339Nano now q ps w.1 with
  | None => (Ok (400, []), (w.1, now))
  | Some (cols, rows, d') =>
      (match list_find (fun x => x = (cols, rows)) replies with
       | Some (i, _) => if decide (Z.of_nat i < 256) then Ok (200, [z2b (Z.of_nat i)]) else Err (Foreign "reset")
       | None => Err (Foreign "reset")
       end, (d', now))
  end.
Definition demo_Do (req : neonRequest) (w : world) : result (Z * list byte) * world :=
  match nr_body req with
  | JObject [(_, JString q); (_, JArray l)] => answer_query q (params_of l) w
  | _ => (Err (Foreign "reset"), w)
  end.
Definition demo_first_json (body : list byte) : option json :=
  match body with
  | [b] => (fun '(cols, rows) => JObject (reply_json cols rows)) <$> replies !! Z.to_nat (b2z b)
  | _ => None
  end.
Definition demo_float64 (_ : string) : option string := None.

Lemma params_of_strings ps : params_of (JString <$> ps) = ps.
Proof. unfold params_of. induction ps as [|s ps IH]; [done|]. cbn. by f_equal. Qed.

Lemma decode_list_Ok {A B} (dec : json -> A * bool) (enc : B -> json) (f : B -> A) l :
  (forall b, dec (enc b) = (f b, true)) -> decode_list dec (JArray (enc <$> l)) [] = (f <$> l, true).
Proof.
  intros H. unfold decode_list. f_equal; rewrite <- list_fmap_compose.
  - rewrite <- list_fmap_compose. apply list_fmap_ext. intros i b _. unfold compose. by rewrite H.
  - apply forallb_forall. intros x Hx. apply list_elem_of_In, list_elem_of_fmap in Hx as (b & -> & _).
    unfold compose. by rewrite H.
Qed.

Lemma decode_any_value v : decode_any demo_float64 (value_json tout v) = (value_json tout v, true).
Proof. by destruct v. Qed.

Lemma decode_reply cols rows :
  decode_neonResult demo_float64 (JObject (reply_json cols rows)) =
  (mkNeonResult cols ((fun r => value_json tout <$> r.*2) <$> rows) 0, true).
Proof.
  unfold decode_neonResult, decode_struct, reply_json, set_neonResult. cbn [foldl fst snd].
  replace (EqualFold "fields" "fields") with true by (vm_compute; reflexivity).
  cbn [zero_neonResult nq_Fields nq_Rows nq_RowCount].
  rewrite (decode_list_Ok decode_field (fun c => JObject [("name"%string, JString c)]) (fun c => c)).
  2: { intros c. unfold decode_field, decode_struct. cbn [foldl fst snd].
       replace (EqualFold "name" "name") with true by (vm_compute; reflexivity). done. }
  cbn [fst snd].
  replace (EqualFold "rows" "fields") with false by (vm_compute; reflexivity).
  replace (EqualFold "rows" "rows") with true by (vm_compute; reflexivity).
  cbn [nq_Fields nq_Rows nq_RowCount].
  rewrite (decode_list_Ok _ (fun r : row => JArray (value_json tout <$> r.*2)) (fun r => value_json tout <$> r.*2)).
  2: { intros r. rewrite (decode_list_Ok (decode_any demo_float64) (value_json tout) (value_json tout)); [done|apply decode_any_value]. }
  by rewrite list_fmap_id.
Qed.

Lemma demo_first_json_prefix b k kvs :
  demo_first_json b = Some (JObject kvs) ->
  demo_first_json (take k b) = Some (JObject kvs) \/ demo_first_json (take k b) = None.
Proof. destruct b as [|x [|y b]]; [done| |done]. intros H. destruct k as [|k]; [by right|left]. by destruct k. Qed.

Lemma answer_query_responds q ps w resp w' :
  answer_query q ps w = (resp, w') ->
  w.2 <= w'.2 /\ responds demo_first_json demo_float64 ParseRFC3339Nano tout w'.2 q ps w.1 resp w'.1.
Proof.
  unfold answer_query. destruct (run_sql _ _ q ps w.1) as [[[cols rows] d']|] eqn:Hrun.
  - destruct (list_find _ replies) as [[i x]|] eqn:Hfind.
    + case_decide as Hi; intros [= <- <-]; (split; [cbn; lia|]).
      * apply list_find_Some in Hfind as (Hi2 & -> & _).
        eapply responds_rows with (kvs := reply_json cols rows); [exact Hrun|lia| |apply decode_reply|done].
        unfold demo_first_json. by rewrite b2z_z2b_small, Nat2Z.id, Hi2 by lia.
      * by eapply responds_lost.
    + intros [= <- <-]. split; [cbn; lia|]. by eapply responds_lost.
  - intros [= <- <-]. split; [cbn; lia|]. apply responds_failed. cbn. lia.
Qed.

Lemma demo_service : neon_service demo_Do demo_first_json demo_float64 fst snd ParseRFC3339Nano tout.
Proof.
  split; [apply demo_first_json_prefix|]. intros n q ps w resp w' H.
  unfold demo_Do, neon_request, neonQuery in H. cbn [nr_body] in H. rewrite params_of_strings in H.
  by apply answer_query_responds.
Qed.
End demo.

(** ** A pairing, its approval and what becomes of it *)

Definition demo_code : string := Eval vm_compute in HashSecret "dc".
Definition demo_user : string := Eval vm_compute in HashSecret "uc".
Definition demo_hash : string := Eval vm_compute in HashSecret "tok".
Definition demo_pairing (consumed : option Z) : pairing_rec :=
  mkPairingRec demo_code demo_user "Mac" 1000 (Some "alice"%string) (Some 5) consumed 1.
Definition demo_device : device_rec := mkDeviceRec "dev_1" "alice" "Mac" demo_hash 11 None None.
Definition demo_replies : list (list string * list row) :=
  [(device_columns, [project device_columns (device_row demo_device)]);
   (device_columns, []);
   (status_columns, [project status_columns (pairing_row (demo_pairing (Some 11)))]);
   (auth_columns, [project auth_columns (device_row demo_device)])].

Definition approved_tables : tables := mkTables [] [demo_pairing None] [] 1.
Definition paired_tables : tables := mkTables [demo_device] [demo_pairing (Some 11)] [] 1.
Definition approved_world : world := (to_db approved_tables, 10).
Definition paired_world : world := (to_db paired_tables, 20).

Definition demo_url_Parse (s : string) : result FullURL :=
  if decide (s = "postgres://u:p@ep.example.tech/db"%string)
  then Ok (mkFullURL (mkURL "postgres" "ep.example.tech" s) true "/db")
  else Ok (mkFullURL (mkURL "https" "api.example.tech" s) false "/sql").
Definition demo_store : NeonHTTP := mkNeonHTTP "postgres://u:p@ep.example.tech/db" "https://api.example.tech/sql".
Definition demo_Sprint (_ : json) : string := EmptyString.

(** PostgreSQL's output of a timestamp: a space for the T, an offset for the Z. *)
Definition postgres_text (t : Z) : string :=
  let l := FormatRFC3339Nano_bytes t in
  string_of_bytes (take 10 l ++ [z2b 32] ++ drop 11 (take (length l - 1) l) ++ bytes_of_string "+00").

Example postgres_text_shape : postgres_text (Date 2024 2 29 13 5 9 120300000) = "2024-02-29 13:05:09.1203+00"%string.
Proof. vm_compute. reflexivity. Qed.

Lemma length_trim_zeros l : (length (trim_zeros l) <= length l)%nat.
Proof. destruct (trim_zeros_app l) as [k Hk]. apply (f_equal length) in Hk. rewrite length_app in Hk. lia. Qed.

Lemma postgres_text_space : space_separated postgres_text.
Proof.
  intros t. unfold postgres_text, FormatRFC3339Nano_bytes. destruct (date_of (t / Day)) as [[y m] d].
  rewrite bytes_of_string_of_bytes. set (l := pad 4 y ++ _).
  assert (length (take 10 l) = 10)%nat as Hl.
  { rewrite length_take. unfold l. rewrite !length_app, !length_pad. cbn [char length]. lia. }
  by rewrite lookup_app_r, Hl by lia.
Qed.

Notation demo_json tout := (demo_first_json tout demo_replies).

Lemma demo_store_parsed : is_ok (demo_url_Parse (n_endpoint demo_store)) = true.
Proof. vm_compute. reflexivity. Qed.

Lemma demo_pairing_ok c : pairing_ok (demo_pairing c) = true.
Proof. destruct c; vm_compute; reflexivity. Qed.

Lemma approved_tables_ok : tables_ok approved_tables.
Proof.
  split; cbn; repeat constructor; set_solver.
Qed.
Lemma paired_tables_ok : tables_ok paired_tables.
Proof.
  split; cbn; repeat constructor; set_solver.
Qed.

Lemma approved_db_ok : db_ok (to_db approved_tables).
Proof. exists approved_tables. split; [done|]. split; [apply approved_tables_ok|]. by repeat constructor. Qed.

Definition consume_op : StoreProps.op := OpConsumePairing demo_code ex_device "tok".
Notation demo_apply tout := (neon_apply demo_url_Parse (demo_Do demo_replies) (demo_json tout) demo_float64 demo_Sprint snd demo_store).


(** The maps that the tables mirror. *)
Definition mirror_pairing : Pairing := mkPairing demo_code demo_user "Mac" 999 "" None None.
Definition mirror_ops : list (Z * StoreProps.op) :=
  [(1, OpCreatePairing mirror_pairing); (5, OpApprovePairing demo_user "alice")].
Definition mirror_memory : Memory :=
  mkMemory ∅ {[demo_code := Pairing_approve 5 "alice" mirror_pairing]} {[demo_user := demo_code]} [].

Lemma mirror_memory_wf : wf mirror_memory.
Proof.
  apply (run_wf mirror_ops NewMemory); [repeat constructor|apply wf_NewMemory|vm_compute; reflexivity].
Qed.

Lemma mirror_memory_mirrors : mirrors mirror_memory (to_db approved_tables).
Proof.
  exists approved_tables. split; [done|]. split.
  - apply approved_tables_ok.
  - by repeat constructor.
  - intros id. cbn. rewrite !lookup_empty. constructor.
  - intros c. unfold mirror_memory, by_key. cbn [m_pairings tb_pairings approved_tables fmap list_fmap list_to_map foldr fst snd].
    change (pr_code (demo_pairing None)) with demo_code.
    rewrite insert_empty. destruct (decide (c = demo_code)) as [->|Hne].
    + rewrite !lookup_singleton_eq. constructor. by split.
    + rewrite !lookup_singleton_ne by done. constructor.
  - apply mirror_memory_wf.
Qed.


Lemma neon_reads_like_memory_witness :
  let r := GetDevice demo_url_Parse (demo_Do demo_replies) (demo_json FormatRFC3339Nano) demo_float64 demo_Sprint
      demo_store "alice" "dev_1" approved_world in
  r.2.1 = to_db approved_tables /\ (unanswered r.1 \/ r.1 = Err ErrNotFound).
Proof.
  exact (proj1 (neon_reads_like_memory demo_url_Parse (demo_Do demo_replies) (demo_json FormatRFC3339Nano)
    demo_float64 demo_Sprint fst snd ParseRFC3339Nano FormatRFC3339Nano (demo_service _ _) demo_store demo_store_parsed
    mirror_memory "alice" "dev_1" "tok" approved_world mirror_memory_mirrors) _ _ (surjective_pairing _)).
Defined.


Lemma neon_endpoint_is_protected_witness :
  exists u eu, demo_url_Parse "postgres://u:p@ep.example.tech/db" = Ok u /\
    demo_url_Parse "https://api.example.tech/sql" = Ok eu /\ URL_Host (fu_URL eu) <> EmptyString.
Proof.
  destruct (neon_endpoint_is_protected demo_url_Parse "postgres://u:p@ep.example.tech/db" "" demo_store)
    as (u & eu & H1 & H2 & _ & _ & H3 & _); [vm_compute; reflexivity|]. by exists u, eu.
Defined.

Lemma neon_sends_hashes_witness :
  CreateDevice demo_url_Parse (demo_Do demo_replies) (demo_json FormatRFC3339Nano) demo_float64 demo_store ex_device "tok" approved_world
  = CreateDevice demo_url_Parse (fun req w => if decide (nr_url req = n_endpoint demo_store) then demo_Do demo_replies req w
      else (Err (Foreign "elsewhere"), w)) (demo_json FormatRFC3339Nano) demo_float64 demo_store ex_device "tok" approved_world.
Proof.
  refine (proj1 (neon_sends_hashes demo_url_Parse (demo_Do demo_replies) _ (demo_json FormatRFC3339Nano) demo_float64
    demo_Sprint snd demo_store "tok" "tok" ex_device "dev_1" demo_code approved_world _ eq_refl)).
  intros req w Hurl _. by rewrite decide_True.
Defined.
