(* ===== verification/Struct.v ===== *)
(** * Go struct types with json tags, as encoding/json reads and writes them

    A [gotype] describes the types that the program passes through
    encoding/json, [goval] is the type of their values: a struct is the tuple
    of its fields.  [Marshal] and [Unmarshal] follow the type as the reflection
    of encoding/json does.  Values that a repeated key would leave behind the
    end of a slice are not kept. *)
From S2P Require Import Prelude Crypto GoStrings Text Json GoTime.
Local Open Scope Z_scope.

(** ** Types and values *)

(** [TInt signed bits]: [int] and [int64] are [TInt true 64] on a 64-bit
    machine.  [TStrMap] is [map[string]string], [TAny] is [any], [TRaw] is
    [json.RawMessage].  A field has its name in JSON, whether it is
    [omitempty], and its type. *)
Inductive gotype : Type :=
| TString
| TBool
| TInt (signed : bool) (bits : Z)
| TSlice (t : gotype)
| TStrMap
| TPtr (t : gotype)
| TTime
| TAny
| TRaw
| TStruct (fs : fields)
with fields : Type :=
| FNil
| FCons (name : string) (omitempty : bool) (t : gotype) (fs : fields).

Scheme gotype_mut := Induction for gotype Sort Prop
  with fields_mut := Induction for fields Sort Prop.
Combined Scheme gotype_fields_ind from gotype_mut, fields_mut.

Notation TInt64 := (TInt true 64).
Notation TUint32 := (TInt false 32).

(** A struct from its fields: [req] ones, and those that are [omitempty]. *)
Definition req (name : string) (t : gotype) : string * bool * gotype := (name, false, t).
Definition opt (name : string) (t : gotype) : string * bool * gotype := (name, true, t).
Fixpoint struct (l : list (string * bool * gotype)) : fields :=
  match l with
  | [] => FNil
  | (name, omitempty, t) :: l => FCons name omitempty t (struct l)
  end.

Fixpoint goval (t : gotype) : Type :=
  match t with
  | TString => string
  | TBool => bool
  | TInt _ _ => Z
  | TSlice t => option (list (goval t))
  | TStrMap => option (gmap string string)
  | TPtr t => option (goval t)
  | TTime => Z
  | TAny => json
  | TRaw => option json
  | TStruct fs => govals fs
  end%type
with govals (fs : fields) : Type :=
  match fs with
  | FNil => unit
  | FCons _ _ t fs => goval t * govals fs
  end%type.

Fixpoint zero (t : gotype) : goval t :=
  match t return goval t with
  | TString => EmptyString
  | TBool => false
  | TInt _ _ => 0
  | TSlice _ | TStrMap | TPtr _ | TRaw => None
  | TTime => 0
  | TAny => JNull
  | TStruct fs => zeros fs
  end
with zeros (fs : fields) : govals fs :=
  match fs return govals fs with
  | FNil => tt
  | FCons _ _ t fs => (zero t, zeros fs)
  end.

Fixpoint names (fs : fields) : list string :=
  match fs with FNil => [] | FCons n _ _ fs => n :: names fs end.

(** ** Text in JSON *)

(** Printing replaces each byte that is not part of a UTF-8 sequence by
    U+FFFD. *)
Definition replacement : list byte := bytes_of_Zs [239; 191; 189].
Fixpoint to_valid (l : list byte) : list byte :=
  match l with
  | [] => []
  | a :: l1 =>
      if in_range 0 127 a then a :: to_valid l1
      else match l1 with
      | [] => replacement
      | b :: l2 =>
          if in_range 194 223 a && cont b then a :: b :: to_valid l2
          else match l2 with
          | [] => replacement ++ to_valid l1
          | c :: l3 =>
              if in_range 224 239 a
                 && in_range (if decide (b2z a = 224) then 160 else 128)
                             (if decide (b2z a = 237) then 159 else 191) b
                 && cont c
              then a :: b :: c :: to_valid l3
              else match l3 with
              | [] => replacement ++ to_valid l1
              | d :: l4 =>
                  if in_range 240 244 a
                     && in_range (if decide (b2z a = 240) then 144 else 128)
                                 (if decide (b2z a = 244) then 143 else 191) b
                     && cont c && cont d
                  then a :: b :: c :: d :: to_valid l4
                  else replacement ++ to_valid l1
              end
          end
      end
  end.
Definition json_text (s : string) : string := string_of_bytes (to_valid (bytes_of_string s)).
Definition json_string (s : string) : json := JString (json_text s).

(** ** Marshal *)

(** [omitempty]: false, 0, a nil pointer, and anything of length 0. *)
Definition is_empty (t : gotype) : goval t -> bool :=
  match t return goval t -> bool with
  | TString => fun s => bool_decide (s = EmptyString)
  | TBool => negb
  | TInt _ _ => fun z => z =? 0
  | TSlice _ => fun l => match l with None | Some [] => true | _ => false end
  | TStrMap => fun m => bool_decide (default ∅ m = ∅)
  | TPtr _ => fun p => match p with None => true | Some _ => false end
  | TRaw => fun r => match r with None => true | Some _ => false end
  | TAny => fun j => match j with JNull => true | _ => false end
  | TTime | TStruct _ => fun _ => false
  end.

(** The keys of a map are printed in order. *)
Definition entry_le {A} (a b : string * A) : Prop := String.leb a.1 b.1 = true.
#[global] Instance entry_le_dec {A} : RelDecision (@entry_le A).
Proof. intros a b. unfold entry_le. apply _. Defined.

Fixpoint Marshal (t : gotype) : goval t -> json :=
  match t return goval t -> json with
  | TString => json_string
  | TBool => JBool
  | TInt _ _ => fun z => JNumber (FormatInt z)
  | TSlice t => fun l => match l with None => JNull | Some l => JArray (Marshal t <$> l) end
  | TStrMap => fun m =>
      match m with
      | None => JNull
      | Some m => JObject ((fun kv => (json_text kv.1, json_string kv.2)) <$> isort entry_le (map_to_list m))
      end
  | TPtr t => fun p => match p with None => JNull | Some v => Marshal t v end
  | TTime => fun z => JString (FormatRFC3339Nano z)
  | TAny => fun j => j
  | TRaw => fun r => default JNull r
  | TStruct fs => fun vs => JObject (Marshal_fields fs vs)
  end
with Marshal_fields (fs : fields) : govals fs -> list (string * json) :=
  match fs return govals fs -> list (string * json) with
  | FNil => fun _ => []
  | FCons name omitempty t fs => fun vs =>
      (if omitempty && is_empty t vs.1 then [] else [(name, Marshal t vs.1)]) ++ Marshal_fields fs vs.2
  end.

(** ** Unmarshal *)

Section Unmarshal.
Context (float64 : string -> option string).
(** [DisallowUnknownFields] *)
Context (strict : bool).

(** The integers of a type. *)
Definition int_ok (signed : bool) (bits z : Z) : bool :=
  if signed then (- 2 ^ (bits - 1) <=? z) && (z <? 2 ^ (bits - 1)) else (0 <=? z) && (z <? 2 ^ bits).
(** [strconv.ParseInt] or [ParseUint], and the test for an overflow. *)
Definition parse_int (signed : bool) (bits : Z) (text : string) : option Z :=
  match ParseInt text with
  | Ok z => if int_ok signed bits z && (signed || negb (HasPrefix text "-")) then Some z else None
  | Err _ => None
  end.

(** The elements are decoded one after the other; a [null] element or field
    leaves the zero value. *)
Definition decode_elements {A} (dec : json -> A * bool) (v : json) (old : option (list A)) : option (list A) * bool :=
  match v with
  | JNull => (None, true)
  | JArray l => (Some (dec <$> l).*1, forallb snd (dec <$> l))
  | _ => (old, false)
  end.
Definition set_entry : gmap string string * bool -> string * json -> gmap string string * bool :=
  fun '(m, ok) kv => let '(s, ok') := decode_string kv.2 EmptyString in (<[kv.1 := s]> m, ok && ok').
Definition decode_strmap (v : json) (old : option (gmap string string)) : option (gmap string string) * bool :=
  match v with
  | JNull => (None, true)
  | JObject kvs =>
      let '(m, ok) := foldl set_entry (default ∅ old, true) kvs in (Some m, ok)
  | _ => (old, false)
  end.

(** Whether a field has this name exactly; then it is preferred to one that
    has it up to case. *)
Definition exact (key : string) (fs : fields) : bool := bool_decide (key ∈ names fs).

Fixpoint Unmarshal (t : gotype) : json -> goval t -> goval t * bool :=
  match t return json -> goval t -> goval t * bool with
  | TString => decode_string
  | TBool => decode_bool
  | TInt signed bits => fun v old =>
      match v with
      | JNull => (old, true)
      | JNumber text => match parse_int signed bits text with Some z => (z, true) | None => (old, false) end
      | _ => (old, false)
      end
  | TSlice t => decode_elements (fun x => Unmarshal t x (zero t))
  | TStrMap => decode_strmap
  | TPtr t => fun v old =>
      match v with
      | JNull => (None, true)
      | _ => let '(x, ok) := Unmarshal t v (default (zero t) old) in (Some x, ok)
      end
  | TTime => fun v old =>
      match v with
      | JNull => (old, true)
      | JString s => match ParseRFC3339Nano s with Some z => (z, true) | None => (0, false) end
      | _ => (old, false)
      end
  | TAny => fun v _ => match to_any float64 v with Some x => (x, true) | None => (JNull, false) end
  | TRaw => fun v _ => (Some v, true)
  | TStruct fs => fun v vs =>
      decode_struct (fun key x vs =>
        if exact key fs then set_field (fun n => bool_decide (key = n)) fs x vs
        else set_field (EqualFold key) fs x vs) v vs
  end
with set_field (hit : string -> bool) (fs : fields) : json -> govals fs -> govals fs * bool :=
  match fs return json -> govals fs -> govals fs * bool with
  | FNil => fun _ _ => (tt, negb strict)
  | FCons name _ t fs => fun x vs =>
      if hit name then let '(v, ok) := Unmarshal t x vs.1 in ((v, vs.2), ok)
      else let '(rest, ok) := set_field hit fs x vs.2 in ((vs.1, rest), ok)
  end.

(** [json.Unmarshal] into a new variable. *)
Definition decode (t : gotype) (v : json) : option (goval t) :=
  let '(x, ok) := Unmarshal t v (zero t) in if ok : bool then Some x else None.
End Unmarshal.

(** ** Facts *)

Lemma to_valid_id l : utf8_Valid l = true -> to_valid l = l.
Proof.
  remember (length l) as k eqn:Hk. revert l Hk.
  induction k as [k IH] using lt_wf_ind; intros l -> H.
  destruct l as [|a l1]; [done|]. cbn [utf8_Valid to_valid] in *.
  destruct (in_range 0 127 a); [by rewrite (IH (length l1)) by (done || (cbn; lia))|].
  destruct l1 as [|b l2]; [done|].
  destruct (in_range 194 223 a).
  { apply andb_true_iff in H as [-> H]. cbn [andb]. by rewrite (IH (length l2)) by (done || (cbn; lia)). }
  cbn [andb]. destruct l2 as [|c l3]; [done|].
  destruct (in_range 224 239 a).
  { apply andb_true_iff in H as [[-> ->]%andb_true_iff H]. cbn [andb]. by rewrite (IH (length l3)) by (done || (cbn; lia)). }
  cbn [andb]. destruct l3 as [|d l4]; [done|].
  apply andb_true_iff in H as [[[[-> ->]%andb_true_iff ->]%andb_true_iff ->]%andb_true_iff H]. cbn [andb].
  by rewrite (IH (length l4)) by (done || (cbn; lia)).
Qed.

Lemma FormatInt_sign z : 0 <= z -> int64_ok z -> HasPrefix (FormatInt z) "-" = false.
Proof.
  intros Hz H. unfold FormatInt. rewrite (proj2 (Z.ltb_ge z 0)) by done.
  destruct (format_digits_spec 19 z) as (Hd & Hne & _); [unfold int64_ok in H; change (10 ^ Z.of_nat 19) with (10 ^ 19); lia|done|].
  destruct (format_digits 19 z) as [|b l]; [done|]. apply Forall_cons in Hd as [Hd _].
  destruct b; first [done|discriminate Hd].
Qed.

Definition text_ok (s : string) : Prop := utf8_Valid (bytes_of_string s) = true.

Lemma json_text_id s : text_ok s -> json_text s = s.
Proof. intros H. unfold json_text. rewrite to_valid_id by done. apply String.string_of_list_byte_of_string. Qed.

Lemma foldl_entries (l : list (string * string)) :
  foldl set_entry (∅, true) ((fun kv => (kv.1, JString kv.2)) <$> l) = (list_to_map (reverse l), true).
Proof.
  induction l as [|[k s] l IH] using rev_ind; [done|].
  by rewrite fmap_app, foldl_app, IH, reverse_snoc.
Qed.

Lemma decode_strmap_Marshal (m : gmap string string) :
  map_Forall (fun k s => text_ok k /\ text_ok s) m ->
  decode_strmap (Marshal TStrMap (Some m)) None = (Some m, true).
Proof.
  intros H. cbn.
  replace ((fun kv : string * string => (json_text kv.1, json_string kv.2)) <$> isort entry_le (map_to_list m))
    with ((fun kv : string * string => (kv.1, JString kv.2)) <$> isort entry_le (map_to_list m)).
  - rewrite foldl_entries. f_equal. f_equal.
    transitivity (list_to_map (map_to_list m) : gmap string string); [symmetry|apply list_to_map_to_list].
    apply list_to_map_proper; [apply NoDup_fst_map_to_list|].
    rewrite reverse_Permutation. symmetry. apply isort_perm.
  - apply list_fmap_ext. intros i [k s] Hi. apply list_elem_of_lookup_2 in Hi. rewrite (isort_perm entry_le) in Hi.
    apply elem_of_map_to_list in Hi. destruct (H _ _ Hi) as [Hk Hs]. cbn [fst snd]. unfold json_string. rewrite (json_text_id k Hk), (json_text_id s Hs). reflexivity.
Qed.

(** *** What is read back *)

Section roundtrip.
Context (float64 : string -> option string).

(** The values that JSON can carry: texts are UTF-8, integers and times are
    in range, numbers in [any] are as printed, and nothing is an empty value
    that reads back as nil. *)
Fixpoint good (t : gotype) : goval t -> Prop :=
  match t return goval t -> Prop with
  | TString => text_ok
  | TBool => fun _ => True
  | TInt signed bits => fun z => int_ok signed bits z = true /\ int64_ok z
  | TSlice t => fun l => Forall (good t) (default [] l)
  | TStrMap => fun m => map_Forall (fun k s => text_ok k /\ text_ok s) (default ∅ m)
  | TPtr t => fun p => match p with Some v => good t v /\ Marshal t v <> JNull | None => True end
  | TTime => fun z => 0 <= z < year_10000
  | TAny => fun j => to_any float64 j = Some j
  | TRaw => fun r => r <> None
  | TStruct fs => goods fs
  end
with goods (fs : fields) : govals fs -> Prop :=
  match fs return govals fs -> Prop with
  | FNil => fun _ => True
  | FCons _ omitempty t fs => fun vs =>
      (if omitempty && is_empty t vs.1 then vs.1 = zero t else good t vs.1) /\ goods fs vs.2
  end.

(** The names of the fields of a struct, and of those inside it, are
    distinct. *)
Fixpoint distinct (t : gotype) : bool :=
  match t with
  | TSlice t | TPtr t => distinct t
  | TStruct fs => bool_decide (NoDup (names fs)) && distinct_fields fs
  | _ => true
  end
with distinct_fields (fs : fields) : bool :=
  match fs with FNil => true | FCons _ _ t fs => distinct t && distinct_fields fs end.

Context (strict : bool).
Notation Unmarshal := (Unmarshal float64 strict).
Notation set_field := (set_field float64 strict).

(** Entries with the exact names of fields, one after the other. *)
Definition set_exact (fs : fields) : govals fs * bool -> string * json -> govals fs * bool :=
  fun '(vs, ok) kv => let '(vs', ok') := set_field (fun n => bool_decide (kv.1 = n)) fs kv.2 vs in (vs', ok && ok').

Definition set_named (fs : fields) (key : string) (x : json) (vs : govals fs) : govals fs * bool :=
  if exact key fs then set_field (fun n => bool_decide (key = n)) fs x vs else set_field (EqualFold key) fs x vs.

Lemma Unmarshal_struct fs v vs : Unmarshal (TStruct fs) v vs = decode_struct (set_named fs) v vs.
Proof. done. Qed.

Lemma Unmarshal_exact fs kvs vs :
  Forall (fun kv => kv.1 ∈ names fs) kvs ->
  Unmarshal (TStruct fs) (JObject kvs) vs = foldl (set_exact fs) (vs, true) kvs.
Proof.
  intros H. rewrite Unmarshal_struct. cbn [decode_struct]. generalize true as ok. revert vs.
  induction H as [|kv kvs Hkv H IH]; intros vs ok; [done|]. cbn [foldl].
  destruct (set_exact fs (vs, ok) kv) as [vs' ok'] eqn:E. rewrite <- IH. f_equal. rewrite <- E.
  unfold set_exact, set_named. by rewrite (bool_decide_true _ Hkv : exact kv.1 fs = true).
Qed.

Lemma set_exact_ok fs kvs vs ok :
  foldl (set_exact fs) (vs, ok) kvs =
    let '(vs', ok') := foldl (set_exact fs) (vs, true) kvs in (vs', ok && ok').
Proof.
  revert vs ok. induction kvs as [|kv kvs IH]; intros vs ok; cbn [foldl]; [by rewrite andb_true_r|].
  unfold set_exact at 2 4. destruct (set_field _ _ _ _) as [vs' ok'].
  rewrite IH, (IH _ (true && ok')). destruct (foldl _ _ _). by rewrite andb_assoc.
Qed.

(** The value of an object's entry, if it has one. *)
Definition decode_entry (t : gotype) (x : option json) : goval t * bool :=
  match x with Some x => Unmarshal t x (zero t) | None => (zero t, true) end.

Lemma set_exact_hit name omitempty t fs (v : goval t) (r : govals fs) ok x :
  set_exact (FCons name omitempty t fs) ((v, r), ok) (name, x) =
    let '(v', ok') := Unmarshal t x v in ((v', r), ok && ok').
Proof.
  unfold set_exact. cbn [fst snd].
  assert (set_field (fun n => bool_decide (name = n)) (FCons name omitempty t fs) x (v, r) =
    if bool_decide (name = name) then let '(v', ok') := Unmarshal t x v in ((v', r), ok')
    else let '(r', ok') := set_field (fun n => bool_decide (name = n)) fs x r in ((v, r'), ok')) as -> by reflexivity.
  rewrite bool_decide_true by done. by destruct (Unmarshal t x v).
Qed.
Lemma set_exact_miss name omitempty t fs (v : goval t) (r : govals fs) ok kv :
  kv.1 <> name ->
  set_exact (FCons name omitempty t fs) ((v, r), ok) kv =
    let '(r', ok') := set_exact fs (r, ok) kv in ((v, r'), ok').
Proof.
  intros Hne. unfold set_exact.
  assert (set_field (fun n => bool_decide (kv.1 = n)) (FCons name omitempty t fs) kv.2 (v, r) =
    if bool_decide (kv.1 = name) then let '(v', ok') := Unmarshal t kv.2 v in ((v', r), ok')
    else let '(r', ok') := set_field (fun n => bool_decide (kv.1 = n)) fs kv.2 r in ((v, r'), ok')) as -> by reflexivity.
  rewrite bool_decide_false by done. by destruct (set_field _ _ _ _).
Qed.

Lemma foldl_fields name omitempty t fs kvs (r : govals fs) :
  NoDup kvs.*1 ->
  foldl (set_exact (FCons name omitempty t fs)) ((zero t, r), true) kvs =
    let '(v, ok) := decode_entry t ((list_to_map kvs : gmap string json) !! name) in
    let '(r', ok') := foldl (set_exact fs) (r, true) (filter (fun kv => kv.1 <> name) kvs) in ((v, r'), ok && ok').
Proof.
  induction kvs as [|[k x] kvs IH] using rev_ind; [done|].
  rewrite fmap_app, foldl_app, filter_app, foldl_app. intros [Hn [Hk _]]%NoDup_app. rewrite IH by done. clear IH.
  assert ((list_to_map (kvs ++ [(k, x)]) : gmap string json) !! name =
    if decide (k = name) then Some x else (list_to_map kvs : gmap string json) !! name) as ->.
  { rewrite list_to_map_app. case_decide as E.
    - subst. rewrite lookup_union_r; [cbn; apply lookup_insert_eq|].
      apply not_elem_of_list_to_map_1. intros Hin. apply (Hk _ Hin). set_solver.
    - cbn. rewrite insert_empty. destruct ((list_to_map kvs : gmap string json) !! name) eqn:El.
      + by apply lookup_union_Some_l.
      + by rewrite lookup_union_r, lookup_singleton_ne. }
  cbn [foldl]. case_decide as E.
  - subst k. rewrite (not_elem_of_list_to_map_1 kvs name); [|intros Hin; apply (Hk _ Hin); set_solver].
    cbn [decode_entry]. rewrite filter_cons_False by (cbn; tauto). cbn [filter list_filter foldl].
    destruct (foldl _ _ (filter _ kvs)) as [r' ok']. rewrite set_exact_hit. cbn [decode_entry].
    destruct (Unmarshal t x (zero t)). by rewrite andb_comm.
  - destruct (decode_entry _ _) as [v ok]. rewrite filter_cons_True by done. cbn [filter list_filter foldl].
    destruct (foldl _ _ (filter _ kvs)) as [r' ok']. rewrite set_exact_miss by done.
    unfold set_exact. destruct (set_field _ _ _ _). by rewrite andb_assoc.
Qed.

(** The field that a key names: the one of this name, else the first one up to
    case.  Keys may be replaced by the names of their fields. *)
Fixpoint folded (key : string) (fs : fields) : option string :=
  match fs with
  | FNil => None
  | FCons name _ _ fs => if EqualFold key name then Some name else folded key fs
  end.
Definition resolve (fs : fields) (key : string) : option string :=
  if exact key fs then Some key else folded key fs.

Lemma folded_names key fs name : folded key fs = Some name -> name ∈ names fs.
Proof.
  induction fs as [|n om t fs IH]; [done|]. cbn. destruct (EqualFold key n); [intros [= ->]; set_solver|]. set_solver.
Qed.

Lemma set_field_folded key fs name x vs :
  NoDup (names fs) -> folded key fs = Some name ->
  set_field (EqualFold key) fs x vs = set_field (fun n => bool_decide (name = n)) fs x vs.
Proof.
  induction fs as [|n om t fs IH]; [done|]. cbn [names folded]. intros [Hn Hd]%NoDup_cons Hf. destruct vs as [v r].
  assert (forall hit, set_field hit (FCons n om t fs) x (v, r) =
    if hit n then let '(v', ok') := Unmarshal t x v in ((v', r), ok')
    else let '(r', ok') := set_field hit fs x r in ((v, r'), ok')) as E by reflexivity.
  rewrite !E. destruct (EqualFold key n).
  - injection Hf as ->. by rewrite bool_decide_true.
  - rewrite bool_decide_false by (intros ->; apply Hn; by eapply folded_names). by rewrite IH.
Qed.

Lemma set_named_resolve fs key name x vs :
  NoDup (names fs) -> resolve fs key = Some name -> set_named fs key x vs = set_named fs name x vs.
Proof.
  intros Hn. unfold resolve, set_named. destruct (exact key fs) eqn:E; [intros [= ->]; by rewrite E|].
  intros Hf. rewrite (set_field_folded key fs name) by done.
  by rewrite (bool_decide_true _ (folded_names _ _ _ Hf) : exact name fs = true).
Qed.

Definition set_step (fs : fields) : govals fs * bool -> string * json -> govals fs * bool :=
  fun '(vs, ok) kv => let '(vs', ok') := set_named fs kv.1 kv.2 vs in (vs', ok && ok').
Lemma decode_foldl fs kvs :
  decode float64 strict (TStruct fs) (JObject kvs) =
    let '(vs, ok) := foldl (set_step fs) (zeros fs, true) kvs in if ok : bool then Some vs else None.
Proof. done. Qed.

Lemma decode_resolved fs (kvs kvs' : list (string * json)) :
  NoDup (names fs) -> Forall2 (fun kv kv' => resolve fs kv.1 = Some kv'.1 /\ kv.2 = kv'.2) kvs kvs' ->
  decode float64 strict (TStruct fs) (JObject kvs) = decode float64 strict (TStruct fs) (JObject kvs').
Proof.
  intros Hn H. rewrite !decode_foldl. generalize (zeros fs, true) as p.
  induction H as [|[k x] [k' x'] kvs kvs' [Hk Hx] H IH]; intros [vs ok]; [done|]. cbn in Hk, Hx. subst x'.
  cbn [foldl]. rewrite IH. unfold set_step at 2 4. cbn [fst snd]. by rewrite (set_named_resolve fs k k').
Qed.

(** With [DisallowUnknownFields] a key that names no field is an error. *)
Lemma set_field_unknown key fs x vs : folded key fs = None -> (set_field (EqualFold key) fs x vs).2 = negb strict.
Proof.
  induction fs as [|n om t fs IH]; [done|]. cbn [folded]. destruct vs as [v r].
  assert (set_field (EqualFold key) (FCons n om t fs) x (v, r) =
    if EqualFold key n then let '(v', ok') := Unmarshal t x v in ((v', r), ok')
    else let '(r', ok') := set_field (EqualFold key) fs x r in ((v, r'), ok')) as -> by reflexivity.
  destruct (EqualFold key n); [done|]. intros Hf. specialize (IH r Hf). by destruct (set_field _ fs x r).
Qed.

Lemma set_step_failed fs kvs vs : (foldl (set_step fs) (vs, false) kvs).2 = false.
Proof.
  revert vs. induction kvs as [|kv kvs IH]; intros vs; [done|]. cbn [foldl]. unfold set_step at 2.
  by destruct (set_named _ _ _ _).
Qed.

Lemma decode_unknown fs kvs key x :
  strict = true -> (key, x) ∈ kvs -> resolve fs key = None -> decode float64 strict (TStruct fs) (JObject kvs) = None.
Proof.
  intros Hs Hin Hr. rewrite decode_foldl. unfold resolve in Hr. destruct (exact key fs) eqn:E; [done|].
  apply list_elem_of_split in Hin as (l1 & l2 & ->). rewrite foldl_app. cbn [foldl].
  destruct (foldl (set_step fs) _ l1) as [a ok]. unfold set_step at 2, set_named. cbn [fst snd]. rewrite E.
  pose proof (set_field_unknown key fs x a Hr) as H. destruct (set_field _ fs x a) as [a' ok']. rewrite Hs in H. cbn in H. subst ok'.
  rewrite andb_false_r. pose proof (set_step_failed fs l2 a') as H. by destruct (foldl _ _ l2) as [? []].
Qed.

(** A struct from the entries of an object: each field from the entry of its
    name. *)
Fixpoint read_fields (fs : fields) (m : gmap string json) : option (govals fs) :=
  match fs return option (govals fs) with
  | FNil => Some tt
  | FCons name _ t fs =>
      v ← match m !! name with Some x => decode float64 strict t x | None => Some (zero t) end;
      r ← read_fields fs m;
      Some (v, r)
  end.

Lemma read_fields_ext fs m m' :
  (forall k, k ∈ names fs -> m !! k = m' !! k) -> read_fields fs m = read_fields fs m'.
Proof.
  induction fs as [|name om t fs IH]; intros H; [done|]. cbn in *. rewrite (H name), IH by set_solver. done.
Qed.

Lemma others_NoDup (name : string) (kvs : list (string * json)) :
  NoDup kvs.*1 -> NoDup (filter (fun kv => kv.1 <> name) kvs).*1.
Proof.
  induction kvs as [|kv kvs IH]; [done|]. rewrite fmap_cons. intros [Hk Hn]%NoDup_cons.
  destruct (decide (kv.1 = name)); [rewrite filter_cons_False by tauto; auto|].
  rewrite filter_cons_True, fmap_cons by done. apply NoDup_cons. split; [|auto].
  intros (kv' & E & [_ Hin]%list_elem_of_filter)%list_elem_of_fmap. apply Hk. rewrite E. by apply list_elem_of_fmap_2.
Qed.
Lemma others_lookup (name k : string) (kvs : list (string * json)) :
  k <> name -> (list_to_map (filter (fun kv => kv.1 <> name) kvs) : gmap string json) !! k = (list_to_map kvs : gmap string json) !! k.
Proof.
  intros Hk. induction kvs as [|[k' x] kvs IH]; [done|].
  destruct (decide (k' = name)) as [->|]; [rewrite filter_cons_False by tauto|rewrite filter_cons_True by done]; cbn [list_to_map foldr].
  - rewrite IH. cbn. by rewrite lookup_insert_ne.
  - cbn in *. destruct (decide (k = k')) as [->|]; [by rewrite !lookup_insert_eq|by rewrite !lookup_insert_ne].
Qed.

Lemma read_fields_foldl fs kvs :
  NoDup (names fs) -> NoDup kvs.*1 -> Forall (fun kv => kv.1 ∈ names fs) kvs ->
  (let '(vs, ok) := foldl (set_exact fs) (zeros fs, true) kvs in if ok : bool then Some vs else None) =
    read_fields fs (list_to_map kvs).
Proof.
  revert kvs. induction fs as [|name om t fs IH]; intros kvs Hn Hk Hin.
  - destruct kvs as [|kv kvs]; [done|]. apply Forall_cons in Hin as [H _]. cbn in H. set_solver.
  - cbn [names] in *. apply NoDup_cons in Hn as [Hname Hn].
    cbn [zeros read_fields]. rewrite foldl_fields by done.
    rewrite <- (read_fields_ext fs (list_to_map (filter (fun kv => kv.1 <> name) kvs))), <- IH; [|done|..].
    + unfold decode, decode_entry. destruct (_ !! name) as [x|]; [destruct (Unmarshal t x (zero t)) as [v [|]]|];
        destruct (foldl _ _ (filter _ _)) as [r' [|]]; done.
    + by apply others_NoDup.
    + apply Forall_forall. intros kv [Hne Hkv]%list_elem_of_filter. rewrite Forall_forall in Hin.
      specialize (Hin _ Hkv). set_solver.
    + intros k Hkn. apply others_lookup. congruence.
Qed.

(** Decoding an object whose keys are distinct names of fields. *)
Lemma decode_object fs kvs :
  NoDup (names fs) -> NoDup kvs.*1 -> Forall (fun kv => kv.1 ∈ names fs) kvs ->
  decode float64 strict (TStruct fs) (JObject kvs) = read_fields fs (list_to_map kvs).
Proof. intros Hn Hk Hin. unfold decode. rewrite Unmarshal_exact by done. by apply read_fields_foldl. Qed.

(** The same with the keys [ks] for the fields. *)
Fixpoint read_by (ks : list string) (fs : fields) (m : gmap string json) : option (govals fs) :=
  match fs return option (govals fs) with
  | FNil => Some tt
  | FCons _ _ t fs =>
      v ← match head ks ≫= (m !!.) with Some x => decode float64 strict t x | None => Some (zero t) end;
      r ← read_by (tail ks) fs m;
      Some (v, r)
  end.

Section keys.
Context (fs : fields) (ks : list string).
Context (Hnames : NoDup (names fs)) (Hkeys : NoDup ks).
Context (Hresolve : Forall2 (fun k n => resolve fs k = Some n) ks (names fs)).

Definition renamed (kvs : list (string * json)) : list (string * json) :=
  (fun kv => (default kv.1 (resolve fs kv.1), kv.2)) <$> kvs.

Lemma resolve_key k : k ∈ ks -> exists n, resolve fs k = Some n /\ n ∈ names fs.
Proof.
  intros (i & Hi)%list_elem_of_lookup. destruct (Forall2_lookup_l _ _ _ _ _ Hresolve Hi) as (n & Hn & E).
  exists n. split; [done|]. by eapply list_elem_of_lookup_2.
Qed.
Lemma resolve_inj k k' n : k ∈ ks -> k' ∈ ks -> resolve fs k = Some n -> resolve fs k' = Some n -> k = k'.
Proof.
  intros (i & Hi)%list_elem_of_lookup (j & Hj)%list_elem_of_lookup E E'.
  destruct (Forall2_lookup_l _ _ _ _ _ Hresolve Hi) as (n1 & Hn1 & E1).
  destruct (Forall2_lookup_l _ _ _ _ _ Hresolve Hj) as (n2 & Hn2 & E2).
  rewrite E in E1. rewrite E' in E2. injection E1 as <-. injection E2 as <-.
  pose proof (NoDup_lookup _ _ _ _ Hnames Hn1 Hn2) as ->. congruence.
Qed.

Lemma renamed_lookup kvs k n :
  NoDup kvs.*1 -> Forall (fun kv => kv.1 ∈ ks) kvs -> k ∈ ks -> resolve fs k = Some n ->
  NoDup (renamed kvs).*1 /\ (list_to_map (renamed kvs) : gmap string json) !! n = (list_to_map kvs : gmap string json) !! k.
Proof.
  intros Hn Hin Hk Hr. induction Hin as [|[k' x] kvs Hk' Hin IH]; [by split; [constructor|]|].
  cbn [fmap list_fmap fst] in Hn. apply NoDup_cons in Hn as [Hni Hn]. destruct (IH Hn) as [Hd Hl].
  destruct (resolve_key k' Hk') as (n' & Hr' & _). cbn in Hr'. cbn [renamed fmap list_fmap fst snd]. rewrite Hr'. split.
  - apply NoDup_cons. split; [|done]. cbn.
    intros (kv & E & ((k2 & x2) & -> & H2)%list_elem_of_fmap)%list_elem_of_fmap. cbn in E.
    rewrite Forall_forall in Hin. pose proof (Hin _ H2) as Hk2. destruct (resolve_key k2 Hk2) as (n2 & Hr2 & _).
    cbn in Hr2. rewrite Hr2 in E. cbn in E. subst n2. apply Hni.
    rewrite (resolve_inj k' k2 n' Hk' Hk2 Hr' Hr2). by apply (list_elem_of_fmap_2 fst) in H2.
  - cbn [list_to_map foldr fst snd default from_option id]. destruct (decide (k' = k)) as [->|Hne].
    + assert (n' = n) as -> by congruence. by rewrite !lookup_insert_eq.
    + rewrite !lookup_insert_ne; [done|done|]. intros ->. apply Hne. by apply (resolve_inj k' k n).
Qed.

Lemma decode_by_keys kvs :
  NoDup kvs.*1 -> Forall (fun kv => kv.1 ∈ ks) kvs ->
  decode float64 strict (TStruct fs) (JObject kvs) = read_by ks fs (list_to_map kvs).
Proof.
  intros Hn Hin.
  rewrite (decode_resolved fs kvs (renamed kvs)); [|done|].
  2: { clear Hn. induction Hin as [|kv kvs Hk Hin IH]; [constructor|]. constructor; [|done]. cbn.
       by destruct (resolve_key _ Hk) as (n & -> & _). }
  rewrite decode_object; [|done|..].
  - assert (Forall2 (fun k n => (list_to_map (renamed kvs) : gmap string json) !! n = (list_to_map kvs : gmap string json) !! k)
      ks (names fs)) as H.
    { apply Forall2_same_length_lookup. split; [by eapply Forall2_length|]. intros i k n Hk Hi.
      apply (renamed_lookup kvs k n Hn Hin); [by eapply list_elem_of_lookup_2|].
      by eapply (Forall2_lookup_lr _ _ _ _ _ _ Hresolve). }
    clear -H. revert H. generalize ks as l. generalize (list_to_map (renamed kvs) : gmap string json) as m'.
    induction fs as [|name om t fs' IH]; intros m' l H; [done|]. cbn [names] in H.
    destruct l as [|k l]; [by inversion H|].
    apply Forall2_cons in H as [Hk H]. cbn [read_fields read_by head tail mbind option_bind]. by rewrite Hk, (IH m' l).
  - destruct kvs as [|[k x] kvs]; [constructor|].
    assert (k ∈ ks) as Hk by (by apply Forall_cons in Hin as [Hk _]).
    destruct (resolve_key k Hk) as (n & Hr & _). by apply (renamed_lookup ((k, x) :: kvs) k n Hn Hin).
  - apply Forall_fmap. eapply Forall_impl; [exact Hin|]. intros kv Hk. cbn.
    destruct (resolve_key _ Hk) as (n & -> & Hnn). done.
Qed.
End keys.

Lemma decode_Some t v x : decode float64 strict t x = Some v -> Unmarshal t x (zero t) = (v, true).
Proof. unfold decode. by destruct (Unmarshal t x (zero t)) as [? [|]]; intros [= ->]. Qed.

Lemma Marshal_fields_names fs vs : Forall (fun kv => kv.1 ∈ names fs) (Marshal_fields fs vs).
Proof.
  induction fs as [|name om t fs IH]; cbn; [constructor|]. apply Forall_app. split.
  - destruct (_ && _); repeat constructor; cbn; set_solver.
  - eapply Forall_impl; [apply IH|]. cbn. set_solver.
Qed.

Lemma Marshal_fields_NoDup fs vs : NoDup (names fs) -> NoDup (Marshal_fields fs vs).*1.
Proof.
  induction fs as [|name om t fs IH]; [constructor|]. cbn [names Marshal_fields]. intros [Hk Hn]%NoDup_cons.
  destruct (om && _); [by apply IH|]. cbn. apply NoDup_cons. split; [|by apply IH].
  intros (kv & E & Hin)%list_elem_of_fmap. pose proof (Marshal_fields_names fs vs.2) as H.
  rewrite Forall_forall in H. apply Hk. rewrite E. by apply H.
Qed.

(** An object that holds the printed fields: where a field was omitted there
    is no entry. *)
Definition holds (fs : fields) (vs : govals fs) (m : gmap string json) : Prop :=
  (forall k x, (k, x) ∈ Marshal_fields fs vs -> m !! k = Some x) /\
  (forall k, k ∈ names fs -> k ∉ (Marshal_fields fs vs).*1 -> m !! k = None).

Lemma holds_itself fs vs : NoDup (names fs) -> holds fs vs (list_to_map (Marshal_fields fs vs)).
Proof.
  intros Hn. split.
  - intros k x. by apply elem_of_list_to_map_1, Marshal_fields_NoDup.
  - intros k _. apply not_elem_of_list_to_map_1.
Qed.

Lemma holds_cons name om t fs (v : goval t) (r : govals fs) m :
  name ∉ names fs -> holds (FCons name om t fs) (v, r) m ->
  m !! name = (if om && is_empty t v then None else Some (Marshal t v)) /\ holds fs r m.
Proof.
  intros Hname [H1 H2]. cbn [Marshal_fields names fst snd] in H1, H2.
  pose proof (Marshal_fields_names fs r) as Hin. rewrite Forall_forall in Hin.
  split; [|split].
  - destruct (om && is_empty t v); [|apply H1; cbn; set_solver]. apply H2; [set_solver|].
    intros (kv & -> & Hkv)%list_elem_of_fmap. by apply Hname, Hin.
  - intros k x Hk. apply H1. apply elem_of_app. by right.
  - intros k Hk Hni. apply H2; [set_solver|]. rewrite fmap_app. intros [H|H]%elem_of_app; [|done].
    destruct (om && is_empty t v); [by apply not_elem_of_nil in H|]. cbn in H. assert (k = name) by set_solver. congruence.
Qed.

(** What [Marshal] printed is read back, unknown fields or not. *)
Lemma decode_Marshal_mut :
  (forall t, distinct t = true -> forall v, good t v -> decode float64 strict t (Marshal t v) = Some v) /\
  (forall fs, distinct_fields fs = true -> NoDup (names fs) -> forall vs m, goods fs vs -> holds fs vs m ->
     read_fields fs m = Some vs).
Proof.
  apply gotype_fields_ind; cbn [distinct distinct_fields good goods].
  - intros _ v Hv. unfold decode. cbn. by rewrite json_text_id.
  - done.
  - intros signed bits _ v [Hv H64]. unfold decode. cbn. unfold parse_int. rewrite ParseInt_FormatInt, Hv by done.
    destruct signed; [done|]. cbn [orb andb] in *. unfold int_ok in Hv. bool_props. by rewrite FormatInt_sign.
  - intros t IH Hd v Hv. destruct v as [l|]; [|done]. unfold decode. cbn in *.
    assert ((fun x => Unmarshal t x (zero t)) <$> (Marshal t <$> l) = (fun v => (v, true)) <$> l) as E.
    { rewrite <- list_fmap_compose. induction Hv; cbn; [done|]. by rewrite (decode_Some _ _ _ (IH Hd _ H)), IHHv. }
    rewrite E. rewrite <- list_fmap_compose. replace (forallb snd _) with true.
    + cbn. do 2 f_equal. by rewrite list_fmap_id.
    + symmetry. apply forallb_forall. by intros x (v & <- & _)%in_map_iff.
  - intros _ v Hv. destruct v as [m|]; [|done]. unfold decode.
    by rewrite (decode_strmap_Marshal m Hv : Unmarshal TStrMap (Marshal TStrMap (Some m)) (zero TStrMap) = _).
  - intros t IH Hd v Hv. destruct v as [v|]; [|done]. destruct Hv as [Hv Hn]. specialize (IH Hd v Hv).
    apply decode_Some in IH. unfold decode. cbn. by destruct (Marshal t v); [done|rewrite IH..].
  - intros _ v Hv. unfold decode. cbn. by rewrite ParseRFC3339Nano_Format.
  - intros _ v Hv. unfold decode. cbn in *. by rewrite Hv.
  - intros _ v Hv. unfold decode. cbn in *. by destruct v.
  - intros fs IH [Hn Hd]%andb_true_iff v Hv. apply bool_decide_eq_true_1 in Hn.
    cbn [Marshal]. rewrite decode_object by auto using Marshal_fields_names, Marshal_fields_NoDup.
    apply IH; auto using holds_itself.
  - by intros _ _ [].
  - intros name om t IHt fs IH [Hdt Hd]%andb_true_iff Hn [v r] m [Hv Hr] Hm. cbn [names] in Hn. apply NoDup_cons in Hn as [Hni Hn].
    apply holds_cons in Hm as [Hm Hm']; [|done]. cbn [read_fields]. rewrite Hm. cbn [fst snd] in *.
    rewrite (IH Hd Hn r m Hr Hm'). destruct (om && is_empty t v); [by rewrite Hv|]. by rewrite IHt.
Qed.

Lemma decode_Marshal t v : distinct t = true -> good t v -> decode float64 strict t (Marshal t v) = Some v.
Proof. intros H. by apply decode_Marshal_mut. Qed.
End roundtrip.
