(* ===== verification/ApiTypes.v ===== *)
(** * The JSON types of the API: pkg/api/v1/types.go

    One [gotype] per type, with its fields in their order and under their
    names in JSON.  [v1_types] lists the types by name. *)
From S2P Require Import Prelude Struct.
Local Open Scope Z_scope.

Module v1.
Definition DeviceID : gotype := TString.
Definition Subject : gotype := TString.
Definition ToolName : gotype := TString.
Definition ProcessID : gotype := TString.
Definition DeviceCapabilities : gotype := TStruct (struct
  [req "filesystem" TBool;
   req "processes" TBool;
   req "shell" TBool;
   req "search" TBool]).
Definition Device : gotype := TStruct (struct
  [req "id" DeviceID;
   req "name" TString;
   req "online" TBool;
   opt "last_seen_at" (TPtr TTime);
   req "created_at" TTime;
   opt "capabilities" DeviceCapabilities]).
Definition PairingStartRequest : gotype := TStruct (struct
  [req "device_name" TString]).
Definition PairingStartResponse : gotype := TStruct (struct
  [req "device_code" TString;
   req "user_code" TString;
   req "verification_uri" TString;
   req "verification_uri_complete" TString;
   req "expires_in" TInt64;
   req "interval" TInt64]).
Definition PairingApproveRequest : gotype := TStruct (struct
  [req "user_code" TString]).
Definition PairingTokenRequest : gotype := TStruct (struct
  [req "device_code" TString]).
Definition PairingTokenResponse : gotype := TStruct (struct
  [req "device_id" DeviceID;
   req "access_token" TString;
   req "token_type" TString]).
Definition RemoteCall : gotype := TStruct (struct
  [req "call_id" TString;
   req "device_id" DeviceID;
   req "tool" ToolName;
   req "arguments" TAny]).
Definition RemoteError : gotype := TStruct (struct
  [req "code" TString;
   req "message" TString]).
Definition RemoteResult : gotype := TStruct (struct
  [req "call_id" TString;
   req "ok" TBool;
   opt "result" TAny;
   opt "error" (TPtr RemoteError)]).
Definition ListDevicesArgs : gotype := TStruct (struct []).
Definition DeviceArgs : gotype := TStruct (struct
  [req "device_id" DeviceID]).
Definition PathArgs : gotype := TStruct (struct
  [req "device_id" DeviceID;
   req "path" TString]).
Definition ReadFileArgs : gotype := TStruct (struct
  [req "device_id" DeviceID;
   req "path" TString;
   opt "offset" TInt64;
   opt "max_bytes" TInt64]).
Definition ReadFileResult : gotype := TStruct (struct
  [req "path" TString;
   req "encoding" TString;
   req "content" TString;
   req "offset" TInt64;
   req "next_offset" TInt64;
   req "truncated" TBool]).
Definition WriteFileArgs : gotype := TStruct (struct
  [req "device_id" DeviceID;
   req "path" TString;
   req "content" TString;
   opt "encoding" TString;
   opt "mode" TUint32]).
Definition WriteFileResult : gotype := TStruct (struct
  [req "path" TString;
   req "bytes_written" TInt64]).
Definition DirectoryEntry : gotype := TStruct (struct
  [req "name" TString;
   req "type" TString;
   req "size" TInt64;
   req "modified_at" TTime]).
Definition ListDirectoryResult : gotype := TStruct (struct
  [req "path" TString;
   req "entries" (TSlice DirectoryEntry);
   req "truncated" TBool]).
Definition CreateDirectoryArgs : gotype := TStruct (struct
  [req "device_id" DeviceID;
   req "path" TString;
   opt "mode" TUint32]).
Definition MoveFileArgs : gotype := TStruct (struct
  [req "device_id" DeviceID;
   req "source" TString;
   req "destination" TString]).
Definition FileInfoResult : gotype := TStruct (struct
  [req "path" TString;
   req "name" TString;
   req "size" TInt64;
   req "mode" TString;
   req "modified_at" TTime;
   req "is_dir" TBool]).
Definition StartProcessArgs : gotype := TStruct (struct
  [req "device_id" DeviceID;
   opt "argv" (TSlice TString);
   opt "command" TString;
   opt "cwd" TString;
   opt "env" TStrMap]).
Definition StartProcessResult : gotype := TStruct (struct
  [req "process_id" ProcessID;
   req "pid" TInt64]).
Definition ReadProcessOutputArgs : gotype := TStruct (struct
  [req "device_id" DeviceID;
   req "process_id" ProcessID;
   opt "cursor" TInt64;
   opt "max_bytes" TInt64]).
Definition ReadProcessOutputResult : gotype := TStruct (struct
  [req "data" TString;
   req "next_cursor" TInt64;
   req "truncated" TBool;
   req "exited" TBool;
   opt "exit_code" (TPtr TInt64)]).
Definition InteractWithProcessArgs : gotype := TStruct (struct
  [req "device_id" DeviceID;
   req "process_id" ProcessID;
   req "data" TString;
   opt "encoding" TString]).
Definition ForceTerminateArgs : gotype := TStruct (struct
  [req "device_id" DeviceID;
   req "process_id" ProcessID]).
Definition ReadMultipleFilesArgs : gotype := TStruct (struct
  [req "device_id" DeviceID;
   req "paths" (TSlice TString);
   opt "max_bytes_per_file" TInt64]).
Definition MultiFileRead : gotype := TStruct (struct
  [req "path" TString;
   opt "encoding" TString;
   opt "content" TString;
   opt "truncated" TBool;
   opt "error" TString]).
Definition ReadMultipleFilesResult : gotype := TStruct (struct
  [req "files" (TSlice MultiFileRead)]).
Definition EditBlockArgs : gotype := TStruct (struct
  [req "device_id" DeviceID;
   req "file_path" TString;
   req "old_string" TString;
   req "new_string" TString;
   opt "expected_replacements" TInt64]).
Definition EditBlockResult : gotype := TStruct (struct
  [req "path" TString;
   req "replacements" TInt64;
   req "bytes_written" TInt64]).
Definition StartSearchArgs : gotype := TStruct (struct
  [req "device_id" DeviceID;
   req "path" TString;
   req "pattern" TString;
   opt "search_type" TString;
   opt "regex" TBool;
   opt "case_sensitive" TBool;
   opt "include_hidden" TBool;
   opt "max_results" TInt64;
   opt "max_file_bytes" TInt64]).
Definition StartSearchResult : gotype := TStruct (struct
  [req "session_id" TString]).
Definition SearchMatch : gotype := TStruct (struct
  [req "path" TString;
   opt "line" TInt64;
   opt "column" TInt64;
   opt "preview" TString;
   req "kind" TString]).
Definition GetMoreSearchResultsArgs : gotype := TStruct (struct
  [req "device_id" DeviceID;
   req "session_id" TString;
   opt "max_results" TInt64]).
Definition SearchResults : gotype := TStruct (struct
  [req "results" (TSlice SearchMatch);
   req "done" TBool;
   opt "error" TString;
   req "total_found" TInt64]).
Definition StopSearchArgs : gotype := TStruct (struct
  [req "device_id" DeviceID;
   req "session_id" TString]).
Definition ListSearchesArgs : gotype := TStruct (struct
  [req "device_id" DeviceID]).
Definition SearchSummary : gotype := TStruct (struct
  [req "session_id" TString;
   req "done" TBool;
   req "buffered" TInt64;
   req "returned" TInt64;
   req "total_found" TInt64]).
Definition ListSessionsArgs : gotype := TStruct (struct
  [req "device_id" DeviceID]).
Definition ListProcessesArgs : gotype := TStruct (struct
  [req "device_id" DeviceID;
   opt "max_results" TInt64]).
Definition KillProcessArgs : gotype := TStruct (struct
  [req "device_id" DeviceID;
   req "pid" TInt64]).
Definition GetConfigArgs : gotype := TStruct (struct
  [req "device_id" DeviceID]).

(** The error codes. *)
Definition ErrorInvalidArguments : string := "invalid_arguments".
Definition ErrorNotFound : string := "not_found".
Definition ErrorForbidden : string := "forbidden".
Definition ErrorOffline : string := "device_offline".
Definition ErrorTimeout : string := "timeout".
Definition ErrorExecution : string := "execution_error".
Definition ErrorInternal : string := "internal_error".
End v1.

Definition v1_types : list (string * gotype) :=
  [("Device", v1.Device);
   ("DeviceCapabilities", v1.DeviceCapabilities);
   ("PairingStartRequest", v1.PairingStartRequest);
   ("PairingStartResponse", v1.PairingStartResponse);
   ("PairingApproveRequest", v1.PairingApproveRequest);
   ("PairingTokenRequest", v1.PairingTokenRequest);
   ("PairingTokenResponse", v1.PairingTokenResponse);
   ("RemoteCall", v1.RemoteCall);
   ("RemoteResult", v1.RemoteResult);
   ("RemoteError", v1.RemoteError);
   ("ListDevicesArgs", v1.ListDevicesArgs);
   ("DeviceArgs", v1.DeviceArgs);
   ("PathArgs", v1.PathArgs);
   ("ReadFileArgs", v1.ReadFileArgs);
   ("ReadFileResult", v1.ReadFileResult);
   ("WriteFileArgs", v1.WriteFileArgs);
   ("WriteFileResult", v1.WriteFileResult);
   ("DirectoryEntry", v1.DirectoryEntry);
   ("ListDirectoryResult", v1.ListDirectoryResult);
   ("CreateDirectoryArgs", v1.CreateDirectoryArgs);
   ("MoveFileArgs", v1.MoveFileArgs);
   ("FileInfoResult", v1.FileInfoResult);
   ("StartProcessArgs", v1.StartProcessArgs);
   ("StartProcessResult", v1.StartProcessResult);
   ("ReadProcessOutputArgs", v1.ReadProcessOutputArgs);
   ("ReadProcessOutputResult", v1.ReadProcessOutputResult);
   ("InteractWithProcessArgs", v1.InteractWithProcessArgs);
   ("ForceTerminateArgs", v1.ForceTerminateArgs);
   ("ReadMultipleFilesArgs", v1.ReadMultipleFilesArgs);
   ("MultiFileRead", v1.MultiFileRead);
   ("ReadMultipleFilesResult", v1.ReadMultipleFilesResult);
   ("EditBlockArgs", v1.EditBlockArgs);
   ("EditBlockResult", v1.EditBlockResult);
   ("StartSearchArgs", v1.StartSearchArgs);
   ("StartSearchResult", v1.StartSearchResult);
   ("SearchMatch", v1.SearchMatch);
   ("GetMoreSearchResultsArgs", v1.GetMoreSearchResultsArgs);
   ("SearchResults", v1.SearchResults);
   ("StopSearchArgs", v1.StopSearchArgs);
   ("ListSearchesArgs", v1.ListSearchesArgs);
   ("SearchSummary", v1.SearchSummary);
   ("ListSessionsArgs", v1.ListSessionsArgs);
   ("ListProcessesArgs", v1.ListProcessesArgs);
   ("KillProcessArgs", v1.KillProcessArgs);
   ("GetConfigArgs", v1.GetConfigArgs)]%string.
