(* ===== verification/ToolJson.v ===== *)
(** * The JSON of the tools: arguments and results

    The structs that executor.go, processmgr, searchmgr and osproc pass through
    encoding/json.  [decoders] is what [decodeArgs] makes of the arguments of
    each tool; [value_json] what [json.Marshal] prints of its result. *)
From S2P Require Import Prelude Crypto GoStrings Text Json Struct.
From S2P Require Import FileOps Executor OsProc ProcessMgr SearchMgr Tools.
Local Open Scope Z_scope.

(** ** Arguments *)

Definition readFile_struct : fields := struct [req "path" TString; opt "offset" TInt64; opt "max_bytes" TInt64].
(** [Path], [Content] and [Encoding] have no tag: their names in JSON are those
    of the fields, and arguments match them up to case. *)
Definition writeFile_struct : fields :=
  struct [req "Path" TString; req "Content" TString; req "Encoding" TString; opt "mode" TUint32].
Definition path_struct : fields := struct [req "path" TString].
Definition createDirectory_struct : fields := struct [req "path" TString; opt "mode" TUint32].
Definition moveFile_struct : fields := struct [req "source" TString; req "destination" TString; opt "overwrite" TBool].
Definition StartRequest_struct : fields :=
  struct [opt "argv" (TSlice TString); opt "command" TString; opt "cwd" TString; opt "env" TStrMap].
Definition readProcess_struct : fields := struct [req "process_id" TString; opt "cursor" TInt64; opt "max_bytes" TInt64].
Definition writeProcess_struct : fields := struct [req "process_id" TString; req "data" TString; opt "encoding" TString].
Definition terminateProcess_struct : fields := struct [req "process_id" TString].
Definition readMultipleFiles_struct : fields := struct [req "paths" (TSlice TString); opt "max_bytes_per_file" TInt64].
Definition editBlock_struct : fields :=
  struct [req "file_path" TString; req "old_string" TString; req "new_string" TString; opt "expected_replacements" TInt64].
Definition startSearch_struct : fields :=
  struct [req "path" TString; req "pattern" TString; opt "search_type" TString; opt "regex" TBool;
          opt "case_sensitive" TBool; opt "include_hidden" TBool; opt "max_results" TInt64; opt "max_file_bytes" TInt64].
Definition getMoreSearch_struct : fields := struct [req "session_id" TString; opt "max_results" TInt64].
Definition stopSearch_struct : fields := struct [req "session_id" TString].
Definition listProcesses_struct : fields := struct [opt "max_results" TInt64].
Definition killProcess_struct : fields := struct [req "pid" TInt64].

Section decoders.
Context (first_json : list byte -> option json).
Context (float64 : string -> option string).

(** [func decodeArgs(raw json.RawMessage, dst any) error] *)
Definition decode_args (fs : fields) (r : raw) : result (govals fs) :=
  match first_json r with
  | None => Err (Foreign "encoding/json")
  | Some v =>
      match decode float64 true (TStruct fs) v with
      | Some x => Ok x
      | None => Err (Foreign "encoding/json")
      end
  end.

Definition decoders : Decoders :=
  mkDecoders
    (fun r => '(path, (offset, (max_bytes, _))) ← decode_args readFile_struct r; Ok (mkReadFileArgs path offset max_bytes))
    (fun r => '(path, (content, (encoding, (mode, _)))) ← decode_args writeFile_struct r;
              Ok (mkWriteFileArgs path content encoding mode))
    (fun r => '(paths, (max, _)) ← decode_args readMultipleFiles_struct r; Ok (mkReadMultipleArgs (default [] paths) max))
    (fun r => '(path, (old, (new, (expected, _)))) ← decode_args editBlock_struct r; Ok (mkEditArgs path old new expected))
    (fun r => '(path, (mode, _)) ← decode_args createDirectory_struct r; Ok (mkCreateDirArgs path mode))
    (fun r => '(source, (destination, (overwrite, _))) ← decode_args moveFile_struct r;
              Ok (mkMoveArgs source destination overwrite))
    (fun r => '(argv, (command, (cwd, (env, _)))) ← decode_args StartRequest_struct r;
              Ok (mkStartRequest (default [] argv) command cwd (default ∅ env)))
    (fun r => '(id, (cursor, (max, _))) ← decode_args readProcess_struct r; Ok (mkReadProcessArgs id cursor max))
    (fun r => '(id, (data, (encoding, _))) ← decode_args writeProcess_struct r; Ok (mkWriteProcessArgs id data encoding))
    (fun r => '(path, (pattern, (kind, (regex, (case_sensitive, (hidden, (results, (bytes, _)))))))) ←
                decode_args startSearch_struct r;
              Ok (mkQuery path pattern kind regex case_sensitive hidden results bytes))
    (fun r => '(id, (max, _)) ← decode_args getMoreSearch_struct r; Ok (mkGetMoreArgs id max))
    (fun r => '(path, _) ← decode_args path_struct r; Ok path)
    (fun r => '(id, _) ← decode_args terminateProcess_struct r; Ok id)
    (fun r => '(id, _) ← decode_args stopSearch_struct r; Ok id)
    (fun r => '(max, _) ← decode_args listProcesses_struct r; Ok max)
    (fun r => '(pid, _) ← decode_args killProcess_struct r; Ok pid).
End decoders.

(** The struct that the handler of a tool decodes; the others ignore their
    arguments. *)
Definition tool_structs : list (string * fields) :=
  [("read_file", readFile_struct); ("write_file", writeFile_struct); ("read_multiple_files", readMultipleFiles_struct);
   ("edit_block", editBlock_struct); ("list_directory", path_struct); ("create_directory", createDirectory_struct);
   ("move_file", moveFile_struct); ("get_file_info", path_struct); ("start_process", StartRequest_struct);
   ("read_process_output", readProcess_struct); ("interact_with_process", writeProcess_struct);
   ("force_terminate", terminateProcess_struct); ("start_search", startSearch_struct);
   ("get_more_search_results", getMoreSearch_struct); ("stop_search", stopSearch_struct);
   ("list_processes", listProcesses_struct); ("kill_process", killProcess_struct)]%string.

(** ** Results *)

Definition int_json (z : Z) : json := JNumber (FormatInt z).
(** A [map[string]any]: its entries in the order of the keys. *)
Definition map_json (l : list (string * json)) : json := JObject (isort entry_le l).
(** [append] to a nil slice: of nothing it is nil, printed as [null]. *)
Definition appended {A} (l : list A) : option (list A) := match l with [] => None | _ => Some l end.

Definition StartResult_type : gotype := TStruct (struct [req "process_id" TString; req "pid" TInt64]).
Definition ReadResult_type : gotype := TStruct (struct
  [req "data" TString; req "next_cursor" TInt64; req "truncated" TBool; req "exited" TBool; opt "exit_code" (TPtr TInt64)]).
Definition SessionSummary_type : gotype := TStruct (struct
  [req "process_id" TString; req "pid" TInt64; req "exited" TBool; opt "exit_code" (TPtr TInt64)]).
Definition Match_type : gotype := TStruct (struct
  [req "path" TString; opt "line" TInt64; opt "column" TInt64; opt "preview" TString; req "kind" TString]).
Definition MoreResult_type : gotype := TStruct (struct
  [req "results" (TSlice Match_type); req "done" TBool; opt "error" TString; req "total_found" TInt64]).
Definition Summary_type : gotype := TStruct (struct
  [req "session_id" TString; req "done" TBool; req "buffered" TInt64; req "returned" TInt64; req "total_found" TInt64]).
Definition Process_type : gotype := TStruct (struct
  [req "pid" TInt64; opt "ppid" TInt64; req "command" TString; opt "args" TString]).

Definition StartResult_val (r : StartResult) : goval StartResult_type := (ProcessID r, (ProcessMgr.PID r, tt)).
Definition ReadResult_val (r : ReadResult) : goval ReadResult_type :=
  (string_of_bytes (Data r), (NextCursor r, (Truncated r, (Exited r, (ExitCode r, tt))))).
Definition SessionSummary_val (s : SessionSummary) : goval SessionSummary_type :=
  (ss_ProcessID s, (ss_PID s, (ss_Exited s, (ss_ExitCode s, tt)))).
Definition Match_val (m : Match) : goval Match_type :=
  (Match_Path m, (Match_Line m, (Match_Column m, (Match_Preview m, (Match_Kind m, tt))))).
Definition MoreResult_val (r : MoreResult) : goval MoreResult_type :=
  (appended (Match_val <$> More_Results r), (More_Done r, (More_Error r, (More_TotalFound r, tt)))).
Definition Summary_val (s : Summary) : goval Summary_type :=
  (Summary_SessionID s, (Summary_Done s, (Summary_Buffered s, (Summary_Returned s, (Summary_TotalFound s, tt))))).
Definition Process_val (p : OsProc.Process) : goval Process_type :=
  (OsProc.PID p, (PPID p, (OsProc.Command p, (OsProc.Args p, tt)))).

Section results.
(** [err.Error()], [mode.String()], and [d.String()] of a duration; what the
    file system says of a file beyond FileSystem.v: the time of its last
    modification and its mode. *)
Context (error_text : error -> string).
Context (Duration_String : Z -> string).
Context (modified : string -> Z) (mode_text : string -> string).

Definition time_json (t : Z) : json := Marshal TTime t.

Definition file_json (f : fileReply) : json :=
  map_json [("path", json_string (fr_path f)); ("encoding", json_string (fr_encoding f));
            ("content", json_string (fr_content f)); ("offset", int_json (fr_offset f));
            ("next_offset", int_json (fr_next_offset f)); ("truncated", JBool (fr_truncated f))]%string.
Definition entry_json (e : fileEntry) : json :=
  match e with
  | EntryError path err => map_json [("path", json_string path); ("error", json_string (error_text err))]%string
  | EntryFile path encoding content truncated =>
      map_json [("path", json_string path); ("truncated", JBool truncated); ("encoding", json_string encoding);
                ("content", json_string content)]%string
  end.
Definition directory_json (dir : string) (e : string * string * Z) : json :=
  let '(name, type, size) := e in
  map_json [("name", json_string name); ("type", json_string type); ("size", int_json size);
            ("modified_at", time_json (modified (dir +:+ "/" +:+ name)))]%string.

Definition written_json (path : string) (n : Z) : json :=
  map_json [("path", json_string path); ("bytes_written", int_json n)]%string.
Definition edited_json (path : string) (count n : Z) : json :=
  map_json [("path", json_string path); ("replacements", int_json count); ("bytes_written", int_json n)]%string.
Definition listing_json (r : listReply) : json :=
  map_json [("path", json_string (lr_path r)); ("entries", JArray (directory_json (lr_path r) <$> lr_entries r));
            ("truncated", JBool (lr_truncated r))]%string.
Definition moved_json (source destination : string) : json :=
  map_json [("source", json_string source); ("destination", json_string destination)]%string.
Definition info_json (r : infoReply) : json :=
  map_json [("path", json_string (ir_path r)); ("name", json_string (ir_name r)); ("size", int_json (ir_size r));
            ("mode", json_string (mode_text (ir_path r))); ("modified_at", time_json (modified (ir_path r)));
            ("is_dir", JBool (ir_is_dir r))]%string.
Definition killed_json (pid : Z) : json := map_json [("pid", int_json pid); ("signal", json_string "terminate")]%string.
(** [func (m *Manager) Config() map[string]any] *)
Definition process_config_json (c : Z * Z * Z * bool) : json :=
  let '(max_procs, max_buffer, max_runtime, shell) := c in
  map_json [("max_processes", int_json max_procs); ("max_buffer_bytes", int_json max_buffer);
            ("max_runtime", json_string (Duration_String max_runtime)); ("shell_enabled", JBool shell)]%string.
Definition config_json (roots : list string) (os arch : string) (process : Z * Z * Z * bool) (kill : bool) : json :=
  map_json [("allowed_directories", JArray (json_string <$> roots));
            ("system_info", map_json [("os", json_string os); ("arch", json_string arch)]);
            ("process", process_config_json process); ("kill_process_enabled", JBool kill);
            ("search", map_json [("max_sessions", int_json 8); ("max_results", int_json 5000)])]%string.

(** What [json.Marshal] prints of the result of a tool; the maps with one
    entry are written here. *)
Definition value_json (v : value) : json :=
  match v with
  | VPing => map_json [("ok", JBool true)]
  | VFile f => file_json f
  | VWritten path n => written_json path n
  | VFiles files => map_json [("files", JArray (entry_json <$> files))]
  | VEdited path count n => edited_json path count n
  | VListing r => listing_json r
  | VDirectory path => map_json [("path", json_string path)]
  | VMoved source destination => moved_json source destination
  | VInfo r => info_json r
  | VStarted r => Marshal StartResult_type (StartResult_val r)
  | VOutput r => Marshal ReadResult_type (ReadResult_val r)
  | VStdin n => map_json [("written", int_json n)]
  | VTerminated => map_json [("terminated", JBool true)]
  | VSessions l => map_json [("sessions", JArray (Marshal SessionSummary_type ∘ SessionSummary_val <$> l))]
  | VSearch id => map_json [("session_id", json_string id)]
  | VMatches r => Marshal MoreResult_type (MoreResult_val r)
  | VStopped => map_json [("stopped", JBool true)]
  | VSearches l => map_json [("searches", JArray (Marshal Summary_type ∘ Summary_val <$> l))]
  | VProcesses l => map_json [("processes", Marshal (TSlice Process_type) (appended (Process_val <$> l)))]
  | VKilled pid => killed_json pid
  | VConfig roots (os, arch) process kill => config_json roots os arch process kill
  end%string.
End results.
