(* ===== verification/Schema.v ===== *)
(** * The input schemas of the tools

    What a JSON schema of the table of tools says about a value, after the
    JSON Schema documents that MCP refers to: the keywords that mcpserver
    uses.  Clients check arguments with it; the server does not.  Then the
    table is compared with the structs that the agent decodes. *)
From S2P Require Import Prelude Crypto GoStrings Text Json Struct.
From S2P Require Import Http Authn Protocol Store RelayHub Effects Mcp.
Local Open Scope Z_scope.

Section schema.
Context (float64 : string -> option string).

(** The 64-bit integer that a numeral stands for once it went through a
    [float64]; integers outside this range count as not valid. *)
Definition int_of (text : string) : option Z := t ← float64 text; parse_int true 64 t.

Definition keyword (k : string) (kws : list (string * json)) : option json :=
  (list_to_map kws : gmap string json) !! k.
Definition type_is (name : string) (kws : list (string * json)) : bool :=
  match keyword "type" kws with Some (JString s) => bool_decide (s = name) | _ => false end.

Definition has_type (name : string) (v : json) : bool :=
  match v with
  | JString _ => bool_decide (name = "string"%string)
  | JBool _ => bool_decide (name = "boolean"%string)
  | JNumber t => bool_decide (name = "integer"%string) && bool_decide (is_Some (int_of t))
  | JArray _ => bool_decide (name = "array"%string)
  | JObject _ => bool_decide (name = "object"%string)
  | JNull => false
  end.

Definition limit_ok (le : Z -> Z -> bool) (limit : option json) (n : Z) : bool :=
  match limit with
  | Some (JNumber t) => match ParseInt t with Ok z => le z n | Err _ => true end
  | _ => true
  end.
Definition size_ok (kws : list (string * json)) (n : Z) : bool :=
  limit_ok Z.leb (keyword "minItems" kws) n && limit_ok Z.geb (keyword "maxItems" kws) n.

Definition properties (kws : list (string * json)) : list (string * json) :=
  match keyword "properties" kws with Some (JObject ps) => ps | _ => [] end.
Definition required_ok (kws kvs : list (string * json)) : bool :=
  match keyword "required" kws with
  | Some (JArray l) => forallb (fun r => match r with JString k => bool_decide (k ∈ kvs.*1) | _ => true end) l
  | _ => true
  end.

(** [depth] bounds how deep the schema is looked into. *)
Fixpoint accepts (depth : nat) (schema v : json) : bool :=
  match depth, schema with
  | O, _ => false
  | S depth, JObject kws =>
      match keyword "type" kws with Some (JString name) => has_type name v | _ => true end &&
      match v with
      | JArray l =>
          size_ok kws (len l) &&
          match keyword "items" kws with Some s => forallb (accepts depth s) l | None => true end
      | JObject kvs =>
          required_ok kws kvs &&
          forallb (fun kv =>
            match keyword kv.1 (properties kws), keyword "additionalProperties" kws with
            | Some s, _ => accepts depth s kv.2
            | None, Some (JBool b) => b
            | None, Some s => accepts depth s kv.2
            | None, None => true
            end) kvs
      | _ => true
      end
  | S _, _ => true
  end.

(** ** A schema for a Go type *)

Definition strings_schema (s : option json) : bool :=
  match s with Some (JObject kws) => type_is "string" kws | _ => false end.
Definition fits (s : json) (t : gotype) : bool :=
  match s with
  | JObject kws =>
      match t with
      | TString => type_is "string" kws
      | TBool => type_is "boolean" kws
      | TInt _ _ => type_is "integer" kws
      | TSlice TString => type_is "array" kws && strings_schema (keyword "items" kws)
      | TStrMap => type_is "object" kws && bool_decide (properties kws = []) &&
          strings_schema (keyword "additionalProperties" kws) &&
          match keyword "required" kws with None => true | _ => false end
      | _ => false
      end
  | _ => false
  end.

(** The value of a type that a client gave as JSON. *)
Definition given_string (x : json) : option string := match x with JString s => Some s | _ => None end.
Fixpoint given (t : gotype) : json -> option (goval t) :=
  match t return json -> option (goval t) with
  | TString => given_string
  | TBool => fun x => match x with JBool b => Some b | _ => None end
  | TInt signed bits => fun x =>
      match x with JNumber text => t ← float64 text; parse_int signed bits t | _ => None end
  | TSlice t => fun x => match x with JArray l => Some <$> mapM (given t) l | _ => None end
  | TStrMap => fun x =>
      match x with
      | JObject kvs => l ← mapM (fun kv => s ← given_string kv.2; Some (kv.1, s)) kvs;
                       Some (Some (list_to_map (reverse l)))
      | _ => None
      end
  | _ => fun _ => None
  end.
(** A struct from arguments with the keys [ks]. *)
Fixpoint given_by (ks : list string) (fs : fields) (m : gmap string json) : option (govals fs) :=
  match fs return option (govals fs) with
  | FNil => Some tt
  | FCons _ _ t fs =>
      v ← match head ks ≫= (m !!.) with Some x => given t x | None => Some (zero t) end;
      r ← given_by (tail ks) fs m;
      Some (v, r)
  end.

(** *** What is given is decoded by the agent, after the server *)

Lemma accepts_string d s x : strings_schema (Some s) = true -> accepts d s x = true -> exists v, x = JString v.
Proof.
  destruct d as [|d], s as [| | | | |kws]; try done. cbn [strings_schema accepts]. unfold type_is.
  destruct (keyword "type" kws) as [[| | |name| |]|]; try done. intros H%bool_decide_eq_true_1 [Ht _]%andb_true_iff. subst.
  destruct x; try done. by eexists.
Qed.

Lemma all_strings d s l :
  strings_schema (Some s) = true -> forallb (accepts d s) l = true -> exists l', l = JString <$> l'.
Proof.
  intros Hs. induction l as [|x l IH]; [by exists []|]. cbn [forallb]. intros [Hx Hl]%andb_true_iff.
  destruct (accepts_string d s x Hs Hx) as [v ->]. destruct (IH Hl) as [l' ->]. by exists (v :: l').
Qed.

Definition entries (l : list (string * string)) : list (string * json) := (fun kv => (kv.1, JString kv.2)) <$> l.

Lemma to_any_strings l : to_any float64 (JArray (JString <$> l)) = Some (JArray (JString <$> l)).
Proof. cbn. induction l as [|s l IH]; [done|]. cbn in *. destruct (_ (JString <$> l)); [|done]. injection IH as ->. done. Qed.

Definition dedup (l : list (string * string)) : list (string * string) := foldl (fun acc kv => set_key kv.1 kv.2 acc) [] l.
Lemma set_key_entries k v l : set_key k (JString v) (entries l) = entries (set_key k v l).
Proof.
  unfold set_key, entries. rewrite fmap_app. f_equal. induction l as [|kv l IH]; [done|]. cbn [fmap list_fmap].
  destruct (decide (kv.1 = k)); [by rewrite !filter_cons_False by (cbn; tauto)|by rewrite !filter_cons_True, IH by done].
Qed.
Lemma to_any_entries l : to_any float64 (JObject (entries l)) = Some (JObject (entries (dedup l))).
Proof.
  unfold dedup. cbn.
  match goal with |- context [?go (entries l) []] =>
    assert (forall acc, go (entries l) (entries acc) = Some (entries (foldl (fun acc kv => set_key kv.1 kv.2 acc) acc l))) as H end.
  { induction l as [|[k v] l IH]; intros acc; [done|]. cbn. by rewrite set_key_entries, IH. }
  specialize (H []). change (entries []) with (@nil (string * json)) in H. by rewrite H.
Qed.

Lemma dedup_map l : (list_to_map (reverse (dedup l)) : gmap string string) = list_to_map (reverse l).
Proof.
  unfold dedup. induction l as [|[k v] l IH] using rev_ind; [done|].
  rewrite foldl_app. cbn [foldl fst snd]. unfold set_key at 1. rewrite !reverse_snoc. cbn [list_to_map foldr fst snd].
  rewrite <- IH. generalize (foldl (fun acc kv => set_key kv.1 kv.2 acc) [] l) as acc. intros acc.
  apply map_eq. intros j. destruct (decide (j = k)) as [->|Hj]; [by rewrite !lookup_insert_eq|].
  rewrite !lookup_insert_ne by done. induction acc as [|[k' v'] acc IHa] using rev_ind; [done|].
  rewrite filter_app, !reverse_app, filter_cons. cbn [filter list_filter].
  case_decide as E; cbn [reverse rev_append app list_to_map foldr fst snd].
  - destruct (decide (j = k')) as [->|]; [by rewrite !lookup_insert_eq|by rewrite !lookup_insert_ne].
  - cbn in E. rewrite IHa. by rewrite lookup_insert_ne by congruence.
Qed.

Lemma decode_entries l :
  decode float64 true TStrMap (JObject (entries l)) = Some (Some (list_to_map (reverse l))).
Proof. unfold decode. cbn. unfold entries. by rewrite foldl_entries. Qed.

Lemma given_strings l : given (TSlice TString) (JArray (JString <$> l)) = Some (Some l).
Proof.
  cbn [given]. assert (mapM given_string (JString <$> l) = Some l) as ->; [|done].
  apply mapM_Some, Forall2_fmap_l, Forall_Forall2_diag, Forall_forall. done.
Qed.
Lemma given_entries l : given TStrMap (JObject (entries l)) = Some (Some (list_to_map (reverse l))).
Proof.
  cbn [given]. assert (mapM (fun kv : string * json => s ← given_string kv.2; Some (kv.1, s)) (entries l) = Some l) as ->; [|done].
  apply mapM_Some, Forall2_fmap_l, Forall_Forall2_diag, Forall_forall. by intros [].
Qed.
Lemma decode_strings l : decode float64 true (TSlice TString) (JArray (JString <$> l)) = Some (Some l).
Proof.
  unfold decode. cbn. replace ((fun x : json => decode_string x EmptyString) <$> (JString <$> l))
    with ((fun s : string => (s, true)) <$> l) by (by rewrite <- list_fmap_compose).
  rewrite <- list_fmap_compose. replace (forallb snd _) with true; [cbn; by rewrite list_fmap_id|].
  symmetry. apply forallb_forall. by intros x (v & <- & _)%in_map_iff.
Qed.

Lemma entries_of kvs d s :
  strings_schema (Some s) = true -> forallb (fun kv => accepts d s kv.2) kvs = true -> exists l, kvs = entries l.
Proof.
  intros Hs. induction kvs as [|[k x] kvs IH]; [by exists []|]. cbn [forallb snd]. intros [Hx H]%andb_true_iff.
  destruct (accepts_string d s x Hs Hx) as [v ->]. destruct (IH H) as [l ->]. by exists ((k, v) :: l).
Qed.

(** A value of the schema of a type reaches a variable of that type. *)
Lemma fits_decodes d s t x :
  fits s t = true -> accepts d s x = true -> (t = TUint32 -> is_Some (given t x)) ->
  (forall signed bits, t = TInt signed bits -> t = TInt64 \/ t = TUint32) ->
  exists y v, to_any float64 x = Some y /\ given t x = Some v /\ decode float64 true t y = Some v.
Proof.
  destruct d as [|d], s as [| | | | |kws]; try done. cbn [fits accepts].
  destruct t as [| |signed bits|t| | | | | |]; try done; unfold type_is.
  - destruct (keyword "type" kws) as [[| | |name| |]|]; try done. intros ->%bool_decide_eq_true_1 [H _]%andb_true_iff _ _.
    destruct x; try done. by eexists _, _.
  - destruct (keyword "type" kws) as [[| | |name| |]|]; try done. intros ->%bool_decide_eq_true_1 [H _]%andb_true_iff _ _.
    destruct x; try done. by eexists _, _.
  - destruct (keyword "type" kws) as [[| | |name| |]|]; try done. intros ->%bool_decide_eq_true_1 [H _]%andb_true_iff Hu Hw.
    destruct x as [| |text| | |]; try done. cbn [has_type] in H. apply andb_true_iff in H as [_ H%bool_decide_eq_true_1].
    assert (is_Some (given (TInt signed bits) (JNumber text))) as [v Hv].
    { destruct (Hw signed bits eq_refl) as [E|E]; [|by apply Hu]. injection E as -> ->. exact H. }
    cbn in Hv. destruct (float64 text) as [t|] eqn:Et; [|done]. cbn in Hv.
    exists (JNumber t), v. cbn. rewrite Et. cbn. split_and!; [done|done|]. unfold decode. cbn. by rewrite Hv.
  - destruct t; try done. intros [Ht Hi]%andb_true_iff [H Ha]%andb_true_iff _ _.
    destruct (keyword "type" kws) as [[| | |name| |]|]; try done. apply bool_decide_eq_true_1 in Ht as ->.
    destruct x as [| | | |l|]; try done. apply andb_true_iff in Ha as [_ Ha].
    destruct (keyword "items" kws) as [s|]; [|done]. destruct (all_strings d s l Hi Ha) as [l' ->].
    eexists _, _. split; [apply to_any_strings|]. split; [apply given_strings|apply decode_strings].
  - intros [[[Ht Hp]%andb_true_iff Hi]%andb_true_iff _]%andb_true_iff [H Ha]%andb_true_iff _ _.
    destruct (keyword "type" kws) as [[| | |name| |]|]; try done. apply bool_decide_eq_true_1 in Ht as ->.
    destruct x as [| | | | |kvs]; try done. apply andb_true_iff in Ha as [_ Ha].
    apply bool_decide_eq_true_1 in Hp. rewrite Hp in Ha.
    destruct (keyword "additionalProperties" kws) as [s|]; [|done].
    destruct (entries_of kvs d s Hi) as [l ->]. { by destruct s as [| | | | |]. }
    eexists _, _. split; [apply to_any_entries|]. split; [apply given_entries|]. by rewrite decode_entries, dedup_map.
Qed.
End schema.
