(* ===== verification/SchemaProps.v ===== *)
(** * The schemas of the server against the structs of the agent *)
From S2P Require Import Prelude Crypto GoStrings Text Json Struct ApiTypes.
From S2P Require Import Http Authn Protocol Store RelayHub Effects Mcp Schema Tools ToolJson.
Local Open Scope Z_scope.

(** ** Comparing a schema with a struct *)

(** The properties in the order of the fields: under the same name up to case,
    and of a schema for the type of the field.  The only unsigned number is
    [mode]. *)
Definition lowered (s : string) : list byte := lower_byte <$> bytes_of_string s.
Definition wide (k : string) (t : gotype) : bool :=
  match t with
  | TInt true bits => bool_decide (bits = 64)
  | TInt false bits => bool_decide (bits = 32) && bool_decide (k = "mode"%string)
  | _ => true
  end.
Fixpoint describes (ps : list (string * json)) (fs : fields) : bool :=
  match ps, fs with
  | [], FNil => true
  | (k, s) :: ps, FCons n _ t fs => bool_decide (lowered k = lowered n) && fits s t && wide k t && describes ps fs
  | _, _ => false
  end.

Definition keywords (schema : json) : list (string * json) := match schema with JObject kws => kws | _ => [] end.
(** The names of the arguments behind [device_id]. *)
Definition argument_names (schema : json) : list string := tail (properties (keywords schema)).*1.

Definition resolves (fs : fields) (ks : list string) : bool :=
  bool_decide ((resolve fs <$> ks) = (Some <$> names fs)).
Definition described (schema : json) (fs : fields) : bool :=
  let kws := keywords schema in
  match properties kws with
  | (d, s) :: ps =>
      bool_decide (d = "device_id"%string) && fits s TString && describes ps fs
      && bool_decide (NoDup (d :: ps.*1)) && bool_decide (NoDup (names fs)) && resolves fs ps.*1
      && match keyword "additionalProperties" kws with Some (JBool false) => true | _ => false end
      && match keyword "required" kws with Some (JArray (JString r :: _)) => bool_decide (r = d) | _ => false end
  | [] => false
  end.

Lemma schemas_described :
  forallb (fun spec => forallb (fun tf =>
    implb (bool_decide (tf.1 = ts_name spec)) (described (ts_inputSchema spec) tf.2)) tool_structs) toolSpecs = true.
Proof. vm_compute. reflexivity. Qed.

Section decode.
Context (float64 : string -> option string).
Context (first_json : list byte -> option json).

(** What [described] says, with the parts of the schema named. *)
Lemma described_parts schema fs :
  described schema fs = true ->
  exists kws s ps rs, schema = JObject kws /\ properties kws = ("device_id"%string, s) :: ps /\
    argument_names schema = ps.*1 /\ fits s TString = true /\ describes ps fs = true /\
    NoDup ("device_id"%string :: ps.*1) /\ NoDup (names fs) /\ Forall2 (fun k n => resolve fs k = Some n) ps.*1 (names fs) /\
    keyword "additionalProperties" kws = Some (JBool false) /\
    keyword "required" kws = Some (JArray (JString "device_id" :: rs)).
Proof.
  unfold described, argument_names. destruct schema as [| | | | |kws]; try done. cbn [keywords].
  destruct (properties kws) as [|[d s] ps] eqn:Eps; [done|]. intros H.
  apply andb_true_iff in H as [H Hr]. apply andb_true_iff in H as [H Ha]. apply andb_true_iff in H as [H Hres].
  apply andb_true_iff in H as [H Hn]. apply andb_true_iff in H as [H Hd]. apply andb_true_iff in H as [[Hdev Hs]%andb_true_iff Hps].
  apply bool_decide_eq_true_1 in Hdev, Hd, Hn, Hres. subst d.
  destruct (keyword "additionalProperties" kws) as [[|[]| | | |]|] eqn:Ea; try done.
  destruct (keyword "required" kws) as [[| | | |[|[| | |r| |] rs]|]|] eqn:Er; try done. apply bool_decide_eq_true_1 in Hr. subst r.
  exists kws, s, ps, rs. split_and!; try done.
  cbn [fmap list_fmap tail fst] in *. revert Hres. generalize (names fs) as ns. clear. induction ps.*1 as [|k ks IH]; intros ns Hres.
  - destruct ns; [constructor|done].
  - destruct ns as [|n ns]; [done|]. cbn in Hres. injection Hres as ? Hres. constructor; [done|by apply IH].
Qed.

Lemma fold_strip_lowered c c' l : lower_byte c = lower_byte c' -> fold_strip c l = fold_strip c' l.
Proof. intros H. unfold fold_strip. by rewrite H. Qed.
Lemma EqualFold_lowered s k n : lowered k = lowered n -> EqualFold s k = EqualFold s n.
Proof.
  unfold lowered, EqualFold. generalize (bytes_of_string s), (bytes_of_string k), (bytes_of_string n).
  intros l t t'. revert l t'. induction t as [|c t IH]; intros l [|c' t'] H; try done. injection H as Hc H.
  cbn [fold_equal]. rewrite (fold_strip_lowered c c') by done. destruct (fold_strip c' l); [|done]. by apply IH.
Qed.
Lemma EqualFold_refl s : EqualFold s s = true.
Proof.
  unfold EqualFold. induction (bytes_of_string s) as [|c l IH]; [done|]. cbn [fold_equal fold_strip].
  by rewrite decide_True.
Qed.

(** A value of a property, given and sent. *)
Lemma argument_decodes d s t k x :
  fits s t = true -> wide k t = true -> accepts float64 d s x = true ->
  (k = "mode"%string -> is_Some (given float64 TUint32 x)) ->
  exists y v, to_any float64 x = Some y /\ given float64 t x = Some v /\ decode float64 true t y = Some v.
Proof.
  intros Hfit Hw Hacc Hmode. apply (fits_decodes float64 d s t x Hfit Hacc).
  - intros ->. apply Hmode. cbn in Hw. by apply bool_decide_eq_true_1 in Hw.
  - intros signed bits ->. destruct signed; cbn [wide] in Hw; [left|right]; [|apply andb_true_iff in Hw as [Hw _]];
      apply bool_decide_eq_true_1 in Hw; by subst.
Qed.

(** The arguments one by one: as given by the client, and as the agent reads
    what the server sends. *)
Lemma arguments_decode d ps fs (m payload : gmap string json) :
  describes ps fs = true ->
  (forall k s x, (k, s) ∈ ps -> m !! k = Some x -> accepts float64 d s x = true) ->
  (forall x, m !! "mode"%string = Some x -> is_Some (given float64 TUint32 x)) ->
  (forall k, k ∈ ps.*1 -> payload !! k = m !! k ≫= to_any float64) ->
  exists vs, given_by float64 ps.*1 fs m = Some vs /\ read_by float64 true ps.*1 fs payload = Some vs.
Proof.
  revert fs. induction ps as [|[k s] ps IH]; intros fs Hd Hacc Hmode Hpay; destruct fs as [|n om t fs]; try done.
  { by exists tt. }
  cbn [describes] in Hd. apply andb_true_iff in Hd as [[[_ Hfit]%andb_true_iff Hw]%andb_true_iff Hd].
  destruct (IH fs Hd) as (vs & Hg & Hr).
  { intros k' s' x Hin. apply Hacc. by right. } { done. } { intros k' Hin. apply Hpay. by right. }
  cbn [fmap list_fmap fst given_by read_by head tail mbind option_bind]. rewrite Hg, Hr, Hpay by left.
  destruct (m !! k) as [x|] eqn:Hx; [|by eexists].
  destruct (argument_decodes d s t k x Hfit Hw) as (y & v & Ey & Ev & Edec).
  - apply (Hacc k s x); [left|done].
  - intros ->. by apply Hmode.
  - cbn [mbind option_bind]. rewrite Ey, Ev, Edec. by eexists.
Qed.

Lemma payload_of_Some m payload :
  payload_of float64 m = Some payload -> forall k, payload !! k = m !! k ≫= to_any float64.
Proof. unfold payload_of. destruct (forallb _ _); [|done]. intros [= <-] k. by rewrite lookup_omap. Qed.
Lemma payload_of_ok m :
  (forall k x, m !! k = Some x -> is_Some (to_any float64 x)) -> is_Some (payload_of float64 m).
Proof.
  intros H. unfold payload_of. replace (forallb _ _) with true; [done|]. symmetry. apply forallb_forall.
  intros [k x] Hin%list_elem_of_In%elem_of_map_to_list. apply bool_decide_eq_true_2. by eapply H.
Qed.

(** An accepted object: each entry belongs to a property and is of its
    schema, and [device_id] is there. *)
Lemma accepts_object d kws s ps rs args :
  properties kws = ("device_id"%string, s) :: ps -> NoDup ("device_id"%string :: ps.*1) ->
  keyword "additionalProperties" kws = Some (JBool false) ->
  keyword "required" kws = Some (JArray (JString "device_id" :: rs)) ->
  accepts float64 (S d) (JObject kws) (JObject args) = true ->
  "device_id"%string ∈ args.*1 /\
  forall k x, (k, x) ∈ args -> exists s', (k, s') ∈ ("device_id"%string, s) :: ps /\ accepts float64 d s' x = true.
Proof.
  intros Hp Hn Ha Hr. cbn [accepts]. intros [_ [Hreq Hall]%andb_true_iff]%andb_true_iff. split.
  - unfold required_ok in Hreq. rewrite Hr in Hreq. cbn [forallb] in Hreq. apply andb_true_iff in Hreq as [H _].
    by apply bool_decide_eq_true_1 in H.
  - intros k x Hin. rewrite forallb_forall in Hall. apply list_elem_of_In, Hall in Hin. cbn [fst snd] in Hin.
    rewrite Ha in Hin. destruct (keyword k (properties kws)) as [s'|] eqn:Ek; [|done]. exists s'. split; [|done].
    unfold keyword in Ek. rewrite Hp in Ek. by apply elem_of_list_to_map_2 in Ek.
Qed.

Lemma unknown_argument key ps fs :
  describes ps fs = true -> (forall k, k ∈ ps.*1 -> EqualFold key k = false) -> resolve fs key = None.
Proof.
  intros Hd Hk. assert (forall n, n ∈ names fs -> EqualFold key n = false) as H.
  { revert fs Hd. induction ps as [|[k s] ps IH]; intros [|n om t fs] Hd; try done.
    cbn [describes] in Hd. apply andb_true_iff in Hd as [[[Hl%bool_decide_eq_true_1 _]%andb_true_iff _]%andb_true_iff Hd].
    intros n' [->|Hin]%elem_of_cons.
    - rewrite <- (EqualFold_lowered key k n Hl). apply Hk. left.
    - apply (IH (fun k' H => Hk k' (list_elem_of_further _ _ _ H)) fs Hd n' Hin). }
  unfold resolve, exact. rewrite bool_decide_false.
  - clear -H. induction fs as [|n om t fs IH]; [done|]. cbn. rewrite H by left. apply IH. intros n' ?. apply H. by right.
  - intros Hin. specialize (H key Hin). by rewrite EqualFold_refl in H.
Qed.

Lemma describes_elem ps fs k s :
  describes ps fs = true -> (k, s) ∈ ps -> exists t, fits s t = true /\ wide k t = true.
Proof.
  revert fs. induction ps as [|[k' s'] ps IH]; intros [|n om t fs] Hd; try done; try by intros ?%not_elem_of_nil.
  cbn [describes] in Hd. apply andb_true_iff in Hd as [[[_ Hfit]%andb_true_iff Hw]%andb_true_iff Hd].
  intros [[= -> ->]|Hin]%elem_of_cons; [by exists t|by apply (IH fs)].
Qed.

End decode.
