(* ===== verification/ApiProps.v ===== *)
(** * The types of pkg/api/v1 against the tools

    Every type is read back as it was printed; the argument types fit the
    input schemas of the tools; the results of the tools are values of the
    result types. *)
From S2P Require Import Prelude Crypto GoStrings Text Json GoTime Struct ApiTypes.
From S2P Require Import Executor OsProc ProcessMgr SearchMgr Tools ToolJson.
From S2P Require Import Http Authn Protocol Store RelayHub Effects Mcp Schema SchemaProps.
Local Open Scope Z_scope.

Lemma v1_distinct : forallb (fun nt => distinct nt.2) v1_types = true.
Proof. vm_compute. reflexivity. Qed.

(** Every type of the API is read back as it was printed, whether unknown
    fields are allowed or not. *)
Theorem v1_types_roundtrip float64 strict name t (v : goval t) :
  (name, t) ∈ v1_types -> good float64 t v -> decode float64 strict t (Marshal t v) = Some v.
Proof.
  intros Hin Hv. apply decode_Marshal; [|done]. pose proof v1_distinct as H. rewrite forallb_forall in H.
  by apply list_elem_of_In, H in Hin.
Qed.

(** ** Arguments *)

(** The argument type of each tool. *)
Definition v1_args : list (string * gotype) :=
  [("list_devices", v1.ListDevicesArgs); ("ping", v1.DeviceArgs); ("read_file", v1.ReadFileArgs);
   ("write_file", v1.WriteFileArgs); ("list_directory", v1.PathArgs); ("create_directory", v1.CreateDirectoryArgs);
   ("move_file", v1.MoveFileArgs); ("get_file_info", v1.PathArgs); ("start_process", v1.StartProcessArgs);
   ("read_process_output", v1.ReadProcessOutputArgs); ("interact_with_process", v1.InteractWithProcessArgs);
   ("force_terminate", v1.ForceTerminateArgs); ("read_multiple_files", v1.ReadMultipleFilesArgs);
   ("edit_block", v1.EditBlockArgs); ("list_sessions", v1.ListSessionsArgs); ("start_search", v1.StartSearchArgs);
   ("get_more_search_results", v1.GetMoreSearchResultsArgs); ("stop_search", v1.StopSearchArgs);
   ("list_searches", v1.ListSearchesArgs); ("list_processes", v1.ListProcessesArgs);
   ("kill_process", v1.KillProcessArgs); ("get_config", v1.GetConfigArgs)]%string.

Definition struct_fields (t : gotype) : fields := match t with TStruct fs => fs | _ => FNil end.
Fixpoint optional (fs : fields) : list string :=
  match fs with FNil => [] | FCons n om _ fs => (if om then [n] else []) ++ optional fs end.

(** Each field is a property of a schema for its type, only [paths] has a
    bounded length, and the required properties are fields that are always
    printed. *)
Definition unlimited (s : json) : bool :=
  match s with JObject kws => match keyword "minItems" kws, keyword "maxItems" kws with None, None => true | _, _ => false end | _ => true end.
Definition one_to_32 (s : json) : bool :=
  match s with
  | JObject kws => match keyword "minItems" kws, keyword "maxItems" kws with
      | Some (JNumber a), Some (JNumber b) => bool_decide (a = "1"%string) && bool_decide (b = "32"%string)
      | _, _ => false
      end
  | _ => false
  end.
Fixpoint suits (ps : gmap string json) (fs : fields) : bool :=
  match fs with
  | FNil => true
  | FCons n _ t fs =>
      match ps !! n with
      | Some s => fits s t && (unlimited s || (bool_decide (n = "paths"%string) && one_to_32 s)) && suits ps fs
      | None => false
      end
  end.
Definition suited (schema : json) (fs : fields) : bool :=
  let kws := keywords schema in
  type_is "object" kws && suits (list_to_map (properties kws)) fs &&
  match keyword "required" kws with
  | Some (JArray l) => forallb (fun r => match r with
      | JString k => bool_decide (k ∈ names fs) && negb (bool_decide (k ∈ optional fs)) | _ => true end) l
  | _ => true
  end.

Lemma v1_suited :
  forallb (fun spec => forallb (fun a =>
    implb (bool_decide (a.1 = ts_name spec)) (suited (ts_inputSchema spec) (struct_fields a.2))) v1_args) toolSpecs = true.
Proof. vm_compute. reflexivity. Qed.

Section arguments.
Context (float64 : string -> option string).

(** Values that are printed as JSON a schema can describe: integers that a
    [float64] holds exactly, and no nil slice or map. *)
Definition sendable (t : gotype) : goval t -> Prop :=
  match t return goval t -> Prop with
  | TString | TBool => fun _ => True
  | TInt _ _ => fun z => int64_ok z /\ float64 (FormatInt z) = Some (FormatInt z)
  | TSlice _ => fun l => l <> None
  | TStrMap => fun m => m <> None
  | _ => fun _ => False
  end.
Fixpoint sendable_fields (fs : fields) : govals fs -> Prop :=
  match fs return govals fs -> Prop with
  | FNil => fun _ => True
  | FCons _ om t fs => fun vs => (om && is_empty t vs.1 = true \/ sendable t vs.1) /\ sendable_fields fs vs.2
  end.

Lemma type_is_keyword name kws : type_is name kws = true -> keyword "type" kws = Some (JString name).
Proof. unfold type_is. destruct (keyword _ _) as [[]|]; try done. by intros ->%bool_decide_eq_true_1. Qed.

Lemma strings_accepted d s l : strings_schema (Some s) = true -> forallb (accepts float64 (S d) s) (JString <$> l) = true.
Proof.
  destruct s as [| | | | |kws]; try done. cbn [strings_schema]. intros H%type_is_keyword.
  apply forallb_forall. intros x (v & <- & _)%in_map_iff. cbn. by rewrite H.
Qed.

Lemma int_of_FormatInt z : int64_ok z -> float64 (FormatInt z) = Some (FormatInt z) -> int_of float64 (FormatInt z) = Some z.
Proof.
  intros H E. unfold int_of. rewrite E. cbn. unfold parse_int. rewrite ParseInt_FormatInt by done.
  unfold int64_ok in H. replace (int_ok true 64 z) with true; [done|]. symmetry. unfold int_ok.
  apply andb_true_iff. split; [apply Z.leb_le|apply Z.ltb_lt]; change (64 - 1) with 63; lia.
Qed.

Definition few (x : json) : Prop := match x with JArray l => 1 <= len l <= 32 | _ => True end.
Lemma size_accepted {A} s kws (l : list A) :
  s = JObject kws -> unlimited s = true \/ one_to_32 s = true /\ 1 <= len l <= 32 -> size_ok kws (len l) = true.
Proof.
  intros -> [H|[H Hl]]; cbn in H; unfold size_ok.
  - by destruct (keyword "minItems" kws), (keyword "maxItems" kws).
  - destruct (keyword "minItems" kws) as [[| |a| | |]|]; try done.
    destruct (keyword "maxItems" kws) as [[| |b| | |]|]; try done.
    apply andb_true_iff in H as [->%bool_decide_eq_true_1 ->%bool_decide_eq_true_1]. cbn [limit_ok].
    assert (ParseInt "1" = Ok 1 /\ ParseInt "32" = Ok 32) as [-> ->] by (split; vm_compute; reflexivity).
    apply andb_true_iff. split; [apply Z.leb_le|apply Z.geb_le]; lia.
Qed.

Lemma fits_Marshal d s t (v : goval t) :
  fits s t = true -> sendable t v -> unlimited s = true \/ one_to_32 s = true /\ few (Marshal t v) ->
  accepts float64 (S (S d)) s (Marshal t v) = true.
Proof.
  destruct s as [| | | | |kws]; try done. intros Hfit Hv Hsize. cbn [fits] in Hfit.
  destruct t as [| |signed bits|t| | | | | |]; try done.
  - apply type_is_keyword in Hfit. cbn. by rewrite Hfit.
  - apply type_is_keyword in Hfit. cbn. by rewrite Hfit.
  - apply type_is_keyword in Hfit. destruct Hv as [Hz Hf]. cbn [accepts Marshal]. rewrite Hfit. cbn [has_type].
    by rewrite (int_of_FormatInt v Hz Hf).
  - destruct t; try done. apply andb_true_iff in Hfit as [Ht Hi]. apply type_is_keyword in Ht.
    destruct v as [l|]; [|done].
    assert (Marshal (TSlice TString) (Some l) = JArray (JString <$> (json_text <$> l))) as E
      by (cbn; by rewrite <- list_fmap_compose).
    rewrite E in *. cbn [few] in Hsize.
    cbn [accepts]. rewrite Ht, (size_accepted (JObject kws) kws _ eq_refl Hsize).
    destruct (keyword "items" kws) as [s|]; [|done]. cbn [has_type andb]. by apply strings_accepted.
  - apply andb_true_iff in Hfit as [[[Ht Hp%bool_decide_eq_true_1]%andb_true_iff Hi]%andb_true_iff Hr]. apply type_is_keyword in Ht.
    destruct v as [m|]; [|done]. cbn [Marshal accepts]. rewrite Ht, Hp. cbn [has_type andb]. unfold required_ok.
    destruct (keyword "required" kws); [done|]. cbn [andb]. apply forallb_forall.
    intros kv ((k & v) & <- & _)%in_map_iff. cbn [fst snd].
    destruct (keyword "additionalProperties" kws) as [s|]; [|done].
    assert (keyword (json_text k) [] = None) as -> by done.
    pose proof (strings_accepted d s [json_text v] Hi) as H. cbn [fmap list_fmap forallb] in H.
    rewrite andb_true_r in H. unfold json_string. by destruct s.
Qed.

Lemma suits_Marshal d ps fs vs :
  suits ps fs = true -> sendable_fields fs vs -> (forall x, ("paths"%string, x) ∈ Marshal_fields fs vs -> few x) ->
  forall k x, (k, x) ∈ Marshal_fields fs vs -> exists s, ps !! k = Some s /\ accepts float64 (S (S d)) s x = true.
Proof.
  induction fs as [|n om t fs IH]; [by intros _ _ _ k x ?%not_elem_of_nil|]. destruct vs as [v r].
  cbn [suits sendable_fields fst snd]. destruct (ps !! n) as [s|] eqn:Es; [|done].
  intros [[Hfit Hlim]%andb_true_iff Hs]%andb_true_iff [Hv Hr] Hfew k x.
  assert (Marshal_fields (FCons n om t fs) (v, r) =
    (if om && is_empty t v then [] else [(n, Marshal t v)]) ++ Marshal_fields fs r) as E by reflexivity.
  rewrite E in *. intros [Hin|Hin]%elem_of_app.
  - destruct (om && is_empty t v); [by apply not_elem_of_nil in Hin|]. apply list_elem_of_singleton in Hin as [= -> ->].
    exists s. split; [done|]. destruct Hv as [?|Hv]; [done|]. apply fits_Marshal; [done..|].
    apply orb_true_iff in Hlim as [?|[->%bool_decide_eq_true_1 ?]%andb_true_iff]; [by left|right].
    split; [done|]. apply Hfew. left.
  - apply (IH r); [done..| |done]. intros y Hy. apply Hfew. apply elem_of_app. by right.
Qed.

Lemma Marshal_fields_required fs vs k :
  k ∈ names fs -> k ∉ optional fs -> k ∈ (Marshal_fields fs vs).*1.
Proof.
  induction fs as [|n om t fs IH]; [done|]. destruct vs as [v r]. cbn [names optional].
  assert (Marshal_fields (FCons n om t fs) (v, r) =
    (if om && is_empty t v then [] else [(n, Marshal t v)]) ++ Marshal_fields fs r) as -> by reflexivity.
  rewrite fmap_app. intros [->|Hk]%elem_of_cons Ho; apply elem_of_app.
  - left. destruct om; [|by left]. exfalso. apply Ho. left.
  - right. apply IH; [done|]. intros H. apply Ho. apply elem_of_app. by right.
Qed.

(** What a client prints from the argument type of a tool is valid for the
    input schema of the tool. *)
Theorem v1_arguments_fit_schemas spec fs d vs :
  spec ∈ toolSpecs -> (ts_name spec, TStruct fs) ∈ v1_args -> sendable_fields fs vs ->
  (forall x, ("paths"%string, x) ∈ Marshal_fields fs vs -> few x) ->
  accepts float64 (3 + d) (ts_inputSchema spec) (Marshal (TStruct fs) vs) = true.
Proof.
  intros Hspec Hargs Hv Hfew.
  assert (suited (ts_inputSchema spec) fs = true) as Hs.
  { pose proof v1_suited as H. rewrite forallb_forall in H. apply list_elem_of_In, H in Hspec.
    rewrite forallb_forall in Hspec. apply list_elem_of_In, Hspec in Hargs. cbn [fst snd] in Hargs.
    by rewrite bool_decide_true in Hargs. }
  unfold suited in Hs. apply andb_true_iff in Hs as [[Ht%type_is_keyword Hs]%andb_true_iff Hreq].
  destruct (ts_inputSchema spec) as [| | | | |kws]; try done. cbn [keywords] in *.
  change (3 + d)%nat with (S (S (S d))). cbn [accepts Marshal]. rewrite Ht. cbn [has_type]. apply andb_true_iff.
  split; [done|]. apply andb_true_iff. split.
  - unfold required_ok. destruct (keyword "required" kws) as [[| | | |l|]|]; try done.
    rewrite forallb_forall in Hreq |- *. intros x Hx. specialize (Hreq x Hx). destruct x; try done.
    apply andb_true_iff in Hreq as [Hn%bool_decide_eq_true_1 Ho%negb_true_iff%bool_decide_eq_false_1].
    by apply bool_decide_eq_true_2, Marshal_fields_required.
  - apply forallb_forall. intros [k x] Hin%list_elem_of_In.
    destruct (suits_Marshal d _ fs vs Hs Hv Hfew k x Hin) as (s & Es & Hx). cbn [fst snd].
    unfold keyword at 1. by rewrite Es.
Qed.
End arguments.

(** ** Results *)

Section results.
Context (float64 : string -> option string) (strict : bool).
Context (error_text : error -> string).
Context (Duration_String : Z -> string).
Context (modified : string -> Z) (mode_text : string -> string).
Notation value_json := (value_json error_text Duration_String modified mode_text).
Notation decode := (decode float64 strict).

(** The value of the result type that a tool's result stands for; the results
    without a type in v1 have none. *)
Definition v1_entry (e : fileEntry) : goval v1.MultiFileRead :=
  match e with
  | EntryError path err => (path, (EmptyString, (EmptyString, (false, (error_text err, tt)))))
  | EntryFile path encoding content truncated => (path, (encoding, (content, (truncated, (EmptyString, tt)))))
  end.
Definition v1_directory_entry (dir : string) (e : string * string * Z) : goval v1.DirectoryEntry :=
  let '(name, type, size) := e in (name, (type, (size, (modified (dir +:+ "/" +:+ name), tt)))).
Definition v1_result (v : value) : option { t : gotype & goval t } :=
  match v with
  | VFile f => Some (existT v1.ReadFileResult
      (fr_path f, (fr_encoding f, (fr_content f, (fr_offset f, (fr_next_offset f, (fr_truncated f, tt)))))))
  | VWritten path n => Some (existT v1.WriteFileResult (path, (n, tt)))
  | VFiles files => Some (existT v1.ReadMultipleFilesResult (Some (v1_entry <$> files), tt))
  | VEdited path count n => Some (existT v1.EditBlockResult (path, (count, (n, tt))))
  | VListing r => Some (existT v1.ListDirectoryResult
      (lr_path r, (Some (v1_directory_entry (lr_path r) <$> lr_entries r), (lr_truncated r, tt))))
  | VInfo r => Some (existT v1.FileInfoResult
      (ir_path r, (ir_name r, (ir_size r, (mode_text (ir_path r), (modified (ir_path r), (ir_is_dir r, tt)))))))
  | VStarted r => Some (existT v1.StartProcessResult (StartResult_val r))
  | VOutput r => Some (existT v1.ReadProcessOutputResult (ReadResult_val r))
  | VSearch id => Some (existT v1.StartSearchResult (id, tt))
  | VMatches r => Some (existT v1.SearchResults (MoreResult_val r))
  | _ => None
  end.

(** *** Reading maps *)

Lemma decode_map fs l :
  NoDup (names fs) -> NoDup l.*1 -> Forall (fun kv => kv.1 ∈ names fs) l ->
  decode (TStruct fs) (map_json l) = read_fields float64 strict fs (list_to_map l).
Proof.
  intros Hn Hl Hin. unfold map_json. pose proof (isort_perm entry_le l) as Hp. rewrite decode_object.
  - f_equal. apply list_to_map_proper; [by rewrite Hp|done].
  - done.
  - by rewrite Hp.
  - by rewrite Hp.
Qed.
Lemma decode_text s : text_ok s -> decode TString (json_string s) = Some s.
Proof. intros H. unfold Struct.decode. cbn. by rewrite json_text_id. Qed.
Lemma decode_int z : int64_ok z -> decode TInt64 (int_json z) = Some z.
Proof.
  intros H. unfold Struct.decode, int_json. cbn. unfold parse_int. rewrite ParseInt_FormatInt by done.
  unfold int64_ok in H. replace (int_ok true 64 z) with true; [done|]. symmetry. unfold int_ok.
  apply andb_true_iff. split; [apply Z.leb_le|apply Z.ltb_lt]; change (64 - 1) with 63; lia.
Qed.
Lemma decode_time t : 0 <= t < year_10000 -> decode TTime (time_json t) = Some t.
Proof. intros H. unfold Struct.decode, time_json. cbn. by rewrite ParseRFC3339Nano_Format. Qed.
Lemma decode_flag b : decode TBool (JBool b) = Some b.
Proof. done. Qed.
Lemma decode_slice {A} t (f : A -> json) (g : A -> goval t) l :
  Forall (fun x => decode t (f x) = Some (g x)) l -> decode (TSlice t) (JArray (f <$> l)) = Some (Some (g <$> l)).
Proof.
  intros H. unfold Struct.decode. cbn.
  assert ((fun x => Unmarshal float64 strict t x (zero t)) <$> (f <$> l) = (fun x => (g x, true)) <$> l) as E.
  { rewrite <- list_fmap_compose. induction H as [|x l Hx H IH]; [done|]. cbn. by rewrite (decode_Some _ _ _ _ _ Hx), IH. }
  rewrite E, <- list_fmap_compose. replace (forallb snd _) with true; [done|].
  symmetry. apply forallb_forall. by intros x (v & <- & _)%in_map_iff.
Qed.

(** The fields of a printed map, one after the other. *)
Ltac read_map :=
  rewrite decode_map by (apply (bool_decide_unpack _); vm_compute; exact I);
  cbn [read_fields struct req opt list_to_map foldr fst snd];
  repeat first [rewrite lookup_insert_eq | rewrite lookup_insert_ne by done | rewrite lookup_empty].
Lemma good_text_opt s : (if is_empty TString s then s = EmptyString else text_ok s) -> text_ok s.
Proof. cbn. case_bool_decide; [by intros ->|done]. Qed.

Ltac read_values :=
  repeat match goal with
  | H : text_ok ?s |- context [decode TString (json_string ?s)] => rewrite (decode_text s H)
  | H : int64_ok ?z |- context [int_json ?z] => rewrite (decode_int z H)
  | H : 0 <= ?t, H' : ?t < year_10000 |- context [time_json ?t] => rewrite (decode_time t (conj H H'))
  | H : if is_empty TString ?s then _ else _ |- context [decode TString (json_string ?s)] =>
      rewrite (decode_text s (good_text_opt s H))
  end; reflexivity.
(** What [good] says, field by field. *)
Ltac good_parts H := cbn [good goods struct req opt v1_entry v1_directory_entry fst snd andb] in H; decompose [and] H.

Lemma entry_decodes e : good float64 v1.MultiFileRead (v1_entry e) -> decode v1.MultiFileRead (entry_json error_text e) = Some (v1_entry e).
Proof. destruct e; unfold v1.MultiFileRead; intros H; good_parts H; unfold entry_json; read_map; read_values. Qed.

Lemma directory_entry_decodes dir e :
  good float64 v1.DirectoryEntry (v1_directory_entry dir e) ->
  decode v1.DirectoryEntry (directory_json modified dir e) = Some (v1_directory_entry dir e).
Proof.
  destruct e as [[name type] size]. unfold v1.DirectoryEntry. intros H; good_parts H. unfold directory_json. read_map. read_values.
Qed.

End results.
