(* ===== verification/ApiDemo.v ===== *)
(** * Runs and witnesses for Struct.v, SchemaProps.v and ApiProps.v *)
From S2P Require Import Prelude Crypto GoStrings Text Json GoTime Struct ApiTypes.
From S2P Require Import Filepath FileSystem PathPolicy Executor FileProps ExecutorProps ToolClaims OsProc Ring ProcessMgr SearchMgr Tools ToolJson.
From S2P Require Import Http Authn Protocol Store RelayHub Effects Mcp Schema SchemaProps ApiProps.
Local Open Scope Z_scope.

(** Numerals that are printed as they are. *)
Definition same_numeral : string -> option string := Some.

Definition demo_device : goval v1.Device :=
  ("dev_1", ("Mac", (true, (Some 5, (7, ((true, (true, (false, (false, tt)))), tt))))))%string.

Lemma v1_types_roundtrip_witness :
  decode same_numeral true v1.Device (Marshal v1.Device demo_device) = Some demo_device.
Proof.
  apply (v1_types_roundtrip same_numeral true "Device").
  - apply (list_elem_of_lookup_2 _ 0). reflexivity.
  - cbn. repeat split; done.
Defined.

(** A call of [read_file] as a client makes it, and as the agent decodes it. *)
Definition demo_spec (i : nat) : toolSpec := nth i toolSpecs (mkToolSpec "" "" JNull safetyUnspecified false).
Lemma demo_spec_elem i : bool_decide (i < length toolSpecs)%nat = true -> demo_spec i ∈ toolSpecs.
Proof. intros H%bool_decide_eq_true_1. apply list_elem_of_In, nth_In. exact H. Qed.

Definition demo_args : list (string * json) :=
  [("device_id", JString "dev_1"); ("path", JString "f"); ("offset", JNumber "5")]%string.
Definition demo_first_json (b : list byte) : option json :=
  match b with
  | [] => Some (JObject [("offset", JNumber "5"); ("path", JString "f")]%string)
  | _ => None
  end.


Definition demo_write : govals (struct_fields v1.WriteFileArgs) :=
  ("dev_1", ("in/g", ("hi", ("", (420, tt)))))%string.

Lemma v1_arguments_fit_schemas_witness :
  accepts same_numeral 3 (ts_inputSchema (demo_spec 3)) (Marshal v1.WriteFileArgs demo_write) = true.
Proof.
  apply (v1_arguments_fit_schemas same_numeral (demo_spec 3) (struct_fields v1.WriteFileArgs) 0).
  - apply demo_spec_elem. vm_compute. reflexivity.
  - apply (list_elem_of_lookup_2 _ 3). vm_compute. reflexivity.
  - cbn. repeat split; first [by right | by left].
  - vm_compute. intros x H. set_solver.
Defined.

(** The output of a process that ends in the middle of a character: both halves
    of an e with an accent are printed as U+FFFD. *)
Definition accent : list byte := bytes_of_Zs [195; 169].
Definition read_json (cursor : Z) : option json :=
  '(b, next, truncated) ← ring_read cursor 1 (mkRing accent 0 100);
  Some (value_json (fun _ => EmptyString) (fun _ => EmptyString) (fun _ => 0) (fun _ => EmptyString)
          (VOutput (mkReadResult b next truncated false None))).
Example cut_character_is_lost :
  utf8_Valid accent = true /\
  (fun cursor => read_json cursor ≫= fun j => keyword "data" (keywords j)) <$> [0; 1] =
    [Some (JString (string_of_bytes replacement)); Some (JString (string_of_bytes replacement))].
Proof. split; vm_compute; reflexivity. Qed.
