(* ===== verification/AgentRun.v ===== *)
(** * The running agent: connectAndServe and the loop of main

    The second half of cmd/orc-agent/main.go.  A session is one call of
    [connectAndServe] behind a successful [ws.Dial]: its goroutines are the
    loop that reads frames, the one that pings, and one per call.  One action
    is one turn of the reading loop, one tick, or the run of one handler up to
    its write, in any order.  Deadlines are part of what reads and writes
    return. *)
From S2P Require Import Prelude Crypto GoStrings Protocol.
From S2P Require Import Filepath FileSystem PathPolicy FileOps Executor OsProc ProcessMgr SearchMgr Tools ToolsProps.
From S2P Require Import OrcAgent.
Local Open Scope Z_scope.

(** [se_answered] are the calls that were executed, with the frame that
    answers each; [se_written] is what went out on the connection. *)
Record session := mkSession {
  se_open : bool;
  se_errCh : option error;
  se_pinger : bool;
  se_handlers : list Frame;
  se_answered : list (Frame * Frame);
  se_written : list Frame;
  se_agent : Agent;
  se_result : option error }.

Definition new_session (a : Agent) : session := mkSession true None true [] [] [] a None.

Definition pingFrame : Frame := mkFrame TypePing EmptyString EmptyString [] false [] None.
Definition pongFrame (id : string) : Frame := mkFrame TypePong id EmptyString [] false [] None.

(** The function returns, and the deferred [conn.Close()] runs. *)
Definition return_ (e : error) (s : session) : session :=
  mkSession false (se_errCh s) (se_pinger s) (se_handlers s) (se_answered s) (se_written s) (se_agent s) (Some e).
(** A write that worked. *)
Definition wrote (f : Frame) (s : session) : session :=
  mkSession (se_open s) (se_errCh s) (se_pinger s) (se_handlers s) (se_answered s) (se_written s ++ [f]) (se_agent s) (se_result s).
Definition start_handler (f : Frame) (s : session) : session :=
  mkSession (se_open s) (se_errCh s) (se_pinger s) (se_handlers s ++ [f]) (se_answered s) (se_written s) (se_agent s) (se_result s).
(** [errCh <- err], which has room for one, and the end of the goroutine. *)
Definition ping_failed (e : error) (s : session) : session :=
  mkSession (se_open s) (match se_errCh s with Some e' => Some e' | None => Some e end) false
    (se_handlers s) (se_answered s) (se_written s) (se_agent s) (se_result s).
Definition stop_pinger (s : session) : session :=
  mkSession (se_open s) (se_errCh s) false (se_handlers s) (se_answered s) (se_written s) (se_agent s) (se_result s).

(** What happens next: a message was read and decoded, or not, and a pong that
    it asks for can be written; a tick; the run of the i-th handler; the
    context is done. *)
Inductive action :=
| SRead (m : result Frame) (pong : bool)
| STick (w : result unit)
| SReply (i : nat) (e : ToolEnv) (w : bool)
| SCancel.

Section session.
Context (paths : Policy) (allowKillProcess : bool).
Context (ToLower : string -> string).
Context (compile : string -> result (string -> option (nat * nat))).
Context (dec : Decoders).
Context (json_Marshal : value -> result (list byte)).
Context (error_text : error -> string).
Notation handleCall := (handleCall paths allowKillProcess ToLower compile dec json_Marshal error_text).

(** The end of a turn: an error of the pinging goroutine. *)
Definition poll_errCh (s : session) : session :=
  match se_errCh s with Some e => return_ e s | None => s end.

(** One turn of the reading loop. *)
Definition read_turn (m : result Frame) (pong : bool) (s : session) : session :=
  match m with
  | Err e => return_ e s
  | Ok f =>
      match Validate f with
      | Err e => return_ e s
      | Ok _ =>
          if decide (Frame_Type f = TypeCall) then poll_errCh (start_handler f s)
          else if decide (Frame_Type f = TypePing) then
            poll_errCh (if pong then wrote (pongFrame (Frame_ID f)) s else s)
          else if decide (Frame_Type f = TypePong) then poll_errCh s
          else return_ (NewErr "unexpected relay frame") s
      end
  end.

(** One tick of the pinging goroutine. *)
Definition tick (w : result unit) (s : session) : session :=
  match w with Ok _ => wrote pingFrame s | Err e => ping_failed e s end.

(** The run of a handler: [handleCall]. *)
Definition run_handler (i : nat) (e : ToolEnv) (w : bool) (s : session) : option session :=
  f ← se_handlers s !! i;
  let '(out, a) := handleCall f e (se_agent s) in
  let s := mkSession (se_open s) (se_errCh s) (se_pinger s) (delete i (se_handlers s)) (se_answered s ++ [(f, out)])
             (se_written s) a (se_result s) in
  Some (if w then wrote out s else s).

(** Nothing is written on a closed connection. *)
Definition can_write (w : bool) (s : session) : bool := negb w || se_open s.

Definition exec (act : action) (s : session) : option session :=
  match act with
  | SRead m pong =>
      if bool_decide (se_result s = None) && can_write pong s then Some (read_turn m pong s) else None
  | STick w => if se_pinger s && can_write (is_ok w) s then Some (tick w s) else None
  | SReply i e w => if can_write w s then run_handler i e w s else None
  | SCancel => Some (stop_pinger s)
  end.

Fixpoint run (acts : list action) (s : session) : option session :=
  match acts with [] => Some s | act :: acts => s' ← exec act s; run acts s' end.

(** The calls that the reading loop took, in order. *)
Definition call_of (act : action) : option Frame :=
  match act with
  | SRead (Ok f) _ => if bool_decide (Frame_Type f = TypeCall) && is_ok (Validate f) then Some f else None
  | _ => None
  end.
Definition calls (acts : list action) : list Frame := omap call_of acts.

(** ** Facts *)

Lemma poll_errCh_keeps s :
  se_handlers (poll_errCh s) = se_handlers s /\ se_answered (poll_errCh s) = se_answered s /\
  se_written (poll_errCh s) = se_written s /\ se_agent (poll_errCh s) = se_agent s.
Proof. unfold poll_errCh. by destruct (se_errCh s). Qed.

(** An answer to a call: what [handleCall] made of it. *)
Definition answers (f out : Frame) : Prop := exists e a, out = (handleCall f e a).1.

(** What holds of a session that took the calls [cs]. *)
Record session_ok (cs : list Frame) (s : session) : Prop := mkSessionOk {
  so_calls : cs ≡ₚ se_handlers s ++ (se_answered s).*1;
  so_answers : Forall (fun p => answers p.1 p.2) (se_answered s);
  so_written : forall f, f ∈ se_written s -> f = pingFrame \/ (exists id, f = pongFrame id) \/ f ∈ (se_answered s).*2;
  so_results : filter (fun f => Frame_Type f = TypeResult) (se_written s) `sublist_of` (se_answered s).*2;
  so_closed : se_open s = bool_decide (se_result s = None) }.

Lemma fresh_session_ok a : session_ok [] (new_session a).
Proof. split; cbn; try done. by intros ? ?%not_elem_of_nil. Qed.

Lemma handleCall_result f e a :
  Frame_Type (handleCall f e a).1 = TypeResult /\ Frame_ID (handleCall f e a).1 = Frame_ID f /\
  (Frame_ID f <> EmptyString -> Validate (handleCall f e a).1 = Ok tt).
Proof.
  unfold Tools.handleCall. destruct (Execute _ _ _ _ _ _ _ _ _) as [[v|err] a'].
  - destruct (json_Marshal v); (split; [done|]); (split; [done|]); intros H; unfold Validate;
      rewrite decide_False by done; rewrite decide_True by done; by rewrite decide_False.
  - split; [done|]. split; [done|]. intros H. unfold Validate.
    rewrite decide_False by done. rewrite decide_True by done. by rewrite decide_False.
Qed.

Lemma poll_errCh_ok cs s : session_ok cs s -> session_ok cs (poll_errCh s).
Proof.
  intros [H1 H2 H3 H4 H5]. unfold poll_errCh. destruct (se_errCh s); [|by split]. by split.
Qed.
Lemma return_ok cs e s : session_ok cs s -> session_ok cs (return_ e s).
Proof. intros [H1 H2 H3 H4 H5]. by split. Qed.
Lemma start_handler_ok cs f s : session_ok cs s -> session_ok (cs ++ [f]) (start_handler f s).
Proof.
  intros [H1 H2 H3 H4 H5]. split; try done. cbn. rewrite H1, <- !app_assoc. f_equiv. apply Permutation_app_comm.
Qed.
Lemma wrote_ok cs f s :
  Frame_Type f <> TypeResult -> f = pingFrame \/ (exists id, f = pongFrame id) -> session_ok cs s -> session_ok cs (wrote f s).
Proof.
  intros Ht Hf [H1 H2 H3 H4 H5]. split; try done; cbn.
  - intros g [Hg|Hg]%elem_of_app; [by apply H3|]. apply list_elem_of_singleton in Hg as ->. tauto.
  - rewrite filter_app, filter_cons_False by done. cbn. by rewrite app_nil_r.
Qed.

Lemma read_turn_ok cs m pong s :
  session_ok cs s -> session_ok (cs ++ from_option (fun f => [f]) [] (call_of (SRead m pong))) (read_turn m pong s).
Proof.
  intros Hs. unfold read_turn, call_of. destruct m as [f|e]; [|rewrite app_nil_r; by apply return_ok].
  destruct (Validate f) as [u|e]; cbn [is_ok]; [|rewrite andb_false_r, app_nil_r; by apply return_ok].
  rewrite andb_true_r. case_decide as Hc.
  - rewrite bool_decide_true by done. by apply poll_errCh_ok, start_handler_ok.
  - rewrite bool_decide_false, app_nil_r by done. repeat case_decide.
    + apply poll_errCh_ok. destruct pong; [|done]. apply wrote_ok; [done|right; by eexists|done].
    + by apply poll_errCh_ok.
    + by apply return_ok.
Qed.

Lemma run_handler_ok cs i e w s s' : session_ok cs s -> run_handler i e w s = Some s' -> session_ok cs s'.
Proof.
  intros [H1 H2 H3 H4 H5]. unfold run_handler. destruct (se_handlers s !! i) as [f|] eqn:Hi; [|done]. cbn [mbind option_bind].
  destruct (handleCall_result f e (se_agent s)) as (Ht & _ & _).
  assert (answers f (handleCall f e (se_agent s)).1) as Ha by (by eexists _, _).
  destruct (handleCall f e (se_agent s)) as [out a]. cbn [fst] in *.
  assert (cs ≡ₚ delete i (se_handlers s) ++ (se_answered s ++ [(f, out)]).*1) as Hcs.
  { rewrite H1. rewrite (delete_Permutation _ _ _ Hi) at 1. rewrite fmap_app. cbn.
    rewrite app_assoc, (Permutation_app_comm _ [f]). done. }
  assert (session_ok cs (mkSession (se_open s) (se_errCh s) (se_pinger s) (delete i (se_handlers s))
    (se_answered s ++ [(f, out)]) (se_written s) a (se_result s))) as Hok.
  { split; cbn; [done| | |rewrite fmap_app; by apply sublist_inserts_r|done].
    - apply Forall_app. by repeat constructor.
    - intros g Hg. rewrite fmap_app, elem_of_app. destruct (H3 g Hg) as [?|[?|?]]; tauto. }
  destruct Hok as [K1 K2 K3 K4 K5]. intros [= <-]. destruct w; [|by split]. split; try done; cbn in *.
  - intros g [Hg|Hg]%elem_of_app; [by apply K3|]. apply list_elem_of_singleton in Hg as ->. right; right.
    rewrite fmap_app, elem_of_app. right. left.
  - rewrite fmap_app, filter_app, filter_cons_True by done. by apply sublist_app.
Qed.

Lemma session_exec_ok cs act s s' :
  session_ok cs s -> exec act s = Some s' -> session_ok (cs ++ from_option (fun f => [f]) [] (call_of act)) s'.
Proof.
  intros Hs. destruct act as [m pong|w|i e w|]; cbn [exec].
  - destruct (_ && _); [|done]. intros [= <-]. by apply read_turn_ok.
  - destruct (_ && _); [|done]. intros [= <-]. cbn. rewrite app_nil_r. destruct w as [u|e]; cbn [tick].
    + apply wrote_ok; [done|by left|done].
    + destruct Hs as [H1 H2 H3 H4 H5]. by split.
  - destruct (can_write w s); [|done]. cbn. rewrite app_nil_r. by apply run_handler_ok.
  - intros [= <-]. cbn. rewrite app_nil_r. destruct Hs as [H1 H2 H3 H4 H5]. by split.
Qed.

Lemma session_run_ok cs acts s s' : session_ok cs s -> run acts s = Some s' -> session_ok (cs ++ calls acts) s'.
Proof.
  revert cs s. induction acts as [|act acts IH]; intros cs s Hs; cbn [run].
  - intros [= <-]. cbn. by rewrite app_nil_r.
  - destruct (exec act s) as [s1|] eqn:E; [|done]. intros H. pose proof (session_exec_ok cs act s s1 Hs E) as Hs1.
    pose proof (IH _ _ Hs1 H) as Hs'. rewrite <- app_assoc in Hs'.
    unfold calls in *. cbn [omap list_omap]. by destruct (call_of act).
Qed.

(** Every handler that is left can run to its end. *)
Lemma drain e n s :
  length (se_handlers s) = n -> exists s', run (repeat (SReply 0 e false) n) s = Some s' /\ se_handlers s' = [].
Proof.
  revert s. induction n as [|n IH]; intros s Hn.
  - exists s. split; [done|]. by destruct (se_handlers s).
  - destruct (se_handlers s) as [|f hs] eqn:Eh; [done|]. cbn [repeat run exec]. cbn [can_write negb orb].
    unfold run_handler. rewrite Eh. cbn [lookup list_lookup mbind option_bind].
    destruct (handleCall f e (se_agent s)) as [out a]. cbn [mbind option_bind]. apply IH. cbn in *. lia.
Qed.

(** C13 In every interleaving of a session's goroutines each call that was read is
    either being handled or has been answered, once: the result frames that
    went out are, in order, answers of calls that were executed, each for its
    own call and well formed; everything else that is written is a ping or a
    pong.  The handlers that are left can always finish, also behind the end
    of the session. *)
Theorem session_answers_each_call a acts s e :
  run acts (new_session a) = Some s ->
  calls acts ≡ₚ se_handlers s ++ (se_answered s).*1 /\
  Forall (fun p => answers p.1 p.2 /\ Frame_ID p.2 = Frame_ID p.1 /\ Frame_Type p.2 = TypeResult /\ Validate p.2 = Ok tt) (se_answered s) /\
  filter (fun f => Frame_Type f = TypeResult) (se_written s) `sublist_of` (se_answered s).*2 /\
  (forall f, f ∈ se_written s -> Frame_Type f <> TypeResult -> f = pingFrame \/ exists id, f = pongFrame id) /\
  exists s', run (repeat (SReply 0 e false) (length (se_handlers s))) s = Some s' /\ calls acts ≡ₚ (se_answered s').*1.
Proof.
  intros H. pose proof (session_run_ok [] acts _ _ (fresh_session_ok a) H) as Hok. cbn [app] in Hok.
  destruct (drain e _ s eq_refl) as (s' & Hs' & Hnil).
  pose proof (session_run_ok _ _ _ _ Hok Hs') as Hok'.
  assert (calls (repeat (SReply 0 e false) (length (se_handlers s))) = []) as Hcalls.
  { unfold calls. clear. induction (length (se_handlers s)) as [|n IH]; [done|exact IH]. }
  rewrite Hcalls, app_nil_r in Hok'. destruct Hok as [H1 H2 H3 H4 H5].
  assert (forall f, f ∈ calls acts -> Frame_ID f <> EmptyString) as Hid.
  { intros f ([| | |] & _ & Hf)%list_elem_of_omap; try done. cbn [call_of] in Hf. destruct m as [g|]; [|done].
    destruct (_ && _) eqn:E; [|done]. injection Hf as ->. apply andb_true_iff in E as [Ht%bool_decide_eq_true_1 Hv].
    destruct (Validate f) as [[]|] eqn:Ev; [|done]. apply Validate_well_formed in Ev.
    inversion Ev as [? Hi| |]; [done|congruence|]. rewrite Ht in *. set_solver. }
  split; [done|]. split; [|split; [done|split]].
  - rewrite Forall_forall in H2 |- *. intros [f out] Hin. destruct (H2 _ Hin) as (e' & a' & E). cbn [fst snd] in *.
    destruct (handleCall_result f e' a') as (Ht & Hi & Hv). rewrite <- E in *. split; [by eexists _, _|].
    split; [done|]. split; [done|]. apply Hv, Hid. rewrite H1. apply elem_of_app. right.
    by apply (list_elem_of_fmap_2 fst) in Hin.
  - intros f Hf Ht. destruct (H3 f Hf) as [?|[?|Hin]]; [by left|by right|]. exfalso. apply Ht.
    apply list_elem_of_fmap in Hin as ([g out] & -> & Hin). rewrite Forall_forall in H2.
    destruct (H2 _ Hin) as (e' & a' & E). cbn [fst snd] in *. rewrite E. apply handleCall_result.
  - exists s'. split; [done|]. destruct Hok' as [K1 _ _ _ _]. by rewrite Hnil in K1.
Qed.

(** A session ends in a turn of the reading loop. *)
Lemma exec_ends act s s' e :
  exec act s = Some s' -> se_result s = None -> se_result s' = Some e ->
  exists m pong, act = SRead m pong /\
    (m = Err e \/ exists f, m = Ok f /\ (Validate f = Err e \/ se_errCh s = Some e \/ Frame_Type f = TypeResult)).
Proof.
  intros H Hn Hs. destruct act as [m pong|w|i env w|]; cbn [exec] in H.
  - destruct (_ && _); [|done]. injection H as <-. exists m, pong. split; [done|].
    unfold read_turn in Hs. destruct m as [f|e']; [|left; cbn in Hs; congruence]. right. exists f. split; [done|].
    destruct (Validate f) as [u|e'] eqn:Ev; [|left; cbn in Hs; congruence]. right.
    assert (forall x, se_result x = None -> se_result (poll_errCh x) = Some e -> se_errCh x = Some e) as Hpoll.
    { intros x Hx. unfold poll_errCh. destruct (se_errCh x); [|congruence]. cbn. congruence. }
    case_decide; [left; by apply (Hpoll (start_handler f s)) in Hs|].
    case_decide; [left; destruct pong; [by apply (Hpoll (wrote _ s)) in Hs|by apply Hpoll in Hs]|].
    case_decide; [left; by apply Hpoll in Hs|]. right. destruct u. apply Validate_well_formed in Ev.
    inversion Ev as [| |Hin]; [done..|]. set_solver.
  - destruct (_ && _); [|done]. injection H as <-. by destruct w; cbn in Hs; rewrite Hn in Hs.
  - destruct (can_write w s); [|done]. unfold run_handler in H. destruct (se_handlers s !! i); [|done]. cbn in H.
    destruct (handleCall _ _ _). injection H as <-. by destruct w; cbn in Hs; rewrite Hn in Hs.
  - injection H as <-. cbn in Hs. by rewrite Hn in Hs.
Qed.

(** The loop does not look at the context: a session that is cancelled goes on
    to take calls, and answers them. *)
Lemma cancelled_session_serves f e s :
  se_result s = None -> se_open s = true -> se_errCh s = None -> se_handlers s = [] ->
  Validate f = Ok tt -> Frame_Type f = TypeCall ->
  exists s', run [SCancel; SRead (Ok f) false; SReply 0 e true] s = Some s' /\ se_result s' = None /\
    se_written s' = se_written s ++ [(handleCall f e (se_agent s)).1].
Proof.
  destruct s as [o er p hs an wr ag re]. cbn. intros -> -> -> -> Hv Ht. cbn.
  rewrite Hv, decide_True by done. cbn. destruct (handleCall f e ag) as [out a]. eexists. by split.
Qed.
End session.

(** ** The loop of main *)

(** Between sessions: connecting, or waiting to connect again.  The length of
    the pause is that of the next one. *)
Inductive loop_state :=
| Connecting (backoff : Z)
| Waiting (backoff : Z)
| Stopped.

(** [connectAndServe] returned, or the timer fired, with the context done or
    not; or it is done while the timer runs. *)
Inductive loop_event :=
| Returned (done : bool)
| Fired (done : bool)
| Done.

Definition loop_step (ev : loop_event) (st : loop_state) : option loop_state :=
  match st, ev with
  | Connecting b, Returned done => Some (if done : bool then Stopped else Waiting b)
  | Waiting b, Fired done => Some (if done : bool then Stopped else Connecting (next_backoff b))
  | Waiting b, Done => Some Stopped
  | _, _ => None
  end.
Fixpoint loop (evs : list loop_event) (st : loop_state) : option loop_state :=
  match evs with [] => Some st | ev :: evs => st' ← loop_step ev st; loop evs st' end.

(** [main] checks the context before the first connection. *)
Definition start_loop (done : bool) : loop_state := if done then Stopped else Connecting Second.

(** The pauses that were started, in order. *)
Definition pause_of (st : loop_state) : list Z := match st with Waiting b => [b] | _ => [] end.
Fixpoint pauses (evs : list loop_event) (st : loop_state) : list Z :=
  match evs with
  | [] => []
  | ev :: evs => match loop_step ev st with Some st' => pause_of st' ++ pauses evs st' | None => [] end
  end.

Lemma backoff_after_min n : backoff_after n = Z.min (2 ^ Z.of_nat n * Second) (30 * Second).
Proof.
  induction n as [|n IH]; [done|]. cbn [backoff_after]. rewrite IH. unfold next_backoff.
  rewrite Nat2Z.inj_succ, Z.pow_succ_r by lia. assert (0 < Second) by done.
  destruct (Z.ltb_spec (Z.min (2 ^ Z.of_nat n * Second) (30 * Second)) (30 * Second)); [|lia].
  destruct (Z.ltb_spec (30 * Second) (Z.min (2 ^ Z.of_nat n * Second) (30 * Second) * 2)); lia.
Qed.

Lemma pauses_from n evs st :
  st = Connecting (backoff_after n) \/ st = Waiting (backoff_after n) ->
  exists k, pauses evs st = backoff_after <$> seq (if bool_decide (pause_of st = []) then n else S n) k.
Proof.
  revert n st. induction evs as [|ev evs IH]; intros n st Hst; [by exists 0%nat|].
  assert (forall evs, pauses evs Stopped = []) as Hstop by (by intros [|[] ?]).
  cbn [pauses]. destruct Hst as [->| ->]; destruct ev as [[]|[]|]; cbn [loop_step pause_of app]; rewrite ?Hstop;
    try by exists 0%nat.
  - destruct (IH n (Waiting (backoff_after n)) (or_intror eq_refl)) as [k Hk]. exists (S k).
    rewrite Hk, bool_decide_false, bool_decide_true by done. done.
  - destruct (IH (S n) (Connecting (backoff_after (S n))) (or_introl eq_refl)) as [k Hk]. exists k.
    cbn [backoff_after] in Hk. rewrite Hk, bool_decide_true, bool_decide_false by done. done.
Qed.

(** Between two attempts to connect the agent waits 1, 2, 4, 8, 16 seconds and
    then 30 seconds each time, however long the connections between them
    lasted; it goes on until the context is done. *)
Theorem retries_back_off evs k p :
  pauses evs (start_loop false) !! k = Some p -> p = Z.min (2 ^ Z.of_nat k * Second) (30 * Second).
Proof.
  destruct (pauses_from 0 evs (start_loop false) (or_introl eq_refl)) as [n ->].
  cbn [start_loop pause_of]. rewrite bool_decide_true by done. rewrite list_lookup_fmap.
  intros (i & Hi & ->)%fmap_Some. apply lookup_seq in Hi as [-> _]. cbn [plus]. apply backoff_after_min.
Qed.
