(* ===== verification/AgentFiles.v ===== *)
(** * The saved credentials: cmd/orc-agent/main.go

    [credentialsPath], [loadCredentials] over a file system, [saveCredentials]
    and the start of [main] with them, and the calls of package os that
    FileOps.v does not have.  A file is created with the mode that is asked
    for; the umask of the process is not modelled, and [os_Chmod] sets the mode
    again.  [MarshalIndent] prints a JSON value and [json_parse] reads one text;
    the struct goes through Struct.v. *)
From S2P Require Import Prelude Crypto GoStrings Text Json Struct Config.
From S2P Require Import Filepath FileSystem PathPolicy FileOps Executor FileProps ProcessMgr SearchMgr Tools OrcAgent.
Local Open Scope Z_scope.

(** ** [os.WriteFile] and [os.Chmod] *)

(** Changing the file at a canonical path. *)
Definition update_at (p : list string) (f : list byte -> Z -> node) (os : Os) : result unit * Os :=
  match node_at (os_fs os) p with
  | Some (NFile content perm) => (Ok tt, with_fs os (<[p := f content perm]> (os_fs os)))
  | _ => (Err ENOENT, os)
  end.

(** [os.OpenFile(path, O_WRONLY|O_CREATE|O_TRUNC, perm)]: where the file is.
    A link is followed to its file; creating the target of a dangling link is
    not modelled, it fails here. *)
Definition open_trunc (path : string) (perm : Z) (os : Os) : result (list string) * Os :=
  match locate (os_fs os) path with
  | Err e => (Err e, os)
  | Ok l =>
      let truncate p content_perm := (Ok p, with_fs os (<[p := NFile [] content_perm]> (os_fs os))) in
      match node_at (os_fs os) (at_path l) with
      | None => truncate (at_path l) perm
      | Some (NFile _ old) => truncate (at_path l) old
      | Some NDir => (Err EISDIR, os)
      | Some (NLink _) =>
          match namei (os_fs os) (parts path) with
          | Ok p => match node_at (os_fs os) p with
                    | Some (NFile _ old) => truncate p old
                    | _ => (Err EISDIR, os)
                    end
          | Err e => (Err e, os)
          end
      end
  end.

Definition write_at (p : list string) (data : list byte) : F unit :=
  sys (fun n os => (update_at p (fun content perm => NFile (content ++ take n data) perm) os).2)
      (update_at p (fun content perm => NFile (content ++ data) perm)).

Definition WriteFile (path : string) (data : list byte) (perm : Z) : F unit :=
  p ← change (open_trunc path perm);
  w ← try (write_at p data);
  c ← try CloseFile;
  match w with Err e => fail e | Ok _ => lift c end.

Definition os_Chmod (path : string) (mode : Z) : F unit :=
  change (fun os =>
    match namei (os_fs os) (parts path) with
    | Ok p => update_at p (fun content _ => NFile content mode) os
    | Err e => (Err e, os)
    end).

(** ** The credential file *)

Definition credentials_type : gotype := TStruct (struct [req "device_id" TString; req "token" TString]).
Definition credentials_val (c : credentials) : goval credentials_type := (cr_DeviceID c, (cr_Token c, tt)).

(** [func credentialsPath() (string, error)], with the paths of Unix. *)
Definition credentialsPath (windows : bool) (APPDATA : string) (UserHomeDir : result string) : result string :=
  if windows then
    if decide (APPDATA = EmptyString) then Err (NewErr "APPDATA is not set")
    else Ok (JoinPath [APPDATA; "OpenRemoteCommander"; "device.json"])
  else
    home ← UserHomeDir;
    Ok (JoinPath [home; ".config"; "open-remote-commander"; "device.json"]).

Section credentials.
Context (MarshalIndent : json -> list byte).
Context (json_parse : list byte -> option json).
Context (float64 : string -> option string).

Definition Unmarshal_credentials (b : list byte) : result credentials :=
  match json_parse b with
  | None => Err (Foreign "encoding/json")
  | Some v =>
      match decode float64 false credentials_type v with
      | Some (id, (token, _)) => Ok (mkCredentials id token)
      | None => Err (Foreign "encoding/json")
      end
  end.

(** [loadCredentials(path)] on a file system. *)
Definition load (path : string) (os : Os) : result credentials :=
  loadCredentials Unmarshal_credentials (read_all os path).

Definition private : Z := 384.   (* 0600 *)

(** [func saveCredentials(path string, c credentials) error] *)
Definition saveCredentials (path : string) (c : credentials) : F unit :=
  if decide (path = EmptyString) then fail (NewErr "credential path unavailable")
  else
    MkdirAll (reverse (rel_elements (Dir path)));;
    let b := MarshalIndent (Marshal credentials_type (credentials_val c)) in
    let tmp := path +:+ ".tmp" in
    WriteFile tmp b private;;
    r ← try (os_Chmod tmp private);
    match r with
    | Err e => _ ← try (Remove tmp); fail e
    | Ok _ => Rename tmp path
    end.

(** The credentials that [main] connects with.  Those of a pairing are saved;
    that this may fail is only logged. *)
Definition start_credentials (credPath : string) (c : Config.Agent) (paired : result credentials) : F credentials :=
  fun w =>
    match main_credentials c (load credPath (w_os w)) paired with
    | Err e => (Err e, w)
    | Ok (creds, false) => (Ok creds, w)
    | Ok (creds, true) => (Ok creds, (saveCredentials credPath creds w).2)
    end.

End credentials.

(** What [main] builds from the configuration: the policy, and the managers of
    the executor ([executor.NewWithOptions]). *)
Definition start_agent (c : Config.Agent) (w : World) : result (Policy * Tools.Agent) :=
  policy ← PathPolicy.New (w_os w) (AllowedRoots c);
  Ok (policy, Tools.mkAgent w (NewManager (MaxProcesses c) (MaxProcessBytes c) (MaxRuntime c) (AllowShell c))
                (SearchMgr.New 8) []).
