(* ===== verification/AgentFilesProps.v ===== *)
(** * What saving the credentials does, and that they are loaded again *)
From S2P Require Import Prelude Crypto GoStrings Text Json Struct Config.
From S2P Require Import Filepath FileSystem PathPolicy FileOps Executor FileProps OrcAgent AgentFiles.
Local Open Scope Z_scope.

(** ** Paths *)

Definition tmp_name (c : string) : string := c +:+ ".tmp".

Lemma tmp_name_ok c : name c -> name (tmp_name c).
Proof.
  intros (Hn & Hd & Hdd & Hs). unfold tmp_name. split_and!.
  - by destruct c.
  - destruct c as [|a c]; [done|]. intros [= -> E]. by destruct c.
  - destruct c as [|a [|b c]]; [done|intros [=]|]. intros [= -> -> E]. by destruct c.
  - rewrite list_ascii_of_string_app, elem_of_app. intros [?|E]; [done|]. cbn in E. set_solver.
Qed.
Lemma string_app_assoc (a b c : string) : ((a +:+ b) +:+ c = a +:+ (b +:+ c))%string.
Proof. induction a as [|x a IH]; [done|]. exact (f_equal (String x) IH). Qed.
Lemma Join_snoc_tmp ds c sep : Join (ds ++ [c]) sep +:+ ".tmp" = Join (ds ++ [tmp_name c]) sep.
Proof.
  unfold Join. induction ds as [|d ds IH]; [done|]. cbn [app].
  destruct (ds ++ [c]) as [|x l] eqn:E; [by destruct ds|]. destruct (ds ++ [tmp_name c]) as [|x' l'] eqn:E'; [by destruct ds|].
  cbn [String.concat] in *. rewrite !string_app_assoc. by rewrite IH.
Qed.
Lemma render_tmp ds c : render true (ds ++ [c]) +:+ ".tmp" = render true (ds ++ [tmp_name c]).
Proof. unfold render. rewrite <- Join_snoc_tmp. apply string_app_assoc. Qed.
Lemma tmp_name_ne ds c : ds ++ [tmp_name c] <> ds ++ [c].
Proof.
  intros [_ E]%app_inj_tail. unfold tmp_name in E. induction c as [|a c IH]; [discriminate|]. apply IH. by injection E.
Qed.

(** ** File systems without the temporary file *)

Section clear.
Context (fs : fsys) (ds : list string) (c : string).
Notation t := (ds ++ [c]).

Lemma node_at_delete q : node_at (delete t fs) q = if decide (q = t) then None else node_at fs q.
Proof.
  unfold node_at. case_decide as E; [subst; by rewrite decide_False by (by destruct ds)|].
  case_decide as E'; [subst; by rewrite lookup_delete_eq|by rewrite lookup_delete_ne by congruence].
Qed.
Lemma real_dir_delete : real_dir fs ds -> real_dir (delete t fs) ds.
Proof.
  intros [Hp Hd]. split.
  - intros q x k E. rewrite node_at_delete, decide_False by (subst; intros E; apply (f_equal length) in E;
      rewrite !length_app in E; cbn in E; lia). by eapply Hp.
  - rewrite node_at_delete, decide_False; [done|]. intros E. apply (f_equal length) in E. rewrite length_app in E. cbn in E. lia.
Qed.
Lemma fs_ok_delete :
  (forall n, node_at fs t = Some n -> exists content perm, n = NFile content perm) ->
  fs_ok fs -> fs_ok (delete t fs).
Proof.
  intros Ht [Hr Hok]. split.
  - apply lookup_delete_None. by right.
  - intros p x n [_ Hn]%lookup_delete_Some. destruct (Hok p x n Hn) as [Hx Hp]. split; [done|].
    rewrite node_at_delete, decide_False; [done|]. intros ->. by destruct (Ht _ Hp) as (? & ? & ?).
Qed.
End clear.

(** ** Writing the temporary file *)

Section write.
Context (w1 : World) (ds : list string) (tc : string).
Notation fs1 := (os_fs (w_os w1)).
Notation t := (ds ++ [tc]).
Context (Hok : fs_ok fs1) (Hds : Forall name ds) (Htc : name tc) (Hdir : real_dir fs1 ds).
Context (Ht : forall n, node_at fs1 t = Some n -> exists content perm, n = NFile content perm).

(** The world of [w1] but for the file at [t]. *)
Definition os0 : Os := with_fs (w_os w1) (delete t fs1).
Notation has := (has_temp os0 ds tc).

Lemma names_t : Forall name t.
Proof. apply Forall_app. split; [done|]. repeat constructor; apply Htc. Qed.
Lemma has_insert w n : w_os w = with_fs (w_os w1) (<[t := n]> fs1) -> has w n.
Proof. intros E. unfold has_temp, os0, with_fs in *. cbn. by rewrite insert_delete_eq. Qed.
Lemma has_fs w n : has w n -> os_fs (w_os w) = <[t := n]> (delete t fs1).
Proof. by intros ->. Qed.
Lemma has_update w content perm f r os' :
  has w (NFile content perm) -> update_at t f (w_os w) = (r, os') ->
  r = Ok tt /\ os' = with_fs os0 (<[t := f content perm]> (os_fs os0)).
Proof.
  intros Hw. unfold update_at. rewrite (has_fs _ _ Hw), node_at_insert by (by destruct ds).
  rewrite decide_True by done. intros [= <- <-]. split; [done|]. rewrite Hw. unfold with_fs; cbn. by rewrite insert_insert_eq.
Qed.

Lemma open_trunc_t perm :
  exists q, open_trunc (render true t) perm (w_os w1) = (Ok t, with_fs (w_os w1) (<[t := NFile [] q]> fs1)).
Proof.
  unfold open_trunc. rewrite locate_real by (apply names_t || done). unfold at_path; cbn [fst snd].
  destruct (node_at fs1 t) as [n|] eqn:En; [|by eexists].
  destruct (Ht _ eq_refl) as (content & old & ->). by eexists.
Qed.

Lemma WriteFile_spec data perm r w' :
  WriteFile (render true t) data perm w1 = (r, w') ->
  match r with
  | Ok _ => exists q, has w' (NFile data q)
  | Err _ => w_os w' = w_os w1 \/ exists n, has w' n
  end.
Proof.
  unfold WriteFile. intros [(p & w2 & H2 & H)|(e & H2 & ->)]%run_bind.
  2: { apply run_sys in H2 as (_ & [[H2 _]|(e' & n & _ & Ho & _)]); [|by left].
       destruct (open_trunc_t perm) as [q E]. rewrite E in H2. congruence. }
  apply run_sys in H2 as (_ & [[H2 _]|(e' & n & [? _] & _)]); [|done].
  destruct (open_trunc_t perm) as [q E]. rewrite E in H2. injection H2 as -> Ho2. apply has_insert in Ho2.
  apply run_bind in H as [(r3 & w3 & H3 & H)|(e & (? & ? & _)%run_try & _)]; [|done].
  apply run_try in H3 as (r3' & [= ->] & H3).
  assert (exists k, (r3' = Ok tt -> k = length data) /\ has w3 (NFile (take k data) q)) as (k & Hk & Hw3).
  { apply run_sys in H3 as (_ & [[H3 _]|(e & k & [-> _] & Ho3 & _)]).
    - symmetry in H3. eapply has_update in H3 as [-> H3]; [|done]. exists (length data). by rewrite firstn_all.
    - exists k. split; [done|]. unfold has_temp. rewrite Ho3.
      destruct (update_at _ _ _) as [r4 os4] eqn:E4. by apply (has_update _ _ _ _ _ _ Ho2) in E4 as [_ ->]. }
  apply run_bind in H as [(r4 & w4 & H4 & H)|(e & (? & ? & _)%run_try & _)]; [|done].
  apply run_try in H4 as (r4' & [= ->] & H4).
  assert (w_os w4 = w_os w3) as Ho4.
  { apply run_sys in H4 as (_ & [[H4 _]|(e & n & _ & Ho4 & _)]); [by injection H4|done]. }
  assert (has w4 (NFile (take k data) q)) as Hw4 by (unfold has_temp; by rewrite Ho4).
  destruct r3' as [[]|e3]; [|injection H as <- <-; right; by eexists].
  rewrite (Hk eq_refl), firstn_all in Hw4. injection H as <- <-. destruct r4' as [[]|e4]; [by exists q|right; by eexists].
Qed.

Lemma canonical_t w content perm : has w (NFile content perm) -> namei (os_fs (w_os w)) (parts (render true t)) = Ok t.
Proof.
  intros Hw. rewrite namei_render by apply names_t. apply namei_canonical; [apply names_t|].
  assert (real_dir (os_fs (w_os w)) ds) as Hd.
  { rewrite (has_fs _ _ Hw). apply real_dir_insert; [by apply real_dir_delete|]. rewrite length_app. cbn. lia. }
  split; [by apply real_parents_snoc|]. exists (NFile content perm). split; [|done].
  rewrite (has_fs _ _ Hw), node_at_insert by (by destruct ds). by rewrite decide_True.
Qed.

Lemma os_Chmod_spec mode w content perm r w' :
  has w (NFile content perm) -> os_Chmod (render true t) mode w = (r, w') ->
  match r with Ok _ => has w' (NFile content mode) | Err _ => has w' (NFile content perm) end.
Proof.
  intros Hw H. apply run_sys in H as (_ & [[H _]|(e & n & [-> _] & Ho & _)]); [|unfold has_temp; by rewrite Ho].
  rewrite (canonical_t _ _ _ Hw) in H. symmetry in H. by eapply has_update in H as [-> H].
Qed.

Lemma has_same w n q : has w n -> q <> t -> node_at (os_fs (w_os w)) q = node_at fs1 q.
Proof.
  intros Hw Hq. rewrite (has_fs _ _ Hw), node_at_insert, decide_False by (done || by destruct ds).
  by rewrite node_at_delete, decide_False.
Qed.

Lemma save_file_spec c data r w' :
  name c -> tc <> c ->
  (WriteFile (render true t) data private;;
   r0 ← try (os_Chmod (render true t) private);
   match r0 with
   | Err e => _ ← try (Remove (render true t)); fail e
   | Ok _ => Rename (render true t) (render true (ds ++ [c]))
   end) w1 = (r, w') ->
  match r with
  | Ok _ => w_os w' = with_fs os0 (<[ds ++ [c] := NFile data private]> (os_fs os0))
  | Err _ => forall q, q <> t -> node_at (os_fs (w_os w')) q = node_at fs1 q
  end.
Proof.
  intros Hc Hne [([] & w2 & H2%WriteFile_spec & H)|(e & H2%WriteFile_spec & ->)]%run_bind.
  2: { intros q Hq. destruct H2 as [->|[n H2]]; [done|]. by eapply has_same. }
  destruct H2 as [k H2]. apply run_bind in H as [(r3 & w3 & H3 & H)|(e & (? & ? & _)%run_try & _)]; [|done].
  apply run_try in H3 as (r3' & [= ->] & H3). apply (os_Chmod_spec _ _ _ _ _ _ H2) in H3.
  destruct r3' as [[]|e3].
  - apply (Rename_temp os0 ds (ds ++ [c]) tc data private) in H as [_ H]; try done.
    + destruct r as [[]|e]; [apply H|]. intros q Hq. rewrite H. by eapply has_same.
    + apply (fs_ok_delete _ _ _ Ht Hok).
    + by apply real_dir_delete.
    + apply Forall_app. split; [done|]. constructor; [exact Hc|constructor].
    + right. by eexists.
    + cbn. by rewrite node_at_delete, decide_True.
  - apply run_bind in H as [(r4 & w4 & H4 & H)|(e & (? & ? & _)%run_try & _)]; [|done].
    injection H as <- <-. apply run_try in H4 as (r4' & _ & H4). intros q Hq.
    apply Remove_spec in H4; [|apply names_t| |].
    + destruct H4 as [[-> _]|[-> _]]; [|by eapply has_same]. cbn.
      rewrite node_at_delete, decide_False by done. by eapply has_same.
    + rewrite (has_fs _ _ H3). apply real_dir_insert; [by apply real_dir_delete|]. rewrite length_app. cbn. lia.
    + rewrite (has_fs _ _ H3), lookup_insert_eq. by eexists.
Qed.
End write.


(** ** The claim *)

(** Nothing changed but at [p] and [t], and directories made on the way to [ds]. *)
Definition only_at (p t ds : list string) (fs fs' : fsys) : Prop :=
  forall q, q <> p -> q <> t ->
    node_at fs' q = node_at fs q \/ (q `prefix_of` ds /\ node_at fs q = None /\ node_at fs' q = Some NDir).

Lemma not_below_dir (ds : list string) x : ~ (ds ++ [x]) `prefix_of` ds.
Proof. intros [k E]. apply (f_equal length) in E. rewrite !length_app in E. cbn in E. lia. Qed.

Lemma grown_entry ds x fs fs' : grown ds fs fs' -> node_at fs' (ds ++ [x]) = node_at fs (ds ++ [x]).
Proof. intros Hg. destruct (grown_node_at _ _ _ (ds ++ [x]) Hg) as [E|[H _]]; [done|]. by apply not_below_dir in H. Qed.

Section claim.
Context (MarshalIndent : json -> list byte).
Context (json_parse : list byte -> option json).
Context (float64 : string -> option string).

Lemma Unmarshal_Marshal_credentials c :
  let j := Marshal credentials_type (credentials_val c) in
  json_parse (MarshalIndent j) = Some j -> text_ok (cr_DeviceID c) -> text_ok (cr_Token c) ->
  Unmarshal_credentials json_parse float64 (MarshalIndent j) = Ok c.
Proof.
  intros j Hj H1 H2. unfold Unmarshal_credentials. rewrite Hj. unfold j.
  rewrite decode_Marshal; [by destruct c|done|]. by split_and!.
Qed.

Lemma load_file fs p n c : Forall name p -> real_parents fs p -> p <> [] ->
  node_at fs p = Some (NFile n private) -> incomplete c = false ->
  Unmarshal_credentials json_parse float64 n = Ok c ->
  forall os, os_fs os = fs -> load json_parse float64 (render true p) os = Ok c.
Proof.
  intros Hn Hr Hp Hat Hc HU os <-. unfold load, loadCredentials, read_all.
  rewrite namei_render, (namei_canonical _ p) by (done || (split; [done|]; by exists (NFile n private))).
  cbn [mbind result_bind]. rewrite Hat. cbn [mbind result_bind]. rewrite HU. cbn [mbind result_bind]. by rewrite Hc.
Qed.

(** The credential file is replaced in one step, or left as it was, whichever
    of the system calls fails. *)
Lemma saveCredentials_spec ds c creds w r w' :
  let p := ds ++ [c] in
  let t := ds ++ [tmp_name c] in
  let fs := os_fs (w_os w) in
  let j := Marshal credentials_type (credentials_val creds) in
  Forall name p -> fs_ok fs -> link_free fs ds ->
  (forall n, node_at fs t = Some n -> exists content perm, n = NFile content perm) ->
  json_parse (MarshalIndent j) = Some j ->
  text_ok (cr_DeviceID creds) -> text_ok (cr_Token creds) -> incomplete creds = false ->
  saveCredentials MarshalIndent (render true p) creds w = (r, w') ->
  only_at p t ds fs (os_fs (w_os w')) /\
  match r with
  | Ok _ =>
      node_at (os_fs (w_os w')) p = Some (NFile (MarshalIndent j) private) /\
      node_at (os_fs (w_os w')) t = None /\
      load json_parse float64 (render true p) (w_os w') = Ok creds
  | Err _ => node_at (os_fs (w_os w')) p = node_at fs p
  end.
Proof.
  intros p t fs j Hn Hok Hl Ht Hj Hi Htk Hc H. unfold saveCredentials in H.
  rewrite decide_False in H by done. unfold p in H. rewrite Dir_render, rel_elements_render, render_tmp in H
    by (done || by apply Forall_app in Hn as [? _]).
  pose proof (proj1 (Forall_app _ _ _) Hn) as [Hds Hcn]. apply Forall_cons in Hcn as [Hcn _].
  assert (tmp_name c <> c) as Hne by (intros E; apply (tmp_name_ne ds c); by rewrite E).
  apply run_bind in H as [([] & w1 & H1 & H)|(e & H1 & ->)];
    (apply MkdirAll_spec in H1 as (_ & fs1 & E1 & Hok1 & Hg & Hd); rewrite ?reverse_involutive in *; [|done..]).
  2: { rewrite E1. cbn. split; [intros q _ _; by apply grown_node_at|]. by apply grown_entry. }
  specialize (Hd eq_refl). assert (os_fs (w_os w1) = fs1) as Efs by by rewrite E1.
  apply (save_file_spec w1 ds (tmp_name c)) in H; try done; rewrite ?Efs; try done.
  2: by apply tmp_name_ok.
  2: { intros n. rewrite (grown_entry _ _ _ _ Hg). apply Ht. }
  destruct r as [[]|e].
  - rewrite H. unfold os0, with_fs; cbn [os_fs]. rewrite Efs.
    assert (forall q, node_at (<[p:=NFile (MarshalIndent j) private]> (delete t fs1)) q =
      if decide (q = p) then Some (NFile (MarshalIndent j) private) else
      if decide (q = t) then None else node_at fs1 q) as Hat.
    { intros q. rewrite node_at_insert by (by destruct ds). unfold t. by rewrite node_at_delete. }
    split; [|split_and!].
    + intros q Hp Hq. rewrite Hat, !decide_False by done. by apply grown_node_at.
    + by rewrite Hat, decide_True.
    + rewrite Hat, decide_False, decide_True; [done|done|]. apply tmp_name_ne.
    + eapply load_file; [done| | | |done|by apply Unmarshal_Marshal_credentials|done].
      * cbn. apply real_parents_snoc, real_dir_insert; [by apply real_dir_delete|]. unfold p. rewrite length_app. cbn. lia.
      * by destruct ds.
      * cbn. by rewrite Hat, decide_True.
  - split.
    + intros q Hp Hq. rewrite (H q Hq), Efs. by apply grown_node_at.
    + rewrite H, Efs; [by apply grown_entry|]. intros E. by apply (tmp_name_ne ds c).
Qed.

(** C32 The credentials of a pairing are saved in one step in a file that its owner
    alone may read: whichever system call fails, a credential file that was
    there is never lost or half written, and nothing else changes but the
    temporary file beside it and the directories on the way.  When saving
    worked the temporary file is gone, and every later start of the agent uses
    the same credentials and does not pair again. *)
Theorem paired_credentials_are_kept ds c cfg creds w r w' :
  let p := ds ++ [c] in
  let t := ds ++ [tmp_name c] in
  let fs := os_fs (w_os w) in
  let j := Marshal credentials_type (credentials_val creds) in
  let start := start_credentials MarshalIndent json_parse float64 (render true p) cfg in
  Forall name p -> fs_ok fs -> link_free fs ds ->
  (forall n, node_at fs t = Some n -> exists content perm, n = NFile content perm) ->
  json_parse (MarshalIndent j) = Some j ->
  text_ok (cr_DeviceID creds) -> text_ok (cr_Token creds) -> incomplete creds = false ->
  incomplete (mkCredentials (Config.DeviceID cfg) (AgentToken cfg)) = true ->
  is_ok (load json_parse float64 (render true p) (w_os w)) = false ->
  start (Ok creds) w = (r, w') ->
  r = Ok creds /\ only_at p t ds fs (os_fs (w_os w')) /\
  (node_at (os_fs (w_os w')) p = node_at fs p \/
   node_at (os_fs (w_os w')) p = Some (NFile (MarshalIndent j) private) /\
   node_at (os_fs (w_os w')) t = None /\
   forall paired, start paired w' = (Ok creds, w')).
Proof.
  intros p t fs j start Hn Hok Hl Ht Hj Hi Htk Hc Hcfg Hload. unfold start, start_credentials, main_credentials.
  rewrite Hcfg. destruct (load _ _ _ (w_os w)) as [x|e]; [discriminate Hload|]. rewrite Hcfg. cbn [mbind result_bind].
  intros [= <- <-]. destruct (saveCredentials _ _ _ w) as [r w'] eqn:H. cbn [snd].
  apply saveCredentials_spec in H as [Ho H]; try done. split; [done|]. split; [exact Ho|].
  destruct r as [[]|e']; [right|by left]. destruct H as (H1 & H2 & H3). split; [exact H1|]. split; [exact H2|].
  fold p in H3. intros paired. rewrite H3, Hc. done.
Qed.
End claim.
