(* ===== verification/AgentDemo.v ===== *)
(** * A session of the agent, and the witnesses of AgentRun.v and AgentFilesProps.v *)
From S2P Require Import Prelude Crypto GoStrings Text Json Protocol Struct Config.
From S2P Require Import Filepath FileSystem PathPolicy FileOps Executor FileProps ExecutorProps ToolClaims.
From S2P Require Import OsProc ProcessMgr SearchMgr Tools ToolsProps ToolsDemo.
From S2P Require Import OrcAgent AgentRun AgentFiles AgentFilesProps.
Local Open Scope Z_scope.

Notation demo_run :=
  (AgentRun.run demo_policy true (fun s => s) (fun _ => Err (NewErr "no regexp")) demo_dec
    (fun _ => Ok demo_value) (fun _ => EmptyString)).

(** A call is taken, a ping is sent and another answered, the handler writes
    its answer, and the connection breaks. *)
Definition demo_actions : list action :=
  [SRead (Ok demo_frame) false; STick (Ok tt); SRead (Ok pingFrame) true; SReply 0 demo_env true;
   SRead (Err (Foreign "EOF")) false].

Lemma session_answers_each_call_witness :
  exists s, demo_run demo_actions (new_session demo_agent) = Some s /\
    [demo_frame] ≡ₚ (se_answered s).*1 /\ Frame_Type <$> se_written s = [TypePing; TypePong; TypeResult] /\
    filter (fun f => Frame_Type f = TypeResult) (se_written s) `sublist_of` (se_answered s).*2.
Proof.
  eexists. split; [reflexivity|].
  destruct (session_answers_each_call demo_policy true (fun s => s) (fun _ => Err (NewErr "no regexp")) demo_dec
    (fun _ => Ok demo_value) (fun _ => EmptyString) demo_agent demo_actions _ demo_env eq_refl) as (H1 & _ & H2 & _).
  split; [exact H1|]. split; [reflexivity|exact H2].
Defined.

Lemma retries_back_off_witness : 2 * Second = Z.min (2 ^ 1 * Second) (30 * Second).
Proof.
  apply (retries_back_off [Returned false; Fired false; Returned false; Done] 1). reflexivity.
Defined.

(** A printer for objects of strings, and a reader of one text. *)
Definition quote_mark : Ascii.ascii := Ascii.Ascii false true false false false true false false.
Definition quoted (s : string) : string := String quote_mark (s +:+ String quote_mark EmptyString).
Definition demo_MarshalIndent (j : json) : list byte :=
  match j with
  | JObject l =>
      let entry := fun kv : string * json => match kv.2 with JString v => quoted kv.1 +:+ ": " +:+ quoted v | _ => quoted kv.1 end in
      bytes_of_string ("{ " +:+ Join (entry <$> l) ", " +:+ " }")
  | _ => []
  end.
Definition demo_creds : credentials := mkCredentials "dev_1" "tok".
Definition demo_creds_json : json := Marshal credentials_type (credentials_val demo_creds).
Definition demo_json_parse (b : list byte) : option json :=
  if decide (b = demo_MarshalIndent demo_creds_json) then Some demo_creds_json else None.

(** Whether a path leads through no link. *)
Definition link_freeb (fs : fsys) (p : list string) : bool :=
  forallb (fun n => match node_at fs (take n p) with Some (NLink _) => false | _ => true end) (seq 0 (S (length p))).
Lemma link_freeb_ok fs p : link_freeb fs p = true -> link_free fs p.
Proof.
  unfold link_freeb. rewrite forallb_forall. intros H q k t -> Hq.
  assert (List.In (length q) (seq 0 (S (length (q ++ k))))) as Hin%H by (apply in_seq; rewrite length_app; lia).
  by rewrite take_app_length, Hq in Hin.
Qed.

Definition demo_cfg : Config.Agent :=
  Config.mkAgent "https://s" "" "" "laptop" ["/srv/data"] 2 100 100 false false.
Notation demo_start :=
  (start_credentials demo_MarshalIndent demo_json_parse (fun _ => None) "/srv/data/.config/device.json" demo_cfg).
Definition started_world : World := (demo_start (Ok demo_creds) tool_world).2.

(** The first start pairs, the second one does not. *)
Lemma paired_credentials_are_kept_witness :
  (demo_start (Ok demo_creds) tool_world).1 = Ok demo_creds /\
  demo_start (Err (NewErr "pairing expired")) started_world = (Ok demo_creds, started_world).
Proof.
  destruct (paired_credentials_are_kept demo_MarshalIndent demo_json_parse (fun _ => None)
    ["srv"; "data"; ".config"]%string "device.json" demo_cfg demo_creds tool_world (demo_start (Ok demo_creds) tool_world).1 started_world) as (H1 & _ & H);
    [apply names_of; vm_compute; reflexivity|apply fs_okb_ok; vm_compute; reflexivity|
     apply link_freeb_ok; vm_compute; reflexivity|vm_compute; discriminate|..];
    try (vm_compute; reflexivity).
  split; [exact H1|]. destruct H as [H|(_ & _ & H)]; [vm_compute in H; discriminate H|]. exact (H _).
Defined.

Example agent_starts : is_ok (start_agent demo_cfg tool_world) = true.
Proof. vm_compute. reflexivity. Qed.
