(* ===== verification/Token.v ===== *)
(** * The token command: cmd/orc-token/main.go

    [flag.Parse] is left to package flag: a flag that was not given is [None].
    [Err] is an exit with status 2, and [Ok] is what is printed. *)
From S2P Require Import Prelude Crypto GoStrings Text Json Http Authn AuthnProps Store RelayHub Effects Mcp Config.
From S2P Require Import OrcServer OrcServerProps.
From S2P Require ControlPlane.
Local Open Scope Z_scope.

(** The command line. *)
Record flags := mkFlags {
  flag_sub : option string;
  flag_scope : option string;
  flag_ttl : option Z;
  flag_audience : option string }.

(** [strings.ReplaceAll(s, ",", " ")] *)
Definition commas_to_spaces (s : string) : string :=
  string_of_bytes ((fun b => if decide (b = z2b 44) then z2b 32 else b) <$> bytes_of_string s).
Definition scopes_of (f : flags) : list string :=
  Fields (commas_to_spaces (default "orc:tools"%string (flag_scope f))).

Section Token.
Context (getenv : string -> string).
Context (json_Marshal : Claims -> result (list byte)).

(** [func env(k, fallback string) string] *)
Definition env (k fallback : string) : string :=
  let v := TrimSpace (getenv k) in if decide (v <> EmptyString) then v else fallback.

(** [func main()] *)
Definition main (f : flags) (now : Z) : result string :=
  let sub := default "dev-user"%string (flag_sub f) in
  let ttl := default Hour (flag_ttl f) in
  let audience := default (env "ORC_AUTH_AUDIENCE" "http://127.0.0.1:8080/mcp") (flag_audience f) in
  let secret := getenv "ORC_HMAC_SECRET"%string in
  v ← NewHMACVerifier (bytes_of_string secret) audience;
  Mint json_Marshal now sub (scopes_of f) ttl v.

(** ** A development server in the same environment *)

Context (unicode_ToLower : string -> string).
Context (url_Parse : string -> result URL).
Context (ParseIP : string -> option (list byte)).
Context {N : Type} (NewNeonHTTP : string -> string -> result N).
Context (json_Unmarshal : list byte -> result Claims).
Context (json_roundtrip : forall c b, claims_text c -> json_Marshal c = Ok b -> json_Unmarshal b = Ok c).

(** The verifier of the server and the one of the command are the same. *)
Lemma dev_verifier raw expiry sv :
  main_service getenv unicode_ToLower url_Parse ParseIP NewNeonHTTP raw expiry = Ok sv ->
  AuthMode (sv_config sv) = "dev"%string ->
  exists v, sv_verifier sv = VHMAC v /\
    NewHMACVerifier (bytes_of_string (getenv "ORC_HMAC_SECRET"))
      (env "ORC_AUTH_AUDIENCE" "http://127.0.0.1:8080/mcp") = Ok v /\
    hv_audience v = AuthAudience (sv_config sv).
Proof.
  intros Hsv Hm. apply result_bind_ok in Hsv as (c & Hc & Hsv). apply LoadServer_Ok in Hc as [-> _].
  apply result_bind_ok in Hsv as (st & _ & Hsv). apply result_bind_ok in Hsv as (ver & Hv & Hsv).
  apply result_bind_ok in Hsv as (trust & _ & [= <-]). cbn [sv_config sv_verifier] in *.
  unfold buildVerifier in Hv. rewrite decide_True in Hv by exact Hm.
  change (HMACSecret (server_of_env getenv unicode_ToLower)) with (getenv "ORC_HMAC_SECRET"%string) in Hv.
  change (AuthAudience (server_of_env getenv unicode_ToLower)) with (env "ORC_AUTH_AUDIENCE" "http://127.0.0.1:8080/mcp") in *.
  set (made := NewHMACVerifier _ _) in *. destruct made as [v|e] eqn:E; [|discriminate Hv].
  injection Hv as <-. exists v. split; [done|]. split; [done|]. unfold made, NewHMACVerifier in E.
  case_match; [done|]. case_decide; [done|]. by injection E as <-.
Qed.

(** C29 The command does for a development server what it is there for: a token
    printed in the environment of a server that starts in the mode dev is
    accepted by the verifier of that server, as the subject and the scopes of
    the command line, from one minute before it was printed until it expires,
    and at no other time; without the flag -scope it opens every route that
    asks for orc:tools. *)
Theorem dev_tokens_are_accepted raw expiry sv f t0 t token :
  let sub := default "dev-user"%string (flag_sub f) in
  let ttl := default Hour (flag_ttl f) in
  main_service getenv unicode_ToLower url_Parse ParseIP NewNeonHTTP raw expiry = Ok sv ->
  AuthMode (sv_config sv) = "dev"%string -> flag_audience f = None ->
  text sub -> text (AuthAudience (sv_config sv)) -> Forall text (scopes_of f) ->
  time_ok t0 -> time_ok t -> time_ok (t0 + ttl) ->
  main f t0 = Ok token ->
  exists v, sv_verifier sv = VHMAC v /\
    Verify json_Unmarshal t token v =
      (if decide (t0 / Second - 60 <= t / Second < (t0 + ttl) / Second)
       then Ok (mkIdentity sub (scope_set (scopes_of f)) ((t0 + ttl) / Second * Second))
       else Err ErrInvalidToken) /\
    (flag_scope f = None -> forall id, Verify json_Unmarshal t token v = Ok id -> HasScope id ControlPlane.toolScope = true).
Proof.
  intros sub ttl Hsv Hmode Haud Hs Ha Hsc H0 Ht Hx Hm.
  destruct (dev_verifier _ _ _ Hsv Hmode) as (v & Ev & Hv & Hva). exists v. split; [exact Ev|].
  unfold main in Hm. rewrite Haud in Hm. cbn [default] in Hm. rewrite Hv in Hm. cbn [mbind result_bind] in Hm.
  rewrite <- Hva in Ha.
  pose proof (minted_token_verifies json_Marshal json_Unmarshal json_roundtrip t0 t sub (scopes_of f) ttl token v Hs Ha Hsc H0 Ht Hx Hm) as E.
  split; [exact E|]. intros Hd id. rewrite E. case_decide; [|done]. intros [= <-].
  unfold scopes_of. rewrite Hd. vm_compute. reflexivity.
Qed.
End Token.

(** ** A run *)

Definition dev_secret : string := "0123456789abcdef0123456789abcdef".
Definition dev_getenv (k : string) : string :=
  if decide (k ∈ ["ORC_HMAC_SECRET"; "ORC_PAIRING_SECRET"]%string) then dev_secret else EmptyString.
Notation dev_main :=
  (main_service dev_getenv (fun s => s) (fun s => Ok (mkURL "http" "127.0.0.1:8080" s)) demo_ParseIP
    (fun _ _ => Err (New "no database"))).
Definition dev_flags : flags := mkFlags None None None None.
Definition dev_token : string :=
  match main dev_getenv demo_Marshal dev_flags (at_second 1000) with Ok t => t | Err _ => EmptyString end.

Example other_scopes : scopes_of (mkFlags None (Some "orc:tools, read"%string) None None) = ["orc:tools"; "read"]%string.
Proof. vm_compute. reflexivity. Qed.

Lemma dev_tokens_are_accepted_witness :
  exists sv v, (dev_main (Ok []) 0 : result (Service unit)) = Ok sv /\ sv_verifier sv = VHMAC v /\
    Verify demo_Unmarshal (at_second 2000) dev_token v =
      (if decide (at_second 1000 / Second - 60 <= at_second 2000 / Second < (at_second 1000 + Hour) / Second)
       then Ok (mkIdentity "dev-user" (scope_set (scopes_of dev_flags)) ((at_second 1000 + Hour) / Second * Second))
       else Err ErrInvalidToken).
Proof.
  destruct (dev_main (Ok []) 0 : result (Service unit)) as [sv|e] eqn:E; [|vm_compute in E; discriminate E].
  assert (sv_config sv = server_of_env dev_getenv (fun s => s)) as Ec.
  { revert E. vm_compute. intros [= <-]. reflexivity. }
  destruct (dev_tokens_are_accepted dev_getenv demo_Marshal (fun s => s) (fun s => Ok (mkURL "http" "127.0.0.1:8080" s))
    demo_ParseIP (fun _ _ => Err (New "no database")) demo_Unmarshal demo_roundtrip (Ok []) 0 sv dev_flags
    (at_second 1000) (at_second 2000) dev_token E) as (v & Ev & H & _);
    [by rewrite Ec|done|vm_compute; reflexivity|rewrite Ec; vm_compute; reflexivity|vm_compute; by repeat constructor|
     split; vm_compute; congruence..|vm_compute; reflexivity|].
  exists sv, v. split; [reflexivity|]. split; [exact Ev|exact H].
Defined.
