(* ===== verification/Mux.v ===== *)
(** * net/http.ServeMux, as far as the server uses it

    Patterns with a method, literals and wildcards, and how a request finds
    its handler.  No pattern of the server names a host.  Names of wildcards
    are not checked.  When two patterns match, Go takes the more specific one
    and refuses to register two of which neither is; here the first one of a
    method wins, and a table is fit to be used when its patterns are pairwise
    [apart], so that at most one matches. *)
From S2P Require Import Prelude Crypto GoStrings Filepath.
Local Open Scope Z_scope.

(** ** Patterns *)

Inductive segment :=
| Lit (s : string)
| Wild (name : string)
| Multi (name : string).

#[global] Instance segment_eq_dec : EqDecision segment.
Proof. solve_decision. Defined.

Record pattern := mkPattern { pat_method : string; pat_segments : list segment }.

#[global] Instance pattern_eq_dec : EqDecision pattern.
Proof. solve_decision. Defined.

(** [url.PathUnescape]: [None] is an error. *)
Definition hex_value (b : byte) : option Z :=
  let z := b2z b in
  if (48 <=? z) && (z <=? 57) then Some (z - 48)
  else if (97 <=? z) && (z <=? 102) then Some (z - 87)
  else if (65 <=? z) && (z <=? 70) then Some (z - 55)
  else None.
Fixpoint unescape (l : list byte) : option (list byte) :=
  match l with
  | [] => Some []
  | b :: l' =>
      if b2z b =? 37 then
        match l' with
        | x :: y :: l'' => h ← hex_value x; k ← hex_value y; r ← unescape l''; Some (z2b (16 * h + k) :: r)
        | _ => None
        end
      else r ← unescape l'; Some (b :: r)
  end.
Definition pathUnescape (s : string) : string :=
  match unescape (bytes_of_string s) with Some b => string_of_bytes b | None => s end.

Definition brace_open : byte := z2b 123.
Definition brace_close : byte := z2b 125.

(** One segment, with whether it is the last one. *)
Definition parse_segment (seg : string) (is_last : bool) : option segment :=
  match bytes_of_string seg with
  | b :: inner =>
      if decide (b = brace_open) then
        if decide (last inner = Some brace_close) then
          let name := removelast inner in
          if decide (name = bytes_of_string "$") then if is_last then Some (Lit "/") else None
          else
            match strip_prefix (bytes_of_string "...") (reverse name) with
            | Some name' => if is_last && negb (bool_decide (name' = [])) then Some (Multi (string_of_bytes (reverse name'))) else None
            | None => if decide (name = []) then None else Some (Wild (string_of_bytes name))
            end
        else None
      else if decide (brace_open ∈ inner) then None else Some (Lit (pathUnescape seg))
  | [] => Some (Lit EmptyString)
  end.
Fixpoint parse_segments (segs : list string) : option (list segment) :=
  match segs with
  | [] => Some []
  | [EmptyString] => Some [Multi EmptyString]
  | seg :: rest => s ← parse_segment seg (bool_decide (rest = [])); ss ← parse_segments rest; Some (s :: ss)
  end.

Definition space : Ascii.ascii := Ascii.ascii_of_nat 32.
(** [parsePattern] *)
Definition parsePattern (s : string) : option pattern :=
  let '(method, path) := match Split s space with [m; p] => (m, p) | _ => (EmptyString, s) end in
  match parts path with
  | EmptyString :: segs => ss ← parse_segments segs; Some (mkPattern method ss)
  | _ => None
  end.

Example pattern_device :
  parsePattern "DELETE /api/v1/devices/{device_id}" =
    Some (mkPattern "DELETE" [Lit "api"; Lit "v1"; Lit "devices"; Wild "device_id"]).
Proof. vm_compute. reflexivity. Qed.
Example pattern_rest :
  parsePattern "OPTIONS /api/v1/{rest...}" = Some (mkPattern "OPTIONS" [Lit "api"; Lit "v1"; Multi "rest"]).
Proof. vm_compute. reflexivity. Qed.

(** ** Matching *)

(** The segments of an escaped path that starts with a slash. *)
Definition path_segments (path : string) : list string := tail (parts path).

(** A segment as it is compared: the empty one behind the last slash is "/". *)
Definition segment_text (x : string) (rest : list string) : string :=
  if decide (x = EmptyString /\ rest = []) then "/" else pathUnescape x.

(** The values of the wildcards. *)
Fixpoint matches (segs : list segment) (path : list string) : option (list (string * string)) :=
  match segs, path with
  | [], [] => Some []
  | Lit s :: segs', x :: path' => if decide (segment_text x path' = s) then matches segs' path' else None
  | Wild n :: segs', x :: path' =>
      if decide (segment_text x path' = "/"%string) then None
      else vs ← matches segs' path'; Some ((n, segment_text x path') :: vs)
  | Multi n :: _, _ :: _ => Some (if decide (n = EmptyString) then [] else [(n, pathUnescape (Join path "/"))])
  | _, _ => None
  end.

(** A pattern with GET also takes HEAD, one without a method every method. *)
Definition covers (p : pattern) (method : string) : Prop :=
  pat_method p = EmptyString \/ pat_method p = method \/ (pat_method p = "GET" /\ method = "HEAD")%string.
#[global] Instance covers_dec p m : Decision (covers p m).
Proof. unfold covers. apply _. Defined.

Section table.
Context {H : Type}.
Implicit Type table : list (pattern * H).

Definition find_method (m : string) (path : list string) table : option (pattern * H * list (string * string)) :=
  head (omap (fun ph => if decide (pat_method ph.1 = m)
                        then vs ← matches (pat_segments ph.1) path; Some (ph, vs) else None) table).
(** [routingNode.match] *)
Definition find (m : string) (path : list string) table : option (pattern * H * list (string * string)) :=
  match find_method m path table with
  | Some r => Some r
  | None =>
      match (if decide (m = "HEAD"%string) then find_method "GET" path table else None) with
      | Some r => Some r
      | None => find_method EmptyString path table
      end
  end.

Definition ends_in_slash (path : string) : bool := bool_decide (last (parts path) = Some EmptyString).

(** [exactMatch] *)
Definition exactMatch (n : option (pattern * H * list (string * string))) (path : string) : bool :=
  match n with
  | None => false
  | Some (p, _, _) =>
      match last (pat_segments p) with
      | Some (Multi _) =>
          ends_in_slash path && bool_decide (length (pat_segments p) = length (path_segments path))
      | _ => true
      end
  end.

(** [cleanPath] *)
Definition cleanPath (path : string) : string :=
  if decide (path = EmptyString) then "/"%string
  else
    let p := if HasPrefix path "/" then path else "/" +:+ path in
    let np := Clean p in
    if ends_in_slash p && negb (bool_decide (np = "/"%string)) then np +:+ "/" else np.

(** [matchingMethods], without the slash at the end. *)
Definition methods_at (path : list string) table : list string :=
  omap (fun ph => if decide (matches (pat_segments ph.1) path = None) then None else Some (pat_method ph.1)) table.
Definition matchingMethods (path : string) table : gset string :=
  let found := methods_at (path_segments path) table ++
               (if ends_in_slash path then [] else methods_at (path_segments (path +:+ "/")) table) in
  list_to_set (mjoin ((fun m => if decide (m = "GET"%string) then ["GET"; "HEAD"]%string else [m]) <$> found)).

Inductive found :=
| Found (p : pattern) (h : H) (values : list (string * string))
| Redirect (path : string)
| NotAllowed (methods : gset string)
| NotFound.

(** [ServeMux.findHandler] for an escaped path; the path of a CONNECT request
    is not cleaned. *)
Definition findHandler (method escaped : string) table : found :=
  let path := if decide (method = "CONNECT"%string) then escaped else cleanPath escaped in
  let n := find method (path_segments path) table in
  if negb (exactMatch n path) && negb (ends_in_slash path)
     && exactMatch (find method (path_segments (path +:+ "/")) table) (path +:+ "/")
  then Redirect (path +:+ "/")
  else if decide (path <> escaped) then Redirect path
  else match n with
       | Some (p, h, vs) => Found p h vs
       | None => let ms := matchingMethods path table in if decide (ms = ∅) then NotFound else NotAllowed ms
       end.

(** ** Tables in which at most one pattern matches *)

Definition methods_apart (a b : string) : bool :=
  bool_decide (a <> EmptyString) && bool_decide (b <> EmptyString) && bool_decide (a <> b) &&
  negb (bool_decide (a = "GET" /\ b = "HEAD" \/ a = "HEAD" /\ b = "GET")%string).
Fixpoint segments_apart (a b : list segment) : bool :=
  match a, b with
  | [], [] => false
  | [], _ :: _ | _ :: _, [] => true
  | Multi _ :: _, _ | _, Multi _ :: _ => false
  | Lit s :: a', Lit t :: b' => bool_decide (s <> t) || segments_apart a' b'
  | _ :: a', _ :: b' => segments_apart a' b'
  end.
Definition apart (p q : pattern) : bool :=
  methods_apart (pat_method p) (pat_method q) || segments_apart (pat_segments p) (pat_segments q).
Fixpoint all_apart (l : list pattern) : bool :=
  match l with [] => true | p :: l' => forallb (apart p) l' && all_apart l' end.
End table.
Arguments found : clear implicits.

Lemma methods_apart_sound p q m :
  methods_apart (pat_method p) (pat_method q) = true -> covers p m -> covers q m -> False.
Proof.
  unfold methods_apart, covers. intros H Hp Hq. bool_props.
  destruct Hp as [?|[?|[? ?]]], Hq as [?|[?|[? ?]]]; subst; try done; try congruence; intuition congruence.
Qed.

Lemma segments_apart_sound a b path v :
  segments_apart a b = true -> matches a path = Some v -> matches b path = None.
Proof.
  revert b path v. induction a as [|s a IH]; intros [|t b] [|x path] v Hap Hm; cbn in *; try done; try (by destruct s);
    try (by destruct t).
  destruct s as [s|s|s], t as [t|t|t]; try done; cbn [matches] in *.
  - destruct (decide (segment_text x path = s)) as [E|]; [|done]. destruct (decide (segment_text x path = t)) as [E'|]; [|done].
    bool_props; [congruence|by eapply IH].
  - destruct (decide (segment_text x path = s)); [|done]. destruct (decide (segment_text x path = "/"%string)); [done|].
    by rewrite (IH _ _ _ Hap Hm).
  - destruct (decide (segment_text x path = "/"%string)); [done|]. destruct (decide (segment_text x path = t)); [|done].
    destruct (matches a path) eqn:E; [|done]. by eapply IH.
  - destruct (decide (segment_text x path = "/"%string)); [done|].
    destruct (matches a path) eqn:E; [|done]. by rewrite (IH _ _ _ Hap E).
Qed.

Lemma apart_sound p q m path v :
  apart p q = true -> covers p m -> covers q m -> matches (pat_segments p) path = Some v ->
  matches (pat_segments q) path = None.
Proof.
  unfold apart. intros [H|H]%orb_true_iff Hp Hq Hm; [by destruct (methods_apart_sound p q m)|by eapply segments_apart_sound].
Qed.
Lemma apart_sym p q : apart p q = apart q p.
Proof.
  unfold apart. f_equal.
  - unfold methods_apart. destruct (decide (pat_method p = pat_method q)) as [->|Hn]; [done|].
    rewrite (bool_decide_eq_true_2 _ Hn), (bool_decide_eq_true_2 (pat_method q <> pat_method p)) by congruence.
    rewrite !andb_true_r. f_equal; [apply andb_comm|]. f_equal. apply bool_decide_ext. tauto.
  - generalize (pat_segments p) (pat_segments q). induction l as [|[s|s|s] a IH]; intros [|[t|t|t] b]; cbn; try done; rewrite ?IH; try done.
    f_equal. apply bool_decide_ext. split; congruence.
Qed.

Section find.
Context {H : Type} (table : list (pattern * H)).
Context (Hap : all_apart table.*1 = true).

Lemma all_apart_lookup l i j p q : all_apart l = true ->
  l !! i = Some p -> l !! j = Some q -> i <> j -> apart p q = true.
Proof.
  revert i j. induction l as [|x l IH]; intros i j Ha Hi Hj Hne; [done|]. cbn in Ha. apply andb_true_iff in Ha as [Hx Hl].
  rewrite forallb_forall in Hx. assert (forall k y, l !! k = Some y -> apart x y = true) as Hx'.
  { intros k y Hk. apply Hx, list_elem_of_In. by eapply list_elem_of_lookup_2. }
  destruct i as [|i], j as [|j]; cbn in Hi, Hj; [done|..].
  - injection Hi as ->. by eapply Hx'.
  - injection Hj as ->. rewrite apart_sym. by eapply Hx'.
  - eapply IH; [done|exact Hi|exact Hj|congruence].
Qed.

(** At most one pattern of the table takes a request. *)
Lemma match_unique m path p h v q k v' :
  (p, h) ∈ table -> covers p m -> matches (pat_segments p) path = Some v ->
  (q, k) ∈ table -> covers q m -> matches (pat_segments q) path = Some v' -> p = q /\ h = k /\ v = v'.
Proof.
  intros [i Hi]%list_elem_of_lookup_1 Hp Hm [j Hj]%list_elem_of_lookup_1 Hq Hm'.
  destruct (decide (i = j)) as [->|Hne]; [rewrite Hi in Hj; injection Hj as <- <-; rewrite Hm in Hm'; by injection Hm'|].
  exfalso. assert (apart p q = true) as Ha.
  { eapply (all_apart_lookup table.*1 i j); [done|by rewrite list_lookup_fmap, Hi|by rewrite list_lookup_fmap, Hj|done]. }
  by rewrite (apart_sound _ _ _ _ _ Ha Hp Hq Hm) in Hm'.
Qed.

Lemma find_method_Some m path p h v :
  find_method m path table = Some (p, h, v) ->
  (p, h) ∈ table /\ pat_method p = m /\ matches (pat_segments p) path = Some v.
Proof.
  intros Hf%head_Some_elem_of. apply list_elem_of_omap in Hf as ([q k] & Hin & E). cbn in E. case_decide as Hm; [|done].
  destruct (matches (pat_segments q) path) eqn:Ev; [|done]. by injection E as -> -> ->.
Qed.
Lemma find_method_None m path : find_method m path table = None ->
  forall p h, (p, h) ∈ table -> pat_method p = m -> matches (pat_segments p) path = None.
Proof.
  intros Hf p h Hin Hm. unfold find_method in Hf. apply head_None in Hf.
  destruct (matches (pat_segments p) path) as [v|] eqn:Ev; [|done]. exfalso.
  eapply (not_elem_of_nil (p, h, v)). rewrite <- Hf. apply list_elem_of_omap. exists (p, h). split; [done|]. cbn. 
  by rewrite decide_True, Ev.
Qed.

Lemma find_Some m path p h v : find m path table = Some (p, h, v) ->
  (p, h) ∈ table /\ covers p m /\ matches (pat_segments p) path = Some v.
Proof.
  unfold find, covers. destruct (find_method m path table) as [r|] eqn:E1.
  { intros [= ->]. apply find_method_Some in E1 as (? & ? & ?). tauto. }
  case_decide as Hm; [destruct (find_method "GET" path table) as [r|] eqn:E2|].
  { intros [= ->]. apply find_method_Some in E2 as (? & ? & ?). tauto. }
  all: intros E3; apply find_method_Some in E3 as (? & ? & ?); tauto.
Qed.

Lemma find_unique m path p h v :
  (p, h) ∈ table -> covers p m -> matches (pat_segments p) path = Some v -> find m path table = Some (p, h, v).
Proof.
  intros Hin Hc Hv. destruct (find m path table) as [[[q k] v']|] eqn:E.
  { apply find_Some in E as (H1 & H2 & H3). by destruct (match_unique _ _ _ _ _ _ _ _ Hin Hc Hv H1 H2 H3) as (-> & -> & ->). }
  exfalso. unfold find in E. destruct (find_method m path table) eqn:E1; [done|].
  destruct (if decide (m = "HEAD"%string) then find_method "GET" path table else None) eqn:E2; [done|].
  assert (forall m', find_method m' path table = None -> pat_method p = m' -> False) as Hno.
  { intros m' Hn Hm'. by rewrite (find_method_None _ _ Hn _ _ Hin Hm') in Hv. }
  destruct Hc as [Hc|[Hc|[Hc ->]]]; [exact (Hno _ E Hc)|exact (Hno _ E1 Hc)|].
  rewrite decide_True in E2 by done. exact (Hno _ E2 Hc).
Qed.
End find.

(** ** Finding a handler *)

Lemma parts_snoc_slash s : parts (s +:+ "/") = parts s ++ [EmptyString].
Proof.
  unfold parts. induction s as [|a s IH]; [done|]. change (String a s +:+ "/") with (String a (s +:+ "/")). cbn [Split].
  rewrite IH. case_decide; [done|]. pose proof (Split_not_nil s slash). by destruct (Split s slash).
Qed.
Lemma path_segments_snoc_slash s : path_segments (s +:+ "/") = path_segments s ++ [EmptyString].
Proof.
  unfold path_segments. rewrite parts_snoc_slash. unfold parts. pose proof (Split_not_nil s slash). by destruct (Split s slash).
Qed.

(** A wildcard for the rest stands at the end of a pattern. *)
Definition is_multi (s : segment) : bool := match s with Multi _ => true | _ => false end.
Definition multi_last (segs : list segment) : bool := forallb (fun s => negb (is_multi s)) (removelast segs).

Lemma segment_text_more x path l : path <> [] -> segment_text x (path ++ l) = segment_text x path.
Proof. intros H. unfold segment_text. rewrite !decide_False; [done|naive_solver|]. intros [_ E]. by destruct path. Qed.

(** A pattern with a wildcard for the rest takes a longer path too. *)
Lemma matches_longer pre n path y :
  forallb (fun s => negb (is_multi s)) pre = true ->
  is_Some (matches (pre ++ [Multi n]) path) ->
  is_Some (matches (pre ++ [Multi n]) (path ++ [y])) /\ (length pre < length path)%nat.
Proof.
  revert path. induction pre as [|s pre IH]; intros [|x path] Hp Hm; try (destruct Hm as [? Hm]; first [discriminate Hm|by destruct s]).
  - split; [by eexists|cbn; lia].
  - cbn [forallb] in Hp. apply andb_true_iff in Hp as [Hs Hp].
    assert (is_Some (matches (pre ++ [Multi n]) path)) as Hm'.
    { destruct Hm as [v Hm]. destruct s; cbn in Hm; [case_decide; [by eexists|done]| |done].
      case_decide; [done|]. destruct (matches _ path); [by eexists|done]. }
    destruct (IH _ Hp Hm') as [H1 H2]. split; [|cbn; lia]. assert (path <> []) as Hne by (intros ->; cbn in H2; lia).
    destruct s as [s|s|s]; [..|done]; cbn [matches app] in *; rewrite segment_text_more by done; destruct Hm as [v Hm].
    + destruct (decide (segment_text x path = s)); [exact H1|done].
    + destruct (decide (segment_text x path = "/"%string)); [done|]. destruct H1 as [v' ->]. by eexists.
Qed.

Lemma ends_in_slash_segments path : IsAbs path = true -> ends_in_slash path = bool_decide (last (path_segments path) = Some EmptyString).
Proof.
  unfold ends_in_slash, path_segments, IsAbs, HasPrefix. destruct path as [|c path]; [done|]. intros Hp.
  assert (c = slash) as ->.
  { by destruct c as [[] [] [] [] [] [] [] []]. }
  change (parts (String slash path)) with (EmptyString :: parts path). cbn [tail].
  unfold parts. pose proof (Split_not_nil path slash). by destruct (Split path slash).
Qed.

Section handler.
Context {H : Type} (table : list (pattern * H)).
Context (Hap : all_apart table.*1 = true).
Context (Hml : forallb (fun p => multi_last (pat_segments p)) table.*1 = true).

(** A request with a clean path runs the handler of the pattern that takes it. *)
Lemma findHandler_found m path p h v :
  m <> "CONNECT"%string -> IsAbs path = true -> cleanPath path = path ->
  (p, h) ∈ table -> covers p m -> matches (pat_segments p) (path_segments path) = Some v ->
  findHandler m path table = Found p h v.
Proof.
  intros Hm Ha Hc Hin Hcov Hv. unfold findHandler. rewrite decide_False by done. rewrite Hc.
  rewrite (find_unique table Hap _ _ _ _ _ Hin Hcov Hv).
  replace (negb _ && negb _ && _) with false; [by rewrite decide_False by (intros E; exact (E eq_refl))|].
  symmetry. apply andb_false_iff. cbn [exactMatch].
  assert (multi_last (pat_segments p) = true) as Hp.
  { rewrite forallb_forall in Hml. apply Hml, list_elem_of_In. by apply (list_elem_of_fmap_2 fst) in Hin. }
  destruct (pat_segments p) as [|s pre _] eqn:Ep using rev_ind; [by left|]. rewrite last_snoc.
  destruct s as [s|s|n]; [by left..|]. destruct (ends_in_slash path) eqn:Es; [left; apply andb_false_r|right].
  unfold multi_last in Hp. rewrite removelast_last in Hp.
  destruct (matches_longer pre n (path_segments path) EmptyString Hp) as [[v' Hv'] Hlen]; [by eexists|].
  rewrite path_segments_snoc_slash. rewrite <- Ep in Hv'.
  rewrite (find_unique table Hap _ _ _ _ _ Hin Hcov Hv'). cbn [exactMatch]. rewrite Ep, last_snoc.
  apply andb_false_iff. right. apply bool_decide_eq_false_2. rewrite path_segments_snoc_slash, !length_app. cbn. lia.
Qed.

(** What is run is the handler of a pattern that takes the request. *)
Lemma findHandler_sound m escaped p h v :
  findHandler m escaped table = Found p h v -> (p, h) ∈ table /\ covers p m.
Proof.
  unfold findHandler. set (path := if decide (m = "CONNECT"%string) then escaped else cleanPath escaped).
  destruct (_ && _ && _); [done|]. case_decide; [done|].
  destruct (find m (path_segments path) table) as [[[q k] v']|] eqn:E; [|case_decide; discriminate].
  intros [= -> -> ->]. apply find_Some in E. tauto.
Qed.
End handler.
