(* ===== verification/Service.v ===== *)
(** * The routes of the server: the second half of cmd/orc-server/main.go

    The mux that [main] fills, behind [securityHeaders], as one handler for
    every request. *)
From S2P Require Import Prelude Crypto GoStrings Text Json Http Authn Store RelayHub Effects Mcp Config OrcServer Mux.
From S2P Require ControlPlane.
Local Open Scope Z_scope.

(** What a handler of the server answers.  [Redirected], [MethodNotAllowed]
    and [PageNotFound] come from the mux itself. *)
Inductive response :=
| FromMcp (r : Mcp.reply)
| FromControlPlane (r : ControlPlane.reply)
| JSONBody (j : json)
| Redirected (path : string)
| MethodNotAllowed (methods : gset string)
| PageNotFound.

Definition handler : Type := Request -> prog response.

(** A handler whose answers are taken as [f] says. *)
Definition as_handler {A} (f : A -> response) (h : Request -> prog A) : handler := fun r => a ← h r; Ret (f a).

(** [r.SetPathValue]. *)
Definition set_PathValue (values : list (string * string)) (r : Request) : Request :=
  mkRequest (Request_Method r) (Request_Header r) (Request_RemoteAddr r) (Request_Query r) (Request_Form r)
    (list_to_map values) (Request_Body r).

Section Service.
Context (parse : list byte -> option json).
Context (Marshal : json -> string).
Context (unicode_ToLower unicode_ToUpper : string -> string).
Context (float64 : string -> option string).
Context (error_text : error -> string).
Context (time_json : Z -> json).
Context (ParseIP : string -> option (list byte)).
Context (first_json : list byte -> option json).
Context (QueryEscape : string -> string).
Context {N : Type}.
Implicit Type sv : Service N.

(** [/healthz] and [/readyz] *)
Definition status_handler (status : string) : handler :=
  fun _ => Ret (JSONBody (JObject [("status"%string, JString status)])).

Definition metadata_handler (cfg : Server) : handler := fun _ => Ret (JSONBody (protectedResourceMetadata cfg)).

(** [originGuard(cfg.AllowedOrigins, mcpWrap(mcpSrv.Handler()))] *)
Definition mcp_handler sv : Request -> prog Mcp.reply :=
  mcp_route ParseIP (AllowedOrigins (sv_config sv)) (sv_trust sv)
    (serveHTTP parse Marshal unicode_ToLower float64 error_text time_json (sv_metadataURL sv)).

(** The calls of [mux.Handle] and [mux.HandleFunc] in [main], in order. *)
Definition routes sv : list (string * handler) :=
  [("GET /healthz"%string, status_handler "ok"); ("GET /readyz"%string, status_handler "ready")] ++
  ((fun pattern => (pattern, metadata_handler (sv_config sv))) <$> registerMetadataRoutes (sv_config sv)) ++
  [("/mcp"%string, as_handler FromMcp (mcp_handler sv))] ++
  ((fun ph : string * (Request -> prog ControlPlane.reply) => (ph.1, as_handler FromControlPlane ph.2)) <$>
     ControlPlane.Register first_json unicode_ToUpper QueryEscape (sv_controlplane sv)).

(** The mux; [None] is a panic of [mux.Handle]. *)
Definition mux sv : option (list (pattern * handler)) :=
  mapM (fun ph : string * handler => p ← parsePattern ph.1; Some (p, ph.2)) (routes sv).

(** [mux.ServeHTTP] for a request with the given escaped path. *)
Definition mux_serve (table : list (pattern * handler)) (path : string) (r : Request) : prog response :=
  match findHandler (Request_Method r) path table with
  | Found _ h values => h (set_PathValue values r)
  | Redirect to => Ret (Redirected to)
  | NotAllowed methods => Ret (MethodNotAllowed methods)
  | NotFound => Ret PageNotFound
  end.

(** [func securityHeaders(next http.Handler) http.Handler] *)
Definition securityHeaders {A} (next : Request -> prog A) (r : Request) : prog (list (string * string) * A) :=
  reply ← next r;
  Ret ([("X-Content-Type-Options", "nosniff"); ("Referrer-Policy", "no-referrer");
        ("Permissions-Policy", "camera=(), microphone=(), geolocation=()")]%string, reply).

(** The handler of the server. *)
Definition serve sv (path : string) : option (Request -> prog (list (string * string) * response)) :=
  table ← mux sv; Some (securityHeaders (mux_serve table path)).
End Service.
