(* ===== verification/ServiceProps.v ===== *)
(** * What the server as a whole guarantees *)
From S2P Require Import Prelude Crypto GoStrings Filepath Text Json Http Authn Store RelayHub Effects Mcp McpProps Config OrcServer.
From S2P Require Import Mux Service.
From S2P Require ControlPlane ControlPlaneProps.
Local Open Scope Z_scope.

(** ** Authority *)

Notation signed_in := ControlPlaneProps.signed_in.

(** When the server may make a call for a request. *)
Definition warranted (r : Request) (pre : list event) (o : op) : Prop :=
  match o with
  | OGetDevice s _ => signed_in pre s
  | OCall s dev tool args =>
      signed_in pre s /\ knownRemoteTool tool = true /\ args !! "device_id"%string = None /\
      exists d, ev (OGetDevice s dev) (Ok d) ∈ pre /\
        (Forall store_answers pre -> Device_OwnerSubject d = s /\ Device_RevokedAt d = None)
  | ORecord e =>
      exists args x, ev (OCall (AuditEvent_OwnerSubject e) (AuditEvent_DeviceID e) (AuditEvent_ToolName e) args) x ∈ pre
  | o => ControlPlaneProps.justified r pre o
  end.

Lemma guarded_weaken {A} (j j' : list event -> op -> Prop) pre (p : prog A) :
  (forall pre o, j pre o -> j' pre o) -> guarded j pre p -> guarded j' pre p.
Proof. intros H. revert pre. induction p as [a|o k IH]; intros pre; [done|]. intros [Ho Hk]. split; [by apply H|]. intros x. by apply IH. Qed.

Lemma justified_warranted r pre o : ControlPlaneProps.justified r pre o -> warranted r pre o.
Proof. by destruct o. Qed.

Lemma guarded_as_handler {A} j pre (f : A -> response) (h : Request -> prog A) r :
  guarded j pre (h r) -> guarded j pre (as_handler f h r).
Proof. intros H. apply guarded_bind; [done|]. intros. exact I. Qed.

Section mcp.
Context (parse : list byte -> option json).
Context (Marshal : json -> string).
Context (unicode_ToLower : string -> string).
Context (float64 : string -> option string).
Context (error_text : error -> string).
Context (time_json : Z -> json).
Context (url : string).
Notation serveHTTP := (serveHTTP parse Marshal unicode_ToLower float64 error_text time_json url).

Lemma guarded_relay r pre id subject dev name payload modern d :
  signed_in pre subject -> knownRemoteTool name = true -> payload !! "device_id"%string = None -> ev (OGetDevice subject dev) (Ok d) ∈ pre ->
  guarded (warranted r) pre (relay_call parse Marshal float64 error_text id subject dev name payload modern).
Proof.
  intros Hs Hk Ha Hd. split; [exact I|]. intros t. split.
  { split; [by apply ControlPlaneProps.signed_in_app|]. split; [done|]. split; [done|]. exists d.
    split; [apply elem_of_app; by left|]. intros [Hst _]%Forall_app. rewrite Forall_forall in Hst.
    destruct (Hst _ Hd _ _ _ eq_refl) as [m Hm]. by eapply GetDevice_Ok. }
  assert (forall pre2 now x s c, warranted r ((pre2 ++ [ev (OCall subject dev name payload) x]) ++ [ev ONow now])
    (ORecord (mkAuditEvent subject dev name s (now - t) c))) as Hrec.
  { intros pre2 now x s c. exists payload, x. cbn. rewrite !elem_of_app. left. right. apply list_elem_of_here. }
  assert (forall pre2 x s c (rep : Mcp.reply), guarded (warranted r) (pre2 ++ [ev (OCall subject dev name payload) x])
    (Do ONow (fun now => Do (ORecord (mkAuditEvent subject dev name s (now - t) c)) (fun _ => Ret rep)))) as Hg.
  { intros pre2 x s c rep. split; [exact I|]. intros now. split; [apply Hrec|]. done. }
  intros x. cbn in x. destruct x as [res|e]; cbn [prog_mbind prog_bind mbind].
  - destruct (Result_Error res) as [re|].
    + exact (Hg _ _ _ _ _).
    + destruct (output_of _ _ _); [|exact I]. exact (Hg _ _ _ _ _).
  - destruct (call_status e) as [s c]. exact (Hg _ _ _ _ _).
Qed.

Lemma guarded_with_online r pre s ds : signed_in pre s -> guarded (warranted r) pre (with_online time_json s ds).
Proof.
  revert pre. induction ds as [|d ds IH]; intros pre Hs; [exact I|]. split; [exact Hs|]. intros x.
  refine (guarded_bind (warranted r) _ _ _ _ _); [apply IH; by apply ControlPlaneProps.signed_in_app|]. intros. exact I.
Qed.

Lemma guarded_mcp r0 r : guarded (warranted r0) [] (serveHTTP r).
Proof.
  unfold Mcp.serveHTTP. case_decide; [exact I|]. destruct (negb _); [exact I|]. unfold identity.
  destruct (BearerToken r) as [token|]; [|exact I]. split; [exact I|]. intros x. cbn in x.
  destruct x as [id|e]; [|exact I]. unfold Require_. rewrite bool_decide_eq_true_2 by done.
  cbn [andb prog_mbind prog_bind mbind]. destruct (HasScope id toolScope) eqn:Es; [|exact I]. cbn [negb prog_mbind prog_bind].
  assert (signed_in ([] ++ [ev (OVerify token) (Ok id)]) (Identity_Subject id)) as Hs.
  { exists token, id. split; [apply list_elem_of_here|done]. }
  unfold serve_rpc. destruct (maxBody <? _); [exact I|]. destruct (parse (Request_Body r)) as [x|]; [|exact I]. cbn [fmap option_fmap option_map].
  destruct (decode_struct set_rpcRequest x zero_rpcRequest) as [req [|]]; [|exact I].
  destruct (_ || _); [exact I|]. destruct (validateProtocolHeaders float64 r req) as [modern|e]; [|exact I].
  destruct (absent_or_null _); [exact I|]. unfold dispatch. repeat (case_decide; [exact I|]). case_decide; [|exact I].
  unfold callTool. destruct (decode_params _ _ _) as [[name args] ok]. destruct (negb ok || _); [exact I|].
  case_decide.
  - split; [exact Hs|]. intros y. cbn in y. destruct y as [ds|e]; [|exact I].
    refine (guarded_bind (warranted r0) _ _ _ _ _); [apply guarded_with_online; by apply ControlPlaneProps.signed_in_app|].
    intros. exact I.
  - destruct (knownRemoteTool name) eqn:Ek; [|exact I]. cbn [negb]. case_decide; [exact I|].
    split; [exact Hs|]. intros y. cbn in y. destruct y as [d|e]; [|exact I].
    destruct (payload_of _) as [payload|] eqn:Ep; [|exact I].
    eapply guarded_relay; [by apply ControlPlaneProps.signed_in_app|exact Ek| |].
    { eapply payload_of_lookup; [exact Ep|]. apply lookup_delete_eq. }
    apply elem_of_app. right. apply list_elem_of_here.
Qed.
End mcp.

Section server.
Context (parse : list byte -> option json).
Context (Marshal : json -> string).
Context (unicode_ToLower unicode_ToUpper : string -> string).
Context (float64 : string -> option string).
Context (error_text : error -> string).
Context (time_json : Z -> json).
Context (ParseIP : string -> option (list byte)).
Context (first_json : list byte -> option json).
Context (QueryEscape : string -> string).
Context {N : Type} (sv : Service N).

Notation routes := (routes parse Marshal unicode_ToLower unicode_ToUpper float64 error_text time_json ParseIP first_json QueryEscape sv).
Notation mux := (mux parse Marshal unicode_ToLower unicode_ToUpper float64 error_text time_json ParseIP first_json QueryEscape sv).
Notation serve := (serve parse Marshal unicode_ToLower unicode_ToUpper float64 error_text time_json ParseIP first_json QueryEscape sv).

(** ** The table *)

Definition patterns (trusting : bool) : list string :=
  ["GET /healthz"; "GET /readyz"]%string ++
  (if trusting then []
   else ["GET /.well-known/oauth-protected-resource"; "GET /.well-known/oauth-protected-resource/mcp"]%string) ++
  ["/mcp"; "POST /api/v1/pairings"; "POST /api/v1/pairings/approve"; "POST /api/v1/pairings/token"; "GET /api/v1/devices";
   "DELETE /api/v1/devices/{device_id}"; "OPTIONS /api/v1/{rest...}"; "GET /agent/v1/connect"; "GET /pair";
   "POST /pair/approve"]%string.

Lemma routes_patterns : routes.*1 = patterns (MCPTrustLoopback (sv_config sv)).
Proof. unfold Service.routes, registerMetadataRoutes, patterns. by destruct (MCPTrustLoopback (sv_config sv)). Qed.

Lemma mapM_fst {A B C} (f : A -> option B) (l : list (A * C)) ps :
  mapM f l.*1 = Some ps -> exists t, mapM (fun ph => p ← f ph.1; Some (p, ph.2)) l = Some t /\ t.*1 = ps.
Proof.
  revert ps. induction l as [|[a c] l IH]; intros ps H; [injection H as <-; by exists []|].
  change (mapM f ((a, c) :: l).*1) with (b ← f a; bs ← mapM f l.*1; Some (b :: bs)) in H.
  destruct (f a) as [b|] eqn:Ea; [|done]. cbn [mbind option_bind] in H. destruct (mapM f l.*1) as [bs|]; [|done].
  injection H as <-. destruct (IH bs eq_refl) as (t & Ht & <-). exists ((b, c) :: t). split; [|done].
  cbn [mapM fst snd]. rewrite Ea. cbn [mbind option_bind]. by rewrite Ht.
Qed.

(** The routes can be registered: every pattern parses, and no two of them
    take the same request. *)
Lemma mux_registers : exists table, mux = Some table /\ all_apart table.*1 = true /\
  forallb (fun p => multi_last (pat_segments p)) table.*1 = true.
Proof.
  assert (forall b, exists ps, mapM parsePattern (patterns b) = Some ps /\ all_apart ps = true /\
    forallb (fun p => multi_last (pat_segments p)) ps = true) as Hps.
  { intros []; eexists; (split; [vm_compute; reflexivity|by vm_compute]). }
  destruct (Hps (MCPTrustLoopback (sv_config sv))) as (ps & Hp & Ha & Hm). rewrite <- routes_patterns in Hp.
  apply mapM_fst in Hp as (t & Ht & <-). by exists t.
Qed.

Lemma mux_routes table p h : mux = Some table ->
  (p, h) ∈ table <-> exists s, (s, h) ∈ routes /\ parsePattern s = Some p.
Proof.
  unfold Service.mux. generalize routes. intros l H. revert table H. induction l as [|[s k] l IH]; intros table H.
  - injection H as <-. split; [by intros ?%not_elem_of_nil|by intros (? & ?%not_elem_of_nil & _)].
  - cbn [mapM fst snd] in H. destruct (parsePattern s) as [q|] eqn:Es; [|done]. cbn [mbind option_bind] in H.
    destruct (mapM _ l) as [t|] eqn:Et; [|done]. injection H as <-. rewrite elem_of_cons, (IH t eq_refl). split.
    + intros [[= -> ->]|(s' & Hin & Hp)]; [exists s|exists s']; (split; [|done]); [apply list_elem_of_here|by apply list_elem_of_further].
    + intros (s' & [[= -> ->]|Hin]%elem_of_cons & Hp); [left; congruence|right; by exists s'].
Qed.

(** ** Authority *)

Lemma originGuard_guarded j pre allowed next r :
  guarded j pre (next r) -> guarded j pre (originGuard allowed next r).
Proof. intros H. unfold originGuard. by destruct (_ && _). Qed.

Lemma routes_guarded s h r0 r : (s, h) ∈ routes ->
  BearerToken r = BearerToken r0 -> Request_Get r "Origin" = Request_Get r0 "Origin" ->
  guarded (warranted r0) [] (h r).
Proof.
  intros Hin Hb Ho. unfold Service.routes in Hin. rewrite !elem_of_app in Hin. destruct Hin as [Hin|[Hin|[Hin|Hin]]].
  - apply elem_of_cons in Hin as [[= _ ->]|Hin]; [exact I|]. by apply list_elem_of_singleton in Hin as [= _ ->].
  - apply list_elem_of_fmap in Hin as (? & [= _ ->] & _). exact I.
  - apply list_elem_of_singleton in Hin as [= _ ->]. apply guarded_as_handler, originGuard_guarded, guarded_mcp.
  - apply list_elem_of_fmap in Hin as ([q k] & [= _ ->] & Hin). apply guarded_as_handler.
    eapply guarded_weaken; [|by eapply ControlPlaneProps.guarded_Register]. intros pre o Hj. apply justified_warranted.
    revert Hj. destruct o; cbn [ControlPlaneProps.justified]; by rewrite ?Hb, ?Ho.
Qed.

(** C7 The server acts only with authority: whatever the method and the path
    of a request, of the calls that its handling makes a device is asked
    something only for the subject of a verified token with the scope
    orc:tools, for a tool of the table, without the device_id argument, after
    the store has found the device among the subject's own, so that with the
    store of Store.v the device belongs to the subject and was not revoked; an audit event is recorded only for a call that
    was made, to its owner, device and tool; pairings are created, approved and consumed only behind
    the rate limiter; and devices are listed, revoked and connected only as
    the control plane may.  Every other request is answered without a call. *)
Theorem server_acts_with_authority path h r tr rep pre o x post :
  serve path = Some h -> follows (h r) tr rep -> tr = pre ++ ev o x :: post -> warranted r pre o.
Proof.
  intros Hs Hf E. unfold Service.serve in Hs. destruct mux as [table|] eqn:Et; [|done]. injection Hs as <-.
  assert (guarded (warranted r) [] (securityHeaders (mux_serve table path) r)) as Hg.
  { apply guarded_bind; [|intros; exact I]. unfold mux_serve.
    destruct (findHandler _ path table) as [p k vs| | |] eqn:Ef; [|exact I..].
    apply findHandler_sound in Ef as [Hin _]. apply (mux_routes _ _ _ Et) in Hin as (s & Hin & _).
    by eapply routes_guarded. }
  exact (guarded_trace _ [] _ _ _ Hg Hf pre o x post E).
Qed.

(** C11 Every route of the server is served by its handler: the patterns can be
    registered, and a request with a clean path that a pattern takes, with the
    method of the pattern, runs the handler of that pattern and no other, with
    the values of its wildcards, and gets the security headers. *)
Theorem routes_are_served s hd p path r vs :
  (s, hd) ∈ routes -> parsePattern s = Some p -> covers p (Request_Method r) ->
  Request_Method r <> "CONNECT"%string -> IsAbs path = true -> cleanPath path = path ->
  matches (pat_segments p) (path_segments path) = Some vs ->
  exists h, serve path = Some h /\ h r = securityHeaders (fun r => hd (set_PathValue vs r)) r.
Proof.
  intros Hin Hp Hc Hm Ha Hclean Hv. destruct mux_registers as (table & Et & Hap & Hml). unfold Service.serve.
  rewrite Et. cbn [mbind option_bind]. eexists. split; [reflexivity|]. unfold securityHeaders, mux_serve.
  rewrite (findHandler_found table Hap Hml _ path p hd vs); try done. apply (mux_routes _ _ _ Et). by exists s.
Qed.
End server.
