(* ===== verification/ServiceDemo.v ===== *)
(** * Requests to the server, and the witnesses of ServiceProps.v *)
From S2P Require Import Prelude Crypto GoStrings Filepath Text Json Http Authn AuthnProps Store RelayHub Effects Mcp McpProps Config OrcServer.
From S2P Require Import Token Mux Service ServiceProps.
From S2P Require ControlPlane ControlPlaneProps.
Local Open Scope Z_scope.

Definition demo_server : Service unit :=
  mkService (server_of_env dev_getenv (fun s => s)) (inl NewMemory) (VHMAC demo_verifier) None (NewHub 16) "u"
    (ControlPlane.New "http://127.0.0.1:8080" [] (bytes_of_string dev_secret)).

Notation demo_routes :=
  (routes demo_parse (fun _ => EmptyString) (fun s => s) (fun s => s) Some (fun _ => EmptyString) (fun _ => JNull)
    demo_ParseIP demo_parse (fun s => s) demo_server).
Notation demo_serve :=
  (serve demo_parse (fun _ => EmptyString) (fun s => s) (fun s => s) Some (fun _ => EmptyString) (fun _ => JNull)
    demo_ParseIP demo_parse (fun s => s) demo_server).

Definition demo_revoke : Request :=
  mkRequest "DELETE" {[ "Authorization" := ["Bearer t"] ]}%string "127.0.0.1:9" ∅ (Ok ∅) ∅ [].

(** The device to revoke is taken from the path. *)
Lemma routes_are_served_witness :
  exists h, demo_serve "/api/v1/devices/dev%5f1" = Some h /\
    h demo_revoke = securityHeaders (fun r =>
      as_handler FromControlPlane (ControlPlane.api_revoke (sv_controlplane demo_server))
        (set_PathValue [("device_id", "dev_1")]%string r)) demo_revoke.
Proof.
  apply (routes_are_served demo_parse (fun _ => EmptyString) (fun s => s) (fun s => s) Some (fun _ => EmptyString)
    (fun _ => JNull) demo_ParseIP demo_parse (fun s => s) demo_server "DELETE /api/v1/devices/{device_id}" _
    (mkPattern "DELETE" [Lit "api"; Lit "v1"; Lit "devices"; Wild "device_id"])%string "/api/v1/devices/dev%5f1" demo_revoke).
  - apply (list_elem_of_lookup_2 _ 9). reflexivity.
  - vm_compute. reflexivity.
  - right. left. reflexivity.
  - discriminate.
  - reflexivity.
  - vm_compute. reflexivity.
  - vm_compute. reflexivity.
Defined.

(** A tool call to [/mcp]. *)
Definition demo_handler : Request -> prog (list (string * string) * response) :=
  default (fun _ => Ret ([], PageNotFound)) (demo_serve "/mcp").
Definition demo_run := run_prog demo_handle (demo_handler demo_request) 0.
Definition served_trace : list event := demo_run.1.1.

Lemma served_follows : follows (demo_handler demo_request) served_trace demo_run.1.2.
Proof.
  apply (run_prog_follows demo_handle _ 0 _ _ demo_run.2).
  unfold served_trace, demo_run. by destruct (run_prog _ _ _) as [[tr a] w].
Qed.

Lemma server_acts_with_authority_witness :
  warranted demo_request (take 3 served_trace) (OCall "alice" "dev_1" "ping" {["n"%string := JNumber "1"]}).
Proof.
  apply (server_acts_with_authority demo_parse (fun _ => EmptyString) (fun s => s) (fun s => s) Some (fun _ => EmptyString)
    (fun _ => JNull) demo_ParseIP demo_parse (fun s => s) demo_server "/mcp" demo_handler demo_request served_trace
    demo_run.1.2 _ (OCall "alice" "dev_1" "ping" {["n"%string := JNumber "1"]}) (Ok (mkResult [] None)) (drop 4 served_trace)).
  - unfold demo_handler. destruct (demo_serve "/mcp") as [h|] eqn:E; [reflexivity|].
    exfalso. destruct (mux_registers demo_parse (fun _ => EmptyString) (fun s => s) (fun s => s) Some (fun _ => EmptyString)
      (fun _ => JNull) demo_ParseIP demo_parse (fun s => s) demo_server) as (t & Ht & _).
    unfold serve in E. rewrite Ht in E. discriminate E.
  - exact served_follows.
  - vm_compute. reflexivity.
Defined.

(** Paths and methods that no route takes. *)
Example unknown_paths :
  let status path r := match demo_serve path with Some h => match h r with Ret (_, x) => Some x | _ => None end | None => None end in
  status "/healthz" demo_revoke = Some (MethodNotAllowed {["GET"; "HEAD"]}%string) /\
  status "/api//v1/devices/" demo_revoke = Some (Redirected "/api/v1/devices/") /\
  status "/metrics" demo_revoke = Some PageNotFound.
Proof. vm_compute. split_and!; reflexivity. Qed.
