(* ===== verification/Wire.v ===== *)
(** * What is sent over the wire: encoding/json's printer, and its sizes

    [json.Marshal] of values and of frames as bytes, for strings that are valid
    UTF-8 (package json prints other bytes as the six characters of an escape);
    and whether the answers of read_file fit into a message.
    internal/protocol/frame.go, cmd/orc-agent/main.go. *)
From S2P Require Import Prelude Crypto GoStrings Text Base64 Json Protocol Ws Struct.
From S2P Require Import Filepath FileSystem PathPolicy FileOps Executor FileProps ExecutorProps ToolClaims Tools ToolJson.
Local Open Scope Z_scope.

(** ** Strings *)

Definition hex_digit (z : Z) : byte := z2b (if z <? 10 then 48 + z else 87 + z).

(** One byte of a string, as [appendString] prints it for HTML. *)
Definition escape_byte (b : byte) : list byte :=
  let z := b2z b in
  if (z =? 34) || (z =? 92) then [z2b 92; b]
  else if z =? 8 then bytes_of_string "\b"
  else if z =? 12 then bytes_of_string "\f"
  else if z =? 10 then bytes_of_string "\n"
  else if z =? 13 then bytes_of_string "\r"
  else if z =? 9 then bytes_of_string "\t"
  else if (z <? 32) || (z =? 60) || (z =? 62) || (z =? 38) then
    bytes_of_string "\u00" ++ [hex_digit (z / 16); hex_digit (z mod 16)]
  else [b].

(** U+2028 and U+2029 are escaped too. *)
Fixpoint escape (l : list byte) : list byte :=
  match l with
  | [] => []
  | b :: l' =>
      match l' with
      | c :: d :: l'' =>
          if (b2z b =? 226) && (b2z c =? 128) && ((b2z d =? 168) || (b2z d =? 169))
          then bytes_of_string "\u202" ++ [hex_digit (b2z d - 160)] ++ escape l''
          else escape_byte b ++ escape l'
      | _ => escape_byte b ++ escape l'
      end
  end.
Definition quote : byte := z2b 34.
Definition print_string (s : string) : list byte := quote :: escape (bytes_of_string s) ++ [quote].

(** ** Values *)

Definition comma : byte := z2b 44.
Definition colon : byte := z2b 58.
Fixpoint separated (l : list (list byte)) : list byte :=
  match l with [] => [] | [x] => x | x :: l' => x ++ comma :: separated l' end.

Fixpoint print (v : json) : list byte :=
  match v with
  | JNull => bytes_of_string "null"
  | JBool b => bytes_of_string (if b then "true" else "false")
  | JNumber n => bytes_of_string n
  | JString s => print_string s
  | JArray l => z2b 91 :: separated (List.map print l) ++ [z2b 93]
  | JObject l => z2b 123 :: separated (List.map (fun kv => print_string kv.1 ++ colon :: print kv.2) l) ++ [z2b 125]
  end.

(** ** Frames *)

(** A [json.RawMessage] is copied. *)
Definition field (name : string) (v : list byte) : list byte := print_string name ++ colon :: v.
Definition unless (empty : bool) (v : list byte) : list (list byte) := if empty then [] else [v].

(** [json.Marshal(f)] *)
Definition print_frame (f : Frame) : list byte :=
  z2b 123 :: separated (
    [field "type" (print_string (Frame_Type f))] ++
    unless (bool_decide (Frame_ID f = EmptyString)) (field "id" (print_string (Frame_ID f))) ++
    unless (bool_decide (Frame_Tool f = EmptyString)) (field "tool" (print_string (Frame_Tool f))) ++
    unless (bool_decide (Frame_Args f = [])) (field "args" (Frame_Args f)) ++
    unless (negb (Frame_OK f)) (field "ok" (bytes_of_string "true")) ++
    unless (bool_decide (Frame_Result f = [])) (field "result" (Frame_Result f)) ++
    match Frame_Error f with
    | Some e => [field "error" (print (JObject [("code", JString (RemoteError_Code e)); ("message", JString (RemoteError_Message e))]%string))]
    | None => []
    end) ++ [z2b 125].

Example printed_frame :
  print_frame (mkFrame TypeCall "c1" "ping" (bytes_of_string "{}") false [] None) =
    [z2b 123] ++ print_string "type" ++ [colon] ++ print_string "call" ++ [comma] ++ print_string "id" ++ [colon] ++
    print_string "c1" ++ [comma] ++ print_string "tool" ++ [colon] ++ print_string "ping" ++ [comma] ++
    print_string "args" ++ bytes_of_string ":{}}".
Proof. vm_compute. reflexivity. Qed.

(** ** Sizes *)

Lemma length_escape_byte b : (1 <= length (escape_byte b) <= 6)%nat.
Proof. unfold escape_byte. repeat (case_match; [cbn; lia|]). cbn; lia. Qed.

Lemma escape_cons b c d l :
  escape (b :: c :: d :: l) =
    if (b2z b =? 226) && (b2z c =? 128) && ((b2z d =? 168) || (b2z d =? 169))
    then bytes_of_string "\u202" ++ [hex_digit (b2z d - 160)] ++ escape l
    else escape_byte b ++ escape (c :: d :: l).
Proof. reflexivity. Qed.

Lemma length_escape l : (length l <= length (escape l) <= 6 * length l)%nat.
Proof.
  remember (length l) as n eqn:E. assert (length l <= n)%nat as H by lia. revert E. 
  enough (length l <= length (escape l) <= 6 * length l)%nat by lia. clear -H. revert l H.
  induction n as [|n IH]; intros l H; [destruct l; cbn in *; lia|].
  destruct l as [|b l]; [cbn; lia|]. cbn [length] in H. pose proof (length_escape_byte b).
  assert (forall l', (length l' <= n)%nat -> (length l' <= length (escape l') <= 6 * length l')%nat) as IH' by exact IH.
  destruct l as [|c [|d l]].
  - cbn [escape]. rewrite length_app. cbn [length]. lia.
  - pose proof (length_escape_byte c). cbn [escape]. rewrite !length_app. cbn [length]. lia.
  - rewrite escape_cons. cbn [length] in H. destruct (_ && _ && _).
    + pose proof (IH' l ltac:(lia)). rewrite !length_app. change (length (bytes_of_string "\u202")) with 5%nat.
      cbn [length]. lia.
    + pose proof (IH' (c :: d :: l) ltac:(cbn [length]; lia)). rewrite length_app. cbn [length] in *. lia.
Qed.

(** Bytes that are printed as they are. *)
Definition plain (b : byte) : bool := bool_decide (escape_byte b = [b]) && (b2z b <? 128).

Lemma escape_plain l : Forall (fun b => plain b = true) l -> escape l = l.
Proof.
  induction 1 as [|b l Hb Hl IH]; [done|]. unfold plain in Hb. bool_props.
  assert (escape_byte b ++ escape l = b :: l) as E by (rewrite H; cbn [app]; by rewrite IH).
  destruct l as [|c [|d l]]; [exact E|exact E|]. rewrite escape_cons.
  replace (b2z b =? 226) with false by (symmetry; apply Z.eqb_neq; lia). exact E.
Qed.

(** The worst case is attained. *)
Lemma escape_less_than n : length (escape (replicate n (z2b 60))) = (6 * n)%nat.
Proof.
  induction n as [|n IH]; [done|]. destruct n as [|[|n]]; [done..|]. cbn [replicate] in *.
  rewrite escape_cons. replace (b2z (z2b 60) =? 226) with false by reflexivity. cbn [andb].
  rewrite length_app, IH. change (length (escape_byte (z2b 60))) with 6%nat. lia.
Qed.

Lemma length_print_string s : (length (print_string s) = 2 + length (escape (bytes_of_string s)))%nat.
Proof. unfold print_string. cbn [length]. rewrite length_app. cbn [length]. lia. Qed.

Lemma length_format_digits fuel z : (length (format_digits fuel z) <= fuel)%nat.
Proof.
  revert z. induction fuel as [|fuel IH]; intros z; [done|]. cbn [format_digits]. rewrite length_app.
  destruct (z <? 10); [cbn; lia|]. pose proof (IH (z / 10)). cbn [length]. lia.
Qed.
Lemma length_FormatInt z : (length (bytes_of_string (FormatInt z)) <= 20)%nat.
Proof.
  unfold FormatInt. rewrite String.list_byte_of_string_of_list_byte.
  destruct (z <? 0); [pose proof (length_format_digits 19 (- z)); cbn [length]; lia|pose proof (length_format_digits 19 z); lia].
Qed.

(** ** Answers of read_file *)

(** The frame of [handleCall] for the value of a tool. *)
Definition answer_frame (id : string) (j : json) : Frame :=
  mkFrame TypeResult id EmptyString [] true (print j) None.

Lemma file_json_sorted r : text_ok (fr_path r) -> text_ok (fr_content r) -> fr_encoding r ∈ ["utf-8"; "base64"]%string ->
  file_json r = JObject [("content", JString (fr_content r)); ("encoding", JString (fr_encoding r));
    ("next_offset", JNumber (FormatInt (fr_next_offset r))); ("offset", JNumber (FormatInt (fr_offset r)));
    ("path", JString (fr_path r)); ("truncated", JBool (fr_truncated r))]%string.
Proof.
  intros Hp Hc He. assert (text_ok (fr_encoding r)) as Ht.
  { repeat (apply elem_of_cons in He as [->|He]; [reflexivity|]). by apply not_elem_of_nil in He. }
  unfold file_json, json_string, int_json. rewrite !json_text_id by assumption. reflexivity.
Qed.

(** What a read answers besides the text: the window is encoded, and not longer
    than the limit. *)
Lemma readFile_encoded paths raw w r w' :
  readFile paths raw w = (Ok r, w') ->
  exists b, len b <= maxReadBytes /\ (fr_encoding r, fr_content r) = encode_content b.
Proof.
  intros H. unfold readFile in H. pose proof (still_refl w) as S.
  look_ok H a w1 Hr. look_ok H path w2 Hr2. look_ok H st w3 Hst.
  destruct (is_dir st); [done|]. destruct (rf_Offset a <? 0); [done|]. look_ok H data w4 Hr3.
  destruct (read_window _ _ _) as [b tr] eqn:E. destruct (encode_content b) as [enc txt] eqn:E2.
  injection H as <- <-. exists b. split; [|done]. pose proof (read_limit_range (rf_MaxBytes a)) as Hl.
  unfold read_window in E. destruct (_ <? _) eqn:Eb; injection E as <- <-; bool_props; rewrite ?length_take in *; lia.
Qed.

(** Base64 needs no escapes. *)
Lemma plain_digit v : 0 <= v < 64 -> plain (digit StdEncoding v) = true.
Proof. intros Hv. exact (forall_range 64 (fun v => plain (digit StdEncoding v)) ltac:(vm_compute; reflexivity) v Hv). Qed.

Lemma plain_encode l : Forall (fun b => plain b = true) (encode StdEncoding l).
Proof.
  assert (plain pad = true) as Hpad by (vm_compute; reflexivity).
  induction l as [|a|a b|a b c l IH] using list_ind3; cbn [encode padding replicate app]; [done|..];
    try sextets a; try sextets b; try sextets c;
    repeat apply Forall_cons_2; try apply Forall_nil_2; try exact Hpad; try exact IH; apply plain_digit; lia.
Qed.

Lemma length_std_encode l : length (encode StdEncoding l) = (4 * ((length l + 2) / 3))%nat.
Proof.
  induction l as [|a|a b|a b c l IH] using list_ind3; [done..|]. cbn [encode length]. rewrite IH.
  replace (S (S (S (length l))) + 2)%nat with (1 * 3 + (length l + 2))%nat by lia. rewrite Nat.div_add_l by lia. lia.
Qed.

Lemma utf8_Valid_ascii l : Forall (fun b => b2z b < 128) l -> utf8_Valid l = true.
Proof.
  induction 1 as [|b l Hb Hl IH]; [done|]. cbn [utf8_Valid]. unfold in_range at 1. pose proof (b2z_range b).
  rewrite (proj2 (Z.leb_le 0 _)), (proj2 (Z.leb_le _ 127)) by lia. exact IH.
Qed.

(** Escaped length. *)
Definition esc (s : string) : Z := len (escape (bytes_of_string s)).

(** The names of the fields. *)
Lemma esc_names :
  (length (escape (bytes_of_string TypeResult)) = 6 /\
   length (escape (bytes_of_string "type")) = 4 /\
   length (escape (bytes_of_string "id")) = 2 /\
   length (escape (bytes_of_string "ok")) = 2 /\
   length (escape (bytes_of_string "result")) = 6 /\
   length (escape (bytes_of_string "content")) = 7 /\
   length (escape (bytes_of_string "encoding")) = 8 /\
   length (escape (bytes_of_string "next_offset")) = 11 /\
   length (escape (bytes_of_string "offset")) = 6 /\
   length (escape (bytes_of_string "path")) = 4 /\
   length (escape (bytes_of_string "truncated")) = 9)%nat.
Proof. vm_compute. by split_and!. Qed.

(** How large the frame of a read is. *)
Lemma read_frame_size paths raw w r w' id :
  readFile paths raw w = (Ok r, w') -> text_ok (fr_path r) ->
  esc id + esc (fr_path r) + esc (fr_content r) <= len (print_frame (answer_frame id (file_json r))) <=
    256 + esc id + esc (fr_path r) + esc (fr_content r) /\
  (fr_encoding r = "base64"%string -> esc (fr_content r) <= 4 * ((maxReadBytes + 2) / 3)).
Proof.
  intros H Hp. destruct (readFile_encoded _ _ _ _ _ H) as (b & Hb & Eb). unfold encode_content in Eb.
  assert (text_ok (fr_content r) /\ fr_encoding r ∈ ["utf-8"; "base64"]%string /\
    (fr_encoding r = "base64"%string -> esc (fr_content r) <= 4 * ((maxReadBytes + 2) / 3))) as (Hc & He & H64).
  { destruct (utf8_Valid b) eqn:Ev; injection Eb as -> ->.
    - split; [|by split; [set_solver|]]. unfold text_ok. by rewrite bytes_of_string_of_bytes.
    - split; [|split; [set_solver|intros _]].
      + unfold text_ok, EncodeToString, Encoding_EncodeToString. rewrite bytes_of_string_of_bytes. apply utf8_Valid_ascii.
        eapply Forall_impl; [apply plain_encode|]. cbv beta. intros x Hx. unfold plain in Hx. by bool_props.
      + unfold esc, EncodeToString, Encoding_EncodeToString. rewrite bytes_of_string_of_bytes, escape_plain by apply plain_encode.
        rewrite length_std_encode. rewrite Nat2Z.inj_mul, Nat2Z.inj_div, Nat2Z.inj_add.
        apply Z.mul_le_mono_nonneg_l; [lia|]. apply Z.div_le_mono; lia. }
  split; [|exact H64]. rewrite file_json_sorted by done.
  unfold print_frame, answer_frame. cbn [Frame_Type Frame_ID Frame_Tool Frame_Args Frame_OK Frame_Result Frame_Error].
  rewrite (bool_decide_eq_false_2 (print _ = [])) by discriminate. cbn [print List.map fst snd].
  pose proof (length_FormatInt (fr_offset r)). pose proof (length_FormatInt (fr_next_offset r)).
  assert (esc (fr_encoding r) <= 6) as He6.
  { repeat (apply elem_of_cons in He as [->|He]; [vm_compute; discriminate|]). by apply not_elem_of_nil in He. }
  assert (length (bytes_of_string (if fr_truncated r then "true" else "false")) <= 5)%nat as Ht by (destruct (fr_truncated r); cbn; lia).
  assert (bool_decide (id = EmptyString) = true -> esc id = 0) as Hid by (intros ->%bool_decide_eq_true_1; reflexivity).
  destruct esc_names as (N1 & N2 & N3 & N4 & N5 & N6 & N7 & N8 & N9 & N10 & N11).
  unfold field, unless, esc in *.
  change (bool_decide (EmptyString = EmptyString)) with true. change (bool_decide ([] = ([] : list byte))) with true.
  destruct (bool_decide (id = EmptyString)); cbn [negb app separated];
    repeat first [progress cbn [length]|rewrite length_app|rewrite length_print_string].
  all: rewrite ?N1, ?N2, ?N3, ?N4, ?N5, ?N6, ?N7, ?N8, ?N9, ?N10, ?N11.
  all: change (length (bytes_of_string "true")) with 4%nat; try specialize (Hid eq_refl); lia.
Qed.

(** C28 An answer of read_file fits into a message when the file is not text, or
    when its text needs no more than 15 MiB with the escapes of JSON; if the
    escapes make the text longer than a message, [handleCall]'s write is
    refused before anything is sent, and the call is never answered.  A file of
    4 MiB, which read_file accepts, can need 24 MiB. *)
Theorem read_answers_fit_unless_escaped paths raw w r w' id c :
  readFile paths raw w = (Ok r, w') -> text_ok (fr_path r) -> esc id + esc (fr_path r) <= 2 ^ 16 -> c_max c = MaxFrameBytes ->
  let out := print_frame (answer_frame id (file_json r)) in
  (fr_encoding r = "base64"%string \/ esc (fr_content r) <= 15 * 2 ^ 20 -> WriteMessage out c = writeFrame 1 out c) /\
  (MaxFrameBytes < esc (fr_content r) ->
     WriteMessage out c = (Err (Prelude.New "websocket message exceeds configured maximum"), c)).
Proof.
  intros H Hp Hid Hc out. destruct (read_frame_size _ _ _ _ _ id H Hp) as [[H1 H2] H64]. fold out in H1, H2.
  assert (MaxFrameBytes = 16777216) as Hm by reflexivity. assert (4 * ((maxReadBytes + 2) / 3) = 5592408) as Hr by reflexivity.
  change (2 ^ 16) with 65536 in Hid. change (15 * 2 ^ 20) with 15728640.
  assert (0 <= esc id /\ 0 <= esc (fr_path r)) as [? ?] by (unfold esc; lia).
  assert (WriteMessage out c = if MaxFrameBytes <? len out then (Err (Prelude.New "websocket message exceeds configured maximum"), c)
    else writeFrame 1 out c) as ->.
  { change (WriteMessage out c) with ((if c_max c <? len out
      then Ws.fail (Prelude.New "websocket message exceeds configured maximum") else writeFrame 1 out) c).
    rewrite Hc. by destruct (_ <? _). }
  split.
  - intros Hs. rewrite (proj2 (Z.ltb_ge _ _)); [done|]. destruct Hs as [Hs%H64|Hs]; lia.
  - intros Hs. rewrite (proj2 (Z.ltb_lt _ _)); [done|]. lia.
Qed.

(** *** A file of 4 MiB that read_file reads, and whose answer is refused *)

Definition file_os (content : list byte) : Os :=
  mkOs (Ok "/srv/data"%string) (<[["srv"; "data"; "f"]%string := NFile content 420]> demo_fs).

Lemma angle_bracket_plain n : utf8_Valid (replicate n (z2b 60)) = true.
Proof. apply utf8_Valid_ascii, Forall_replicate. reflexivity. Qed.

Lemma read_whole content :
  utf8_Valid content = true -> len content <= maxReadBytes ->
  let w := mkWorld (file_os content) [] [] in
  exists r, readFile demo_policy (Ok (mkReadFileArgs "f" 0 0)) w = (Ok r, w) /\
    fr_content r = string_of_bytes content /\ fr_path r = "/srv/data/f"%string.
Proof.
  intros Hv Hl w. assert (ResolveExisting (w_os w) demo_policy "f" = Ok (render true f_path)) as Hres.
  { generalize content. intros l. vm_compute. reflexivity. }
  assert (Forall name f_path) as Hn by (apply names_of; vm_compute; reflexivity).
  assert (canonical (fs_of w) f_path) as Hc.
  { split; [|by eexists]. apply present_real_parents; [|by eexists]. apply fs_okb_ok. generalize content. intros l. vm_compute. reflexivity. }
  destruct (readFile_works demo_policy (mkReadFileArgs "f" 0 0) w f_path content 420) as [r Hr]; try done.
  exists r. split; [exact Hr|]. destruct (readFile_encoded _ _ _ _ _ Hr) as (b & _ & Eb).
  assert (roots_clean demo_policy /\ os_ok (w_os w)) as [Hroots Hos].
  { split; [apply (New_roots_clean _ _ _ (proj1 demo_os_ok) demo_New)|]. split; [|by intros wd [= <-]; vm_compute].
    apply fs_okb_ok. generalize content. intros l. vm_compute. reflexivity. }
  apply (readFile_run _ _ _ _ _ Hroots Hos) in Hr as (cs & content' & perm & Hcs & Hp & _ & Hncs & _ & Hat & _ & Hd & _).
  cbn [rf_Path rf_Offset rf_MaxBytes] in *. rewrite Hres in Hcs. apply (f_equal (fun x => match x with Ok p => p | Err _ => EmptyString end)) in Hcs.
  apply render_inj in Hcs as <-; [|done|done]. split; [|rewrite Hp; reflexivity].
  assert (content' = content) as -> by (symmetry; by injection Hat).
  pose proof (encode_decode b) as Hb. rewrite <- Eb in Hb. cbn [fst snd] in Hb. rewrite Hb in Hd. injection Hd as ->.
  pose proof (read_window_spec content 0 (read_limit 0)) as Hw. destruct (read_window _ _ _) as [x tr]. cbn [fst] in Eb.
  destruct Hw as [-> _]; [done|vm_compute; discriminate|]. change (read_limit 0) with maxReadBytes in Eb.
  rewrite drop_0, take_ge in Eb by lia. unfold encode_content in Eb. rewrite Hv in Eb. by injection Eb.
Qed.

(** 4 MiB of the character <. *)
Definition angle_world : World := mkWorld (file_os (replicate (Z.to_nat maxReadBytes) (z2b 60))) [] [].
Definition demo_conn : Conn := mkConn [] [] Client MaxFrameBytes [] false.

Lemma read_answers_fit_unless_escaped_witness :
  exists r, readFile demo_policy (Ok (mkReadFileArgs "f" 0 0)) angle_world = (Ok r, angle_world) /\
    WriteMessage (print_frame (answer_frame "c1" (file_json r))) demo_conn =
      (Err (Prelude.New "websocket message exceeds configured maximum"), demo_conn).
Proof.
  destruct (read_whole (replicate (Z.to_nat maxReadBytes) (z2b 60))) as (r & Hr & Ht & Hp).
  - apply angle_bracket_plain.
  - rewrite length_replicate, Z2Nat.id by done. apply Z.le_refl.
  - exists r. split; [exact Hr|].
    apply (read_answers_fit_unless_escaped demo_policy (Ok (mkReadFileArgs "f" 0 0)) angle_world r angle_world "c1" demo_conn);
      [exact Hr|rewrite Hp; reflexivity|rewrite Hp; vm_compute; discriminate|reflexivity|].
    unfold esc. rewrite Ht, bytes_of_string_of_bytes, escape_less_than, Nat2Z.inj_mul, Z2Nat.id by done.
    vm_compute. reflexivity.
Defined.
